(* ===== verification/_CoqProject ===== *)
-Q . S2P
Prelude.v
Core.v
CString.v
Bytes.v
LinkedList.v
Keeps.v
Scheduler.v
Ipc.v
Pages.v
Space.v
NovaKit.v
LinuxKpi.v
CType.v
CMemory.v
Simulation.v
CObject.v
CHeap.v
Headers.v
Prototypes.v
SchedMemory.v
IpcMemory.v
SpaceMemory.v
NovaKitMemory.v
ByteOrder.v
NetState.v
NetDev.v
Sockets.v
Send.v
Drivers.v
Packets.v
Network.v
NetTyped.v
NetMemory.v
NetBytes.v
NetSim.v
SpinLock.v
IoRegistry.v
IoRequest.v
IoSystem.v
Concurrent.v
Fair.v
IoConcurrent.v
UiBoot.v
BootEntry.v
BootShell.v
BootSession.v
StringHelpers.v
ModuleShim.v
HostTests.v
Fixtures.v
Calls.v
