(* ===== verification/Prelude.v ===== *)
(** * A verification library for NovaOS

    NovaOS (src/nova-os/) is a hybrid-kernel prototype.  Its C code has no
    program of its own that runs all parts together: it is a set of components
    with fixed-size tables or intrusive lists, each driven through a C API, and
    one bootable program, the serial shell of boot/kernel.c.  This library
    models every C function with a body in the repository, every type and every
    prototype its headers declare, and the assembly that starts the kernel, and
    proves that each component does what it promises.

    ** How C is modelled

    A function that works on a state [S] is an [M S A], that is
    [S -> outcome (A * S)].  [Undef] is undefined behaviour: an index outside
    an array, a null or dangling pointer, a double free, a string without a
    terminator.  [NoFuel] is a loop that was cut.  A theorem that a call is
    [Done] therefore says that it returns and touches no memory it may not.
    Unsigned integers are [Z] with an explicit [u8 .. u64] at each operation
    that can wrap; conversions to signed types are [i32], [i64].  Bytes are
    numbers from 0 to 255, a memory block is a list of bytes, a C array a list
    whose length is part of the typing invariant; reads go through [!!] and
    [the], writes through [arr_set], and both fail out of range.  The tables of
    kernel/core and kernel/novakit and the whole of kernel/network are modelled
    twice: as records, and as the bytes of the C objects, where [a->b[i].c] is a
    load or a store at an offset that the layout of the header gives, and where
    the pointers of the network stack are 64-bit addresses that are loaded,
    compared, followed and called; the second is proved to simulate the first.
    (The flags of the page allocator are their bytes.)  Linked lists keep their pointers: nodes live in a heap [gmap loc node], an address is
    never reused, [chain] (LinkedList.v) says that following the next fields
    from a pointer visits exactly a given list of nodes.  size_t, pointers and
    long have 64 bits, except in boot/kernel.c, which is compiled for 32.

    ** The files and the code they model

    - Prelude.v: the monad with the tactics [run] and [bind], counted loops with
      their rules, machine integers, memory blocks, and the class [Refines] with
      [trace_refines]: an implementation whose single calls agree with a
      specification agrees with it on every sequence of calls.
    - CString.v: the functions of string.h that the sources use.
    - Bytes.v: words as lists of bytes, least significant first; parts of a block.
    - LinkedList.v: walks over intrusive lists and the lemmas about [chain].
    - Core.v, Scheduler.v (Module Sched: kernel/core/scheduler.c), Ipc.v
      (Module Ipc: kernel/core/ipc.c), Pages.v and Space.v (Modules Pages and
      Space: the two halves of kernel/core/vm.c), constants and results from
      kernel/core/include/nova_core.h.
    - Keeps.v: the rules for calls that keep an invariant and answer a result
      with a property, and the tactic [keep] that applies them.
    - NovaKit.v (Module NovaKit: kernel/novakit/registry.c and novakit.h) and
      LinuxKpi.v (Module LinuxKpi: drivers/linuxkpi/src/linuxkpi.c).
    - CType.v: C data types with their layout and their values; Headers.v: every
      enumeration, structure and union of the headers under src/nova-os as such
      a type; Prototypes.v: every function they declare, with the types of its
      parameters and its result.
    - CMemory.v: how a value of a C type lies in memory ([reads]), and lvalues as
      paths into an object; Simulation.v: what it means that a program on memory
      simulates one on records, and the rules; CObject.v: load, store and memcpy
      on the bytes of one object; CHeap.v: a memory of blocks at addresses, with
      calloc and free, and which state it holds.  SchedMemory.v, IpcMemory.v,
      SpaceMemory.v and NovaKitMemory.v: the functions of Scheduler.v, Ipc.v,
      Space.v and NovaKit.v once more, statement by statement on bytes.
    - ByteOrder.v (the byte order functions of kernel/network), NetState.v (the
      state of kernel/network and the packet buffers), NetDev.v (Module NetDev:
      the device registry, initialisation, shutdown and transmission), Sockets.v
      (Module Sockets: the socket API), Send.v (Module Send: nova_send against
      the driver interface), Drivers.v (Module Drivers: loopback.c and
      nic_stub.c), Packets.v (Module Packets: the life of a packet buffer),
      Network.v (Module Network: all calls together), NetTyped.v
      (Module NetTyped: the objects of the stack as values of their C types),
      NetMemory.v (Module NetMemory: its objects as blocks of a memory),
      NetBytes.v (Module NetBytes: network_stack.c, loopback.c and nic_stub.c
      once more, statement by statement on that memory) and NetSim.v (Module
      NetSim: the simulation, function by function).
    - SpinLock.v (the lock of kernel/io/io_stack.c under interleaving), IoRegistry.v
      (its device registry), IoRequest.v (requests, block transfers, completion
      ports), IoSystem.v (Module IoSystem: all calls together).
    - Concurrent.v: threads whose calls work under a lock, as programs over
      single accesses of shared memory, and the machine that interleaves them;
      Fair.v: this machine under a fair scheduler; IoConcurrent.v (Module
      IoConcurrent: the registry calls of io_stack.c cut into such accesses).
    - UiBoot.v (Module UiBoot: userland/uimode/desktop/ui_boot_path.c).
    - BootEntry.v (Module BootEntry: boot/boot.asm, and of boot/linker.ld that the
      header comes first); BootShell.v (Module BootShell: boot/kernel.c)
      and BootSession.v (what the whole boot kernel does, and a serial port to run
      it on).
    - StringHelpers.v: the string functions the boot kernel and the desktop path
      write by hand, against those of CString.v.
    - ModuleShim.v (Module ModuleShim: kernel/modules/nova_core/nova_core.c).
    - HostTests.v: the host tests of the repository and the LinuxKPI example,
      run on the models.  Fixtures.v: the two hello-world programs and the Rust
      sketch of a virtio-net driver.
    - Calls.v: the operations of each component behind their prototypes: which
      function an operation calls, with what, and what comes back.

    In each of them the state is a record with the fields of the C structure or
    the static variables of the C file, and a function keeps its C name.  Where
    a loop body or a branch has a definition of its own, it is the one named in
    the comment above it.

    ** Interfaces

    - [NetDrivers] (NetDev.v): the table of function pointers of a network
      device.  [NetDriversOk] states what the stack needs of a driver: it
      returns, changes only flags and statistics of devices, and frees the
      packet or leaves it in place, the latter whenever it fails;
      [NetDriversTyped] (NetTyped.v) that it keeps the C types.  The registry, the
      sockets and nova_send are verified against the interface; Drivers.v proves
      it for loopback and the stub NIC, so Network.v gets the whole stack.
    - [Locked] and [LockedOk] (Concurrent.v): a component whose calls take a
      lock, as tests before the lock and a program of single accesses under it;
      one call at a time it refines a specification, and no access under the
      lock touches the lock or what the tests read.  Concurrent.v proves
      atomicity and Fair.v termination under a fair scheduler for every such
      component, IoConcurrent.v that the I/O registry is one.
    - [Table] and [TableOk] (CObject.v): an object that begins with an array of
      structures; the rules for loads and stores in a slot are proved from the
      interface, and each of the four tables is an instance.
    - [Objects] and [ObjectsOk] (CHeap.v): the objects of a state, with their
      places, types and values; the rules for loads, stores, calloc and free are
      proved from the interface.  [NetSpace] (NetMemory.v): the addresses that
      the linker and the allocator choose, any that differ and are not NULL.
    - [interface] and [calls_typed] (Calls.v): what a component promises to a
      caller that knows its prototypes only.
    - [ModuleHost] (ModuleShim.v): the constants and uprintf of the FreeBSD
      kernel.
    - [BlockOps] (IoRequest.v): the operations of a block driver, as arbitrary
      functions; [BlockOpsOk]: submit_io returns and keeps the request allocated;
      [BlockOpsSafe] (IoSystem.v): it also answers an int, keeps the C types and
      leaves alone what the registry reads of a device.
    - [Uart] and [UartSpec] (BootShell.v): the port instructions, which are
      inline assembly, and the documented behaviour of a serial port (what is
      written while the port is online is sent, reading takes the next byte that
      arrived, the transmitter becomes ready after a bounded number of status
      reads).  [PromptUart] (BootSession.v) adds that a waiting byte is reported.
      BootSession.v gives a model of a 16550 that satisfies all three.

    ** What is proved

    - Safety: every sequence of calls completes and keeps the invariant
      (nova_net_safe, nova_io_safe, nova_sched_on_bytes, nova_ui_session_consistent,
      nova_kmain_transcript); boot.asm reaches kmain with the loader's registers
      as its arguments and never leaves its stack or its final loop
      (boot_entry_correct); the registry lock excludes (lock_registry_excludes).
    - Types: the network stack keeps every object a value of its C type, progress
      and preservation (nova_net_typed), as the I/O stack does (nova_io_safe); the
      lemmas of Calls.v relate the operations of each component to the types of
      the prototypes, and those at the end of Headers.v say that the types are
      laid out soundly.
    - Memory: on bytes of any content the initialisations make the empty object,
      and every sequence of calls stays inside it and answers as the records and
      the specification do (nova_sched_on_bytes, nova_ipc_on_bytes,
      nova_vm_space_on_bytes, novakit_on_bytes); in a memory of blocks that point
      to one another the network stack does what it does on records
      (nova_net_on_bytes).
    - Concurrency: registry calls of any number of threads, interleaved at single
      accesses, behave as if run one after the other in the order in which they
      got the lock (nova_io_registry_atomic); they never reach a deadlock
      (nova_io_registry_no_deadlock), and under every scheduler that gives each
      thread a turn again and again they all return (nova_io_registry_fair).
    - Equivalence: the hand-written string functions are those of string.h
      (nova_string_functions_equivalent).
    - Refinement of an abstract specification on every sequence of calls: a
      bounded FIFO (nova_ipc_refines_fifo, nova_ipc_on_bytes), a finite map
      (nova_vm_space_refines_map, nova_vm_space_on_bytes), a set of pages
      (nova_vm_pages_refine), lists of devices or modules (nova_netdev_refines,
      nova_io_registry_refines, novakit_registry_refines, novakit_on_bytes,
      nova_linuxkpi_refines), a table of descriptors (nova_socket_api_refines).
    - Functional behaviour on every branch: the scheduler's choice and the
      fairness of picking and accounting, nova_send and the drivers, block
      transfers and requests, the shell's commands, its system calls and its
      decimal printer, the commands of the desktop path.
    - Errors: nova_io_shutdown is defined exactly when every registered device
      came from malloc (nova_io_shutdown_frees); what transfers come to that no
      driver takes (nova_block_transfer_refused); failed allocations of packets
      (nova_packet_life).
    - Round trips: byte order, IPC messages, mappings, registered devices, packets
      allocated and freed.
    - Deviations, as theorems about the code as it is: descriptors and the
      scheduler's count that are never given back, packets counted twice and
      leaked on loopback, the registry cut by a second driver initialisation,
      the circular list after a double registration, devices freed that the
      stack did not allocate, a read of get_geometry beyond the table of an input
      device, the 32-bit sector length, pending transfers reported as done, a refused compatibility mode that is
      recorded all the same, a device lost when two threads initialise the I/O
      stack (nova_io_init_race), the stack on which boot.asm calls kmain, 8 bytes
      off the alignment of the ABI.

    ** Fuel and bounds

    - Walks over a registry get one more step than there are nodes in the heap
      ([registry_fuel] and the fuel of IoRegistry.v).  A list without
      repetition is shorter; the safety and refinement theorems conclude [Done],
      so the fuel is enough whenever the invariant holds.  A circular list
      exhausts any fuel (nova_device_double_register).  On bytes a walk gets one
      more step than there are blocks in memory ([walk_fuel]).
    - Counted loops run for the constant of the source.
    - The wait for the serial transmitter gets [wait_bound] + 1 reads, the bound
      that [UartSpec] promises.  The endless loop of kmain is cut after [n]
      rounds for every [n].
    - The entry of the kernel is run for the four instructions it has; the loop
      at its end for [n] steps for every [n].
    - SpinLock.v and the machine of Concurrent.v need no fuel: they are step
      relations on any number of threads.  The loops of IoConcurrent.v get the
      fuel of the sequential walks; running out of it counts as a fault, and
      nova_io_registry_atomic excludes faults.

    ** What is not modelled

    - Concurrency beyond the registry lock: the sources have no other shared
      state with a lock and no threads.
    - The functions of desktop.h, which have no bodies: its types are in
      Headers.v, its prototypes in Prototypes.v, and there is no behaviour.
    - The shell scripts, Makefiles and configuration files; of the linker script
      only that the Multiboot header comes first.
    - The objects of the I/O stack as bytes.  io_stack.c sets a member prev of
      devices that the struct nova_device of io_stack.h does not have, so the
      layout those functions work on is not in the sources.  Its objects are
      records, with their pointers as addresses in a heap; the types of their
      members are kept (nova_io_safe).  Devices may lie anywhere; requests and
      ports are the ones that calloc made, not variables of callers.
    - The buffers that callers pass to nova_send and nova_recv as blocks of the
      memory of CHeap.v: they are passed by value.  The blocks of that memory are
      disjoint; an address is that of a block's first byte.
    - The bytes of io_stack.c's buffers: none of its functions reads them.
    - The weak memory order of the lock's atomics; the steps are sequentially
      consistent.

    ** What could be added

    A driver that queues packets, to use the interface with a third kind of
    implementation; the objects of the I/O stack in the memory of CHeap.v once
    struct nova_device declares what io_stack.c uses; the desktop path started
    from the boot shell's commands once the sources connect the two. *)

From Stdlib Require Export ZArith Lia.
From stdpp Require Export gmap strings list_numbers.

(** ** Outcomes and the execution monad

    A C function that works on a state [S] and yields an [A] is a function
    [S → outcome (A * S)].  [Undef] is undefined behaviour (an access out of
    the bounds of an array, a null or dangling pointer, a double free);
    [NoFuel] marks a loop that was still running when its fuel ran out. *)

Inductive outcome (A : Type) : Type :=
  | Done (a : A)
  | Undef
  | NoFuel.
Arguments Done {A} a.
Arguments Undef {A}.
Arguments NoFuel {A}.

Definition M (S A : Type) : Type := S → outcome (A * S).

#[export] Instance M_ret {S : Type} : MRet (M S) := λ A a s, Done (a, s).

#[export] Instance M_bind {S : Type} : MBind (M S) := λ A B k m s,
  match m s with
  | Done (a, s') => k a s'
  | Undef => Undef
  | NoFuel => NoFuel
  end.

Definition gets {S A} (f : S → A) : M S A := λ s, Done (f s, s).
Definition modify {S} (f : S → S) : M S unit := λ s, Done (tt, f s).
Definition undef {S A} : M S A := λ _, Undef.
Definition no_fuel {S A} : M S A := λ _, NoFuel.

(** A partial read: [None] is an access the C program may not make. *)
Definition the {S A} (o : option A) : M S A :=
  match o with Some a => mret a | None => undef end.

(** [when b m] runs [m] if [b] holds (an [if] without [else]). *)
Definition when {S} (b : bool) (m : M S unit) : M S unit :=
  if b then m else mret tt.

(** The result of a run, when it has one. *)
Definition result_of {A S} (o : outcome (A * S)) : option A :=
  match o with Done (a, _) => Some a | _ => None end.
Definition state_of {A S} (o : outcome (A * S)) : option S :=
  match o with Done (_, s) => Some s | _ => None end.

Section monad_laws.
Context {S A B : Type}.
Implicit Types (m : M S A) (k : A → M S B) (s : S).

Lemma bind_Done m k s a s' : m s = Done (a, s') → (m ≫= k) s = k a s'.
Proof. intros H. unfold mbind, M_bind. by rewrite H. Qed.

Lemma bind_Undef m k s : m s = Undef → (m ≫= k) s = Undef.
Proof. intros H. unfold mbind, M_bind. by rewrite H. Qed.

Lemma bind_NoFuel m k s : m s = NoFuel → (m ≫= k) s = NoFuel.
Proof. intros H. unfold mbind, M_bind. by rewrite H. Qed.

Lemma bind_Done_inv m k s b s' :
  (m ≫= k) s = Done (b, s') →
  ∃ a s1, m s = Done (a, s1) ∧ k a s1 = Done (b, s').
Proof.
  unfold mbind, M_bind. destruct (m s) as [[a s1]| |]; naive_solver.
Qed.

Lemma gets_run (f : S → A) s : gets f s = Done (f s, s).
Proof. done. Qed.

Lemma the_Some (o : option A) a s : o = Some a → the (S:=S) o s = Done (a, s).
Proof. by intros ->. Qed.
End monad_laws.

(** The steps that need no information about the state. *)
Section run_steps.
Context {S A B C : Type}.
Implicit Types (s : S).

Lemma bind_gets (f : S → A) (k : A → M S B) s : (gets f ≫= k) s = k (f s) s.
Proof. done. Qed.
Lemma bind_modify (f : S → S) (k : unit → M S B) s : (modify f ≫= k) s = k tt (f s).
Proof. done. Qed.
Lemma bind_ret (a : A) (k : A → M S B) s : ((mret a : M S A) ≫= k) s = k a s.
Proof. done. Qed.
Lemma bind_assoc (m : M S A) (k : A → M S B) (k' : B → M S C) s :
  ((m ≫= k) ≫= k') s = (m ≫= λ a, k a ≫= k') s.
Proof. unfold mbind, M_bind. by destruct (m s) as [[]| |]. Qed.
Lemma bind_the (a : A) (k : A → M S B) s : (the (Some a) ≫= k) s = k a s.
Proof. done. Qed.
Lemma bind_undef (k : A → M S B) s : (undef ≫= k) s = Undef.
Proof. done. Qed.
Lemma ret_run (a : A) s : (mret a : M S A) s = Done (a, s).
Proof. done. Qed.
Lemma modify_run (f : S → S) s : modify f s = Done (tt, f s).
Proof. done. Qed.
End run_steps.

(** [run] executes the state-independent steps at the head of the goal; it
    stops at the first test or partial read it knows nothing about. *)
Ltac run :=
  repeat (first [ rewrite bind_assoc | rewrite bind_gets | rewrite bind_modify
                | rewrite bind_ret | rewrite bind_the | rewrite ret_run | rewrite modify_run
                | rewrite gets_run | rewrite bind_undef ]; cbv beta).

(** [bind H] runs the first action of a sequence with its known result [H];
    [bind by tac] looks for that result with [tac]. *)
Tactic Notation "bind" uconstr(H) := rewrite ?bind_assoc; cbv beta; erewrite (bind_Done _ _ _ _ _ H); cbv beta match.
Tactic Notation "bind" "by" tactic3(tac) := rewrite ?bind_assoc; cbv beta; erewrite bind_Done by tac; cbv beta match.

(** ** Loops *)

(** [for (i = start; n iterations; i++) body]: the body answers [Some r] for
    [return r] and [None] to go on. *)
Fixpoint for_loop {S R} (n i : nat) (body : nat → M S (option R)) : M S (option R) :=
  match n with
  | O => mret None
  | Datatypes.S n' =>
      r ← body i;
      match r with
      | Some v => mret (Some v)
      | None => for_loop n' (Datatypes.S i) body
      end
  end.

(** The same loop with a local variable [a] and no early return. *)
Fixpoint for_fold {S A} (n i : nat) (body : nat → A → M S A) (a : A) : M S A :=
  match n with
  | O => mret a
  | Datatypes.S n' => a' ← body i a; for_fold n' (Datatypes.S i) body a'
  end.

Section loops.
Context {S R : Type}.

(** A loop that looks for the first element of [l] with property [P]. *)
Lemma for_loop_find_from {A} (P : A → Prop) `{!∀ x, Decision (P x)}
    (l : list A) (k : nat) (body : nat → M S (option R)) (s : S) :
  (∀ i x, l !! i = Some x → ¬ P x → body (k + i) s = Done (None, s)) →
  (∀ i x, l !! i = Some x → P x → ∃ v s', body (k + i) s = Done (Some v, s')) →
  for_loop (length l) k body s =
    match list_find P l with
    | Some (i, _) => body (k + i) s
    | None => Done (None, s)
    end.
Proof.
  revert k. induction l as [|x l IH]; intros k Hno Hyes; [done|].
  cbn [length for_loop list_find].
  pose proof (λ H, Hyes 0 x eq_refl H) as Hyes0.
  pose proof (λ H, Hno 0 x eq_refl H) as Hno0.
  rewrite Nat.add_0_r in Hyes0, Hno0.
  destruct (decide (P x)) as [HP|HP].
  - destruct (Hyes0 HP) as (v & s' & Hv).
    by rewrite (bind_Done _ _ _ _ _ Hv), Nat.add_0_r.
  - rewrite (bind_Done _ _ _ _ _ (Hno0 HP)), IH.
    + destruct (list_find P l) as [[i y]|]; cbn; [|done].
      by rewrite Nat.add_succ_r.
    + intros i y Hy. specialize (Hno (Datatypes.S i) y Hy).
      by rewrite Nat.add_succ_r in Hno.
    + intros i y Hy. specialize (Hyes (Datatypes.S i) y Hy).
      by rewrite Nat.add_succ_r in Hyes.
Qed.

Lemma for_loop_find {A} (P : A → Prop) `{!∀ x, Decision (P x)}
    (l : list A) (body : nat → M S (option R)) (s : S) :
  (∀ i x, l !! i = Some x → ¬ P x → body i s = Done (None, s)) →
  (∀ i x, l !! i = Some x → P x → ∃ v s', body i s = Done (Some v, s')) →
  for_loop (length l) 0 body s =
    match list_find P l with
    | Some (i, _) => body i s
    | None => Done (None, s)
    end.
Proof. apply (for_loop_find_from P l 0). Qed.
End loops.

(** Invariant rules: [I i s] holds when iteration [i] starts in state [s]. *)
Section loop_invariants.
Context {S A R : Type}.

Lemma for_fold_inv (I : nat → A → S → Prop) (body : nat → A → M S A) n k a s :
  I k a s →
  (∀ i a s, k ≤ i < k + n → I i a s →
    ∃ a' s', body i a s = Done (a', s') ∧ I (Datatypes.S i) a' s') →
  ∃ a' s', for_fold n k body a s = Done (a', s') ∧ I (k + n) a' s'.
Proof.
  revert k a s. induction n as [|n IH]; intros k a s HI Hstep.
  { exists a, s. by rewrite Nat.add_0_r. }
  destruct (Hstep k a s) as (a1 & s1 & Hb & HI1); [lia|done|].
  destruct (IH (Datatypes.S k) a1 s1 HI1) as (a' & s' & Hr & HI').
  { intros i b t Hi. apply Hstep. lia. }
  exists a', s'. cbn [for_fold]. rewrite (bind_Done _ _ _ _ _ Hb). split; [done|].
  by rewrite Nat.add_succ_r.
Qed.

Lemma for_loop_inv (I : nat → S → Prop) (Q : R → S → Prop)
    (body : nat → M S (option R)) n k s :
  I k s →
  (∀ i s, k ≤ i < k + n → I i s →
    ∃ o s', body i s = Done (o, s') ∧
      match o with Some v => Q v s' | None => I (Datatypes.S i) s' end) →
  ∃ o s', for_loop n k body s = Done (o, s') ∧
    match o with Some v => Q v s' | None => I (k + n) s' end.
Proof.
  revert k s. induction n as [|n IH]; intros k s HI Hstep.
  { exists None, s. by rewrite Nat.add_0_r. }
  destruct (Hstep k s) as (o & s1 & Hb & Ho); [lia|done|].
  cbn [for_loop]. rewrite (bind_Done _ _ _ _ _ Hb).
  destruct o as [v|]; [by exists (Some v), s1|].
  destruct (IH (Datatypes.S k) s1 Ho) as (o' & s' & Hr & HI').
  { intros i t Hi. apply Hstep. lia. }
  exists o', s'. split; [done|]. by rewrite Nat.add_succ_r.
Qed.
End loop_invariants.

(** ** Machine integers *)

(** [wrap w z]: the value of [z] converted to an unsigned [w]-bit type. *)
Definition wrap (w z : Z) : Z := (z mod 2 ^ w)%Z.
Definition u8 : Z → Z := wrap 8.
Definition u16 : Z → Z := wrap 16.
Definition u32 : Z → Z := wrap 32.
Definition u64 : Z → Z := wrap 64.

(** Conversion to a signed [w]-bit type (two's complement). *)
Definition swrap (w z : Z) : Z :=
  let r := wrap w z in if bool_decide (r < 2 ^ (w - 1))%Z then r else (r - 2 ^ w)%Z.
Definition i32 : Z → Z := swrap 32.
Definition i64 : Z → Z := swrap 64.

Definition in_width (w z : Z) : Prop := (0 ≤ z < 2 ^ w)%Z.
#[export] Instance in_width_dec w z : Decision (in_width w z).
Proof. unfold in_width. apply _. Defined.

Lemma wrap_small w z : in_width w z → wrap w z = z.
Proof. intros H. by apply Z.mod_small. Qed.

Lemma wrap_range w z : (0 ≤ w)%Z → in_width w (wrap w z).
Proof. intros H. apply Z.mod_pos_bound. by apply Z.pow_pos_nonneg. Qed.

Lemma wrap_wrap w z : wrap w (wrap w z) = wrap w z.
Proof. apply Z.mod_mod_divide, Z.divide_refl. Qed.

Lemma swrap_small w z : (0 < w)%Z → (0 ≤ z < 2 ^ (w - 1))%Z → swrap w z = z.
Proof.
  intros Hw Hz. unfold swrap.
  assert (2 ^ w = 2 * 2 ^ (w - 1))%Z as Hp
    by (rewrite <-Z.pow_succ_r by lia; f_equal; lia).
  rewrite wrap_small by (unfold in_width; lia).
  by rewrite bool_decide_eq_true_2 by lia.
Qed.

Lemma wrap_add_wrap w a b : wrap w (wrap w a + b) = wrap w (a + b).
Proof. unfold wrap. apply Zplus_mod_idemp_l. Qed.

Create HintDb nova.
#[export] Hint Resolve wrap_range : nova.
#[export] Hint Extern 1 (0 ≤ _)%Z => lia : nova.
#[export] Hint Extern 1 (_ < _)%nat => lia : nova.
#[export] Hint Extern 1 (_ < _)%Z => lia : nova.

(** ** Arrays (bounds-checked) *)

(** [arr_set l i x]: the array after [l[i] = x]; [None] out of bounds. *)
Definition arr_set {A} (l : list A) (i : nat) (x : A) : option (list A) :=
  if decide (i < length l) then Some (<[i := x]> l) else None.

Lemma arr_set_Some {A} (l : list A) i x :
  i < length l → arr_set l i x = Some (<[i := x]> l).
Proof. intros H. unfold arr_set. by rewrite decide_True. Qed.

Lemma arr_set_None {A} (l : list A) i x : length l ≤ i → arr_set l i x = None.
Proof. intros H. unfold arr_set. rewrite decide_False; [done|lia]. Qed.

(** Predicates that hold of every slot survive an update with a good value. *)
Lemma Forall_insert_any {A} (P : A → Prop) l i x :
  Forall P l → P x → Forall P (<[i := x]> l).
Proof. intros Hl Hx. by apply Forall_insert. Qed.
#[export] Hint Resolve Forall_insert_any : nova.

(** The first element is the same for properties that agree on the list. *)
Lemma list_find_ext_in {A} (P Q : A → Prop) `{!∀ x, Decision (P x)} `{!∀ x, Decision (Q x)}
    (l : list A) :
  (∀ x, x ∈ l → P x ↔ Q x) → list_find P l = list_find Q l.
Proof.
  induction l as [|x l IH]; intros Hag; [done|]. cbn.
  pose proof (Hag x (list_elem_of_here _ _)) as Hx.
  destruct (decide (P x)), (decide (Q x)); try tauto.
  rewrite IH; [done|]. intros y Hy. apply Hag. by constructor.
Qed.

Lemma filter_all {A} (P : A → Prop) `{!∀ x, Decision (P x)} (l : list A) :
  (∀ x, x ∈ l → P x) → filter P l = l.
Proof.
  induction l as [|x l IH]; intros H0; [done|].
  rewrite filter_cons_True by (apply H0; constructor). f_equal. apply IH.
  intros y Hy. apply H0. by constructor.
Qed.

(** Removing an element that occurs once. *)
Lemma filter_remove {A} `{!EqDecision A} (x : A) (l1 l2 : list A) :
  NoDup (l1 ++ x :: l2) → filter (λ y, y ≠ x) (l1 ++ x :: l2) = l1 ++ l2.
Proof.
  intros Hnd. apply NoDup_app in Hnd as (_ & Hx1 & Hx2). apply NoDup_cons in Hx2 as [Hx2 _].
  rewrite filter_app, filter_cons_False by tauto.
  rewrite !filter_all; [done| |]; intros y Hy ->; [done|].
  apply (Hx1 _ Hy). constructor.
Qed.

(** ** Invariants by rule induction *)

Section invariants.
Context {T : Type} (step : T → T → Prop) (I : T → Prop).
Hypothesis I_step : ∀ s s', I s → step s s' → I s'.

Lemma rtc_invariant s s' : rtc step s s' → I s → I s'.
Proof using I_step. induction 1; eauto. Qed.
End invariants.

(** ** Memory blocks and C strings

    A block of memory is the list of its bytes (0 to 255). *)

(** [memcpy(dst, src, n)]: the new contents of [dst]; [None] when either block
    is shorter than [n] bytes. *)
Definition memcpy (dst src : list Z) (n : nat) : option (list Z) :=
  if decide (n ≤ length dst ∧ n ≤ length src)
  then Some (take n src ++ drop n dst) else None.

Lemma memcpy_Some dst src n :
  n ≤ length dst → n ≤ length src → memcpy dst src n = Some (take n src ++ drop n dst).
Proof. intros. unfold memcpy. by rewrite decide_True. Qed.

Lemma length_memcpy dst src n dst' :
  memcpy dst src n = Some dst' → length dst' = length dst.
Proof.
  unfold memcpy. case_decide as H; intros [= <-].
  rewrite length_app, length_take, length_drop. lia.
Qed.

(** Bytes of a block have eight bits. *)
Definition bytes_ok (l : list Z) : Prop := Forall (in_width 8) l.

Lemma bytes_ok_memcpy dst src n dst' :
  bytes_ok dst → bytes_ok src → memcpy dst src n = Some dst' → bytes_ok dst'.
Proof.
  unfold memcpy. intros. case_decide; simplify_eq.
  apply Forall_app. split; [by apply Forall_take|by apply Forall_drop].
Qed.
#[export] Hint Resolve bytes_ok_memcpy : nova.

(** ** Refinement of operations and of traces

    A component's operations [exec] refine an abstract specification [spec]
    when, from related states and on admissible calls, every call completes
    with the observation of the specification and related states result. *)

Section traces.
Context {Op St Obs Sp : Type}.

Fixpoint exec_trace (exec : Op → M St Obs) (ops : list Op) : M St (list Obs) :=
  match ops with
  | [] => mret []
  | op :: ops => o ← exec op; os ← exec_trace exec ops; mret (o :: os)
  end.

Fixpoint spec_trace (spec : Op → Sp → Obs * Sp) (ops : list Op) (q : Sp)
    : list Obs * Sp :=
  match ops with
  | [] => ([], q)
  | op :: ops =>
      let '(o, q) := spec op q in
      let '(os, q) := spec_trace spec ops q in (o :: os, q)
  end.

Class Refines (exec : Op → M St Obs) (spec : Op → Sp → Obs * Sp) (ok : Op → Prop)
    (R : St → Sp → Prop) : Prop :=
  refines_step : ∀ op s q, R s q → ok op →
    ∃ o s' q', exec op s = Done (o, s') ∧ spec op q = (o, q') ∧ R s' q'.

Lemma trace_refines exec spec ok R `{!Refines exec spec ok R} ops s q :
  R s q → Forall ok ops →
  ∃ os s' q', exec_trace exec ops s = Done (os, s') ∧
    spec_trace spec ops q = (os, q') ∧ R s' q'.
Proof.
  intros HR Hops. revert s q HR. induction Hops as [|op ops Hop _ IH]; intros s q HR.
  { by exists [], s, q. }
  destruct (refines_step op s q HR Hop) as (o & s1 & q1 & Hr & Hs & HR1).
  destruct (IH s1 q1 HR1) as (os & s' & q' & Hrs & Hss & HR').
  exists (o :: os), s', q'. cbn [exec_trace spec_trace]. rewrite Hs, Hss.
  bind Hr. by bind Hrs.
Qed.
End traces.
