(* ===== verification/Core.v ===== *)
(** * The constants and the result enumeration of kernel/core (nova_core.h)

    Shared by the scheduler, the IPC endpoint and the virtual-memory files. *)

From S2P Require Import Prelude.

Definition NOVA_MAX_THREADS : nat := 32.
Definition NOVA_IPC_QUEUE_LENGTH : nat := 16.
Definition NOVA_IPC_PAYLOAD_SIZE : nat := 64.
Definition NOVA_VM_MAX_PAGES : nat := 128.
Definition NOVA_MAX_MAPPINGS : nat := 128.

Inductive nova_result : Type :=
  | NOVA_OK | NOVA_ERR | NOVA_FULL | NOVA_EMPTY | NOVA_NOT_FOUND.

#[export] Instance nova_result_eq_dec : EqDecision nova_result.
Proof. solve_decision. Defined.

(** Expose the table sizes to [lia]. *)
Ltac sizes :=
  unfold NOVA_MAX_THREADS, NOVA_IPC_QUEUE_LENGTH, NOVA_IPC_PAYLOAD_SIZE,
    NOVA_VM_MAX_PAGES, NOVA_MAX_MAPPINGS in *.
