(* ===== verification/CString.v ===== *)
(** * C strings (the part of string.h the sources use)

    A string lives in a block of bytes and ends at its first zero byte.  A
    block without a zero byte is not a string: reading it as one is undefined,
    [None] here. *)

From S2P Require Import Prelude.

(** The characters before the terminator. *)
Fixpoint c_string (l : list Z) : option (list Z) :=
  match l with
  | [] => None
  | b :: l => if decide (b = 0)%Z then Some [] else (b ::.) <$> c_string l
  end.

Definition strlen (l : list Z) : option nat := length <$> c_string l.

(** [strcmp(a, b) == 0]. *)
Definition strcmp_eq (a b : list Z) : option bool :=
  x ← c_string a; y ← c_string b; Some (bool_decide (x = y)).

(** [strncmp(a, b, n) == 0]: at most [n] characters, none after a zero. *)
Fixpoint strncmp_eq (a b : list Z) (n : nat) {struct n} : option bool :=
  match n with
  | O => Some true
  | S n =>
      match a, b with
      | x :: a, y :: b =>
          if decide (x ≠ y) then Some false
          else if decide (x = 0)%Z then Some true
          else strncmp_eq a b n
      | _, _ => None
      end
  end.

(** The [n] bytes [strncpy(_, src, n)] writes: the string, zero-padded. *)
Fixpoint strncpy_bytes (src : list Z) (n : nat) {struct n} : option (list Z) :=
  match n with
  | O => Some []
  | S n' =>
      match src with
      | [] => None
      | b :: src =>
          if decide (b = 0)%Z then Some (replicate n 0%Z)
          else (b ::.) <$> strncpy_bytes src n'
      end
  end.

Definition strncpy (dst src : list Z) (n : nat) : option (list Z) :=
  bytes ← strncpy_bytes src n; memcpy dst bytes n.

(** A string literal as a block. *)
Definition chars (s : string) : list Z :=
  (λ a, Z.of_N (Ascii.N_of_ascii a)) <$> String.list_ascii_of_string s.
Definition cstr (s : string) : list Z := chars s ++ [0%Z].

(** ** Lemmas *)

(** No zero byte. *)
Definition nonzero (l : list Z) : Prop := Forall (λ b, b ≠ 0%Z) l.

Lemma c_string_app l r : nonzero l → c_string (l ++ 0%Z :: r) = Some l.
Proof.
  induction 1 as [|b l Hb _ IH]; [done|]. cbn. rewrite decide_False by done. by rewrite IH.
Qed.

Lemma c_string_Some l s :
  c_string l = Some s → nonzero s ∧ ∃ r, l = s ++ 0%Z :: r.
Proof.
  revert s. induction l as [|b l IH]; intros s; [done|]. cbn.
  destruct (decide (b = 0%Z)) as [->|Hb].
  - intros [= <-]. split; [constructor|by exists l].
  - intros (s' & Hs & ->)%fmap_Some. destruct (IH s' Hs) as (Hnz & r & ->).
    split; [by constructor|by exists r].
Qed.

(** The first byte tells whether the string is empty. *)
Lemma c_string_head l n :
  c_string l = Some n → ∃ c, l !! 0 = Some c ∧ (c = 0%Z ↔ n = []).
Proof.
  destruct l as [|b l]; [done|]. cbn. intros H. exists b. split; [done|].
  case_decide; simplify_eq; [done|]. by apply fmap_Some in H as (x & _ & ->).
Qed.

Lemma c_string_last l n :
  length l = S n → l !! n = Some 0%Z → ∃ s, c_string l = Some s ∧ length s ≤ n.
Proof.
  revert n. induction l as [|b l IH]; intros n Hl Hn; [done|]. cbn.
  destruct (decide (b = 0%Z)) as [->|Hb].
  { exists []. split; [done|cbn; lia]. }
  destruct n as [|n]; cbn in *; [congruence|].
  destruct (IH n) as (s & -> & Hs); [lia|done|]. exists (b :: s). split; [done|cbn; lia].
Qed.

Lemma strcmp_eq_Some a b x y :
  c_string a = Some x → c_string b = Some y → strcmp_eq a b = Some (bool_decide (x = y)).
Proof. intros Ha Hb. unfold strcmp_eq. by rewrite Ha, Hb. Qed.

Lemma strncpy_bytes_string s r n :
  nonzero s →
  strncpy_bytes (s ++ 0%Z :: r) n = Some (take n (s ++ replicate n 0%Z)).
Proof.
  intros Hs. revert n. induction Hs as [|b s Hb _ IH]; intros n.
  - destruct n as [|n]; [done|]. cbn. by rewrite take_ge by (by rewrite length_replicate).
  - destruct n as [|n]; [done|]. cbn. rewrite decide_False by done. rewrite IH. cbn.
    do 2 f_equal. rewrite replicate_cons_app, app_assoc.
    rewrite (take_app_le (s ++ replicate n 0%Z)); [done|].
    rewrite length_app, length_replicate. lia.
Qed.

Lemma length_strncpy_bytes src n l : strncpy_bytes src n = Some l → length l = n.
Proof.
  revert src l. induction n as [|n IH]; intros src l; cbn.
  { by intros [= <-]. }
  destruct src as [|b src]; [done|]. destruct (decide _).
  - intros [= <-]. cbn. by rewrite length_replicate.
  - intros (l' & H & ->)%fmap_Some. cbn. by rewrite (IH src l').
Qed.

Lemma bytes_ok_strncpy src n l : strncpy_bytes src n = Some l → bytes_ok src → bytes_ok l.
Proof.
  revert src l. induction n as [|n IH]; intros src l; cbn; [by intros [= <-] _; constructor|].
  destruct src as [|b src]; [done|]. destruct (decide _).
  - intros [= <-] _. by apply (Forall_replicate _ (S n)).
  - intros (l' & H & ->)%fmap_Some [Hb Hs]%Forall_cons. constructor; [done|by eapply IH].
Qed.

(** A copy of at most [n] characters into a zero-terminated field of [n + 1]
    bytes reads back as the first [n] characters of the source. *)
Lemma c_string_truncated s n r :
  nonzero s → c_string (take n (s ++ replicate n 0%Z) ++ 0%Z :: r) = Some (take n s).
Proof.
  intros Hs. destruct (decide (length s < n)) as [Hlt|Hge].
  - rewrite (take_ge s) by lia. rewrite take_app_ge by lia.
    destruct (n - length s) as [|k] eqn:Hk; [lia|].
    rewrite <-app_assoc. destruct n as [|n]; [lia|]. cbn. by apply c_string_app.
  - rewrite take_app_le by lia. by apply c_string_app, Forall_take.
Qed.

Lemma chars_nonzero_cstr s : nonzero (chars s) → c_string (cstr s) = Some (chars s).
Proof. apply c_string_app. Qed.
