(* ===== verification/Bytes.v ===== *)
(** * Words as bytes, and parts of blocks

    A word of [n] bytes as the list of its bytes, least significant first; the
    part of a block that a load reads and a store replaces. *)

From S2P Require Import Prelude.

(** ** Words *)

Section words.
Local Open Scope Z_scope.

(** The bytes of a word of [n] bytes, least significant first, and back. *)
Fixpoint bytes_of (n : nat) (z : Z) : list Z :=
  match n with O => [] | S n => (z mod 256) :: bytes_of n (z / 256) end.
Fixpoint word_of (l : list Z) : Z :=
  match l with [] => 0 | b :: l => b + 256 * word_of l end.

Lemma bytes_of_word (l : list Z) : bytes_ok l -> bytes_of (length l) (word_of l) = l.
Proof.
  induction 1 as [|b l Hb _ IH]; [done|]. cbn. unfold in_width in Hb.
  change (2 ^ 8) with 256 in Hb. f_equal.
  - rewrite Z.mul_comm, Z.mod_add by lia. by apply Z.mod_small.
  - rewrite Z.mul_comm, Z.div_add, (Z.div_small b) by lia. by rewrite Z.add_0_l.
Qed.

Lemma bytes_of_ok n z : bytes_ok (bytes_of n z).
Proof.
  revert z. induction n as [|n IH]; intros z; constructor; [|apply IH].
  apply Z.mod_pos_bound. lia.
Qed.

Lemma length_bytes_of n z : length (bytes_of n z) = n.
Proof. revert z. induction n as [|n IH]; intros z; cbn; [done|by rewrite IH]. Qed.

Lemma word_of_bytes n z : 0 <= z < 256 ^ Z.of_nat n -> word_of (bytes_of n z) = z.
Proof.
  revert z. induction n as [|n IH]; intros z Hz; cbn; [cbn in Hz; lia|].
  rewrite Nat2Z.inj_succ, Z.pow_succ_r in Hz by lia.
  rewrite IH.
  - pose proof (Z.div_mod z 256). lia.
  - split; [apply Z.div_pos; lia|apply Z.div_lt_upper_bound; lia].
Qed.

Lemma in_width_bytes n z : in_width (8 * Z.of_nat n) z -> 0 <= z < 256 ^ Z.of_nat n.
Proof. unfold in_width. rewrite Z.pow_mul_r by lia. done. Qed.

Lemma word_of_range l : bytes_ok l -> 0 <= word_of l < 256 ^ Z.of_nat (length l).
Proof.
  induction 1 as [|b l Hb _ IH]; [cbn; lia|]. cbn [word_of length].
  unfold in_width in Hb. rewrite Nat2Z.inj_succ, Z.pow_succ_r by lia. lia.
Qed.

(** Reversing the bytes of a word of [n] bytes twice gives the word back. *)
Lemma swap_involutive n z :
  0 <= z < 256 ^ Z.of_nat n ->
  word_of (rev (bytes_of n (word_of (rev (bytes_of n z))))) = z.
Proof.
  intros Hz. set (l := bytes_of n z).
  assert (length (rev l) = n) as Hl by (unfold l; by rewrite length_rev, length_bytes_of).
  rewrite <-Hl at 1. rewrite bytes_of_word.
  - rewrite rev_involutive. by apply word_of_bytes.
  - apply Forall_rev, bytes_of_ok.
Qed.

Lemma swap_range n z :
  0 <= word_of (rev (bytes_of n z)) < 256 ^ Z.of_nat n.
Proof.
  pose proof (word_of_range (rev (bytes_of n z))) as H.
  rewrite length_rev, length_bytes_of in H. apply H, Forall_rev, bytes_of_ok.
Qed.

Lemma word_of_bytes_wrap n z : word_of (bytes_of n z) = wrap (8 * Z.of_nat n) z.
Proof.
  unfold wrap. rewrite Z.pow_mul_r by lia. change (2 ^ 8) with 256. revert z.
  induction n as [|n IH]; intros z; cbn [bytes_of word_of]; [by rewrite Z.mod_1_r|].
  rewrite IH, Nat2Z.inj_succ, Z.pow_succ_r by lia. rewrite Z.rem_mul_r by lia. lia.
Qed.

Lemma word_of_zeros n : word_of (replicate n 0) = 0.
Proof. induction n as [|n IH]; [done|]. cbn. by rewrite IH. Qed.

Lemma bytes_ok_zeros n : bytes_ok (replicate n 0).
Proof. by apply Forall_replicate. Qed.

(** Two's complement: the word of a signed number gives the number back. *)
Lemma swrap_wrap w z :
  0 < w -> - 2 ^ (w - 1) <= z < 2 ^ (w - 1) -> swrap w (wrap w z) = z.
Proof.
  intros Hw Hz. unfold swrap, wrap. rewrite Zmod_mod.
  assert (2 ^ w = 2 * 2 ^ (w - 1)) as Hp by (rewrite <- Z.pow_succ_r by lia; f_equal; lia).
  destruct (decide (0 <= z)) as [H0|H0].
  - rewrite Z.mod_small by lia. by rewrite bool_decide_eq_true_2 by lia.
  - replace (z mod 2 ^ w) with (z + 2 ^ w).
    + rewrite bool_decide_eq_false_2 by lia. lia.
    + apply (Z.mod_unique _ _ (-1)); lia.
Qed.
End words.

(** ** Parts of a block *)

(** The [n] bytes at offset [o]; a block with [ws] stored at offset [o]. *)
Definition slice {A} (o n : nat) (bs : list A) : list A := take n (drop o bs).
Definition splice {A} (o : nat) (ws bs : list A) : list A :=
  take o bs ++ ws ++ drop (o + length ws) bs.

Section parts.
Context {A : Type}.
Implicit Types (bs ws : list A).

Lemma slice_length o n bs : o + n ≤ length bs → length (slice o n bs) = n.
Proof. intros Hl. unfold slice. rewrite length_take, length_drop. lia. Qed.

Lemma splice_length o ws bs : o + length ws ≤ length bs → length (splice o ws bs) = length bs.
Proof.
  intros Hl. unfold splice. rewrite !length_app, length_take, length_drop. lia.
Qed.

Lemma slice_lookup o n bs i : slice o n bs !! i = if decide (i < n) then bs !! (o + i) else None.
Proof.
  unfold slice. case_decide as Hi.
  - by rewrite lookup_take_lt, lookup_drop.
  - by apply lookup_take_ge, Nat.nlt_ge.
Qed.

Lemma splice_lookup o ws bs i :
  o + length ws ≤ length bs →
  splice o ws bs !! i = if decide (o ≤ i < o + length ws) then ws !! (i - o) else bs !! i.
Proof.
  intros Hl. unfold splice. rewrite lookup_app. case_decide as Hi.
  - rewrite lookup_take_ge by lia. rewrite length_take_le by lia.
    by rewrite lookup_app_l by lia.
  - destruct (decide (i < o)).
    + rewrite lookup_take_lt by done.
      destruct (lookup_lt_is_Some_2 bs i) as [x ->]; [lia|done].
    + rewrite lookup_take_ge by lia. rewrite length_take_le by lia.
      rewrite lookup_app_r by lia. rewrite lookup_drop. f_equal. lia.
Qed.

Lemma slice_all bs : slice 0 (length bs) bs = bs.
Proof. unfold slice. by rewrite drop_0, firstn_all. Qed.

Lemma slice_slice o n o' n' bs :
  o' + n' ≤ n → slice o' n' (slice o n bs) = slice (o + o') n' bs.
Proof.
  intros Hle. apply list_eq. intros i. rewrite !slice_lookup.
  case_decide; [|done]. rewrite decide_True by lia. f_equal. lia.
Qed.

(** A load of what was stored, and of bytes apart from it. *)
Lemma slice_splice_same o ws bs :
  o + length ws ≤ length bs → slice o (length ws) (splice o ws bs) = ws.
Proof.
  intros Hl. apply list_eq. intros i. rewrite slice_lookup. case_decide as Hi.
  - rewrite splice_lookup, decide_True by lia. f_equal. lia.
  - symmetry. apply lookup_ge_None. lia.
Qed.

Lemma slice_splice_apart o ws bs o' n :
  o + length ws ≤ length bs → o' + n ≤ o ∨ o + length ws ≤ o' →
  slice o' n (splice o ws bs) = slice o' n bs.
Proof.
  intros Hl Ha. apply list_eq. intros i. rewrite !slice_lookup. case_decide; [|done].
  by rewrite splice_lookup, decide_False by lia.
Qed.

(** A store inside a part is a store of the part. *)
Lemma slice_splice_inside o ws bs o' n :
  o + length ws ≤ n → o' + n ≤ length bs →
  slice o' n (splice (o' + o) ws bs) = splice o ws (slice o' n bs).
Proof.
  intros Hn Hl. apply list_eq. intros i.
  rewrite slice_lookup, (splice_lookup o) by (rewrite slice_length; lia).
  rewrite splice_lookup, slice_lookup by lia.
  repeat case_decide; try done; try lia. f_equal; lia.
Qed.

Lemma splice_slice o n o' ws bs :
  o' + length ws ≤ n → o + n ≤ length bs →
  splice o (splice o' ws (slice o n bs)) bs = splice (o + o') ws bs.
Proof.
  intros Hn Hl. apply list_eq. intros i.
  assert (length (splice o' ws (slice o n bs)) = n) as Hs
    by (rewrite splice_length; rewrite slice_length; lia).
  rewrite !splice_lookup by (rewrite ?slice_length, ?Hs; lia). rewrite Hs, slice_lookup.
  repeat case_decide; try done; try lia; f_equal; lia.
Qed.

Lemma Forall_slice P o n bs : Forall P bs → Forall P (slice o n bs).
Proof. intros Hb. by apply Forall_take, Forall_drop. Qed.

Lemma Forall_splice P o ws bs : Forall P bs → Forall P ws → Forall P (splice o ws bs).
Proof. intros Hb Hw. apply Forall_app_2; [by apply Forall_take|]. by apply Forall_app_2; [|apply Forall_drop]. Qed.
End parts.

#[export] Hint Resolve Forall_slice Forall_splice bytes_of_ok bytes_ok_zeros : nova.
