(* ===== verification/LinkedList.v ===== *)
(** * Singly linked lists in a heap of records

    The netdev registry and the I/O device registry are lists of caller-owned
    structures linked by a [next] field.  This file states what the two share:
    the predicate that a pointer heads the list of given nodes, its lemmas, and
    the walk loop with its fuel. *)

From S2P Require Import Prelude.

(** The address of an object. *)
Abbreviation loc := nat.

(** A record with a [next] pointer. *)
Class Linked (N : Type) := {
  node_next : N → option loc;
  set_node_next : option loc → N → N;
  node_next_set : ∀ p n, node_next (set_node_next p n) = p;
}.

(** Pointer [p] heads the list of the nodes at the addresses [ls]. *)
Fixpoint chain {N : Type} `{!Linked N} (h : gmap loc N) (p : option loc) (ls : list loc) : Prop :=
  match ls with
  | [] => p = None
  | l :: ls => p = Some l ∧ ∃ n, h !! l = Some n ∧ chain h (node_next n) ls
  end.

Section chain.
Context {N : Type} `{!Linked N}.
Implicit Types (h : gmap loc N) (p : option loc) (ls : list loc).

Lemma chain_det h p ls1 ls2 : chain h p ls1 → chain h p ls2 → ls1 = ls2.
Proof.
  revert p ls2. induction ls1 as [|l ls1 IH]; intros p [|l' ls2]; cbn.
  - done.
  - by intros -> [? _].
  - by intros [-> _] ?.
  - intros [-> (n & Hn & Hc)] [[= <-] (n' & Hn' & Hc')].
    rewrite Hn in Hn'. injection Hn' as <-. f_equal. by eapply IH.
Qed.

(** The suffix of a chain is a chain. *)
Lemma chain_app h p ls1 ls2 : chain h p (ls1 ++ ls2) → ∃ q, chain h q ls2.
Proof.
  revert p. induction ls1 as [|l ls1 IH]; intros p; [by exists p|].
  intros [-> (n & Hn & Hc)]. by eapply IH.
Qed.

(** No node occurs twice: the list could not end. *)
Lemma chain_NoDup h p ls : chain h p ls → NoDup ls.
Proof.
  revert p. induction ls as [|l ls IH]; intros p; [constructor|].
  intros Hch. pose proof Hch as [-> (n & Hn & Hc)]. constructor; [|by eapply IH].
  intros Hin. destruct (list_elem_of_split _ _ Hin) as (l1 & l2 & ->).
  destruct (chain_app _ _ _ _ Hc) as [q Hq]. pose proof Hq as [-> _].
  pose proof (chain_det _ _ _ _ Hch Hq) as Heq. apply (f_equal length) in Heq.
  cbn in Heq. rewrite length_app in Heq. cbn in Heq. lia.
Qed.

Lemma chain_lookup h p ls l : chain h p ls → l ∈ ls → is_Some (h !! l).
Proof.
  revert p. induction ls as [|l' ls IH]; intros p; [by intros _ ?%elem_of_nil|].
  intros [-> (n & Hn & Hc)] [->|Hin]%elem_of_cons; [by exists n|by eapply IH].
Qed.

Lemma chain_head h l ls : chain h (Some l) ls → is_Some (h !! l).
Proof. destruct ls as [|l' ls]; [done|]. intros [[= <-] (n & Hn & _)]. by exists n. Qed.

(** Only the next pointers of the nodes of the chain matter. *)
Lemma chain_frame h h' p ls :
  (∀ l, l ∈ ls → node_next <$> h' !! l = node_next <$> h !! l) →
  chain h p ls → chain h' p ls.
Proof.
  revert p. induction ls as [|l ls IH]; intros p Hf; [done|].
  intros [-> (n & Hn & Hc)]. split; [done|].
  pose proof (Hf l (list_elem_of_here _ _)) as Hl. rewrite Hn in Hl. cbn in Hl.
  apply fmap_Some in Hl as (n' & Hn' & Hnext). exists n'. split; [done|].
  rewrite <-Hnext. apply IH; [|done]. intros l' Hl'. apply Hf. by constructor.
Qed.

Lemma chain_insert_other h p ls l n :
  l ∉ ls → chain h p ls → chain (<[l := n]> h) p ls.
Proof.
  intros Hl. apply chain_frame. intros l' Hl'. rewrite lookup_insert_ne; [done|].
  intros ->. done.
Qed.

Lemma chain_insert_same h p ls l n n' :
  h !! l = Some n → node_next n' = node_next n → chain h p ls →
  chain (<[l := n']> h) p ls.
Proof.
  intros Hl Hn. apply chain_frame. intros l' _. rewrite lookup_insert.
  case_decide as E; [subst; by rewrite Hl; cbn; rewrite Hn|done].
Qed.

(** Pushing a node in front. *)
Lemma chain_push h p ls l n :
  l ∉ ls → chain h p ls → chain (<[l := set_node_next p n]> h) (Some l) (l :: ls).
Proof.
  intros Hl Hc. split; [done|]. exists (set_node_next p n).
  rewrite lookup_insert_eq, node_next_set. split; [done|]. by apply chain_insert_other.
Qed.

(** Unlinking the successor [b] of [a]. *)
Lemma chain_unlink h p ls1 ls2 a b na nb :
  chain h p (ls1 ++ a :: b :: ls2) → h !! a = Some na → h !! b = Some nb →
  chain (<[a := set_node_next (node_next nb) na]> h) p (ls1 ++ a :: ls2).
Proof.
  revert p. induction ls1 as [|l ls1 IH]; intros p Hch Ha Hb.
  - pose proof (chain_NoDup _ _ _ Hch) as Hnd. cbn in Hnd.
    apply NoDup_cons in Hnd as [Hna _].
    destruct Hch as [-> (na' & Ha' & Heq & nb' & Hb' & Hc)]. simplify_eq.
    split; [done|]. eexists. rewrite lookup_insert_eq. split; [done|].
    rewrite node_next_set. apply chain_insert_other; [|done]. set_solver.
  - pose proof (chain_NoDup _ _ _ Hch) as Hnd. cbn in Hnd.
    apply NoDup_cons in Hnd as [Hnl _].
    destruct Hch as [-> (n & Hn & Hc)]. split; [done|]. exists n.
    rewrite lookup_insert_ne by set_solver. split; [done|]. by apply IH.
Qed.

Lemma chain_size h p ls : chain h p ls → length ls ≤ size h.
Proof.
  intros Hc. rewrite <-size_dom.
  rewrite <-(size_list_to_set (C:=gset loc)) by (by eapply chain_NoDup).
  apply subseteq_size. intros l Hl%elem_of_list_to_set.
  apply elem_of_dom. by eapply chain_lookup.
Qed.

(** The list up to [l]. *)
Fixpoint cut (l : loc) (ls : list loc) : list loc :=
  match ls with
  | [] => []
  | l' :: ls => l' :: if decide (l' = l) then [] else cut l ls
  end.

Lemma cut_elem l l' ls : l' ∈ cut l ls → l' ∈ ls.
Proof.
  induction ls as [|x ls IH]; [done|]. cbn. case_decide; set_solver.
Qed.

Lemma cut_absent l ls : l ∉ ls → cut l ls = ls.
Proof.
  induction ls as [|x ls IH]; intros Hl; [done|]. cbn.
  rewrite decide_False by set_solver. rewrite IH; [done|set_solver].
Qed.

Lemma cut_split l ls1 ls2 : l ∉ ls1 → cut l (ls1 ++ l :: ls2) = ls1 ++ [l].
Proof.
  induction ls1 as [|x ls1 IH]; intros Hl; cbn; [by rewrite decide_True|].
  rewrite decide_False by set_solver. rewrite IH; [done|set_solver].
Qed.

(** A node overwritten with one that has no successor ends the list. *)
Lemma chain_cut h p ls l n :
  node_next n = None → chain h p ls → chain (<[l := n]> h) p (cut l ls).
Proof.
  intros Hn. revert p. induction ls as [|l' ls IH]; intros p; [done|].
  intros [-> (n' & Hn' & Hc)]. cbn [cut]. split; [done|].
  destruct (decide (l' = l)) as [->|Hne].
  - exists n. rewrite lookup_insert_eq. by rewrite Hn.
  - exists n'. rewrite lookup_insert_ne by done. split; [done|]. by apply IH.
Qed.

(** A node that is its own successor heads no list. *)
Lemma chain_self h l n ls : h !! l = Some n → node_next n = Some l → ¬ chain h (Some l) ls.
Proof.
  intros Hl Hn Hc. pose proof (chain_NoDup _ _ _ Hc) as Hnd.
  destruct ls as [|l' ls]; [done|].
  destruct Hc as [[= <-] (n' & Hn' & Hc)]. simplify_eq. rewrite Hn in Hc.
  destruct ls as [|l' ls]; [done|]. destruct Hc as [[= <-] _].
  apply NoDup_cons in Hnd as [Hni _]. apply Hni. constructor.
Qed.
End chain.

(** The variable [prev] of a loop that stops behind [ls]. *)
Lemma foldl_last (a : option loc) (ls : list loc) :
  foldl (λ _, Some) a ls = match last ls with Some l => Some l | None => a end.
Proof.
  revert a. induction ls as [|l ls IH]; intros a; [done|]. cbn [foldl]. rewrite IH.
  destruct ls as [|l' ls]; [done|]. change (last (l :: l' :: ls)) with (last (l' :: ls)).
  by destruct (last (l' :: ls)) eqn:E; [|apply last_None in E].
Qed.

(** ** Walking a list

    [while (p != NULL) { ...; p = p->next; }] with a local variable [a]: the
    body answers [inl r] for [return r] and [inr a'] to go on. *)
Fixpoint walk {St A R : Type} (next : loc → M St (option loc)) (fuel : nat)
    (p : option loc) (a : A) (body : A → loc → M St (R + A)) : M St (R + A) :=
  match p with
  | None => mret (inr a)
  | Some l =>
      match fuel with
      | O => no_fuel
      | S fuel =>
          r ← body a l;
          match r with
          | inl v => mret (inl v)
          | inr a' => q ← next l; walk next fuel q a' body
          end
      end
  end.

Section walk.
Context {N : Type} `{!Linked N} {St A R : Type} (heap : St → gmap loc N) (next : loc → M St (option loc)).
Hypothesis next_run : ∀ l n s, heap s !! l = Some n → next l s = Done (node_next n, s).

(** A walk whose body never returns and changes nothing. *)
Lemma walk_through (g : A → loc → A) fuel p a (body : A → loc → M St (R + A)) s ls :
  chain (heap s) p ls → length ls < fuel →
  (∀ a l, l ∈ ls → body a l s = Done (inr (g a l), s)) →
  walk next fuel p a body s = Done (inr (foldl g a ls), s).
Proof using next_run.
  revert fuel p a. induction ls as [|l ls IH]; intros fuel p a Hc Hf Hb.
  { cbn in Hc. subst p. by destruct fuel. }
  destruct Hc as [-> (n & Hn & Hc)]. destruct fuel as [|fuel]; [cbn in Hf; lia|].
  cbn [walk foldl]. bind by (apply Hb; constructor). cbv iota. bind (next_run _ _ _ Hn).
  apply IH; [done|cbn in Hf; lia|]. intros b l' Hl'. apply Hb. by constructor.
Qed.

(** The walk that returns at the first node with property [P]. *)
Lemma walk_first (P : loc → Prop) `{!∀ l, Decision (P l)} fuel p
    (body : A → loc → M St (R + A)) s ls (a : A) :
  chain (heap s) p ls → length ls < fuel →
  (∀ l, l ∈ ls → ¬ P l → body a l s = Done (inr a, s)) →
  (∀ l, l ∈ ls → P l → ∃ v s', body a l s = Done (inl v, s')) →
  walk next fuel p a body s =
    match list_find P ls with Some (_, l) => body a l s | None => Done (inr a, s) end.
Proof using next_run.
  revert fuel p. induction ls as [|l ls IH]; intros fuel p Hc Hf Hno Hyes.
  { cbn in Hc. subst p. by destruct fuel. }
  destruct Hc as [-> (n & Hn & Hc)]. destruct fuel as [|fuel]; [cbn in Hf; lia|].
  cbn [walk list_find]. destruct (decide (P l)) as [HP|HP].
  - destruct (Hyes l (list_elem_of_here _ _) HP) as (v & s' & Hb). rewrite Hb. by bind Hb.
  - bind (Hno l (list_elem_of_here _ _) HP). bind (next_run _ _ _ Hn).
    rewrite (IH fuel) by (first [done|cbn in Hf; lia|
      intros; first [apply Hno|apply Hyes]; [by constructor|done]]).
    by destruct (list_find P ls) as [[]|].
Qed.

(** A walk that looks for such a node and changes nothing. *)
Lemma walk_find (P : loc → Prop) `{!∀ l, Decision (P l)} (v : loc → R) fuel p body s ls (a : A) :
  chain (heap s) p ls → length ls < fuel →
  (∀ l, l ∈ ls → body a l s = Done (if decide (P l) then inl (v l) else inr a, s)) →
  walk next fuel p a body s =
    Done (match list_find P ls with Some (_, l) => inl (v l) | None => inr a end, s).
Proof using next_run.
  intros Hc Hf Hb. rewrite (walk_first P fuel p body s ls a Hc Hf).
  - destruct (list_find P ls) as [[i l]|] eqn:E; [|done].
    apply list_find_Some in E as (Hl & HP & _).
    rewrite Hb by (by eapply list_elem_of_lookup_2). by rewrite decide_True.
  - intros l Hl HP. rewrite Hb by done. by rewrite decide_False.
  - intros l Hl HP. rewrite Hb by done. rewrite decide_True by done. by eexists _, _.
Qed.

(** A walk whose body goes on, without a change, until it reaches [l]. *)
Lemma walk_until (g : A → loc → A) fuel p a (body : A → loc → M St (R + A)) s ls1 l ls2 :
  chain (heap s) p (ls1 ++ l :: ls2) → length (ls1 ++ l :: ls2) < fuel →
  (∀ a l', l' ∈ ls1 → body a l' s = Done (inr (g a l'), s)) →
  ∃ fuel', walk next fuel p a body s =
    (r ← body (foldl g a ls1) l;
     match r with
     | inl v => mret (inl v)
     | inr a' => q ← next l; walk next fuel' q a' body
     end) s.
Proof using next_run.
  revert fuel p a. induction ls1 as [|l1 ls1 IH]; intros fuel p a Hc Hf Hb.
  - destruct Hc as [-> _]. destruct fuel as [|fuel]; [cbn in Hf; lia|]. by exists fuel.
  - destruct Hc as [-> (n & Hn & Hc)]. destruct fuel as [|fuel]; [cbn in Hf; lia|].
    destruct (IH fuel (node_next n) (g a l1)) as [fuel' H'].
    { done. } { cbn in Hf. lia. } { intros b l' Hl'. apply Hb. by constructor. }
    exists fuel'. cbn [walk]. bind by (apply Hb; constructor). cbv iota. bind (next_run _ _ _ Hn).
    exact H'.
Qed.

(** A walk from a node that points to itself ends only through its body. *)
Lemma walk_self_diverges fuel l n (a : A) (body : A → loc → M St (R + A)) s :
  heap s !! l = Some n → node_next n = Some l →
  (∀ a, ∃ a', body a l s = Done (inr a', s)) →
  walk next fuel (Some l) a body s = NoFuel.
Proof.
  intros Hl Hn Hb. revert a. induction fuel as [|fuel IH]; intros a; [done|].
  cbn [walk]. destruct (Hb a) as [a' Ha']. bind Ha'.
  bind (next_run _ _ _ Hl). rewrite Hn. apply IH.
Qed.
End walk.
