(* ===== verification/Keeps.v ===== *)
(** * Calls that keep an invariant

    [keeps I m Q]: where call [m] completes from a state with the invariant
    [I], the state has [I] again and the result has [Q].  The rules follow the
    combinators the calls are written with; a hint database per invariant holds
    what is known of the calls already treated. *)

From S2P Require Import Prelude LinkedList.

Section keeps.
Context {S : Type} (I : S → Prop).

Definition keeps {A} (m : M S A) (Q : A → Prop) : Prop :=
  ∀ s a s', I s → m s = Done (a, s') → I s' ∧ Q a.

Context {A B : Type}.
Implicit Types (m : M S A) (Q : A → Prop) (R : B → Prop).

Lemma keeps_ret (a : A) Q : Q a → keeps (mret a) Q.
Proof. by intros Hq s a' s' Hi [= <- <-]. Qed.

Lemma keeps_bind m (k : A → M S B) Q R :
  keeps m Q → (∀ a, Q a → keeps (k a) R) → keeps (m ≫= k) R.
Proof.
  intros Hm Hk s b s' Hi (a & s1 & H1 & H2)%bind_Done_inv.
  destruct (Hm s a s1 Hi H1) as [Hi1 Hq]. by apply (Hk a Hq s1 b s').
Qed.

Lemma keeps_gets (f : S → A) : keeps (gets f) (λ a, ∃ s, I s ∧ a = f s).
Proof. intros s a s' Hi [= <- <-]. eauto. Qed.

Lemma keeps_modify (f : S → S) : (∀ s, I s → I (f s)) → keeps (modify f) (λ _, True).
Proof. intros Hf s a s' Hi [= <- <-]. eauto. Qed.

Lemma keeps_the (o : option A) Q : (∀ a, o = Some a → Q a) → keeps (the o) Q.
Proof.
  intros Ho s a s' Hi H. destruct o as [a'|]; [|done]. injection H as <- <-. eauto.
Qed.

Lemma keeps_the_any (o : option A) : keeps (the o) (λ _, True).
Proof. by apply keeps_the. Qed.

Lemma keeps_undef Q : keeps undef Q.
Proof. done. Qed.
Lemma keeps_no_fuel Q : keeps no_fuel Q.
Proof. by intros s a s' Hi H. Qed.

Lemma keeps_weaken m Q Q' : keeps m Q → (∀ a, Q a → Q' a) → keeps m Q'.
Proof. intros Hm Hq s a s' Hi H. destruct (Hm s a s' Hi H). eauto. Qed.

Lemma keeps_when (b : bool) (c : M S unit) :
  keeps c (λ _, True) → keeps (when b c) (λ _, True).
Proof. destruct b; [done|]. by intros _ s a s' Hi [= <- <-]. Qed.
End keeps.

(** A walk keeps what its body keeps; [P] holds of the local variable, [R] of
    what the body returns. *)
Lemma keeps_walk {S A R : Type} (I : S → Prop) (P : A → Prop) (Q : R → Prop) next fuel p a
    (body : A → loc → M S (R + A)) :
  (∀ l, keeps I (next l) (λ _, True)) → P a →
  (∀ a l, P a → keeps I (body a l) (λ r, match r with inl v => Q v | inr a => P a end)) →
  keeps I (walk next fuel p a body) (λ r, match r with inl v => Q v | inr a => P a end).
Proof.
  intros Hnext Ha Hbody. revert p a Ha. induction fuel as [|fuel IH]; intros [l|] a Ha; cbn [walk];
    try (by apply keeps_ret); [apply keeps_no_fuel|].
  eapply keeps_bind; [by apply Hbody|]. intros [v|a'] Hr; [by apply keeps_ret|].
  eapply keeps_bind; [apply Hnext|]. intros q _. by apply IH.
Qed.

(** A call whose result is reported as part of a pair. *)
Lemma keeps_first {A B S} (I : S → Prop) (m : M S (A * B)) (Q : A → Prop) :
  keeps I m (λ o, Q o.1) → keeps I (o ← m; mret o.1) Q.
Proof. intros Hm. eapply keeps_bind; [exact Hm|]. intros [a b]. apply keeps_ret. Qed.

Lemma keeps_reply {A B S} (I : S → Prop) (m : M S A) (b : B) (Q : A → Prop) :
  keeps I m Q → keeps I (r ← m; mret (r, b)) (λ o, Q o.1).
Proof. intros Hm. eapply keeps_bind; [exact Hm|]. intros a Ha. by apply keeps_ret. Qed.

Create HintDb typed.
#[export] Hint Resolve keeps_gets keeps_modify keeps_the_any keeps_when : typed.

(** [keep] goes through a call action by action; [keep_state] reads the state.
    An action the database does not know is proved to keep the invariant with
    nothing said of its result. *)
Ltac keep_state s Hs := eapply keeps_bind; [apply keeps_gets|]; intros ? (s & Hs & ->).

Ltac keep_step :=
  match goal with
  | |- ∀ _, _ => intro; cbv beta
  | |- keeps _ (match ?x with _ => _ end) _ => destruct x eqn:?
  | |- keeps _ (mret _) _ => apply keeps_ret; try solve [repeat case_match; simplify_eq; eauto with typed]
  | |- keeps _ (_ ≫= _) _ =>
      first [eapply keeps_bind; [solve [eauto with typed]|cbv beta; intros]
            |eapply (keeps_bind _ _ _ (λ _, True)); [|cbv beta; intros]]
  | |- keeps _ _ _ => eapply keeps_weaken; [solve [eauto with typed]|solve [eauto with typed]]
  end.
Ltac keep := repeat keep_step.
