(* ===== verification/Scheduler.v ===== *)
(** * The thread scheduler (kernel/core/scheduler.c)

    A table of 32 thread slots.  [nova_sched_add] takes the first dead slot,
    [nova_sched_pick_next] scans the table for the runnable thread of highest
    priority (fewest quanta, then lowest slot, among equals) and
    [nova_sched_account] charges a thread one quantum. *)

From S2P Require Import Prelude Core.

Module Sched.

Inductive nova_thread_state : Type :=
  | NOVA_THREAD_DEAD | NOVA_THREAD_RUNNABLE | NOVA_THREAD_BLOCKED.

#[export] Instance nova_thread_state_eq_dec : EqDecision nova_thread_state.
Proof. solve_decision. Defined.

Record nova_thread_t : Type := Thread {
  th_id : Z;
  th_priority : Z;
  th_quanta : Z;
  th_state : nova_thread_state;
}.

Record nova_scheduler_t : Type := Scheduler {
  threads : list nova_thread_t;
  count : Z;
  tick : Z;
}.

(** Field assignments. *)
Definition set_th_state (st : nova_thread_state) (t : nova_thread_t) : nova_thread_t :=
  Thread (th_id t) (th_priority t) (th_quanta t) st.
Definition set_th_quanta (q : Z) (t : nova_thread_t) : nova_thread_t :=
  Thread (th_id t) (th_priority t) q (th_state t).
Definition set_threads (l : list nova_thread_t) (s : nova_scheduler_t) : nova_scheduler_t :=
  Scheduler l (count s) (tick s).
Definition set_count (c : Z) (s : nova_scheduler_t) : nova_scheduler_t :=
  Scheduler (threads s) c (tick s).
Definition set_tick (t : Z) (s : nova_scheduler_t) : nova_scheduler_t :=
  Scheduler (threads s) (count s) t.

(** [scheduler->threads[i]], read and written. *)
Definition get_thread (i : nat) : M nova_scheduler_t nova_thread_t :=
  s ← gets (λ s, s);
  the (threads s !! i).
Definition put_thread (i : nat) (t : nova_thread_t) : M nova_scheduler_t unit :=
  s ← gets (λ s, s);
  l ← the (arr_set (threads s) i t);
  modify (set_threads l).

Definition nova_sched_init : M nova_scheduler_t unit :=
  modify (set_count 0);;
  modify (set_tick 0);;
  for_fold NOVA_MAX_THREADS 0 (λ index _,
    t ← get_thread index;
    put_thread index (set_th_state NOVA_THREAD_DEAD t)) tt.

(** The result and, when [*id] is written, its value. *)
Definition nova_sched_add (priority : Z) : M nova_scheduler_t (nova_result * option Z) :=
  r ← for_loop NOVA_MAX_THREADS 0 (λ index,
    t ← get_thread index;
    if decide (th_state t ≠ NOVA_THREAD_DEAD) then mret None
    else
      put_thread index
        (Thread (u32 (u32 (Z.of_nat index) + 1)) priority 0 NOVA_THREAD_RUNNABLE);;
      modify (λ s, set_count (u64 (count s + 1)) s);;
      t' ← get_thread index;
      mret (Some (NOVA_OK, Some (th_id t'))));
  mret (default (NOVA_FULL, None) r).

Definition nova_sched_set_state (id : Z) (state : nova_thread_state)
    : M nova_scheduler_t nova_result :=
  if decide (id = 0 ∨ Z.of_nat NOVA_MAX_THREADS < id)%Z then mret NOVA_NOT_FOUND
  else
    let index := Z.to_nat (id - 1) in
    t ← get_thread index;
    if decide (th_state t = NOVA_THREAD_DEAD) then mret NOVA_NOT_FOUND
    else put_thread index (set_th_state state t);; mret NOVA_OK.

(** The test that replaces the current selection by the candidate. *)
Definition better (candidate current : nova_thread_t) : bool :=
  bool_decide (th_priority current < th_priority candidate ∨
    th_priority candidate = th_priority current ∧
    th_quanta candidate < th_quanta current)%Z.

Definition nova_sched_pick_next : M nova_scheduler_t Z :=
  selected ← for_fold NOVA_MAX_THREADS 0 (λ index selected,
    candidate ← get_thread index;
    if decide (th_state candidate ≠ NOVA_THREAD_RUNNABLE) then mret selected
    else if decide (selected < 0)%Z then mret (i32 (Z.of_nat index))
    else
      current ← get_thread (Z.to_nat selected);
      mret (if better candidate current then i32 (Z.of_nat index) else selected)) (-1)%Z;
  if decide (selected < 0)%Z then mret (-1)%Z
  else t ← get_thread (Z.to_nat selected); mret (i32 (th_id t)).

Definition nova_sched_account (id : Z) : M nova_scheduler_t unit :=
  if decide (id = 0 ∨ Z.of_nat NOVA_MAX_THREADS < id)%Z then mret tt
  else
    let index := Z.to_nat (id - 1) in
    t ← get_thread index;
    when (bool_decide (th_state t ≠ NOVA_THREAD_DEAD)) (
      put_thread index (set_th_quanta (u64 (th_quanta t + 1)) t);;
      modify (λ s, set_tick (u64 (tick s + 1)) s)).

(** ** Running the accessors *)

Lemma get_thread_run i t s : threads s !! i = Some t → get_thread i s = Done (t, s).
Proof. intros H. unfold get_thread. run. by apply the_Some. Qed.

Lemma put_thread_run i t s :
  i < length (threads s) →
  put_thread i t s = Done (tt, set_threads (<[i := t]> (threads s)) s).
Proof. intros H. unfold put_thread. run. bind (the_Some _ _ _ (arr_set_Some _ _ _ H)). by run. Qed.

(** ** Well-formed schedulers *)

Definition thread_typed (t : nova_thread_t) : Prop :=
  in_width 32 (th_id t) ∧ in_width 8 (th_priority t) ∧ in_width 64 (th_quanta t).

(** The C type: 32 slots whose fields have their machine widths. *)
Record sched_typed (s : nova_scheduler_t) : Prop := {
  typed_len : length (threads s) = NOVA_MAX_THREADS;
  typed_slots : Forall thread_typed (threads s);
  typed_count : in_width 64 (count s);
  typed_tick : in_width 64 (tick s);
}.

(** A slot holds its own identifier, one more than its index, once used. *)
Definition slot_ok (i : nat) (t : nova_thread_t) : Prop :=
  th_state t ≠ NOVA_THREAD_DEAD → th_id t = (Z.of_nat i + 1)%Z.

Record sched_wf (s : nova_scheduler_t) : Prop := {
  wf_typed : sched_typed s;
  wf_slots : ∀ i t, threads s !! i = Some t → slot_ok i t;
}.

Lemma wf_len s : sched_wf s → length (threads s) = 32.
Proof. intros [[H _ _ _] _]. exact H. Qed.

Lemma wf_slot_typed s i t : sched_wf s → threads s !! i = Some t → thread_typed t.
Proof. intros [[_ H _ _] _] Ht. by eapply Forall_lookup_1 in Ht. Qed.

Lemma wf_lookup s i : sched_wf s → i < 32 → ∃ t, threads s !! i = Some t.
Proof. intros H Hi. apply lookup_lt_is_Some. by rewrite (wf_len s H). Qed.

Lemma wf_lookup_lt s i t : sched_wf s → threads s !! i = Some t → i < 32.
Proof. intros H Ht%lookup_lt_Some. by rewrite (wf_len s H) in Ht. Qed.

Lemma wf_id s i t :
  sched_wf s → threads s !! i = Some t → th_state t ≠ NOVA_THREAD_DEAD →
  th_id t = (Z.of_nat i + 1)%Z.
Proof. intros Hwf Ht. exact (wf_slots _ Hwf _ _ Ht). Qed.

(** The new state of an operation that rewrites one slot. *)
Lemma wf_update s i t c k :
  sched_wf s → thread_typed t → slot_ok i t → in_width 64 c → in_width 64 k →
  sched_wf (Scheduler (<[i := t]> (threads s)) c k).
Proof.
  intros [[Hl Hs Hc Hk] Hw] Ht Hi Hc' Hk'. split; [split|]; cbn.
  - by rewrite length_insert.
  - by apply Forall_insert_any.
  - done.
  - done.
  - intros j u Hj. apply list_lookup_insert_Some in Hj as [(-> & -> & _)|[_ Hj]]; eauto.
Qed.

(** ** Initialisation *)

Lemma nova_sched_init_run s :
  length (threads s) = NOVA_MAX_THREADS →
  nova_sched_init s =
    Done (tt, Scheduler (set_th_state NOVA_THREAD_DEAD <$> threads s) 0 0).
Proof.
  intros Hl. unfold nova_sched_init. run.
  set (s0 := set_tick 0 (set_count 0 s)).
  destruct (for_fold_inv (λ i _ s', s' = set_threads
    ((set_th_state NOVA_THREAD_DEAD <$> take i (threads s)) ++ drop i (threads s)) s0)
    (λ index _, t ← get_thread index; put_thread index (set_th_state NOVA_THREAD_DEAD t))
    NOVA_MAX_THREADS 0 tt s0) as ([] & s' & -> & ->).
  - by rewrite take_0, drop_0.
  - intros i [] s' Hi ->. exists tt. eexists. split; [|reflexivity].
    destruct (lookup_lt_is_Some_2 (threads s) i) as [t Ht]; [lia|].
    bind by (apply get_thread_run; cbn; rewrite lookup_app_r
      by (rewrite length_fmap, length_take; lia);
      rewrite length_fmap, length_take, Nat.min_l by lia;
      rewrite lookup_drop, Nat.sub_diag, Nat.add_0_r; exact Ht).
    rewrite put_thread_run by
      (cbn; rewrite length_app, length_fmap, length_take, length_drop; lia).
    unfold set_threads; cbn. do 3 f_equal.
    rewrite (take_S_r _ _ _ Ht), fmap_app, insert_app_r_alt
      by (rewrite length_fmap, length_take; lia).
    rewrite length_fmap, length_take, Nat.min_l, Nat.sub_diag by lia.
    rewrite (drop_S _ _ _ Ht). cbn. by rewrite <-app_assoc.
  - rewrite Nat.add_0_l, <-Hl, take_ge, drop_ge, app_nil_r by done. done.
Qed.

Lemma nova_sched_init_wf s s' :
  sched_typed s → nova_sched_init s = Done (tt, s') → sched_wf s'.
Proof.
  intros [Hl Hs Hc Ht]. rewrite nova_sched_init_run by done. intros [= <-].
  split; [split|]; cbn; [by rewrite length_fmap| |done|done|].
  - apply Forall_fmap. by eapply Forall_impl.
  - intros i t Hi. apply list_lookup_fmap_Some in Hi as (u & -> & _). by intros [].
Qed.

(** ** Adding a thread *)

Definition dead (t : nova_thread_t) : Prop := th_state t = NOVA_THREAD_DEAD.
#[export] Instance dead_dec t : Decision (dead t).
Proof. unfold dead. apply _. Defined.

Definition new_thread (i : nat) (priority : Z) : nova_thread_t :=
  Thread (Z.of_nat i + 1) priority 0 NOVA_THREAD_RUNNABLE.

Lemma slot_id_wrap i : i < 32 → u32 (u32 (Z.of_nat i) + 1) = (Z.of_nat i + 1)%Z.
Proof.
  intros Hi. unfold u32. rewrite wrap_add_wrap. apply wrap_small. unfold in_width. lia.
Qed.

Lemma nova_sched_add_run p s :
  length (threads s) = NOVA_MAX_THREADS →
  nova_sched_add p s =
    match list_find dead (threads s) with
    | Some (i, _) => Done ((NOVA_OK, Some (Z.of_nat i + 1)%Z),
        Scheduler (<[i := new_thread i p]> (threads s)) (u64 (count s + 1)) (tick s))
    | None => Done ((NOVA_FULL, None), s)
    end.
Proof.
  intros Hl. unfold nova_sched_add.
  match goal with |- context [for_loop _ _ ?f] => set (body := f) end.
  assert (∀ i t, threads s !! i = Some t → dead t → body i s =
    Done (Some (NOVA_OK, Some (Z.of_nat i + 1)%Z),
      Scheduler (<[i := new_thread i p]> (threads s)) (u64 (count s + 1)) (tick s)))
    as Hdead.
  { intros i t Ht Hd. pose proof (lookup_lt_Some _ _ _ Ht) as Hi. unfold body.
    pose proof Hl as Hl32. sizes.
    bind (get_thread_run _ _ _ Ht). rewrite decide_False by (intros Hn; by apply Hn).
    bind by (apply put_thread_run; lia). run.
    rewrite slot_id_wrap by lia.
    bind by (apply get_thread_run; cbn; apply list_lookup_insert_eq; lia). done. }
  assert (for_loop NOVA_MAX_THREADS 0 body s = match list_find dead (threads s) with
    | Some (i, _) => body i s | None => Done (None, s) end) as Hloop.
  { rewrite <-Hl. apply for_loop_find.
    - intros i t Ht Hd. unfold body. bind (get_thread_run _ _ _ Ht).
      rewrite decide_True by done. by run.
    - intros i t Ht Hd. rewrite (Hdead _ _ Ht Hd). eauto. }
  destruct (list_find dead (threads s)) as [[i t]|] eqn:Hf.
  - apply list_find_Some in Hf as (Ht & Hd & _).
    rewrite (Hdead _ _ Ht Hd) in Hloop. by bind Hloop.
  - by bind Hloop.
Qed.

Lemma new_thread_typed i p : i < 32 → in_width 8 p → thread_typed (new_thread i p).
Proof. intros Hi Hp. unfold thread_typed, in_width in *. cbn. lia. Qed.

Lemma nova_sched_add_wf p s r s' :
  sched_wf s → in_width 8 p → nova_sched_add p s = Done (r, s') → sched_wf s'.
Proof.
  intros Hwf Hp. rewrite nova_sched_add_run by apply Hwf.
  destruct (list_find dead (threads s)) as [[i t]|] eqn:Hf; intros [= <- <-]; [|done].
  apply list_find_Some in Hf as (Ht & _ & _).
  apply wf_update; [done|..].
  - apply new_thread_typed; [|done]. by eapply wf_lookup_lt.
  - done.
  - by apply wrap_range.
  - apply Hwf.
Qed.

(** ** Changing the state of a thread *)

(** [id] names slot [i]. *)
Definition names_slot (id : Z) (i : nat) : Prop := id = (Z.of_nat i + 1)%Z ∧ i < 32.

Lemma id_valid id :
  in_width 32 id →
  (id = 0 ∨ Z.of_nat NOVA_MAX_THREADS < id)%Z ∨ ∃ i, names_slot id i.
Proof.
  unfold in_width, NOVA_MAX_THREADS. intros H.
  destruct (decide (id = 0 ∨ 32 < id)%Z) as [|Hn]; [by left|right].
  exists (Z.to_nat (id - 1)). unfold names_slot. lia.
Qed.

Lemma names_slot_guard id i :
  names_slot id i → ¬ (id = 0 ∨ Z.of_nat NOVA_MAX_THREADS < id)%Z.
Proof. unfold names_slot, NOVA_MAX_THREADS. lia. Qed.

Lemma names_slot_index id i : names_slot id i → Z.to_nat (id - 1) = i.
Proof. unfold names_slot. lia. Qed.

Lemma nova_sched_set_state_bad id st s :
  (id = 0 ∨ Z.of_nat NOVA_MAX_THREADS < id)%Z →
  nova_sched_set_state id st s = Done (NOVA_NOT_FOUND, s).
Proof. intros H. unfold nova_sched_set_state. by rewrite decide_True. Qed.

Lemma nova_sched_set_state_run id i st t s :
  length (threads s) = NOVA_MAX_THREADS →
  names_slot id i → threads s !! i = Some t →
  nova_sched_set_state id st s =
    if decide (dead t) then Done (NOVA_NOT_FOUND, s)
    else Done (NOVA_OK, set_threads (<[i := set_th_state st t]> (threads s)) s).
Proof.
  intros Hl Hid Ht. unfold nova_sched_set_state.
  rewrite decide_False by (by eapply names_slot_guard).
  rewrite (names_slot_index _ _ Hid). bind (get_thread_run _ _ _ Ht).
  unfold dead. destruct (decide (th_state t = _)); [done|].
  bind by (apply put_thread_run; by eapply lookup_lt_Some). done.
Qed.

Lemma nova_sched_set_state_wf id st s r s' :
  sched_wf s → in_width 32 id →
  nova_sched_set_state id st s = Done (r, s') → sched_wf s'.
Proof.
  intros Hwf Hid Hrun. destruct (id_valid id Hid) as [Hbad|[i Hi]].
  { rewrite nova_sched_set_state_bad in Hrun by done. by injection Hrun as <- <-. }
  destruct (wf_lookup s i Hwf (proj2 Hi)) as [t Ht].
  rewrite (nova_sched_set_state_run id i st t) in Hrun by (done || apply Hwf).
  destruct (decide (dead t)) as [|Hd]; injection Hrun as <- <-; [done|].
  apply wf_update; [done|exact (wf_slot_typed _ _ _ Hwf Ht)|..|apply Hwf|apply Hwf].
  intros _. exact (wf_slots _ Hwf _ _ Ht Hd).
Qed.

(** ** Charging a quantum *)

Lemma nova_sched_account_bad id s :
  (id = 0 ∨ Z.of_nat NOVA_MAX_THREADS < id)%Z →
  nova_sched_account id s = Done (tt, s).
Proof. intros H. unfold nova_sched_account. by rewrite decide_True. Qed.

Definition charged (t : nova_thread_t) : nova_thread_t :=
  set_th_quanta (u64 (th_quanta t + 1)) t.

Lemma nova_sched_account_run id i t s :
  length (threads s) = NOVA_MAX_THREADS →
  names_slot id i → threads s !! i = Some t →
  nova_sched_account id s =
    if decide (dead t) then Done (tt, s)
    else Done (tt, Scheduler (<[i := charged t]> (threads s)) (count s)
                     (u64 (tick s + 1))).
Proof.
  intros Hl Hid Ht. unfold nova_sched_account.
  rewrite decide_False by (by eapply names_slot_guard).
  rewrite (names_slot_index _ _ Hid). bind (get_thread_run _ _ _ Ht).
  unfold dead. destruct (decide (th_state t = _)) as [Hd|Hd].
  - by rewrite bool_decide_eq_false_2 by (intros Hn; by apply Hn).
  - rewrite bool_decide_eq_true_2 by done. cbn [when].
    by bind by (apply put_thread_run; by eapply lookup_lt_Some).
Qed.

Lemma nova_sched_account_wf id s s' :
  sched_wf s → in_width 32 id → nova_sched_account id s = Done (tt, s') → sched_wf s'.
Proof.
  intros Hwf Hid Hrun. destruct (id_valid id Hid) as [Hbad|[i Hi]].
  { rewrite nova_sched_account_bad in Hrun by done. by injection Hrun as <-. }
  destruct (wf_lookup s i Hwf (proj2 Hi)) as [t Ht].
  rewrite (nova_sched_account_run id i t) in Hrun by (done || apply Hwf).
  destruct (decide (dead t)) as [|Hd]; injection Hrun as <-; [done|].
  pose proof (wf_slot_typed _ _ _ Hwf Ht) as (Hti & Htp & _).
  apply wf_update; [done|..].
  - split; [done|split; [done|by apply wrap_range]].
  - intros _. exact (wf_slots _ Hwf _ _ Ht Hd).
  - apply Hwf.
  - by apply wrap_range.
Qed.

(** ** Picking the next thread *)

Definition runnable (t : nova_thread_t) : Prop := th_state t = NOVA_THREAD_RUNNABLE.
#[export] Instance runnable_dec t : Decision (runnable t).
Proof. unfold runnable. apply _. Defined.

(** Thread [t] of slot [i] goes before thread [u] of slot [j]: higher priority,
    then fewer quanta, then lower slot. *)
Definition goes_before (i : nat) (t : nova_thread_t) (j : nat) (u : nova_thread_t) : Prop :=
  (th_priority u < th_priority t ∨
   th_priority u = th_priority t ∧
     (th_quanta t < th_quanta u ∨ th_quanta t = th_quanta u ∧ (i ≤ j)%nat))%Z.

(** Slot [i] holds the first thread of the order above among the runnable
    threads of the slots below [n]. *)
Definition first_among (l : list nova_thread_t) (n i : nat) (t : nova_thread_t) : Prop :=
  l !! i = Some t ∧ runnable t ∧ i < n ∧
  ∀ j u, j < n → l !! j = Some u → runnable u → goes_before i t j u.

Definition none_runnable (l : list nova_thread_t) (n : nat) : Prop :=
  ∀ j u, j < n → l !! j = Some u → ¬ runnable u.

(** What the scan has found after [n] slots. *)
Definition scan_inv (l : list nova_thread_t) (n : nat) (selected : Z) : Prop :=
  (selected = -1 ∧ none_runnable l n)%Z ∨
  ∃ i t, selected = Z.of_nat i ∧ first_among l n i t.

Lemma i32_index i : i < 32 → i32 (Z.of_nat i) = Z.of_nat i.
Proof. intros H. apply swrap_small; lia. Qed.

(** The scan passes over slot [n]. *)
Lemma scan_inv_skip l n selected u :
  l !! n = Some u → ¬ runnable u → scan_inv l n selected → scan_inv l (S n) selected.
Proof.
  intros Hu Hr [[-> Hno]|(i & t & -> & Ht & Hrt & Hi & Hbest)]; [left|right].
  - split; [done|]. intros j v Hj Hv.
    destruct (decide (j = n)) as [->|]; [naive_solver|]. apply (Hno j); [lia|done].
  - exists i, t. split; [done|]. split_and!; [done|done|lia|].
    intros j v Hj Hv. destruct (decide (j = n)) as [->|]; [naive_solver|].
    apply Hbest; [lia|done].
Qed.

(** The scan selects its first runnable slot. *)
Lemma scan_inv_start l n u :
  l !! n = Some u → runnable u → none_runnable l n → scan_inv l (S n) (Z.of_nat n).
Proof.
  intros Hu Hr Hno. right. exists n, u. split; [done|]. split_and!; [done|done|lia|].
  intros j v Hj Hv Hrv. destruct (decide (j = n)) as [->|].
  - simplify_eq. unfold goes_before. lia.
  - exfalso. apply (Hno j v); [lia|done|done].
Qed.

(** The scan compares a runnable slot with its selection. *)
Lemma scan_inv_compare l n u i t :
  l !! n = Some u → runnable u → first_among l n i t →
  scan_inv l (S n) (if better u t then Z.of_nat n else Z.of_nat i).
Proof.
  intros Hu Hr (Ht & Hrt & Hi & Hbest). right. unfold better.
  case_bool_decide as Hb; [exists n, u|exists i, t];
    (split; [done|]); (split_and!; [done|done|lia|]); intros j v Hj Hv Hrv;
    (destruct (decide (j = n)) as [->|]; [simplify_eq; unfold goes_before; lia|]);
    specialize (Hbest j v ltac:(lia) Hv Hrv); unfold goes_before in *; lia.
Qed.

Lemma nova_sched_pick_next_run s :
  length (threads s) = NOVA_MAX_THREADS →
  ∃ selected, scan_inv (threads s) NOVA_MAX_THREADS selected ∧
    nova_sched_pick_next s = Done
      (match threads s !! Z.to_nat selected with
       | Some t => if decide (selected < 0)%Z then (-1)%Z else i32 (th_id t)
       | None => (-1)%Z end, s).
Proof.
  intros Hl. unfold nova_sched_pick_next.
  match goal with |- context [for_fold _ _ ?f _] => set (body := f) end.
  destruct (for_fold_inv (λ n selected s', s' = s ∧ scan_inv (threads s) n selected)
    body NOVA_MAX_THREADS 0 (-1)%Z s) as (selected & s' & Hrun & -> & Hinv).
  { split; [done|]. left. split; [done|]. intros j u Hj. lia. }
  { intros n selected s' Hn [-> Hinv]. sizes.
    destruct (lookup_lt_is_Some_2 (threads s) n) as [u Hu]; [lia|].
    unfold body. bind (get_thread_run _ _ _ Hu).
    destruct (decide (th_state u ≠ _)) as [Hr|Hr%dec_stable].
    { exists selected, s. run. split_and!; [done|done|by eapply scan_inv_skip]. }
    destruct Hinv as [[-> Hno]|(i & t & -> & Hf)].
    { rewrite decide_True by lia. run. rewrite i32_index by lia.
      eexists _, s. split_and!; [done|done|by eapply scan_inv_start]. }
    rewrite decide_False, Nat2Z.id by lia.
    bind (get_thread_run _ _ _ (proj1 Hf)). run. rewrite i32_index by lia.
    eexists _, s. split_and!; [done|done|by apply scan_inv_compare]. }
  exists selected. split; [exact Hinv|]. bind Hrun.
  destruct Hinv as [[-> Hno]|(i & t & -> & Ht & _)].
  - rewrite decide_True by lia. by destruct (threads s !! _).
  - rewrite Nat2Z.id, Ht, !decide_False by lia. by bind (get_thread_run _ _ _ Ht).
Qed.

(** What the scheduler promises of a choice [r]. *)
Definition choice_ok (l : list nova_thread_t) (r : Z) : Prop :=
  (r = -1 ∧ ∀ i t, l !! i = Some t → ¬ runnable t)%Z ∨
  ∃ i t, r = (Z.of_nat i + 1)%Z ∧ l !! i = Some t ∧ runnable t ∧
    ∀ j u, l !! j = Some u → runnable u → goes_before i t j u.

Lemma pick_next_choice s :
  sched_wf s → ∃ r, nova_sched_pick_next s = Done (r, s) ∧ choice_ok (threads s) r.
Proof.
  intros Hwf. destruct (nova_sched_pick_next_run s) as (selected & Hinv & ->);
    [apply Hwf|].
  eexists. split; [done|].
  destruct Hinv as [[-> Hno]|(i & t & -> & Ht & Hr & Hi & Hbest)].
  - left. split; [by destruct (threads s !! _)|].
    intros i t Ht. apply (Hno i); [by eapply wf_lookup_lt|done].
  - right. exists i, t. rewrite Nat2Z.id, Ht, decide_False by lia.
    rewrite (wf_id _ _ _ Hwf Ht) by (unfold runnable in Hr; congruence).
    sizes. split_and!; [|done|done|].
    + apply swrap_small; lia.
    + intros j u Hu. apply Hbest; [by eapply wf_lookup_lt|done].
Qed.

(** ** Sequences of operations *)

Inductive sched_op : Type :=
  | OpAdd (priority : Z)
  | OpSetState (id : Z) (state : nova_thread_state)
  | OpPick
  | OpAccount (id : Z).

(** The arguments have their C types. *)
Definition op_typed (op : sched_op) : Prop :=
  match op with
  | OpAdd priority => in_width 8 priority
  | OpSetState id _ | OpAccount id => in_width 32 id
  | OpPick => True
  end.
#[export] Instance op_typed_dec op : Decision (op_typed op).
Proof. destruct op; cbn; apply _. Defined.

Definition exec_op (op : sched_op) : M nova_scheduler_t unit :=
  match op with
  | OpAdd priority => nova_sched_add priority;; mret tt
  | OpSetState id state => nova_sched_set_state id state;; mret tt
  | OpPick => nova_sched_pick_next;; mret tt
  | OpAccount id => nova_sched_account id
  end.

Fixpoint exec_ops (ops : list sched_op) : M nova_scheduler_t unit :=
  match ops with
  | [] => mret tt
  | op :: ops => exec_op op;; exec_ops ops
  end.

Lemma nova_sched_set_state_total id st s :
  sched_wf s → in_width 32 id → ∃ r s', nova_sched_set_state id st s = Done (r, s').
Proof.
  intros Hwf Hid. destruct (id_valid id Hid) as [Hbad|[i Hi]].
  { rewrite nova_sched_set_state_bad by done. eauto. }
  destruct (wf_lookup s i Hwf (proj2 Hi)) as [t Ht].
  rewrite (nova_sched_set_state_run id i st t) by (done || apply Hwf).
  destruct (decide _); eauto.
Qed.

Lemma nova_sched_account_total id s :
  sched_wf s → in_width 32 id → ∃ s', nova_sched_account id s = Done (tt, s').
Proof.
  intros Hwf Hid. destruct (id_valid id Hid) as [Hbad|[i Hi]].
  { rewrite nova_sched_account_bad by done. eauto. }
  destruct (wf_lookup s i Hwf (proj2 Hi)) as [t Ht].
  rewrite (nova_sched_account_run id i t) by (done || apply Hwf).
  destruct (decide _); eauto.
Qed.

Lemma exec_op_wf op s :
  sched_wf s → op_typed op → ∃ s', exec_op op s = Done (tt, s') ∧ sched_wf s'.
Proof.
  intros Hwf Hop. destruct op as [p|id st| |id]; cbn [exec_op] in *.
  - destruct (nova_sched_add p s) as [[r s']| |] eqn:Hr.
    + exists s'. bind Hr. split; [done|]. by eapply nova_sched_add_wf.
    + rewrite nova_sched_add_run in Hr by apply Hwf. by repeat case_match.
    + rewrite nova_sched_add_run in Hr by apply Hwf. by repeat case_match.
  - destruct (nova_sched_set_state_total id st s Hwf Hop) as (r & s' & Hr).
    exists s'. bind Hr. split; [done|]. by eapply nova_sched_set_state_wf.
  - destruct (pick_next_choice s Hwf) as (r & Hr & _). exists s. by bind Hr.
  - destruct (nova_sched_account_total id s Hwf Hop) as [s' Hr].
    exists s'. split; [done|]. by eapply nova_sched_account_wf.
Qed.

Lemma exec_ops_wf ops s :
  sched_wf s → Forall op_typed ops → ∃ s', exec_ops ops s = Done (tt, s') ∧ sched_wf s'.
Proof.
  intros Hwf Hops. revert s Hwf. induction Hops as [|op ops Hop _ IH]; intros s Hwf.
  { by exists s. }
  destruct (exec_op_wf op s Hwf Hop) as (s1 & Hr & Hwf1).
  destruct (IH s1 Hwf1) as (s' & Hr' & Hwf').
  exists s'. cbn [exec_ops]. by bind Hr.
Qed.

(** ** Fair sharing *)

(** One scheduling round, as test_scheduler composes it: pick, then charge. *)
Definition dispatch : M nova_scheduler_t Z :=
  r ← nova_sched_pick_next;
  when (bool_decide (0 ≤ r)%Z) (nova_sched_account (u32 r));;
  mret r.

Fixpoint dispatches (n : nat) : M nova_scheduler_t unit :=
  match n with
  | O => mret tt
  | S n => dispatch;; dispatches n
  end.

(** The runnable threads of priority [p]. *)
Definition at_level (p : Z) (t : nova_thread_t) : Prop := runnable t ∧ th_priority t = p.
#[export] Instance at_level_dec p t : Decision (at_level p t).
Proof. unfold at_level. apply _. Defined.

Fixpoint level_size (p : Z) (l : list nova_thread_t) : Z :=
  match l with
  | [] => 0
  | t :: l => (if decide (at_level p t) then 1 else 0) + level_size p l
  end.
Fixpoint level_sum (p : Z) (l : list nova_thread_t) : Z :=
  match l with
  | [] => 0
  | t :: l => (if decide (at_level p t) then th_quanta t else 0) + level_sum p l
  end.

(** [p] is the highest priority of a runnable thread. *)
Definition top_level (p : Z) (l : list nova_thread_t) : Prop :=
  (∃ i t, l !! i = Some t ∧ at_level p t) ∧
  ∀ i t, l !! i = Some t → runnable t → (th_priority t ≤ p)%Z.

(** The quanta of level [p] lie between [q] and [q + 1], and below [b]. *)
Definition level_within (p q b : Z) (l : list nova_thread_t) : Prop :=
  ∀ i t, l !! i = Some t → at_level p t →
    (q ≤ th_quanta t ≤ q + 1)%Z ∧ (th_quanta t < b)%Z.

Lemma level_size_insert p l i t t' :
  l !! i = Some t → at_level p t → at_level p t' →
  level_size p (<[i := t']> l) = level_size p l.
Proof.
  revert i. induction l as [|u l IH]; intros [|i] Hi Ht Ht'; try done; cbn in *.
  - injection Hi as ->. by rewrite !decide_True.
  - by rewrite IH.
Qed.

Lemma level_sum_insert p l i t t' :
  l !! i = Some t → at_level p t → at_level p t' →
  (level_sum p (<[i := t']> l) = level_sum p l - th_quanta t + th_quanta t')%Z.
Proof.
  revert i. induction l as [|u l IH]; intros [|i] Hi Ht Ht'; try done.
  - injection Hi as ->. cbn. rewrite !decide_True by done. lia.
  - change (<[S i := t']> (u :: l)) with (u :: <[i := t']> l). cbn [level_sum].
    rewrite (IH i) by done. lia.
Qed.

Lemma level_sum_le p l m :
  (∀ i t, l !! i = Some t → at_level p t → (th_quanta t ≤ m)%Z) →
  (level_sum p l ≤ level_size p l * m)%Z.
Proof.
  induction l as [|u l IH]; intros H; cbn; [lia|].
  pose proof (IH (λ i t, H (S i) t)). pose proof (H 0 u eq_refl).
  destruct (decide (at_level p u)); [|lia]. specialize (H1 a). lia.
Qed.

Lemma level_sum_ge p l m :
  (∀ i t, l !! i = Some t → at_level p t → (m ≤ th_quanta t)%Z) →
  (level_size p l * m ≤ level_sum p l)%Z.
Proof.
  induction l as [|u l IH]; intros H; cbn; [lia|].
  pose proof (IH (λ i t, H (S i) t)). pose proof (H 0 u eq_refl).
  destruct (decide (at_level p u)); [|lia]. specialize (H1 a). lia.
Qed.

(** One thread below the bound makes the sum strictly smaller. *)
Lemma level_sum_lt p l m i t :
  l !! i = Some t → at_level p t → (th_quanta t < m)%Z →
  (∀ j u, l !! j = Some u → at_level p u → (th_quanta u ≤ m)%Z) →
  (level_sum p l < level_size p l * m)%Z.
Proof.
  intros Hi Ht Hlt H.
  pose proof (level_sum_le p (<[i := set_th_quanta (th_quanta t + 1) t]> l) m) as Hle.
  rewrite (level_sum_insert p l i t), (level_size_insert p l i t) in Hle by done.
  cbn in Hle. enough (level_sum p l - th_quanta t + (th_quanta t + 1) ≤
    level_size p l * m)%Z by lia. apply Hle.
  intros j u [(-> & <- & _)|[_ Hj]]%list_lookup_insert_Some Hu; cbn; [lia|eauto].
Qed.

Lemma level_size_pos p l i t : l !! i = Some t → at_level p t → (0 < level_size p l)%Z.
Proof.
  assert (∀ l, 0 ≤ level_size p l)%Z as Hnn.
  { clear. induction l; cbn; [lia|]. destruct (decide _); lia. }
  revert i. induction l as [|u l IH]; intros [|i] Hi Ht; try done; cbn in *.
  - injection Hi as ->. rewrite decide_True by done. specialize (Hnn l). lia.
  - specialize (IH i Hi Ht). destruct (decide _); lia.
Qed.

(** A round charges a thread of the top level with the fewest quanta. *)
Lemma dispatch_run p s :
  sched_wf s → top_level p (threads s) →
  ∃ i t, threads s !! i = Some t ∧ at_level p t ∧
    (∀ j u, threads s !! j = Some u → at_level p u → th_quanta t ≤ th_quanta u)%Z ∧
    dispatch s = Done (Z.of_nat i + 1, Scheduler (<[i := charged t]> (threads s))
      (count s) (u64 (tick s + 1)))%Z.
Proof.
  intros Hwf [(i0 & t0 & Hi0 & Hr0 & Hp0) Htop].
  destruct (pick_next_choice s Hwf) as (r & Hpick & [[-> Hno]|(i & t & -> & Ht & Hr & Hbest)]).
  { by destruct (Hno i0 t0 Hi0). }
  pose proof (Hbest _ _ Hi0 Hr0) as Hb0. pose proof (Htop _ _ Ht Hr).
  pose proof (wf_lookup_lt _ _ _ Hwf Ht) as Hi.
  exists i, t. unfold goes_before in *. split_and!; [done|split; [done|lia]|..].
  - intros j u Hu [Hru Hpu]. specialize (Hbest _ _ Hu Hru). lia.
  - unfold dispatch. bind Hpick. rewrite bool_decide_eq_true_2 by lia.
    assert (u32 (Z.of_nat i + 1) = (Z.of_nat i + 1)%Z) as ->
      by (apply wrap_small; unfold in_width; lia).
    pose proof (nova_sched_account_run (Z.of_nat i + 1) i t s (wf_len _ Hwf)
      (conj eq_refl Hi) Ht) as Hacc.
    rewrite decide_False in Hacc by (unfold dead, runnable in *; congruence).
    cbn [when]. by bind Hacc.
Qed.

Lemma at_level_charged p t : at_level p t → at_level p (charged t).
Proof. by intros []. Qed.

Lemma top_level_insert p l i t t' :
  top_level p l → l !! i = Some t → at_level p t → at_level p t' →
  top_level p (<[i := t']> l).
Proof.
  intros [_ Htop] Hi Ht Ht'. pose proof (lookup_lt_Some _ _ _ Hi). split.
  - exists i, t'. split; [by apply list_lookup_insert_eq|done].
  - intros j u [(-> & <- & _)|[_ Hj]]%list_lookup_insert_Some Hru; [|eauto].
    destruct Ht' as [_ ->]. lia.
Qed.

Lemma charged_quanta t : in_width 64 (th_quanta t + 1) →
  th_quanta (charged t) = (th_quanta t + 1)%Z.
Proof. intros H. by apply wrap_small. Qed.

Lemma dispatch_step p s q b :
  sched_wf s → top_level p (threads s) → level_within p q b (threads s) →
  (b < 2 ^ 64)%Z →
  ∃ r s' q', dispatch s = Done (r, s') ∧ sched_wf s' ∧ top_level p (threads s') ∧
    (q ≤ q')%Z ∧ level_within p q' (b + 1) (threads s') ∧
    level_size p (threads s') = level_size p (threads s) ∧
    level_sum p (threads s') = (level_sum p (threads s) + 1)%Z.
Proof.
  intros Hwf Htop Hin Hb.
  destruct (dispatch_run p s Hwf Htop) as (i & t & Ht & Hat & Hmin & Hrun).
  destruct (Hin _ _ Ht Hat) as [Hq Hlt].
  pose proof (wf_slot_typed _ _ _ Hwf Ht) as (Hti & Htp & Htq).
  assert (in_width 64 (th_quanta t + 1)) as Hno by (unfold in_width in *; lia).
  pose proof (charged_quanta t Hno) as Hc.
  pose proof (at_level_charged _ _ Hat) as Hat'.
  eexists _, _, (if decide (th_quanta t = q) then q else q + 1)%Z.
  split; [exact Hrun|]. cbn [threads].
  split_and!; [..|by apply (level_size_insert p _ _ t)|].
  - apply wf_update; [done| | |apply Hwf|by apply wrap_range].
    + split; [done|split; [done|by apply wrap_range]].
    + intros _. apply (wf_id _ _ _ Hwf Ht). by destruct Hat as [-> _].
  - by apply (top_level_insert p _ _ t).
  - destruct (decide _); lia.
  - intros j u [(-> & <- & _)|[_ Hj]]%list_lookup_insert_Some Hu.
    + rewrite Hc. destruct (decide _); lia.
    + destruct (Hin _ _ Hj Hu). specialize (Hmin _ _ Hj Hu). destruct (decide _); lia.
  - rewrite (level_sum_insert p _ _ t) by done. lia.
Qed.

Lemma dispatches_step p n s q b :
  sched_wf s → top_level p (threads s) → level_within p q b (threads s) →
  (b + Z.of_nat n ≤ 2 ^ 64)%Z →
  ∃ s' q', dispatches n s = Done (tt, s') ∧ sched_wf s' ∧
    (q ≤ q')%Z ∧ level_within p q' (b + Z.of_nat n) (threads s') ∧
    level_size p (threads s') = level_size p (threads s) ∧
    level_sum p (threads s') = (level_sum p (threads s) + Z.of_nat n)%Z.
Proof.
  revert s q b. induction n as [|n IH]; intros s q b Hwf Htop Hin Hb.
  { exists s, q. rewrite !Z.add_0_r. by split_and!. }
  destruct (dispatch_step p s q b Hwf Htop Hin) as
    (r & s1 & q1 & Hr & Hwf1 & Htop1 & Hq1 & Hin1 & Hsz1 & Hsum1); [lia|].
  destruct (IH s1 q1 (b + 1)%Z Hwf1 Htop1 Hin1) as
    (s' & q' & Hr' & Hwf' & Hq' & Hin' & Hsz' & Hsum'); [lia|].
  exists s', q'. cbn [dispatches]. bind Hr.
  split_and!; [done|done|lia| |congruence|lia].
  by replace (b + Z.of_nat (S n))%Z with (b + 1 + Z.of_nat n)%Z by lia.
Qed.

(** Within a spread of one, the sum of the level gives each thread its share. *)
Lemma level_share p l q q' b n i t :
  level_within p q' b l → (level_size p l * q + n ≤ level_sum p l)%Z → (0 ≤ n)%Z →
  l !! i = Some t → at_level p t →
  (q + n / level_size p l ≤ th_quanta t)%Z.
Proof.
  intros Hin Hsum Hn Hi Ht. pose proof (level_size_pos p l i t Hi Ht) as Hpos.
  destruct (Hin _ _ Hi Ht) as [Hq _].
  assert (level_sum p l < level_size p l * (th_quanta t + 1))%Z as Hlt.
  { apply (level_sum_lt p l _ i t Hi Ht); [lia|].
    intros j u Hj Hu. destruct (Hin _ _ Hj Hu). lia. }
  assert (n < level_size p l * (th_quanta t + 1 - q))%Z as Hd by lia.
  apply Z.div_lt_upper_bound in Hd; lia.
Qed.

(** ** The thread counter *)

(** Add a thread and kill it again, [n] times. *)
Fixpoint churn (n : nat) (priority : Z) : M nova_scheduler_t unit :=
  match n with
  | O => mret tt
  | S n =>
      r ← nova_sched_add priority;
      nova_sched_set_state (default 0%Z (snd r)) NOVA_THREAD_DEAD;;
      churn n priority
  end.

Definition all_dead (l : list nova_thread_t) : Prop := Forall dead l.

Lemma churn_run n p s :
  sched_wf s → in_width 8 p → all_dead (threads s) →
  ∃ s', churn n p s = Done (tt, s') ∧ all_dead (threads s') ∧
    count s' = u64 (count s + Z.of_nat n).
Proof.
  intros Hwf Hp. revert s Hwf. induction n as [|n IH]; intros s Hwf Hall.
  { exists s. split_and!; [done|done|]. rewrite Z.add_0_r. symmetry.
    apply wrap_small, Hwf. }
  destruct (wf_lookup s 0 Hwf) as [t Ht]; [lia|].
  pose proof (proj1 (Forall_lookup _ _) Hall 0 t Ht) as Hd.
  assert (list_find dead (threads s) = Some (0, t)) as Hf.
  { apply list_find_Some. split_and!; [done|done|]. intros j y _ Hj. lia. }
  pose proof (nova_sched_add_run p s (wf_len _ Hwf)) as Hadd.
  rewrite Hf in Hadd. pose proof (nova_sched_add_wf _ _ _ _ Hwf Hp Hadd) as Hwf1.
  set (s1 := Scheduler _ _ _) in *.
  assert (threads s1 !! 0 = Some (new_thread 0 p)) as Ht1.
  { cbn. apply list_lookup_insert_eq. by eapply lookup_lt_Some. }
  pose proof (nova_sched_set_state_run 1 0 NOVA_THREAD_DEAD _ s1 (wf_len _ Hwf1)
    (conj eq_refl (Nat.lt_0_succ 31)) Ht1) as Hkill.
  rewrite decide_False in Hkill by done.
  pose proof (nova_sched_set_state_wf 1 _ _ _ _ Hwf1 ltac:(done) Hkill) as Hwf2.
  destruct (IH _ Hwf2) as (s' & Hr & Hall' & Hc).
  { cbn. rewrite list_insert_insert_eq. by apply Forall_insert_any. }
  exists s'. cbn [churn]. bind Hadd. cbn [snd default]. bind Hkill.
  split_and!; [done|done|]. rewrite Hc. cbn. unfold u64. rewrite wrap_add_wrap.
  f_equal. lia.
Qed.

(** * Properties *)

(** A zero-filled scheduler, for the concrete runs below. *)
Definition blank : nova_scheduler_t :=
  Scheduler (replicate 32 (Thread 0 0 0 NOVA_THREAD_DEAD)) 0 0.

Lemma sched_blank_typed : sched_typed blank.
Proof. split; [done|by apply Forall_replicate|done|done]. Qed.

Lemma blank_wf : sched_wf blank.
Proof.
  split; [apply sched_blank_typed|]. intros i t [-> _]%lookup_replicate_1 Hn. by destruct Hn.
Qed.

(** The scheduler of test_scheduler: two threads, priorities 10 and 50. *)
Definition two_threads : nova_scheduler_t :=
  Scheduler (Thread 1 10 0 NOVA_THREAD_RUNNABLE :: Thread 2 50 0 NOVA_THREAD_RUNNABLE ::
    replicate 30 (Thread 0 0 0 NOVA_THREAD_DEAD)) 2 0.

Lemma two_threads_wf : sched_wf two_threads.
Proof.
  destruct (exec_ops_wf [OpAdd 10; OpAdd 50] blank) as (s & Hr & Hwf).
  - apply blank_wf.
  - by repeat constructor.
  - vm_compute in Hr. by injection Hr as <-.
Qed.

(** Whatever memory the scheduler is built in, nova_sched_init followed by
    any sequence of calls with arguments of their C types completes without an
    out-of-bounds access and leaves a well-formed table: 32 slots of
    machine-width fields in which every live slot i carries the id i + 1. *)
Theorem nova_sched_run_safe (s0 : nova_scheduler_t) (ops : list sched_op) :
  sched_typed s0 → Forall op_typed ops →
  ∃ s1 s2, nova_sched_init s0 = Done (tt, s1) ∧ exec_ops ops s1 = Done (tt, s2) ∧
    sched_wf s1 ∧ sched_wf s2.
Proof.
  intros H0 Hops. pose proof (nova_sched_init_run s0 (typed_len _ H0)) as Hinit.
  pose proof (nova_sched_init_wf _ _ H0 Hinit) as Hwf.
  destruct (exec_ops_wf ops _ Hwf Hops) as (s2 & Hr & Hwf2). eauto 10.
Qed.

Lemma nova_sched_run_safe_witness :
  ∃ s1 s2, nova_sched_init blank = Done (tt, s1) ∧
    exec_ops [OpAdd 10; OpAdd 50; OpPick; OpAccount 2;
              OpSetState 2 NOVA_THREAD_BLOCKED; OpSetState 40 NOVA_THREAD_DEAD] s1
      = Done (tt, s2) ∧ sched_wf s1 ∧ sched_wf s2.
Proof.
  apply nova_sched_run_safe; [apply sched_blank_typed|]. by repeat constructor.
Defined.

(** C6. nova_sched_pick_next returns -1 exactly when no thread is runnable, and
    otherwise the id of a runnable thread that no other runnable thread
    precedes in the order higher priority, then fewer quanta, then lower slot;
    it changes nothing. *)
Theorem nova_sched_pick_next_correct (s : nova_scheduler_t) :
  sched_wf s →
  ∃ r, nova_sched_pick_next s = Done (r, s) ∧
    ((r = -1 ∧ ∀ i t, threads s !! i = Some t → ¬ runnable t)%Z ∨
     ∃ i t, r = (Z.of_nat i + 1)%Z ∧ threads s !! i = Some t ∧ runnable t ∧
       ∀ j u, threads s !! j = Some u → runnable u → goes_before i t j u).
Proof. apply pick_next_choice. Qed.

Lemma nova_sched_pick_next_correct_witness :
  nova_sched_pick_next two_threads = Done (2%Z, two_threads) ∧
  ∃ r, nova_sched_pick_next two_threads = Done (r, two_threads) ∧
    ((r = -1 ∧ ∀ i t, threads two_threads !! i = Some t → ¬ runnable t)%Z ∨
     ∃ i t, r = (Z.of_nat i + 1)%Z ∧ threads two_threads !! i = Some t ∧ runnable t ∧
       ∀ j u, threads two_threads !! j = Some u → runnable u → goes_before i t j u).
Proof.
  split; [reflexivity|]. apply nova_sched_pick_next_correct, two_threads_wf.
Defined.

(** C16. Fair share: when the runnable threads of the highest priority p have
    quanta in [q, q+1], then after any n rounds of pick-and-account (short of
    counter overflow) their quanta still differ by at most one, and every one
    of them has received its share: at least q + n / (number of such threads).
    So no thread of that level starves. *)
Theorem nova_sched_fair (p : Z) (n : nat) (s : nova_scheduler_t) (q b : Z) :
  sched_wf s → top_level p (threads s) → level_within p q b (threads s) →
  (b + Z.of_nat n ≤ 2 ^ 64)%Z →
  ∃ s' q', dispatches n s = Done (tt, s') ∧
    ∀ i t, threads s' !! i = Some t → at_level p t →
      (q' ≤ th_quanta t ≤ q' + 1)%Z ∧
      (q + Z.of_nat n / level_size p (threads s) ≤ th_quanta t)%Z.
Proof.
  intros Hwf Htop Hin Hb.
  destruct (dispatches_step p n s q b Hwf Htop Hin Hb) as
    (s' & q' & Hr & Hwf' & Hq & Hin' & Hsz & Hsum).
  exists s', q'. split; [done|]. intros i t Hi Ht. split; [by eapply Hin'|].
  rewrite <-Hsz. eapply level_share; [done| |lia|done|done].
  rewrite Hsz, Hsum. enough (level_size p (threads s) * q ≤ level_sum p (threads s))%Z
    by lia.
  apply level_sum_ge. intros j u Hj Hu. by apply (Hin j u).
Qed.

(** Three threads of priority 10. *)
Definition three_peers : nova_scheduler_t :=
  Scheduler (Thread 1 10 0 NOVA_THREAD_RUNNABLE :: Thread 2 10 0 NOVA_THREAD_RUNNABLE ::
    Thread 3 10 0 NOVA_THREAD_RUNNABLE ::
    replicate 29 (Thread 0 0 0 NOVA_THREAD_DEAD)) 3 0.

Lemma three_peers_wf : sched_wf three_peers.
Proof.
  destruct (exec_ops_wf [OpAdd 10; OpAdd 10; OpAdd 10] blank) as (s & Hr & Hwf).
  - apply blank_wf.
  - by repeat constructor.
  - vm_compute in Hr. by injection Hr as <-.
Qed.

Lemma three_peers_slot i t :
  threads three_peers !! i = Some t → th_quanta t = 0%Z ∧ (th_priority t ≤ 10)%Z.
Proof.
  apply (Forall_lookup_1 (λ t, th_quanta t = 0%Z ∧ (th_priority t ≤ 10)%Z)).
  repeat constructor; cbn; lia.
Qed.

Lemma nova_sched_fair_witness :
  ∃ s' q', dispatches 7 three_peers = Done (tt, s') ∧
    ∀ i t, threads s' !! i = Some t → at_level 10 t →
      (q' ≤ th_quanta t ≤ q' + 1)%Z ∧
      (0 + Z.of_nat 7 / level_size 10 (threads three_peers) ≤ th_quanta t)%Z.
Proof.
  apply (nova_sched_fair 10 7 three_peers 0 1).
  - apply three_peers_wf.
  - split.
    + exists 0, (Thread 1 10 0 NOVA_THREAD_RUNNABLE). split; [reflexivity|by split].
    + intros i t Ht _. by apply (three_peers_slot i t).
  - intros i t Ht _. destruct (three_peers_slot i t Ht) as [-> _]. lia.
  - lia.
Defined.

(** C25. nova_sched_add puts a runnable thread with zero quanta in the first dead
    slot i, stores its id i + 1 through [id] and leaves every other slot alone;
    when no slot is dead it returns NOVA_FULL and changes nothing. *)
Theorem nova_sched_add_correct (p : Z) (s : nova_scheduler_t) :
  sched_wf s →
  (∃ i t, threads s !! i = Some t ∧ dead t ∧
     (∀ j u, j < i → threads s !! j = Some u → ¬ dead u) ∧
     nova_sched_add p s = Done ((NOVA_OK, Some (Z.of_nat i + 1)%Z),
       Scheduler (<[i := Thread (Z.of_nat i + 1) p 0 NOVA_THREAD_RUNNABLE]> (threads s))
         (u64 (count s + 1)) (tick s))) ∨
  ((∀ i t, threads s !! i = Some t → ¬ dead t) ∧
     nova_sched_add p s = Done ((NOVA_FULL, None), s)).
Proof.
  intros Hwf. rewrite nova_sched_add_run by apply Hwf.
  destruct (list_find dead (threads s)) as [[i t]|] eqn:Hf; [left|right].
  - apply list_find_Some in Hf as (Ht & Hd & Hfirst). exists i, t. naive_solver.
  - apply list_find_None in Hf. split; [|done]. intros i t Ht.
    by apply (proj1 (Forall_lookup _ _) Hf i t).
Qed.

Lemma nova_sched_add_correct_witness :
  nova_sched_add 7 two_threads = Done ((NOVA_OK, Some 3%Z),
    Scheduler (<[2 := Thread 3 7 0 NOVA_THREAD_RUNNABLE]> (threads two_threads)) 3 0) ∧
  ((∃ i t, threads two_threads !! i = Some t ∧ dead t ∧
     (∀ j u, j < i → threads two_threads !! j = Some u → ¬ dead u) ∧
     nova_sched_add 7 two_threads = Done ((NOVA_OK, Some (Z.of_nat i + 1)%Z),
       Scheduler (<[i := Thread (Z.of_nat i + 1) 7 0 NOVA_THREAD_RUNNABLE]>
         (threads two_threads)) (u64 (count two_threads + 1)) (tick two_threads))) ∨
   ((∀ i t, threads two_threads !! i = Some t → ¬ dead t) ∧
     nova_sched_add 7 two_threads = Done ((NOVA_FULL, None), two_threads))).
Proof.
  split; [vm_compute; reflexivity|]. apply nova_sched_add_correct, two_threads_wf.
Defined.

(** C37. Killing a thread with nova_sched_set_state frees its slot but not its
    count: after n threads have been added and killed again no thread is alive,
    yet [count] is n (modulo 2^64), so it can exceed the 32 slots. *)
Theorem nova_sched_count_drift (n : nat) (p : Z) (s0 : nova_scheduler_t) :
  sched_typed s0 → in_width 8 p →
  ∃ s1 s2, nova_sched_init s0 = Done (tt, s1) ∧ churn n p s1 = Done (tt, s2) ∧
    (∀ i t, threads s2 !! i = Some t → dead t) ∧ count s2 = u64 (Z.of_nat n).
Proof.
  intros H0 Hp. pose proof (nova_sched_init_run s0 (typed_len _ H0)) as Hinit.
  pose proof (nova_sched_init_wf _ _ H0 Hinit) as Hwf.
  destruct (churn_run n p _ Hwf Hp) as (s2 & Hr & Hall & Hc).
  { by apply Forall_fmap, Forall_true. }
  eexists _, s2. split_and!; [done|done| |done].
  by apply Forall_lookup.
Qed.

Lemma nova_sched_count_drift_witness :
  ∃ s1 s2, nova_sched_init blank = Done (tt, s1) ∧ churn 40 1 s1 = Done (tt, s2) ∧
    (∀ i t, threads s2 !! i = Some t → dead t) ∧ count s2 = u64 (Z.of_nat 40).
Proof. apply nova_sched_count_drift; [apply sched_blank_typed|done]. Defined.

End Sched.
