(* ===== verification/Ipc.v ===== *)
(** * Message endpoints (kernel/core/ipc.c)

    An endpoint is a ring of 16 message slots with [head], [tail] and [count].
    The refinement relates it to a bounded first-in first-out queue. *)

From S2P Require Import Prelude Core.

Module Ipc.

Record nova_ipc_message_t : Type := Message {
  sender : Z;
  length_ : Z;
  payload : list Z;
}.

Record nova_ipc_endpoint_t : Type := Endpoint {
  messages : list nova_ipc_message_t;
  head : Z;
  tail : Z;
  count : Z;
}.

Definition set_messages (l : list nova_ipc_message_t) (e : nova_ipc_endpoint_t) :=
  Endpoint l (head e) (tail e) (count e).
Definition set_head (h : Z) (e : nova_ipc_endpoint_t) :=
  Endpoint (messages e) h (tail e) (count e).
Definition set_tail (t : Z) (e : nova_ipc_endpoint_t) :=
  Endpoint (messages e) (head e) t (count e).
Definition set_count (c : Z) (e : nova_ipc_endpoint_t) :=
  Endpoint (messages e) (head e) (tail e) c.

Definition nova_ipc_endpoint_init : M nova_ipc_endpoint_t unit :=
  modify (set_head 0);;
  modify (set_tail 0);;
  modify (set_count 0).

(** [i % NOVA_IPC_QUEUE_LENGTH] after [i + 1] in a 64-bit size_t. *)
Definition next_slot (i : Z) : Z := (u64 (i + 1) mod Z.of_nat NOVA_IPC_QUEUE_LENGTH)%Z.

(** [payload] is the block the caller's pointer designates. *)
Definition nova_ipc_send (sender : Z) (buffer : list Z) (length : Z)
    : M nova_ipc_endpoint_t nova_result :=
  if decide (Z.of_nat NOVA_IPC_PAYLOAD_SIZE < length)%Z then mret NOVA_ERR
  else
    e ← gets (λ e, e);
    if decide (count e = Z.of_nat NOVA_IPC_QUEUE_LENGTH) then mret NOVA_FULL
    else
      message ← the (messages e !! Z.to_nat (tail e));
      bytes ← the (memcpy (payload message) buffer (Z.to_nat length));
      l ← the (arr_set (messages e) (Z.to_nat (tail e))
                 (Message sender (u16 length) bytes));
      modify (set_messages l);;
      modify (λ e, set_tail (next_slot (tail e)) e);;
      modify (λ e, set_count (u64 (count e + 1)) e);;
      mret NOVA_OK.

(** The result and, when it is written, [*message]. *)
Definition nova_ipc_receive
    : M nova_ipc_endpoint_t (nova_result * option nova_ipc_message_t) :=
  e ← gets (λ e, e);
  if decide (count e = 0)%Z then mret (NOVA_EMPTY, None)
  else
    message ← the (messages e !! Z.to_nat (head e));
    modify (λ e, set_head (next_slot (head e)) e);;
    modify (λ e, set_count (u64 (count e - 1)) e);;
    mret (NOVA_OK, Some message).

(** ** Well-formed endpoints *)

Definition message_typed (m : nova_ipc_message_t) : Prop :=
  in_width 32 (sender m) ∧ in_width 16 (length_ m) ∧
  length (payload m) = NOVA_IPC_PAYLOAD_SIZE ∧ bytes_ok (payload m).

Record endpoint_typed (e : nova_ipc_endpoint_t) : Prop := {
  typed_len : length (messages e) = NOVA_IPC_QUEUE_LENGTH;
  typed_messages : Forall message_typed (messages e);
}.

(** The window of [count] slots from [head] ends before [tail]. *)
Record endpoint_wf (e : nova_ipc_endpoint_t) : Prop := {
  wf_typed : endpoint_typed e;
  wf_head : (0 ≤ head e < 16)%Z;
  wf_count : (0 ≤ count e ≤ 16)%Z;
  wf_tail : tail e = ((head e + count e) mod 16)%Z;
}.

(** ** The ring as a list *)

(** The [n] slots from index [h] on, wrapping around at 16. *)
Fixpoint window {A} (l : list A) (h n : nat) : list A :=
  match n with
  | O => []
  | S n => match l !! (h mod 16) with
           | Some m => m :: window l (S h) n
           | None => []
           end
  end.

Section window.
Context {A : Type}.
Implicit Types (l : list A) (m : A).

Lemma window_snoc l h n m :
  length l = 16 → l !! ((h + n) mod 16) = Some m →
  window l h (S n) = window l h n ++ [m].
Proof.
  intros Hl. revert h. induction n as [|n IH]; intros h Hm.
  { cbn. rewrite Nat.add_0_r in Hm. cbn in Hm. by rewrite Hm. }
  change (window l h (S (S n))) with
    (match l !! (h mod 16) with Some m => m :: window l (S h) (S n) | None => [] end).
  destruct (lookup_lt_is_Some_2 l (h mod 16)) as [m0 Hm0].
  { rewrite Hl. by apply Nat.mod_upper_bound. }
  rewrite Hm0, IH by (by replace (S h + n) with (h + S n) by lia).
  cbn [window]. by rewrite Hm0.
Qed.

Lemma window_insert_out l h n i m :
  (∀ k, k < n → (h + k) mod 16 ≠ i) →
  window (<[i := m]> l) h n = window l h n.
Proof.
  revert h. induction n as [|n IH]; intros h Hout; [done|]. cbn [window].
  rewrite list_lookup_insert_ne by (specialize (Hout 0); rewrite Nat.add_0_r in Hout; lia).
  rewrite IH; [done|]. intros k Hk. specialize (Hout (S k)).
  replace (S h + k) with (h + S k) by lia. apply Hout. lia.
Qed.

Lemma window_mod l h n : window l (h mod 16) n = window l h n.
Proof.
  revert h. induction n as [|n IH]; intros h; [done|]. cbn [window].
  rewrite Nat.Div0.mod_mod, <-(IH (S (h mod 16))), <-(IH (S h)).
  do 2 f_equal. rewrite <-!(Nat.add_1_l (_ mod 16)), <-(Nat.add_1_l h).
  by rewrite Nat.Div0.add_mod_idemp_r.
Qed.

Lemma length_window l h n : length l = 16 → length (window l h n) = n.
Proof.
  intros Hl. revert h. induction n as [|n IH]; intros h; [done|]. cbn [window].
  destruct (lookup_lt_is_Some_2 l (h mod 16)) as [m Hm].
  { rewrite Hl. by apply Nat.mod_upper_bound. }
  rewrite Hm. cbn. by rewrite IH.
Qed.
End window.

(** What a message carries: its sender and the first [length] payload bytes. *)
Definition view (m : nova_ipc_message_t) : Z * list Z :=
  (sender m, take (Z.to_nat (length_ m)) (payload m)).

(** The messages in flight, oldest first. *)
Definition contents (e : nova_ipc_endpoint_t) : list (Z * list Z) :=
  view <$> window (messages e) (Z.to_nat (head e)) (Z.to_nat (count e)).

(** ** The specification: a first-in first-out queue of at most 16 messages *)

Definition spec_send (from : Z) (buffer : list Z) (len : Z) (q : list (Z * list Z))
    : nova_result * list (Z * list Z) :=
  if decide (64 < len)%Z then (NOVA_ERR, q)
  else if decide (length q = 16) then (NOVA_FULL, q)
  else (NOVA_OK, q ++ [(from, take (Z.to_nat len) buffer)]).

Definition spec_receive (q : list (Z * list Z))
    : nova_result * option (Z * list Z) * list (Z * list Z) :=
  match q with
  | [] => (NOVA_EMPTY, None, q)
  | m :: q => (NOVA_OK, Some m, q)
  end.

(** ** Index arithmetic *)

Lemma next_slot_val i : (0 ≤ i < 16)%Z → next_slot i = ((i + 1) mod 16)%Z.
Proof.
  intros Hi. unfold next_slot, u64. rewrite wrap_small by (unfold in_width; lia). done.
Qed.

Lemma next_slot_range i : (0 ≤ next_slot i < 16)%Z.
Proof. apply Z.mod_pos_bound. done. Qed.

Lemma next_slot_nat i : (0 ≤ i < 16)%Z → Z.to_nat (next_slot i) = S (Z.to_nat i) mod 16.
Proof.
  intros Hi. rewrite next_slot_val, Z2Nat.inj_mod, Z2Nat.inj_add by lia.
  by rewrite Nat.add_comm.
Qed.

Lemma tail_index e :
  endpoint_wf e → Z.to_nat (tail e) = (Z.to_nat (head e) + Z.to_nat (count e)) mod 16.
Proof.
  intros [_ Hh Hc ->]. rewrite Z2Nat.inj_mod, Z2Nat.inj_add by lia. done.
Qed.

Lemma ipc_wf_slot e i : endpoint_wf e → i < 16 → ∃ m, messages e !! i = Some m ∧ message_typed m.
Proof.
  intros [[Hl Ht] _ _ _] Hi. destruct (lookup_lt_is_Some_2 (messages e) i) as [m Hm].
  { by rewrite Hl. }
  exists m. split; [done|]. by apply (proj1 (Forall_lookup _ _) Ht i).
Qed.

Lemma ipc_length_contents e : endpoint_wf e → length (contents e) = Z.to_nat (count e).
Proof. intros [[Hl _] _ _ _]. unfold contents. by rewrite length_fmap, length_window. Qed.

(** ** Initialisation *)

Lemma nova_ipc_endpoint_init_run e :
  nova_ipc_endpoint_init e = Done (tt, Endpoint (messages e) 0 0 0).
Proof. done. Qed.

Lemma init_wf e : endpoint_typed e → endpoint_wf (Endpoint (messages e) 0 0 0).
Proof. intros [Hl Ht]. split; [by split|cbn; lia|cbn; lia|done]. Qed.

(** ** Sending *)

(** The state after a message has been stored in slot [tail]. *)
Definition enqueue (m : nova_ipc_message_t) (e : nova_ipc_endpoint_t) : nova_ipc_endpoint_t :=
  Endpoint (<[Z.to_nat (tail e) := m]> (messages e)) (head e) (next_slot (tail e))
    (u64 (count e + 1)).

Lemma nova_ipc_send_run from buffer len e m :
  endpoint_wf e → (0 ≤ len ≤ 64)%Z → (len ≤ Z.of_nat (length buffer))%Z →
  count e ≠ 16%Z → messages e !! Z.to_nat (tail e) = Some m → message_typed m →
  nova_ipc_send from buffer len e = Done (NOVA_OK,
    enqueue (Message from len (take (Z.to_nat len) buffer ++
                               drop (Z.to_nat len) (payload m))) e).
Proof.
  intros Hwf Hlen Hbuf Hc Hm (_ & _ & Hp & _). unfold nova_ipc_send. sizes.
  rewrite decide_False by lia. run. rewrite decide_False by lia.
  bind (the_Some _ _ _ Hm).
  bind by (apply the_Some, memcpy_Some; lia).
  bind by (apply the_Some, arr_set_Some; by eapply lookup_lt_Some).
  run. unfold u16. by rewrite (wrap_small 16 len) by (unfold in_width; lia).
Qed.

Lemma enqueue_wf m e :
  endpoint_wf e → count e ≠ 16%Z → message_typed m → endpoint_wf (enqueue m e).
Proof.
  intros Hwf Hc Hm. pose proof Hwf as [[Hl Ht] Hh Hcr Htl].
  assert (u64 (count e + 1) = count e + 1)%Z as E
    by (apply wrap_small; unfold in_width; lia).
  unfold enqueue. rewrite E. split; cbn; [split; cbn|done|lia|].
  - by rewrite length_insert.
  - by apply Forall_insert_any.
  - rewrite next_slot_val by (rewrite Htl; by apply Z.mod_pos_bound).
    rewrite Htl, Zplus_mod_idemp_l. f_equal. lia.
Qed.

Lemma enqueue_contents m e :
  endpoint_wf e → count e ≠ 16%Z → contents (enqueue m e) = contents e ++ [view m].
Proof.
  intros Hwf Hc. pose proof Hwf as [[Hl _] Hh Hcr _]. unfold contents, enqueue. cbn.
  pose proof (tail_index e Hwf) as Hti.
  assert (u64 (count e + 1) = count e + 1)%Z as ->
    by (apply wrap_small; unfold in_width; lia).
  replace (Z.to_nat (count e + 1)) with (S (Z.to_nat (count e))) by lia.
  assert ((Z.to_nat (head e) + Z.to_nat (count e)) mod 16 < 16) as Hlt
    by (by apply Nat.mod_upper_bound).
  rewrite (window_snoc _ _ _ m).
  - rewrite fmap_app, window_insert_out; [done|].
    intros k Hk. rewrite Hti. intros Heq.
    pose proof (Nat.Div0.div_mod (Z.to_nat (head e) + k) 16).
    pose proof (Nat.Div0.div_mod (Z.to_nat (head e) + Z.to_nat (count e)) 16). lia.
  - by rewrite length_insert.
  - rewrite Hti. apply list_lookup_insert_eq. unfold NOVA_IPC_QUEUE_LENGTH in Hl. lia.
Qed.

Lemma sent_message_typed from buffer len m :
  message_typed m → in_width 32 from → bytes_ok buffer → (0 ≤ len ≤ 64)%Z →
  (len ≤ Z.of_nat (length buffer))%Z →
  message_typed (Message from len (take (Z.to_nat len) buffer ++
                                   drop (Z.to_nat len) (payload m))).
Proof.
  intros (_ & _ & Hp & Hb) Hf Hbuf Hlen Hl. split_and!; cbn; [done| | |].
  - unfold in_width. lia.
  - sizes. rewrite length_app, length_take, length_drop. lia.
  - apply Forall_app. split; [by apply Forall_take|by apply Forall_drop].
Qed.

Lemma sent_view from buffer len old :
  (0 ≤ len)%Z → (len ≤ Z.of_nat (length buffer))%Z →
  view (Message from len (take (Z.to_nat len) buffer ++ drop (Z.to_nat len) old)) =
    (from, take (Z.to_nat len) buffer).
Proof.
  intros H0 Hl. unfold view. cbn. f_equal. rewrite take_app_le by (rewrite length_take; lia).
  by rewrite take_take, Nat.min_id.
Qed.

(** A caller's arguments: a block that holds the bytes it announces. *)
Definition send_args_ok (from : Z) (buffer : list Z) (len : Z) : Prop :=
  in_width 32 from ∧ in_width 64 len ∧ bytes_ok buffer ∧
  (len ≤ 64 → len ≤ Z.of_nat (length buffer))%Z.
#[export] Instance send_args_ok_dec from buffer len : Decision (send_args_ok from buffer len).
Proof. unfold send_args_ok, bytes_ok. apply _. Defined.

Lemma send_refines from buffer len e :
  endpoint_wf e → send_args_ok from buffer len →
  ∃ r e', nova_ipc_send from buffer len e = Done (r, e') ∧ endpoint_wf e' ∧
    spec_send from buffer len (contents e) = (r, contents e').
Proof.
  intros Hwf (Hf & Hlen & Hb & Hl). unfold in_width in Hlen.
  pose proof Hwf as [_ _ Hcr _]. unfold spec_send. rewrite ipc_length_contents by done.
  destruct (decide (64 < len)%Z) as [Hbig|Hsmall].
  { exists NOVA_ERR, e. unfold nova_ipc_send. sizes. by rewrite decide_True. }
  destruct (decide (count e = 16)%Z) as [Hfull|Hroom].
  { exists NOVA_FULL, e. rewrite decide_True by lia. unfold nova_ipc_send. sizes.
    rewrite decide_False by lia. run. by rewrite decide_True. }
  rewrite decide_False by lia.
  destruct (ipc_wf_slot e (Z.to_nat (tail e)) Hwf) as (m & Hm & Hmt).
  { rewrite tail_index by done. by apply Nat.mod_upper_bound. }
  eexists _, _. split.
  { apply nova_ipc_send_run; [done|lia|lia|done|exact Hm|exact Hmt]. }
  split.
  - apply enqueue_wf; [done|done|]. apply sent_message_typed; auto with lia.
  - rewrite enqueue_contents, sent_view by (done || lia). done.
Qed.

(** ** Receiving *)

(** The state after the oldest message has been taken. *)
Definition dequeue (e : nova_ipc_endpoint_t) : nova_ipc_endpoint_t :=
  Endpoint (messages e) (next_slot (head e)) (tail e) (u64 (count e - 1)).

Lemma nova_ipc_receive_run e m :
  count e ≠ 0%Z → messages e !! Z.to_nat (head e) = Some m →
  nova_ipc_receive e = Done ((NOVA_OK, Some m), dequeue e).
Proof.
  intros Hc Hm. unfold nova_ipc_receive. run. rewrite decide_False by done.
  by bind (the_Some _ _ _ Hm).
Qed.

Lemma dequeue_wf e : endpoint_wf e → count e ≠ 0%Z → endpoint_wf (dequeue e).
Proof.
  intros Hwf Hc. pose proof Hwf as [Ht Hh Hcr Htl].
  assert (u64 (count e - 1) = count e - 1)%Z as E
    by (apply wrap_small; unfold in_width; lia).
  unfold dequeue. rewrite E. split; cbn; [by destruct Ht|apply next_slot_range|lia|].
  rewrite next_slot_val, Zplus_mod_idemp_l, Htl by done. f_equal. lia.
Qed.

Lemma dequeue_contents e m :
  endpoint_wf e → count e ≠ 0%Z → messages e !! Z.to_nat (head e) = Some m →
  contents e = view m :: contents (dequeue e).
Proof.
  intros Hwf Hc Hm. pose proof Hwf as [[Hl _] Hh Hcr _]. unfold contents, dequeue. cbn.
  assert (u64 (count e - 1) = count e - 1)%Z as ->
    by (apply wrap_small; unfold in_width; lia).
  rewrite next_slot_nat, window_mod by done.
  replace (Z.to_nat (count e)) with (S (Z.to_nat (count e - 1))) by lia.
  cbn [window]. rewrite Nat.mod_small by lia. by rewrite Hm.
Qed.

Lemma receive_refines e :
  endpoint_wf e →
  ∃ r m e', nova_ipc_receive e = Done ((r, m), e') ∧ endpoint_wf e' ∧
    spec_receive (contents e) = (r, view <$> m, contents e').
Proof.
  intros Hwf. pose proof Hwf as [_ Hh Hcr _].
  destruct (decide (count e = 0)%Z) as [Hz|Hnz].
  { exists NOVA_EMPTY, None, e. unfold nova_ipc_receive. run. rewrite decide_True by done.
    split_and!; [done|done|]. unfold contents. by rewrite Hz. }
  destruct (ipc_wf_slot e (Z.to_nat (head e)) Hwf) as (m & Hm & _); [lia|].
  exists NOVA_OK, (Some m), (dequeue e). split_and!.
  - by apply nova_ipc_receive_run.
  - by apply dequeue_wf.
  - by rewrite (dequeue_contents e m).
Qed.

(** ** Sequences of operations *)

Inductive ipc_op : Type :=
  | OpSend (from : Z) (buffer : list Z) (len : Z)
  | OpReceive.

Definition op_ok (op : ipc_op) : Prop :=
  match op with
  | OpSend from buffer len => send_args_ok from buffer len
  | OpReceive => True
  end.

(** What a caller observes: the result code and the message received. *)
Abbreviation observation := (nova_result * option (Z * list Z))%type.

Definition exec_op (op : ipc_op) : M nova_ipc_endpoint_t observation :=
  match op with
  | OpSend from buffer len => r ← nova_ipc_send from buffer len; mret (r, None)
  | OpReceive => r ← nova_ipc_receive; mret (fst r, view <$> snd r)
  end.

Definition spec_op (op : ipc_op) (q : list (Z * list Z))
    : observation * list (Z * list Z) :=
  match op with
  | OpSend from buffer len => let '(r, q) := spec_send from buffer len q in ((r, None), q)
  | OpReceive => spec_receive q
  end.

(** The endpoint holds the messages of the queue. *)
Definition holds (e : nova_ipc_endpoint_t) (q : list (Z * list Z)) : Prop :=
  endpoint_wf e ∧ q = contents e.

#[export] Instance ipc_refines : Refines exec_op spec_op op_ok holds.
Proof.
  intros op e q [Hwf ->] Hop. destruct op as [from buffer len|]; cbn [exec_op spec_op].
  - destruct (send_refines from buffer len e Hwf Hop) as (r & e' & Hr & Hwf' & ->).
    exists (r, None), e', (contents e'). by bind Hr.
  - destruct (receive_refines e Hwf) as (r & m & e' & Hr & Hwf' & Hs).
    exists (r, view <$> m), e', (contents e'). by bind Hr.
Qed.

(** * Properties *)

Definition blank : nova_ipc_endpoint_t :=
  Endpoint (replicate 16 (Message 0 0 (replicate 64 0%Z))) 5 9 2.

Lemma ipc_blank_typed : endpoint_typed blank.
Proof.
  split; [done|]. apply Forall_replicate.
  split_and!; [done|done|done|by apply Forall_replicate].
Qed.

(** From nova_ipc_endpoint_init on, every sequence of nova_ipc_send and
    nova_ipc_receive calls gives exactly the results of a first-in first-out
    queue of at most 16 messages of at most 64 bytes: NOVA_ERR for a longer
    payload, NOVA_FULL at 16 messages, NOVA_EMPTY at none, and otherwise each
    sender and payload once, in order.  No call accesses memory out of bounds. *)
Theorem nova_ipc_refines_fifo (e0 : nova_ipc_endpoint_t) (ops : list ipc_op) :
  endpoint_typed e0 → Forall op_ok ops →
  ∃ os e1 e2, nova_ipc_endpoint_init e0 = Done (tt, e1) ∧
    exec_trace exec_op ops e1 = Done (os, e2) ∧ endpoint_wf e2 ∧
    spec_trace spec_op ops [] = (os, contents e2).
Proof.
  intros H0 Hops.
  destruct (trace_refines exec_op spec_op op_ok holds ops
    (Endpoint (messages e0) 0 0 0) []) as (os & e2 & q & Hr & Hs & Hwf & ->);
    [by split; [apply init_wf|]|done|].
  eexists os, _, e2. by rewrite nova_ipc_endpoint_init_run.
Qed.

Lemma nova_ipc_refines_fifo_witness :
  ∃ os e1 e2, nova_ipc_endpoint_init blank = Done (tt, e1) ∧
    exec_trace exec_op [OpReceive; OpSend 7 [1; 2; 3] 3; OpSend 8 [] 65; OpReceive]%Z e1
      = Done (os, e2) ∧ endpoint_wf e2 ∧
    spec_trace spec_op [OpReceive; OpSend 7 [1; 2; 3] 3; OpSend 8 [] 65; OpReceive]%Z []
      = (os, contents e2).
Proof.
  apply nova_ipc_refines_fifo; [apply ipc_blank_typed|].
  repeat constructor; cbn; lia.
Defined.

(** A message sent into an empty endpoint comes back from the next
    nova_ipc_receive with its sender, its length and its first [len] payload
    bytes; the remaining bytes of the 64-byte payload are whatever the slot
    held before, so they are residue of an earlier message. *)
Theorem nova_ipc_roundtrip (from : Z) (buffer : list Z) (len : Z)
    (e : nova_ipc_endpoint_t) :
  endpoint_wf e → count e = 0%Z → send_args_ok from buffer len → (len ≤ 64)%Z →
  ∃ old e1 e2, messages e !! Z.to_nat (tail e) = Some old ∧
    nova_ipc_send from buffer len e = Done (NOVA_OK, e1) ∧
    nova_ipc_receive e1 = Done ((NOVA_OK, Some (Message from len
      (take (Z.to_nat len) buffer ++ drop (Z.to_nat len) (payload old)))), e2) ∧
    count e2 = 0%Z.
Proof.
  intros Hwf Hc (Hf & Hlen & Hb & Hl) Hle. unfold in_width in Hlen.
  pose proof Hwf as [[Hlm _] Hh _ Htl]. sizes.
  assert (tail e = head e) as Hth by (rewrite Htl, Hc, Z.add_0_r; by apply Z.mod_small).
  destruct (ipc_wf_slot e (Z.to_nat (tail e)) Hwf) as (old & Hm & Hmt); [lia|].
  exists old. eexists _, _. split; [done|]. split.
  { apply nova_ipc_send_run; [done|lia|lia|lia|exact Hm|exact Hmt]. }
  split.
  { apply nova_ipc_receive_run; cbn; [by rewrite Hc|].
    rewrite Hth. apply list_lookup_insert_eq. lia. }
  cbn. by rewrite Hc.
Qed.

Lemma nova_ipc_roundtrip_witness :
  let e := Endpoint (messages blank) 3 3 0 in
  ∃ old e1 e2, messages e !! Z.to_nat (tail e) = Some old ∧
    nova_ipc_send 7 [104; 105]%Z 2 e = Done (NOVA_OK, e1) ∧
    nova_ipc_receive e1 = Done ((NOVA_OK, Some (Message 7 2
      (take (Z.to_nat 2) [104; 105]%Z ++ drop (Z.to_nat 2) (payload old)))), e2) ∧
    count e2 = 0%Z.
Proof.
  apply nova_ipc_roundtrip; [|done| |done].
  - split; [split; [done|apply (typed_messages _ ipc_blank_typed)]|cbn; lia|cbn; lia|done].
  - apply (bool_decide_unpack (send_args_ok _ _ _)). exact I.
Defined.

End Ipc.
