(* ===== verification/Pages.v ===== *)
(** * The physical page allocator (kernel/core/vm.c)

    An array of 128 flags, searched from page 0.  It refines a set of held
    pages. *)

From S2P Require Import Prelude Core.

Module Pages.

Record nova_page_allocator_t : Type := Allocator { allocated : list Z }.

(** [allocator->allocated[i]], read and written. *)
Definition get_flag (i : nat) : M nova_page_allocator_t Z :=
  a ← gets (λ a, a); the (allocated a !! i).
Definition put_flag (i : nat) (b : Z) : M nova_page_allocator_t unit :=
  a ← gets (λ a, a);
  l ← the (arr_set (allocated a) i b);
  modify (λ _, Allocator l).

Definition nova_vm_init : M nova_page_allocator_t unit :=
  for_fold NOVA_VM_MAX_PAGES 0 (λ index _, put_flag index 0) tt.

(** The result and, when it is written, [*physical_page]. *)
Definition nova_vm_alloc_page : M nova_page_allocator_t (nova_result * option Z) :=
  r ← for_loop NOVA_VM_MAX_PAGES 0 (λ index,
    b ← get_flag index;
    if decide (b ≠ 0)%Z then mret None
    else
      put_flag index 1;;
      mret (Some (NOVA_OK, Some (u32 (Z.of_nat index)))));
  mret (default (NOVA_FULL, None) r).

Definition nova_vm_free_page (physical_page : Z)
    : M nova_page_allocator_t nova_result :=
  if decide (Z.of_nat NOVA_VM_MAX_PAGES ≤ physical_page)%Z then mret NOVA_NOT_FOUND
  else
    b ← get_flag (Z.to_nat physical_page);
    if decide (b = 0)%Z then mret NOVA_NOT_FOUND
    else put_flag (Z.to_nat physical_page) 0;; mret NOVA_OK.

(** ** Running the operations *)

Definition allocator_typed (a : nova_page_allocator_t) : Prop :=
  length (allocated a) = NOVA_VM_MAX_PAGES ∧ bytes_ok (allocated a).

Lemma get_flag_run i b a : allocated a !! i = Some b → get_flag i a = Done (b, a).
Proof. intros H. unfold get_flag. run. by apply the_Some. Qed.

Lemma put_flag_run i b a :
  i < length (allocated a) → put_flag i b a = Done (tt, Allocator (<[i := b]> (allocated a))).
Proof.
  intros H. unfold put_flag. run. by bind (the_Some _ _ _ (arr_set_Some _ _ _ H)).
Qed.

Lemma nova_vm_init_run a :
  length (allocated a) = NOVA_VM_MAX_PAGES →
  nova_vm_init a = Done (tt, Allocator (replicate 128 0%Z)).
Proof.
  intros Hl. unfold nova_vm_init.
  destruct (for_fold_inv (λ i _ a', allocated a' = replicate i 0%Z ++ drop i (allocated a))
    (λ index _, put_flag index 0) NOVA_VM_MAX_PAGES 0 tt a) as ([] & a' & -> & Ha').
  - done.
  - intros i [] a1 Hi Ha1. eexists tt, _.
    destruct (lookup_lt_is_Some_2 (allocated a) i) as [b Hb]; [lia|].
    split.
    + apply put_flag_run. rewrite Ha1, length_app, length_replicate, length_drop. lia.
    + cbn [allocated]. rewrite Ha1, insert_app_r_alt, length_replicate, Nat.sub_diag
        by (by rewrite length_replicate).
      rewrite (drop_S _ _ _ Hb). cbn [insert list_insert].
      rewrite replicate_S_end, <-app_assoc. done.
  - destruct a' as [l]. cbn [allocated] in Ha'. rewrite Nat.add_0_l in Ha'.
    rewrite <-Hl, drop_all, app_nil_r, Hl in Ha'. by rewrite Ha'.
Qed.

Definition free_flag (b : Z) : Prop := b = 0%Z.
#[export] Instance free_flag_dec b : Decision (free_flag b).
Proof. unfold free_flag. apply _. Defined.

Lemma nova_vm_alloc_page_run a :
  length (allocated a) = NOVA_VM_MAX_PAGES →
  nova_vm_alloc_page a =
    match list_find free_flag (allocated a) with
    | Some (i, _) => Done ((NOVA_OK, Some (Z.of_nat i)), Allocator (<[i := 1%Z]> (allocated a)))
    | None => Done ((NOVA_FULL, None), a)
    end.
Proof.
  intros Hl. unfold nova_vm_alloc_page.
  match goal with |- context [for_loop _ _ ?f] => set (body := f) end.
  assert (∀ i b, allocated a !! i = Some b → free_flag b → body i a =
    Done (Some (NOVA_OK, Some (Z.of_nat i)), Allocator (<[i := 1%Z]> (allocated a)))) as Hfree.
  { intros i b Hb Hf. pose proof (lookup_lt_Some _ _ _ Hb) as Hi. unfold body.
    bind (get_flag_run _ _ _ Hb). rewrite decide_False by (intros Hn; by apply Hn).
    bind (put_flag_run _ 1%Z _ Hi). run. rewrite Hl in Hi. sizes.
    unfold u32. by rewrite wrap_small by (unfold in_width; lia). }
  assert (for_loop NOVA_VM_MAX_PAGES 0 body a = match list_find free_flag (allocated a) with
    | Some (i, _) => body i a | None => Done (None, a) end) as Hloop.
  { rewrite <-Hl. apply for_loop_find.
    - intros i b Hb Hn. unfold body. bind (get_flag_run _ _ _ Hb). by rewrite decide_True.
    - intros i b Hb Hf. rewrite (Hfree _ _ Hb Hf). eauto. }
  destruct (list_find free_flag (allocated a)) as [[i b]|] eqn:Hfind.
  - apply list_find_Some in Hfind as (Hb & Hf & _).
    rewrite (Hfree _ _ Hb Hf) in Hloop. by bind Hloop.
  - by bind Hloop.
Qed.

Lemma nova_vm_free_page_run p a b :
  (0 ≤ p < 128)%Z → allocated a !! Z.to_nat p = Some b →
  nova_vm_free_page p a =
    if decide (free_flag b) then Done (NOVA_NOT_FOUND, a)
    else Done (NOVA_OK, Allocator (<[Z.to_nat p := 0%Z]> (allocated a))).
Proof.
  intros Hp Hb. unfold nova_vm_free_page. sizes. rewrite decide_False by lia.
  bind (get_flag_run _ _ _ Hb). unfold free_flag. destruct (decide (b = 0%Z)); [done|].
  by bind (put_flag_run _ 0%Z _ (lookup_lt_Some _ _ _ Hb)).
Qed.

(** ** The specification: a set of held pages *)

Inductive page_op : Type :=
  | OpAlloc
  | OpFree (page : Z).

Definition op_ok (op : page_op) : Prop :=
  match op with OpAlloc => True | OpFree page => in_width 32 page end.

Definition exec_op (op : page_op) : M nova_page_allocator_t (nova_result * option Z) :=
  match op with
  | OpAlloc => nova_vm_alloc_page
  | OpFree page => r ← nova_vm_free_page page; mret (r, None)
  end.

Definition all_pages : list Z := Z.of_nat <$> seq 0 128.

(** The lowest page that is not held, or NOVA_FULL. *)
Definition spec_alloc (held : gset Z) : (nova_result * option Z) * gset Z :=
  match list_find (λ p, p ∉ held) all_pages with
  | Some (_, p) => ((NOVA_OK, Some p), {[p]} ∪ held)
  | None => ((NOVA_FULL, None), held)
  end.

Definition spec_free (p : Z) (held : gset Z) : (nova_result * option Z) * gset Z :=
  if decide (p ∈ held) then ((NOVA_OK, None), held ∖ {[p]})
  else ((NOVA_NOT_FOUND, None), held).

Definition spec_op (op : page_op) : gset Z → (nova_result * option Z) * gset Z :=
  match op with OpAlloc => spec_alloc | OpFree page => spec_free page end.

(** The flags that are set are those of the held pages. *)
Definition holds (a : nova_page_allocator_t) (held : gset Z) : Prop :=
  length (allocated a) = NOVA_VM_MAX_PAGES ∧
  ∀ p, p ∈ held ↔ ∃ i b, p = Z.of_nat i ∧ allocated a !! i = Some b ∧ ¬ free_flag b.

Lemma all_pages_lookup i p : all_pages !! i = Some p ↔ i < 128 ∧ p = Z.of_nat i.
Proof.
  unfold all_pages. rewrite list_lookup_fmap. destruct (decide (i < 128)) as [Hi|Hi].
  - rewrite lookup_seq_lt by done. cbn. naive_solver.
  - rewrite lookup_seq_ge by lia. naive_solver.
Qed.

Lemma holds_flag a held i b :
  holds a held → allocated a !! i = Some b → (Z.of_nat i ∈ held ↔ ¬ free_flag b).
Proof.
  intros [_ H] Hb. rewrite H. split; [|by intros Hn; exists i, b].
  intros (j & c & ->%Nat2Z.inj & Hc & Hn). naive_solver.
Qed.

(** Writing one flag adds its page to the held pages or removes it. *)
Lemma holds_put a held i b :
  holds a held → i < 128 →
  holds (Allocator (<[i := b]> (allocated a)))
    (if decide (free_flag b) then held ∖ {[Z.of_nat i]} else {[Z.of_nat i]} ∪ held).
Proof.
  intros [Hl H] Hi. sizes. split; [by cbn; rewrite length_insert|].
  intros p. cbn [allocated].
  transitivity (if decide (p = Z.of_nat i) then ¬ free_flag b else p ∈ held).
  { destruct (decide (free_flag b)), (decide (p = Z.of_nat i)); set_solver. }
  destruct (decide (p = Z.of_nat i)) as [->|Hne]; [|rewrite H]; split.
  - intros Hn. exists i, b. split_and!; [done| |done]. apply list_lookup_insert_eq. lia.
  - intros (j & c & ->%Nat2Z.inj & Hc & Hn). rewrite list_lookup_insert_eq in Hc by lia.
    by simplify_eq.
  - intros (j & c & -> & Hc & Hn). exists j, c. split_and!; [done| |done].
    rewrite list_lookup_insert_ne; [done|congruence].
  - intros (j & c & -> & Hc & Hn). exists j, c. split_and!; [done| |done].
    rewrite list_lookup_insert_ne in Hc; [done|congruence].
Qed.

Lemma alloc_refines a held :
  holds a held →
  ∃ o a' held', nova_vm_alloc_page a = Done (o, a') ∧ spec_alloc held = (o, held') ∧
    holds a' held'.
Proof.
  intros Hh. pose proof Hh as [Hl _]. rewrite nova_vm_alloc_page_run by done.
  unfold spec_alloc. destruct (list_find free_flag (allocated a)) as [[i b]|] eqn:Hf.
  - apply list_find_Some in Hf as (Hb & Hfree & Hmin).
    pose proof (lookup_lt_Some _ _ _ Hb) as Hi. sizes.
    assert (list_find (λ p, p ∉ held) all_pages = Some (i, Z.of_nat i)) as ->.
    { apply list_find_Some. split_and!.
      - apply all_pages_lookup. lia.
      - intros Hin. by apply (holds_flag a held i b Hh Hb) in Hin.
      - intros j p [_ ->]%all_pages_lookup Hj Hn.
        destruct (lookup_lt_is_Some_2 (allocated a) j) as [c Hc]; [lia|].
        apply Hn, (holds_flag a held j c Hh Hc). by apply (Hmin j). }
    eexists _, _, _. split_and!; [done|done|].
    change ({[Z.of_nat i]} ∪ held) with
      (if decide (free_flag 1%Z) then held ∖ {[Z.of_nat i]} else {[Z.of_nat i]} ∪ held).
    apply holds_put; [done|lia].
  - assert (list_find (λ p, p ∉ held) all_pages = None) as ->.
    { apply list_find_None in Hf. apply list_find_None, Forall_lookup.
      intros i p [Hi ->]%all_pages_lookup Hn. sizes.
      destruct (lookup_lt_is_Some_2 (allocated a) i) as [b Hb]; [lia|].
      apply Hn, (holds_flag a held i b Hh Hb).
      by apply (proj1 (Forall_lookup _ _) Hf i). }
    eauto 10.
Qed.

Lemma free_refines p a held :
  holds a held → in_width 32 p →
  ∃ r a' held', nova_vm_free_page p a = Done (r, a') ∧
    spec_free p held = ((r, None), held') ∧ holds a' held'.
Proof.
  intros Hh Hp. pose proof Hh as [Hl Hheld]. unfold in_width in Hp. sizes.
  destruct (decide (128 ≤ p)%Z) as [Hbig|Hsmall].
  { exists NOVA_NOT_FOUND, a, held. unfold nova_vm_free_page, spec_free. sizes.
    rewrite decide_True by lia. split_and!; [done| |done].
    rewrite decide_False; [done|]. intros (i & b & -> & Hb & _)%Hheld.
    apply lookup_lt_Some in Hb. lia. }
  destruct (lookup_lt_is_Some_2 (allocated a) (Z.to_nat p)) as [b Hb]; [lia|].
  rewrite (nova_vm_free_page_run p a b) by (done || lia).
  pose proof (holds_flag a held (Z.to_nat p) b Hh Hb) as Hpb.
  rewrite Z2Nat.id in Hpb by lia. unfold spec_free.
  destruct (decide (free_flag b)) as [Hf|Hf].
  - rewrite decide_False by tauto. eauto 10.
  - rewrite decide_True by tauto. eexists _, _, _. split_and!; [done|done|].
    pose proof (holds_put a held (Z.to_nat p) 0%Z Hh) as Hput.
    rewrite Z2Nat.id in Hput by lia. apply Hput. lia.
Qed.

#[export] Instance pages_refine : Refines exec_op spec_op op_ok holds.
Proof.
  intros [|p] a held Hh Hop; [by apply alloc_refines|].
  destruct (free_refines p a held Hh Hop) as (r & a' & held' & Hr & Hs & Hh').
  exists (r, None), a', held'. cbn [exec_op spec_op]. by bind Hr.
Qed.

Lemma pages_init_holds : holds (Allocator (replicate 128 0%Z)) ∅.
Proof.
  split; [done|]. intros p. split; [set_solver|].
  by intros (i & b & -> & [-> _]%lookup_replicate_1 & []).
Qed.

(** * Properties *)

Definition blank : nova_page_allocator_t := Allocator (replicate 128 7%Z).

Lemma pages_blank_typed : allocator_typed blank.
Proof. split; [done|]. by apply Forall_replicate. Qed.

(** C15. From nova_vm_init on, any sequence of nova_vm_alloc_page and
    nova_vm_free_page calls behaves as a set of held pages that starts empty:
    an allocation returns the lowest page that is not held (never one that is)
    and holds it, or NOVA_FULL when all 128 are held; freeing succeeds exactly
    on held pages, so a double free or an out-of-range page is NOVA_NOT_FOUND. *)
Theorem nova_vm_pages_refine (a0 : nova_page_allocator_t) (ops : list page_op) :
  allocator_typed a0 → Forall op_ok ops →
  ∃ os a1 a2 held, nova_vm_init a0 = Done (tt, a1) ∧
    exec_trace exec_op ops a1 = Done (os, a2) ∧
    spec_trace spec_op ops ∅ = (os, held) ∧ holds a2 held.
Proof.
  intros [Hl _] Hops. rewrite nova_vm_init_run by done.
  destruct (trace_refines exec_op spec_op op_ok holds ops _ _ pages_init_holds Hops)
    as (os & a2 & held & Hr & Hs & Hh). eauto 10.
Qed.

Lemma nova_vm_pages_refine_witness :
  ∃ os a1 a2 held, nova_vm_init blank = Done (tt, a1) ∧
    exec_trace exec_op [OpAlloc; OpAlloc; OpFree 0; OpFree 0; OpFree 500; OpAlloc] a1
      = Done (os, a2) ∧
    spec_trace spec_op [OpAlloc; OpAlloc; OpFree 0; OpFree 0; OpFree 500; OpAlloc] ∅
      = (os, held) ∧ holds a2 held.
Proof.
  apply nova_vm_pages_refine; [apply pages_blank_typed|]. by repeat constructor.
Defined.

(** The allocator hands out its whole memory: after nova_vm_init the first
    128 allocations return the pages 0, 1, ..., 127 in this order and the next
    one returns NOVA_FULL. *)
Theorem nova_vm_alloc_all (a0 : nova_page_allocator_t) :
  allocator_typed a0 →
  ∃ a1 a2, nova_vm_init a0 = Done (tt, a1) ∧
    exec_trace exec_op (replicate 129 OpAlloc) a1 =
      Done (((λ p, (NOVA_OK, Some p)) <$> all_pages) ++ [(NOVA_FULL, None)], a2).
Proof.
  intros [Hl _]. rewrite nova_vm_init_run by done.
  destruct (trace_refines exec_op spec_op op_ok holds (replicate 129 OpAlloc) _ _ pages_init_holds)
    as (os & a2 & held & Hr & Hs & _); [by apply Forall_replicate|].
  eexists _, a2. split; [done|]. rewrite Hr. vm_compute in Hs. injection Hs as <- _.
  vm_compute. reflexivity.
Qed.

Lemma nova_vm_alloc_all_witness :
  ∃ a1 a2, nova_vm_init blank = Done (tt, a1) ∧
    exec_trace exec_op (replicate 129 OpAlloc) a1 =
      Done (((λ p, (NOVA_OK, Some p)) <$> all_pages) ++ [(NOVA_FULL, None)], a2).
Proof. apply nova_vm_alloc_all, pages_blank_typed. Defined.

End Pages.
