(* ===== verification/Space.v ===== *)
(** * Address spaces (kernel/core/vm.c)

    An array of 128 mappings searched in order.  It refines a finite map from
    virtual pages to physical pages and their writable flag, of at most 128
    entries. *)

From S2P Require Import Prelude Core.

Module Space.

Record nova_vm_mapping_t : Type := Mapping {
  virtual_page : Z;
  physical_page : Z;
  writable : Z;
}.

Record nova_address_space_t : Type := AddressSpace {
  mappings : list nova_vm_mapping_t;
  count : Z;
}.

(** [space->mappings[i]], read and written. *)
Definition get_mapping (i : nat) : M nova_address_space_t nova_vm_mapping_t :=
  s ← gets (λ s, s); the (mappings s !! i).
Definition put_mapping (i : nat) (m : nova_vm_mapping_t) : M nova_address_space_t unit :=
  s ← gets (λ s, s);
  l ← the (arr_set (mappings s) i m);
  modify (λ s, AddressSpace l (count s)).

Definition nova_vm_address_space_init : M nova_address_space_t unit :=
  modify (λ s, AddressSpace (mappings s) 0).

Definition nova_vm_map (vpage ppage w : Z) : M nova_address_space_t nova_result :=
  s ← gets (λ s, s);
  r ← for_loop (Z.to_nat (count s)) 0 (λ index,
    m ← get_mapping index;
    if decide (virtual_page m ≠ vpage) then mret None
    else
      put_mapping index (Mapping (virtual_page m) ppage w);;
      mret (Some NOVA_OK));
  match r with
  | Some result => mret result
  | None =>
      if decide (count s = Z.of_nat NOVA_MAX_MAPPINGS) then mret NOVA_FULL
      else
        put_mapping (Z.to_nat (count s)) (Mapping vpage ppage w);;
        modify (λ s, AddressSpace (mappings s) (u64 (count s + 1)));;
        mret NOVA_OK
  end.

(** The result and, when they are written, [*physical_page] and [*writable]. *)
Definition nova_vm_translate (vpage : Z)
    : M nova_address_space_t (nova_result * option (Z * Z)) :=
  s ← gets (λ s, s);
  r ← for_loop (Z.to_nat (count s)) 0 (λ index,
    m ← get_mapping index;
    if decide (virtual_page m ≠ vpage) then mret None
    else mret (Some (NOVA_OK, Some (physical_page m, writable m))));
  mret (default (NOVA_NOT_FOUND, None) r).

(** ** Well-formed address spaces *)

Definition space_typed (s : nova_address_space_t) : Prop :=
  length (mappings s) = NOVA_MAX_MAPPINGS ∧ in_width 64 (count s).

(** The mappings in use. *)
Definition used (s : nova_address_space_t) : list nova_vm_mapping_t :=
  take (Z.to_nat (count s)) (mappings s).

Record space_wf (s : nova_address_space_t) : Prop := {
  wf_len : length (mappings s) = 128;
  wf_count : (0 ≤ count s ≤ 128)%Z;
  wf_unique : NoDup (virtual_page <$> used s);
}.

Definition maps_page (vpage : Z) (m : nova_vm_mapping_t) : Prop := virtual_page m = vpage.
#[export] Instance maps_page_dec vpage m : Decision (maps_page vpage m).
Proof. unfold maps_page. apply _. Defined.

Lemma length_used s : space_wf s → length (used s) = Z.to_nat (count s).
Proof. intros [Hl Hc _]. unfold used. rewrite length_take. lia. Qed.

Lemma used_lookup s i m :
  used s !! i = Some m → i < Z.to_nat (count s) ∧ mappings s !! i = Some m.
Proof. unfold used. intros [H1 H2]%lookup_take_Some. done. Qed.

Lemma get_mapping_run i m s :
  mappings s !! i = Some m → get_mapping i s = Done (m, s).
Proof. intros H. unfold get_mapping. run. by apply the_Some. Qed.

Lemma put_mapping_run i m s :
  i < length (mappings s) →
  put_mapping i m s = Done (tt, AddressSpace (<[i := m]> (mappings s)) (count s)).
Proof.
  intros H. unfold put_mapping. run. by bind (the_Some _ _ _ (arr_set_Some _ _ _ H)).
Qed.

Lemma nova_vm_translate_run v s :
  space_wf s →
  nova_vm_translate v s =
    match list_find (maps_page v) (used s) with
    | Some (_, m) => Done ((NOVA_OK, Some (physical_page m, writable m)), s)
    | None => Done ((NOVA_NOT_FOUND, None), s)
    end.
Proof.
  intros Hwf. unfold nova_vm_translate. run. rewrite <-(length_used s Hwf).
  match goal with |- context [for_loop _ _ ?f] => set (body := f) end.
  assert (∀ i m, used s !! i = Some m → maps_page v m →
    body i s = Done (Some (NOVA_OK, Some (physical_page m, writable m)), s)) as Hyes.
  { intros i m [_ Hm]%used_lookup Hv. unfold body. bind (get_mapping_run _ _ _ Hm).
    by rewrite decide_False by (intros Hn; by apply Hn). }
  assert (∀ i m, used s !! i = Some m → ¬ maps_page v m → body i s = Done (None, s)) as Hno.
  { intros i m [_ Hm]%used_lookup Hne. unfold body. bind (get_mapping_run _ _ _ Hm).
    by rewrite decide_True. }
  pose proof (for_loop_find (maps_page v) (used s) body s) as Hloop.
  destruct (list_find (maps_page v) (used s)) as [[i m]|] eqn:Hf.
  - apply list_find_Some in Hf as (Hm & Hv & _). rewrite (Hyes i m Hm Hv) in Hloop.
    by bind by (apply Hloop; eauto).
  - by bind by (apply Hloop; eauto).
Qed.

Lemma nova_vm_map_run v p w s :
  space_wf s →
  nova_vm_map v p w s =
    match list_find (maps_page v) (used s) with
    | Some (i, _) =>
        Done (NOVA_OK, AddressSpace (<[i := Mapping v p w]> (mappings s)) (count s))
    | None =>
        if decide (count s = 128)%Z then Done (NOVA_FULL, s)
        else Done (NOVA_OK, AddressSpace
          (<[Z.to_nat (count s) := Mapping v p w]> (mappings s)) (count s + 1))
    end.
Proof.
  intros Hwf. pose proof Hwf as [Hl Hc _]. unfold nova_vm_map. run.
  rewrite <-(length_used s Hwf) at 1.
  match goal with |- context [for_loop _ _ ?f] => set (body := f) end.
  assert (∀ i m, used s !! i = Some m → maps_page v m → body i s =
    Done (Some NOVA_OK, AddressSpace (<[i := Mapping v p w]> (mappings s)) (count s))) as Hyes.
  { intros i m [_ Hm]%used_lookup Hv. unfold body. bind (get_mapping_run _ _ _ Hm).
    rewrite decide_False by (intros Hn; by apply Hn).
    bind (put_mapping_run _ _ _ (lookup_lt_Some _ _ _ Hm)). by rewrite Hv. }
  pose proof (for_loop_find (maps_page v) (used s) body s) as Hloop.
  assert (∀ i m, used s !! i = Some m → ¬ maps_page v m → body i s = Done (None, s)) as Hno.
  { intros i m [_ Hm]%used_lookup Hne. unfold body. bind (get_mapping_run _ _ _ Hm).
    by rewrite decide_True. }
  destruct (list_find (maps_page v) (used s)) as [[i m]|] eqn:Hf.
  - apply list_find_Some in Hf as (Hm & Hv & _). rewrite (Hyes i m Hm Hv) in Hloop.
    by bind by (apply Hloop; eauto).
  - bind by (apply Hloop; eauto). sizes. destruct (decide (count s = _)) as [E|Hne].
    { done. }
    bind by (apply put_mapping_run; lia). run.
    unfold u64. by rewrite wrap_small by (unfold in_width; cbn; lia).
Qed.

(** ** The address space as a finite map *)

Definition entry (m : nova_vm_mapping_t) : Z * (Z * Z) :=
  (virtual_page m, (physical_page m, writable m)).
Definition as_map (s : nova_address_space_t) : gmap Z (Z * Z) :=
  list_to_map (entry <$> used s).

Lemma entry_keys (l : list nova_vm_mapping_t) : (entry <$> l).*1 = virtual_page <$> l.
Proof. induction l as [|m l IH]; [done|]. cbn. by f_equal. Qed.

Lemma lookup_entries (l : list nova_vm_mapping_t) v :
  (list_to_map (entry <$> l) : gmap Z (Z * Z)) !! v =
    match list_find (maps_page v) l with
    | Some (_, m) => Some (physical_page m, writable m)
    | None => None
    end.
Proof.
  induction l as [|m l IH]; [apply lookup_empty|]. cbn.
  unfold maps_page at 1. destruct (decide (virtual_page m = v)) as [<-|Hne].
  - by rewrite lookup_insert_eq.
  - rewrite lookup_insert_ne, IH by done. by destruct (list_find _ l) as [[]|].
Qed.

(** Overwriting the entry of a key in place is inserting at that key. *)
Lemma entries_insert (l : list nova_vm_mapping_t) i m p w :
  NoDup (virtual_page <$> l) → l !! i = Some m →
  (list_to_map (entry <$> <[i := Mapping (virtual_page m) p w]> l) : gmap Z (Z * Z)) =
    <[virtual_page m := (p, w)]> (list_to_map (entry <$> l)).
Proof.
  revert i. induction l as [|n l IH]; intros i; [done|].
  rewrite fmap_cons, NoDup_cons. intros [Hn Hnd] Hi.
  destruct i as [|i]; cbn in Hi; [simplify_eq|].
  - cbn. by rewrite insert_insert_eq.
  - change (<[S i := Mapping (virtual_page m) p w]> (n :: l))
      with (n :: <[i := Mapping (virtual_page m) p w]> l).
    rewrite !fmap_cons. change (entry n) with (virtual_page n, (physical_page n, writable n)).
    rewrite !list_to_map_cons, (IH i) by done.
    apply insert_insert_ne. intros E. apply Hn. rewrite E.
    apply list_elem_of_fmap. exists m. split; [done|]. by eapply list_elem_of_lookup_2.
Qed.

Lemma size_as_map s : space_wf s → size (as_map s) = Z.to_nat (count s).
Proof.
  intros Hwf. unfold as_map. rewrite map_size_list_to_map; [by rewrite length_fmap, length_used|].
  rewrite entry_keys. apply Hwf.
Qed.

(** ** The specification: a finite map of at most 128 entries *)

Inductive space_op : Type :=
  | OpMap (vpage ppage w : Z)
  | OpTranslate (vpage : Z).

Definition op_ok (op : space_op) : Prop :=
  match op with
  | OpMap vpage ppage w => in_width 64 vpage ∧ in_width 32 ppage ∧ in_width 8 w
  | OpTranslate vpage => in_width 64 vpage
  end.

Definition exec_op (op : space_op)
    : M nova_address_space_t (nova_result * option (Z * Z)) :=
  match op with
  | OpMap vpage ppage w => r ← nova_vm_map vpage ppage w; mret (r, None)
  | OpTranslate vpage => nova_vm_translate vpage
  end.

Definition spec_op (op : space_op) (m : gmap Z (Z * Z))
    : (nova_result * option (Z * Z)) * gmap Z (Z * Z) :=
  match op with
  | OpMap vpage ppage w =>
      if decide (m !! vpage = None ∧ size m = 128) then ((NOVA_FULL, None), m)
      else ((NOVA_OK, None), <[vpage := (ppage, w)]> m)
  | OpTranslate vpage =>
      match m !! vpage with
      | Some x => ((NOVA_OK, Some x), m)
      | None => ((NOVA_NOT_FOUND, None), m)
      end
  end.

Definition holds (s : nova_address_space_t) (m : gmap Z (Z * Z)) : Prop :=
  space_wf s ∧ m = as_map s.

Lemma used_insert s i m :
  i < Z.to_nat (count s) →
  used (AddressSpace (<[i := m]> (mappings s)) (count s)) = <[i := m]> (used s).
Proof. intros Hi. unfold used. cbn. by rewrite take_insert_lt. Qed.

Lemma used_snoc s m :
  space_wf s → count s ≠ 128%Z →
  used (AddressSpace (<[Z.to_nat (count s) := m]> (mappings s)) (count s + 1)) =
    used s ++ [m].
Proof.
  intros [Hl Hc _] Hne. unfold used. cbn.
  replace (Z.to_nat (count s + 1)) with (S (Z.to_nat (count s))) by lia.
  rewrite (take_S_r _ _ m) by (apply list_lookup_insert_eq; lia).
  by rewrite take_insert_ge.
Qed.

Lemma find_none_fresh v l :
  list_find (maps_page v) l = None → v ∉ virtual_page <$> l.
Proof.
  intros Hf%list_find_None [m [-> Hm]]%list_elem_of_fmap.
  by apply (proj1 (Forall_forall _ _) Hf m Hm).
Qed.

Lemma map_replace s i m v p w :
  space_wf s → used s !! i = Some m → virtual_page m = v →
  holds (AddressSpace (<[i := Mapping v p w]> (mappings s)) (count s))
    (<[v := (p, w)]> (as_map s)).
Proof.
  intros Hwf Hm <-. pose proof Hwf as [Hl Hc Hu].
  destruct (used_lookup _ _ _ Hm) as [Hi _]. split.
  - split; cbn; [by rewrite length_insert|done|]. rewrite used_insert by done.
    rewrite list_fmap_insert. cbn. rewrite list_insert_id; [done|].
    by rewrite list_lookup_fmap, Hm.
  - unfold as_map. by rewrite used_insert, entries_insert.
Qed.

Lemma map_append s v p w :
  space_wf s → list_find (maps_page v) (used s) = None → count s ≠ 128%Z →
  holds (AddressSpace (<[Z.to_nat (count s) := Mapping v p w]> (mappings s)) (count s + 1))
    (<[v := (p, w)]> (as_map s)).
Proof.
  intros Hwf Hf%find_none_fresh Hne. pose proof Hwf as [Hl Hc Hu]. split.
  - split; cbn; [by rewrite length_insert|lia|]. rewrite used_snoc by done.
    rewrite fmap_app. apply NoDup_app. split_and!; [done| |apply NoDup_singleton].
    intros u Hin ->%list_elem_of_singleton. done.
  - unfold as_map. rewrite used_snoc, fmap_app by done. cbn [fmap list_fmap].
    change (entry (Mapping v p w)) with (v, (p, w)).
    rewrite list_to_map_snoc; [done|]. by rewrite entry_keys.
Qed.

#[export] Instance space_refines : Refines exec_op spec_op op_ok holds.
Proof.
  intros op s q [Hwf ->] _. destruct op as [v p w|v]; cbn [exec_op spec_op].
  - pose proof (nova_vm_map_run v p w s Hwf) as Hrun.
    pose proof (lookup_entries (used s) v : as_map s !! v = _) as Hlk.
    pose proof (size_as_map s Hwf) as Hsize. pose proof (wf_count _ Hwf).
    destruct (list_find (maps_page v) (used s)) as [[i m]|] eqn:Hf.
    + rewrite decide_False by (rewrite Hlk; by intros [? _]).
      apply list_find_Some in Hf as (Hm & Hv & _).
      eexists _, _, _. split_and!; [bind Hrun; reflexivity|done|by eapply map_replace].
    + destruct (decide (count s = 128%Z)) as [Hfull|Hroom].
      * rewrite decide_True by (split; [done|lia]).
        eexists _, _, _. split_and!; [bind Hrun; reflexivity|done|done].
      * rewrite decide_False by (intros [_ ?]; lia).
        eexists _, _, _. split_and!; [bind Hrun; reflexivity|done|by apply map_append].
  - rewrite nova_vm_translate_run by done. unfold as_map at 1. rewrite lookup_entries.
    destruct (list_find (maps_page v) (used s)) as [[i m]|]; eexists _, _, _;
      (split_and!; [done|done|done]).
Qed.

Lemma space_init_holds s : space_typed s → holds (AddressSpace (mappings s) 0) ∅.
Proof. intros [Hl _]. split; [|done]. split; [done|cbn; lia|constructor]. Qed.

(** * Properties *)

Definition blank : nova_address_space_t :=
  AddressSpace (replicate 128 (Mapping 4096 9 1)) 77.

Lemma space_blank_typed : space_typed blank.
Proof. by split. Qed.

(** From nova_vm_address_space_init on, any sequence of nova_vm_map and
    nova_vm_translate calls behaves as a finite map from virtual pages that
    starts empty: mapping a page already mapped replaces its target in place,
    a new page is added, or refused with NOVA_FULL when 128 pages are mapped;
    a translation returns the last target mapped, or NOVA_NOT_FOUND. *)
Theorem nova_vm_space_refines_map (s0 : nova_address_space_t) (ops : list space_op) :
  space_typed s0 → Forall op_ok ops →
  ∃ os s1 s2, nova_vm_address_space_init s0 = Done (tt, s1) ∧
    exec_trace exec_op ops s1 = Done (os, s2) ∧ space_wf s2 ∧
    spec_trace spec_op ops ∅ = (os, as_map s2).
Proof.
  intros H0 Hops.
  destruct (trace_refines exec_op spec_op op_ok holds ops _ _ (space_init_holds s0 H0) Hops)
    as (os & s2 & q & Hr & Hs & Hwf & ->). by eexists os, _, s2.
Qed.

Lemma nova_vm_space_refines_map_witness :
  ∃ os s1 s2, nova_vm_address_space_init blank = Done (tt, s1) ∧
    exec_trace exec_op [OpTranslate 4096; OpMap 4096 3 1; OpMap 8192 4 0;
                        OpMap 4096 5 0; OpTranslate 4096] s1 = Done (os, s2) ∧
    space_wf s2 ∧
    spec_trace spec_op [OpTranslate 4096; OpMap 4096 3 1; OpMap 8192 4 0;
                        OpMap 4096 5 0; OpTranslate 4096] ∅ = (os, as_map s2).
Proof.
  apply nova_vm_space_refines_map; [apply space_blank_typed|]. by repeat constructor.
Defined.

(** C26. nova_vm_map followed by nova_vm_translate: a successful mapping is what
    the next translation of that page returns, every other page translates as
    before, and a refused mapping (NOVA_FULL) changes nothing. *)
Theorem nova_vm_map_translate (v p w : Z) (s : nova_address_space_t) :
  space_wf s →
  ∃ r s', nova_vm_map v p w s = Done (r, s') ∧ space_wf s' ∧
    (∀ u, u ≠ v → ∃ o, nova_vm_translate u s = Done (o, s) ∧
       nova_vm_translate u s' = Done (o, s')) ∧
    ((r = NOVA_OK ∧ nova_vm_translate v s' = Done ((NOVA_OK, Some (p, w)), s')) ∨
     (r = NOVA_FULL ∧ s' = s ∧ count s = 128%Z ∧
       nova_vm_translate v s = Done ((NOVA_NOT_FOUND, None), s))).
Proof.
  intros Hwf.
  assert (∀ u t, space_wf t → nova_vm_translate u t =
    Done (match as_map t !! u with Some x => (NOVA_OK, Some x)
          | None => (NOVA_NOT_FOUND, None) end, t)) as Htr.
  { intros u t Ht. rewrite nova_vm_translate_run by done. unfold as_map.
    rewrite lookup_entries. by destruct (list_find _ _) as [[]|]. }
  assert (∀ t, holds t (<[v := (p, w)]> (as_map s)) → space_wf t ∧
    (∀ u, u ≠ v → ∃ o, nova_vm_translate u s = Done (o, s) ∧
       nova_vm_translate u t = Done (o, t)) ∧
    nova_vm_translate v t = Done ((NOVA_OK, Some (p, w)), t)) as Hnew.
  { intros t [Ht Hm]. split_and!; [done| |].
    - intros u Hu. eexists. rewrite !Htr, <-Hm, lookup_insert_ne by done. done.
    - by rewrite Htr, <-Hm, lookup_insert_eq. }
  pose proof (nova_vm_map_run v p w s Hwf) as Hrun.
  destruct (list_find (maps_page v) (used s)) as [[i m]|] eqn:Hf.
  - apply list_find_Some in Hf as (Hm & Hv & _).
    destruct (Hnew _ (map_replace s i m v p w Hwf Hm Hv)) as (? & ? & ?). eauto 10.
  - destruct (decide (count s = 128)%Z) as [Hfull|Hroom].
    + exists NOVA_FULL, s. split_and!; [done|done| |].
      * intros u _. rewrite Htr by done. eauto.
      * right. rewrite nova_vm_translate_run, Hf by done. done.
    + destruct (Hnew _ (map_append s v p w Hwf Hf Hroom)) as (? & ? & ?). eauto 10.
Qed.

Lemma nova_vm_map_translate_witness :
  let s := AddressSpace (mappings blank) 1 in
  ∃ r s', nova_vm_map 8192 3 0 s = Done (r, s') ∧ space_wf s' ∧
    (∀ u, u ≠ 8192%Z → ∃ o, nova_vm_translate u s = Done (o, s) ∧
       nova_vm_translate u s' = Done (o, s')) ∧
    ((r = NOVA_OK ∧ nova_vm_translate 8192 s' = Done ((NOVA_OK, Some (3, 0)%Z), s')) ∨
     (r = NOVA_FULL ∧ s' = s ∧ count s = 128%Z ∧
       nova_vm_translate 8192 s = Done ((NOVA_NOT_FOUND, None), s))).
Proof.
  apply nova_vm_map_translate. split; [done|cbn; lia|apply NoDup_singleton].
Defined.

End Space.
