(* ===== verification/NovaKit.v ===== *)
(** * The NovaKit device registry (kernel/novakit/registry.c)

    An append-only array of 64 device records whose identifiers are their
    positions plus one.  It refines a list of devices. *)

From S2P Require Import Prelude CString.

Module NovaKit.

Definition NOVAKIT_MAX_DEVICES : nat := 64.
Definition NOVAKIT_NAME_LENGTH : nat := 48.

Inductive novakit_device_class_t : Type :=
  | NOVAKIT_STORAGE | NOVAKIT_NETWORK | NOVAKIT_GPU | NOVAKIT_INPUT | NOVAKIT_AUDIO
  | NOVAKIT_BUS.

Inductive novakit_device_state_t : Type := NOVAKIT_DETACHED | NOVAKIT_ATTACHED.

#[global] Instance device_class_eq_dec : EqDecision novakit_device_class_t.
Proof. solve_decision. Defined.
#[global] Instance device_state_eq_dec : EqDecision novakit_device_state_t.
Proof. solve_decision. Defined.

Record novakit_device_t : Type := Device {
  id : Z;
  vendor_id : Z;
  device_id : Z;
  class : novakit_device_class_t;
  state : novakit_device_state_t;
  name : list Z;
}.

Record novakit_registry_t : Type := Registry {
  devices : list novakit_device_t;
  count : Z;
}.

(** A record whose bytes are all zero. *)
Definition zero_device : novakit_device_t :=
  Device 0 0 0 NOVAKIT_STORAGE NOVAKIT_DETACHED (replicate NOVAKIT_NAME_LENGTH 0%Z).

(** memset of the whole structure. *)
Definition novakit_registry_init : M novakit_registry_t unit :=
  modify (λ _, Registry (replicate NOVAKIT_MAX_DEVICES zero_device) 0).

(** The return code and, when it is written, [*device_id_out]. *)
Definition novakit_register_device (vendor device : Z) (cls : novakit_device_class_t)
    (name_ : list Z) : M novakit_registry_t (Z * option Z) :=
  registry ← gets (λ r, r);
  if decide (count registry = Z.of_nat NOVAKIT_MAX_DEVICES) then mret ((-1)%Z, None)
  else
    slot ← the (devices registry !! Z.to_nat (count registry));
    copied ← the (strncpy (name slot) name_ (NOVAKIT_NAME_LENGTH - 1));
    terminated ← the (arr_set copied (NOVAKIT_NAME_LENGTH - 1) 0%Z);
    let new := Device (u32 (u32 (count registry) + 1)) vendor device cls
                 NOVAKIT_DETACHED terminated in
    l ← the (arr_set (devices registry) (Z.to_nat (count registry)) new);
    modify (λ _, Registry l (u64 (count registry + 1)));;
    mret (0%Z, Some (id new)).

Definition novakit_set_state (dev_id : Z) (st : novakit_device_state_t)
    : M novakit_registry_t Z :=
  registry ← gets (λ r, r);
  if decide (dev_id = 0 ∨ count registry < dev_id)%Z then mret (-1)%Z
  else
    d ← the (devices registry !! Z.to_nat (dev_id - 1));
    l ← the (arr_set (devices registry) (Z.to_nat (dev_id - 1))
               (Device (id d) (vendor_id d) (device_id d) (class d) st (name d)));
    modify (λ r, Registry l (count r));;
    mret 0%Z.

(** [&registry->devices[i]] is its index; NULL is [None].  The index is within
    the array: the pointer may be dereferenced. *)
Definition novakit_find (dev_id : Z) : M novakit_registry_t (option nat) :=
  registry ← gets (λ r, r);
  if decide (dev_id = 0 ∨ count registry < dev_id)%Z then mret None
  else
    _ ← the (devices registry !! Z.to_nat (dev_id - 1));
    mret (Some (Z.to_nat (dev_id - 1))).

(** Reading a device through the pointer [novakit_find] returned. *)
Definition deref (p : option nat) : M novakit_registry_t (option novakit_device_t) :=
  match p with
  | None => mret None
  | Some i => r ← gets (λ r, r); d ← the (devices r !! i); mret (Some d)
  end.

(** ** Well-formed registries *)

Definition device_ok (i : nat) (d : novakit_device_t) : Prop :=
  id d = (Z.of_nat i + 1)%Z ∧ name d !! 47 = Some 0%Z.

Record registry_wf (r : novakit_registry_t) : Prop := {
  wf_len : length (devices r) = 64;
  wf_count : (0 ≤ count r ≤ 64)%Z;
  wf_names : Forall (λ d, length (name d) = 48) (devices r);
  wf_devices : ∀ i d, i < Z.to_nat (count r) → devices r !! i = Some d → device_ok i d;
}.

(** What a registered device says of itself; the name as a string. *)
Record device_view : Type := DeviceView {
  v_vendor : Z;
  v_device : Z;
  v_class : novakit_device_class_t;
  v_state : novakit_device_state_t;
  v_name : option (list Z);
}.

Definition view (d : novakit_device_t) : device_view :=
  DeviceView (vendor_id d) (device_id d) (class d) (state d) (c_string (name d)).

Definition contents (r : novakit_registry_t) : list device_view :=
  view <$> take (Z.to_nat (count r)) (devices r).

(** ** The specification: an append-only list of devices *)

Inductive kit_op : Type :=
  | OpRegister (vendor device : Z) (cls : novakit_device_class_t) (name_ : list Z)
  | OpSetState (dev_id : Z) (st : novakit_device_state_t)
  | OpFind (dev_id : Z).

(** The name argument is a C string; the integers have their types. *)
Definition op_ok (op : kit_op) : Prop :=
  match op with
  | OpRegister vendor device _ name_ =>
      in_width 16 vendor ∧ in_width 16 device ∧ is_Some (c_string name_)
  | OpSetState dev_id _ | OpFind dev_id => in_width 32 dev_id
  end.

(** The return code, the identifier written and the device found. *)
Abbreviation observation := (Z * option Z * option device_view)%type.

Definition exec_op (op : kit_op) : M novakit_registry_t observation :=
  match op with
  | OpRegister vendor device cls name_ =>
      r ← novakit_register_device vendor device cls name_; mret (r, None)
  | OpSetState dev_id st => r ← novakit_set_state dev_id st; mret (r, None, None)
  | OpFind dev_id =>
      p ← novakit_find dev_id; d ← deref p; mret (0%Z, None, view <$> d)
  end.

Definition spec_set_state (st : novakit_device_state_t) (v : device_view) : device_view :=
  DeviceView (v_vendor v) (v_device v) (v_class v) st (v_name v).

(** [dev_id] is the identifier of entry [i]. *)
Definition entry_of (dev_id : Z) (q : list device_view) : option nat :=
  if decide (1 ≤ dev_id ≤ Z.of_nat (length q))%Z then Some (Z.to_nat (dev_id - 1)) else None.

Definition spec_op (op : kit_op) (q : list device_view) : observation * list device_view :=
  match op with
  | OpRegister vendor device cls name_ =>
      if decide (length q = 64) then (((-1)%Z, None, None), q)
      else ((0%Z, Some (Z.of_nat (length q) + 1)%Z, None),
            q ++ [DeviceView vendor device cls NOVAKIT_DETACHED
                    (take 47 <$> c_string name_)])
  | OpSetState dev_id st =>
      match entry_of dev_id q with
      | Some i => ((0%Z, None, None), alter (spec_set_state st) i q)
      | None => (((-1)%Z, None, None), q)
      end
  | OpFind dev_id =>
      match entry_of dev_id q with
      | Some i => ((0%Z, None, q !! i), q)
      | None => ((0%Z, None, None), q)
      end
  end.

Definition holds (r : novakit_registry_t) (q : list device_view) : Prop :=
  registry_wf r ∧ q = contents r.

(** ** Registering *)

(** The name field after strncpy and the explicit terminator. *)
Definition stored_name (s : list Z) : list Z := take 47 (s ++ replicate 47 0%Z) ++ [0%Z].

Lemma store_name old name_ s :
  length old = 48 → c_string name_ = Some s →
  ∃ copied, strncpy old name_ 47 = Some copied ∧
    arr_set copied 47 0%Z = Some (stored_name s).
Proof.
  intros Hold Hs. destruct (c_string_Some _ _ Hs) as (Hnz & r & ->).
  assert (length (take 47 (s ++ replicate 47 0%Z)) = 47) as Hlen
    by (rewrite length_take, length_app, length_replicate; lia).
  unfold strncpy. rewrite strncpy_bytes_string by done. cbn [mbind option_bind].
  rewrite memcpy_Some, (take_ge (take 47 _)) by lia.
  destruct (drop 47 old) as [|b [|]] eqn:Hd; apply (f_equal length) in Hd as Hdl;
    rewrite length_drop in Hdl; cbn in Hdl; try lia.
  eexists. split; [done|]. rewrite arr_set_Some by (rewrite length_app, Hlen; cbn; lia).
  f_equal. unfold stored_name. by rewrite insert_app_r_alt, Hlen by lia.
Qed.

Lemma stored_name_string s : nonzero s → c_string (stored_name s) = Some (take 47 s).
Proof. apply (c_string_truncated s 47 []). Qed.

Lemma stored_name_len s : length (stored_name s) = 48.
Proof.
  unfold stored_name. rewrite length_app, length_take, length_app, length_replicate.
  cbn [length]. lia.
Qed.

Lemma stored_name_last s : stored_name s !! 47 = Some 0%Z.
Proof.
  unfold stored_name. rewrite lookup_app_r;
    rewrite length_take, length_app, length_replicate; [|lia].
  by rewrite Nat.min_l by lia.
Qed.

Lemma kit_wf_slot r i : registry_wf r → i < 64 → ∃ d, devices r !! i = Some d ∧ length (name d) = 48.
Proof.
  intros [Hl _ Hn _] Hi. destruct (lookup_lt_is_Some_2 (devices r) i) as [d Hd]; [lia|].
  exists d. split; [done|]. by apply (proj1 (Forall_lookup _ _) Hn i).
Qed.

Definition new_device (r : novakit_registry_t) vendor device cls s : novakit_device_t :=
  Device (count r + 1) vendor device cls NOVAKIT_DETACHED (stored_name s).

Lemma novakit_register_device_run vendor device cls name_ s r :
  registry_wf r → c_string name_ = Some s → count r ≠ 64%Z →
  novakit_register_device vendor device cls name_ r =
    Done ((0%Z, Some (count r + 1)%Z), Registry
      (<[Z.to_nat (count r) := new_device r vendor device cls s]> (devices r)) (count r + 1)).
Proof.
  intros Hwf Hs Hne. pose proof Hwf as [Hl Hc _ _].
  unfold novakit_register_device. run.
  unfold NOVAKIT_MAX_DEVICES. rewrite decide_False by done.
  destruct (kit_wf_slot r (Z.to_nat (count r)) Hwf) as (d & Hd & Hn); [lia|].
  bind (the_Some _ _ _ Hd).
  destruct (store_name (name d) name_ s Hn Hs) as (copied & Hcp & Hset).
  bind (the_Some _ _ _ Hcp). bind (the_Some _ _ _ Hset).
  bind by (apply the_Some, arr_set_Some; lia). run. cbn [id].
  unfold u32, u64. rewrite wrap_add_wrap, !wrap_small by (unfold in_width; lia). done.
Qed.

Lemma contents_register r d :
  registry_wf r → count r ≠ 64%Z →
  contents (Registry (<[Z.to_nat (count r) := d]> (devices r)) (count r + 1)) =
    contents r ++ [view d].
Proof.
  intros [Hl Hc _ _] Hne. unfold contents. cbn.
  replace (Z.to_nat (count r + 1)) with (S (Z.to_nat (count r))) by lia.
  rewrite (take_S_r _ _ d) by (apply list_lookup_insert_eq; lia).
  by rewrite take_insert_ge, fmap_app.
Qed.

Lemma kit_length_contents r : registry_wf r → length (contents r) = Z.to_nat (count r).
Proof. intros [Hl Hc _ _]. unfold contents. rewrite length_fmap, length_take. lia. Qed.

Lemma register_wf r vendor device cls s :
  registry_wf r → count r ≠ 64%Z →
  registry_wf (Registry
    (<[Z.to_nat (count r) := new_device r vendor device cls s]> (devices r)) (count r + 1)).
Proof.
  intros [Hl Hc Hn Hd] Hne. split; cbn.
  - by rewrite length_insert.
  - lia.
  - apply Forall_insert_any; [done|apply stored_name_len].
  - intros i d Hi [(<- & <- & _)|[Hni Hdi]]%list_lookup_insert_Some.
    + split; [cbn; lia|apply stored_name_last].
    + apply Hd; [lia|done].
Qed.

(** ** Identifiers *)

Lemma entry_of_None dev_id r :
  registry_wf r → in_width 32 dev_id → (dev_id = 0 ∨ count r < dev_id)%Z →
  entry_of dev_id (contents r) = None.
Proof.
  intros Hwf Hid Hbad. pose proof (wf_count _ Hwf). unfold entry_of, in_width in *.
  rewrite decide_False; [done|]. rewrite kit_length_contents by done. lia.
Qed.

Lemma entry_of_Some dev_id r :
  registry_wf r → in_width 32 dev_id → ¬ (dev_id = 0 ∨ count r < dev_id)%Z →
  Z.to_nat (dev_id - 1) < Z.to_nat (count r) ∧
  entry_of dev_id (contents r) = Some (Z.to_nat (dev_id - 1)) ∧
  ∃ d, devices r !! Z.to_nat (dev_id - 1) = Some d ∧ length (name d) = 48.
Proof.
  intros Hwf Hid Hok. pose proof (wf_count _ Hwf). unfold entry_of, in_width in *.
  rewrite decide_True by (rewrite kit_length_contents by done; lia).
  split_and!; [lia|done|]. apply kit_wf_slot; [done|lia].
Qed.

Lemma contents_lookup r i d :
  i < Z.to_nat (count r) → devices r !! i = Some d → contents r !! i = Some (view d).
Proof.
  intros Hi Hd. unfold contents. by rewrite list_lookup_fmap, lookup_take_lt, Hd.
Qed.

(** Replacing a device that keeps its identity keeps the registry well formed. *)
Lemma replace_wf r i d d' :
  registry_wf r → devices r !! i = Some d → id d' = id d → name d' = name d →
  registry_wf (Registry (<[i := d']> (devices r)) (count r)).
Proof.
  intros [Hl Hc Hn Hd] Hi Hid Hname. split; cbn.
  - by rewrite length_insert.
  - done.
  - apply Forall_insert_any; [done|]. rewrite Hname. by apply (proj1 (Forall_lookup _ _) Hn i).
  - intros j e Hj [(<- & <- & _)|[Hni Hdj]]%list_lookup_insert_Some; [|by apply Hd].
    destruct (Hd i d Hj Hi). split; congruence.
Qed.

Lemma contents_replace r i d d' :
  devices r !! i = Some d → i < Z.to_nat (count r) →
  contents (Registry (<[i := d']> (devices r)) (count r)) = <[i := view d']> (contents r).
Proof.
  intros Hd Hi. unfold contents. cbn.
  by rewrite take_insert_lt, list_fmap_insert.
Qed.

#[export] Instance kit_refines : Refines exec_op spec_op op_ok holds.
Proof.
  intros op r q [Hwf ->] Hop. pose proof (wf_count _ Hwf) as Hc.
  destruct op as [vendor device cls name_|dev_id st|dev_id]; cbn [exec_op spec_op].
  - destruct Hop as (_ & _ & s & Hs). rewrite kit_length_contents by done.
    destruct (decide (count r = 64)%Z) as [Hfull|Hroom].
    { rewrite decide_True by lia. exists ((-1)%Z, None, None), r, (contents r).
      split_and!; [|done|by split].
      unfold novakit_register_device. run. by rewrite decide_True. }
    rewrite decide_False by lia. eexists _, _, _. split; [|split; [done|split]].
    + bind (novakit_register_device_run _ _ _ _ _ _ Hwf Hs Hroom). run.
      by rewrite Z2Nat.id by lia.
    + by apply register_wf.
    + rewrite contents_register, Hs by done. unfold view. cbn.
      rewrite stored_name_string; [done|]. apply (c_string_Some _ _ Hs).
  - unfold novakit_set_state. run.
    destruct (decide (dev_id = 0 ∨ count r < dev_id)%Z) as [Hbad|Hok].
    { rewrite entry_of_None by done. run. eexists _, _, _. split_and!; [done|done|by split]. }
    destruct (entry_of_Some dev_id r Hwf Hop Hok) as (Hi & -> & d & Hd & Hn).
    run. bind (the_Some _ _ _ Hd). run.
    bind (the_Some _ _ _ (arr_set_Some _ _ _ (lookup_lt_Some _ _ _ Hd))). run.
    eexists _, _, _. split_and!; [done|done|]. split.
    + by eapply replace_wf.
    + rewrite (contents_replace _ _ d) by done. apply list_eq. intros j.
      destruct (decide (j = Z.to_nat (dev_id - 1))) as [->|Hj].
      * rewrite list_lookup_alter_eq, (contents_lookup r _ d) by done.
        rewrite list_lookup_insert_eq; [done|]. by rewrite kit_length_contents.
      * by rewrite list_lookup_alter_ne, list_lookup_insert_ne by done.
  - unfold novakit_find. run.
    destruct (decide (dev_id = 0 ∨ count r < dev_id)%Z) as [Hbad|Hok].
    { rewrite entry_of_None by done. run. cbn [deref]. run. eexists _, _, _. split_and!; [done|done|by split]. }
    destruct (entry_of_Some dev_id r Hwf Hop Hok) as (Hi & -> & d & Hd & Hn).
    run. bind (the_Some _ _ _ Hd). run. cbn [deref]. run. bind (the_Some _ _ _ Hd). run.
    eexists _, _, _. split_and!; [done| |by split]. cbn.
    by rewrite (contents_lookup r _ d).
Qed.

Lemma kit_init_holds : holds (Registry (replicate 64 zero_device) 0) [].
Proof.
  split; [split|done]; [done|cbn; lia|by apply (Forall_replicate _ 64)|].
  intros i d Hi. cbn in Hi. lia.
Qed.

(** * Properties *)

(** From novakit_registry_init on, any sequence of novakit_register_device,
    novakit_set_state and novakit_find calls behaves as an append-only list of
    at most 64 devices: registration returns the identifier position + 1 (or -1
    when full), set_state changes the state of exactly the named device, find
    shows the device as last set, and an identifier never handed out is refused
    (-1 or NULL).  A name is stored as its first 47 characters and always
    terminated; no call leaves the array. *)
Theorem novakit_registry_refines (r0 : novakit_registry_t) (ops : list kit_op) :
  Forall op_ok ops →
  ∃ os r1 r2, novakit_registry_init r0 = Done (tt, r1) ∧
    exec_trace exec_op ops r1 = Done (os, r2) ∧ registry_wf r2 ∧
    spec_trace spec_op ops [] = (os, contents r2).
Proof.
  intros Hops.
  destruct (trace_refines exec_op spec_op op_ok holds ops _ _ kit_init_holds Hops)
    as (os & r2 & q & Hr & Hs & Hwf & ->). by eexists os, _, r2.
Qed.

Lemma novakit_registry_refines_witness :
  let ops := [OpFind 1; OpRegister 6900 4096 NOVAKIT_NETWORK (cstr "virtio-net");
              OpSetState 1 NOVAKIT_ATTACHED; OpSetState 2 NOVAKIT_ATTACHED; OpFind 1] in
  ∃ os r1 r2, novakit_registry_init (Registry [] 9) = Done (tt, r1) ∧
    exec_trace exec_op ops r1 = Done (os, r2) ∧ registry_wf r2 ∧
    spec_trace spec_op ops [] = (os, contents r2).
Proof.
  apply novakit_registry_refines.
  repeat constructor; try (unfold in_width; lia). by eexists.
Defined.

(** C27. A registered device is found again under the identifier returned, with
    its vendor, device id, class and name (47 characters at most, terminated),
    in the detached state; every device registered before is untouched, and
    when 64 are registered the call returns -1 and changes nothing. *)
Theorem novakit_register_find (vendor device : Z) (cls : novakit_device_class_t)
    (name_ s : list Z) (r : novakit_registry_t) :
  registry_wf r → c_string name_ = Some s →
  (∃ r' d, novakit_register_device vendor device cls name_ r =
       Done ((0%Z, Some (id d)), r') ∧ count r' = (count r + 1)%Z ∧
     novakit_find (id d) r' = Done (Some (Z.to_nat (count r)), r') ∧
     deref (Some (Z.to_nat (count r))) r' = Done (Some d, r') ∧
     vendor_id d = vendor ∧ device_id d = device ∧ class d = cls ∧
     state d = NOVAKIT_DETACHED ∧ c_string (name d) = Some (take 47 s) ∧
     ∀ i, i ≠ Z.to_nat (count r) → devices r' !! i = devices r !! i) ∨
  (count r = 64%Z ∧
     novakit_register_device vendor device cls name_ r = Done (((-1)%Z, None), r)).
Proof.
  intros Hwf Hs. pose proof (wf_count _ Hwf) as Hc. pose proof (wf_len _ Hwf) as Hl.
  destruct (decide (count r = 64)%Z) as [Hfull|Hroom]; [right|left].
  { split; [done|]. unfold novakit_register_device. run. by rewrite decide_True. }
  assert (devices (Registry (<[Z.to_nat (count r) := new_device r vendor device cls s]>
    (devices r)) (count r + 1)) !! Z.to_nat (count r) =
    Some (new_device r vendor device cls s)) as Hd
    by (apply list_lookup_insert_eq; lia).
  eexists _, (new_device r vendor device cls s).
  split_and!; [by eapply novakit_register_device_run|done| | |done|done|done|done| |].
  - unfold novakit_find. run. cbn [id new_device count].
    rewrite decide_False by lia.
    replace (Z.to_nat (count r + 1 - 1)) with (Z.to_nat (count r)) by lia.
    by bind (the_Some _ _ _ Hd).
  - cbn [deref]. run. by bind (the_Some _ _ _ Hd).
  - apply stored_name_string, (c_string_Some _ _ Hs).
  - intros i Hi. by apply list_lookup_insert_ne.
Qed.

Lemma novakit_register_find_witness :
  let r := Registry (replicate 64 zero_device) 0 in
  let name_ := cstr "a driver with a name that is longer than the forty-eight bytes" in
  let s := chars "a driver with a name that is longer than the forty-eight bytes" in
  (∃ r' d, novakit_register_device 6900 4096 NOVAKIT_BUS name_ r =
       Done ((0%Z, Some (id d)), r') ∧ count r' = (count r + 1)%Z ∧
     novakit_find (id d) r' = Done (Some (Z.to_nat (count r)), r') ∧
     deref (Some (Z.to_nat (count r))) r' = Done (Some d, r') ∧
     vendor_id d = 6900%Z ∧ device_id d = 4096%Z ∧ class d = NOVAKIT_BUS ∧
     state d = NOVAKIT_DETACHED ∧ c_string (name d) = Some (take 47 s) ∧
     ∀ i, i ≠ Z.to_nat (count r) → devices r' !! i = devices r !! i) ∨
  (count r = 64%Z ∧
     novakit_register_device 6900 4096 NOVAKIT_BUS name_ r = Done (((-1)%Z, None), r)).
Proof.
  apply novakit_register_find; [apply kit_init_holds|reflexivity].
Defined.

End NovaKit.
