(* ===== verification/LinuxKpi.v ===== *)
(** * The LinuxKPI module table (drivers/linuxkpi/src/linuxkpi.c)

    A static array of 32 module pointers and its length.  It refines the list
    of the modules accepted so far. *)

From S2P Require Import Prelude CString LinkedList.

Module LinuxKpi.

Definition NOVA_LINUXKPI_MAX_MODULES : nat := 32.

(** The three [const char *] fields; NULL is [None]. *)
Record nova_linuxkpi_module_t : Type := KpiModule {
  name : option (list Z);
  license : option (list Z);
  upstream_revision : option (list Z);
}.

(** The static [modules] and [module_count]; a module is its address. *)
Record kpi_state : Type := KpiState {
  modules : list (option loc);
  module_count : Z;
}.

(** Static storage starts as zero. *)
Definition kpi_initial : kpi_state :=
  KpiState (replicate NOVA_LINUXKPI_MAX_MODULES None) 0.

(** The argument: NULL, or an address and the structure there. *)
Abbreviation module_arg := (option (loc * nova_linuxkpi_module_t)).

Definition nova_linuxkpi_register (module : module_arg) : M kpi_state Z :=
  s ← gets (λ s, s);
  match module with
  | None => mret (-1)%Z
  | Some (address, m) =>
      if decide (name m = None ∨ license m = None ∨ upstream_revision m = None ∨
                 module_count s = Z.of_nat NOVA_LINUXKPI_MAX_MODULES)
      then mret (-1)%Z
      else
        l ← the (arr_set (modules s) (Z.to_nat (module_count s)) (Some address));
        modify (λ s, KpiState l (u64 (module_count s + 1)));;
        mret 0%Z
  end.

Definition nova_linuxkpi_module_count : M kpi_state Z := gets module_count.

(** ** The specification: the accepted modules, at most 32 *)

(** Every field is present. *)
Definition complete (m : nova_linuxkpi_module_t) : Prop :=
  is_Some (name m) ∧ is_Some (license m) ∧ is_Some (upstream_revision m).
#[export] Instance complete_dec m : Decision (complete m).
Proof. unfold complete. apply _. Defined.

Inductive kpi_op : Type := OpRegister (module : module_arg) | OpCount.

Definition exec_op (op : kpi_op) : M kpi_state Z :=
  match op with
  | OpRegister module => nova_linuxkpi_register module
  | OpCount => nova_linuxkpi_module_count
  end.

Definition spec_op (op : kpi_op) (q : list loc) : Z * list loc :=
  match op with
  | OpRegister None => ((-1)%Z, q)
  | OpRegister (Some (address, m)) =>
      if decide (complete m ∧ length q < 32) then (0%Z, q ++ [address]) else ((-1)%Z, q)
  | OpCount => (Z.of_nat (length q), q)
  end.

(** The first [module_count] slots are the accepted modules, the rest NULL. *)
Definition holds (s : kpi_state) (q : list loc) : Prop :=
  length q ≤ 32 ∧ module_count s = Z.of_nat (length q) ∧
  modules s = (Some <$> q) ++ replicate (32 - length q) None.

Lemma fields_present m :
  ¬ (name m = None ∨ license m = None ∨ upstream_revision m = None) ↔ complete m.
Proof. unfold complete. rewrite <-!not_eq_None_Some. tauto. Qed.

Lemma holds_append s q address :
  holds s q → length q < 32 →
  Z.to_nat (module_count s) < length (modules s) ∧
  holds (KpiState (<[Z.to_nat (module_count s) := Some address]> (modules s))
           (u64 (module_count s + 1))) (q ++ [address]).
Proof.
  intros (_ & Hc & Hm) Hlt. rewrite Hc, Nat2Z.id, Hm. split.
  { rewrite length_app, length_fmap, length_replicate. lia. }
  split_and!; cbn.
  - rewrite length_app. cbn. lia.
  - unfold u64. rewrite wrap_small by (unfold in_width; lia). rewrite length_app. cbn. lia.
  - rewrite insert_app_r_alt, length_fmap, Nat.sub_diag by (by rewrite length_fmap).
    destruct (32 - length q) as [|k] eqn:Hk; [lia|]. cbn [replicate].
    rewrite fmap_app, <-app_assoc, length_app. cbn.
    by replace (32 - (length q + 1)) with k by lia.
Qed.

#[export] Instance kpi_refines : Refines exec_op spec_op (λ _, True) holds.
Proof.
  intros op s q Hh _. pose proof Hh as (Hlen & Hc & Hm).
  destruct op as [[[address m]|]|]; cbn [exec_op spec_op].
  - unfold nova_linuxkpi_register. run. unfold NOVA_LINUXKPI_MAX_MODULES.
    pose proof (fields_present m) as Hp.
    destruct (decide (name m = None ∨ _)) as [Hbad|Hok].
    + rewrite decide_False by (rewrite <-Hp; intros [Hn Hlt];
        destruct Hbad as [|[|[|]]]; [tauto..|lia]).
      by eexists _, _, _.
    + rewrite decide_True by (rewrite Hc in Hok; split; [tauto|lia]).
      destruct (holds_append s q address Hh) as [Hlt Hh']; [rewrite Hc in Hok; lia|].
      bind (the_Some _ _ _ (arr_set_Some _ _ _ Hlt)). run. by eexists _, _, _.
  - by eexists _, _, _.
  - eexists _, _, _. split_and!; [done|by rewrite Hc|done].
Qed.

(** * Properties *)

(** C19. From the zeroed static storage on, nova_linuxkpi_register accepts a
    module (returns 0) exactly when its name, license and revision are not NULL
    and fewer than 32 modules are registered, and refuses every other call with
    -1 and no change: the table holds the accepted modules in order, and
    nova_linuxkpi_module_count is their number. *)
Theorem nova_linuxkpi_refines (ops : list kpi_op) :
  ∃ os s q, exec_trace exec_op ops kpi_initial = Done (os, s) ∧
    spec_trace spec_op ops [] = (os, q) ∧ length q ≤ 32 ∧
    module_count s = Z.of_nat (length q) ∧ take (length q) (modules s) = Some <$> q.
Proof.
  destruct (trace_refines exec_op spec_op (λ _, True) holds ops kpi_initial [])
    as (os & s & q & Hr & Hs & Hle & Hc & Hm).
  - split_and!; [cbn; lia|done|done].
  - by apply Forall_true.
  - exists os, s, q. split_and!; [done|done|done|done|].
    rewrite Hm, take_app_le, take_ge by (by rewrite length_fmap). done.
Qed.

End LinuxKpi.
