(* ===== verification/CType.v ===== *)
(** * C data types: sizes, layout and values

    The types of the headers of src/nova-os, as data.  [size], [align] and
    [fields] give the natural layout of the LP64 ABI of x86-64 (an integer is
    aligned to its size, a pointer has eight bytes, a member goes to the next
    multiple of its alignment); [has_type] says which values a type admits.  The integer
    types come with the hints that [keep] needs of them. *)

From S2P Require Import Prelude Keeps.

(** An enumeration is an int; its enumerators are kept with their values.  A
    char is represented by its bit pattern.  Pointers to objects and to
    functions are not told apart. *)
Inductive ctype : Type :=
  | TUInt (bytes : nat)
  | TSInt (bytes : nat)
  | TEnum (enumerators : list (string * Z))
  | TPtr
  | TArray (n : nat) (t : ctype)
  | TStruct (members : list (string * ctype))
  | TUnion (members : list (string * ctype)).

Definition uint8_t : ctype := TUInt 1.
Definition uint16_t : ctype := TUInt 2.
Definition uint32_t : ctype := TUInt 4.
Definition uint64_t : ctype := TUInt 8.
Definition size_t : ctype := TUInt 8.
Definition ssize_t : ctype := TSInt 8.
Definition char_t : ctype := TUInt 1.
Definition short_t : ctype := TSInt 2.
Definition int_t : ctype := TSInt 4.
Definition int32_t : ctype := TSInt 4.

(** ** Layout *)

(** The first multiple of [a] from [n] on. *)
Definition align_up (n a : nat) : nat := (n + (a - 1)) `div` a * a.

Fixpoint align (t : ctype) : nat :=
  match t with
  | TUInt n | TSInt n => n
  | TEnum _ => 4
  | TPtr => 8
  | TArray _ t => align t
  | TStruct ms | TUnion ms => foldr (λ '(_, t) a, align t `max` a) 1 ms
  end.

Fixpoint size (t : ctype) : nat :=
  match t with
  | TUInt n | TSInt n => n
  | TEnum _ => 4
  | TPtr => 8
  | TArray n t => n * size t
  | TStruct ms =>
      align_up (foldl (λ off '(_, t), align_up off (align t) + size t) 0 ms) (align (TStruct ms))
  | TUnion ms => align_up (foldr (λ '(_, t) n, size t `max` n) 0 ms) (align (TUnion ms))
  end.

(** The members of a structure with their types and offsets, from offset [off]
    on. *)
Fixpoint fields (off : nat) (ms : list (string * ctype)) : list (string * (ctype * nat)) :=
  match ms with
  | [] => []
  | (x, t) :: ms =>
      let o := align_up off (align t) in (x, (t, o)) :: fields (o + size t) ms
  end.

Definition members (t : ctype) : list (string * (ctype * nat)) :=
  match t with
  | TStruct ms => fields 0 ms
  | TUnion ms => (λ '(x, t), (x, (t, 0))) <$> ms
  | _ => []
  end.

Definition offset_of (t : ctype) (x : string) : option (ctype * nat) :=
  '(_, (_, m)) ← list_find (λ m, m.1 = x) (members t); Some m.

(** ** Values

    [VPtr] is a pointer to some object, which is not followed; [VNull] is the
    null pointer. *)

Inductive cval : Type :=
  | VInt (z : Z)
  | VPtr
  | VNull
  | VArray (l : list cval)
  | VStruct (l : list cval)
  | VUnion (x : string) (v : cval).

Definition in_signed (bytes : nat) (z : Z) : Prop :=
  (- 2 ^ (8 * Z.of_nat bytes - 1) ≤ z < 2 ^ (8 * Z.of_nat bytes - 1))%Z.

#[export] Instance in_signed_dec n z : Decision (in_signed n z).
Proof. unfold in_signed. apply _. Defined.

Fixpoint has_type (t : ctype) (v : cval) {struct t} : Prop :=
  match t, v with
  | TUInt n, VInt z => in_width (8 * Z.of_nat n) z
  | TSInt n, VInt z => in_signed n z
  | TEnum _, VInt z => in_signed 4 z
  | TPtr, (VPtr | VNull) => True
  | TArray n t, VArray l => length l = n ∧ Forall (has_type t) l
  | TStruct ms, VStruct l =>
      (fix go ms l := match ms, l with
        | [], [] => True
        | (_, t) :: ms, v :: l => has_type t v ∧ go ms l
        | _, _ => False
        end) ms l
  | TUnion ms, VUnion x v =>
      (fix go ms := match ms with
        | [] => False
        | (y, t) :: ms => y = x ∧ has_type t v ∨ go ms
        end) ms
  | _, _ => False
  end.

(** A pointer that is known to be null or not. *)
Definition pointer {A} (p : option A) : cval := match p with None => VNull | Some _ => VPtr end.

Lemma pointer_typed {A} (p : option A) : has_type TPtr (pointer p).
Proof. by destruct p. Qed.

(** ** Every type is laid out soundly *)

(** Integers have 1, 2, 4 or 8 bytes, the members of a structure or a union
    have names of their own. *)
Definition sane_width (n : nat) : bool := bool_decide (n ∈ [1; 2; 4; 8]).

Fixpoint sane (t : ctype) : bool :=
  match t with
  | TUInt n | TSInt n => sane_width n
  | TEnum _ | TPtr => true
  | TArray _ t => sane t
  | TStruct ms | TUnion ms =>
      bool_decide (NoDup ms.*1) && foldr (λ '(_, t) b, sane t && b) true ms
  end.

(** Members lie aligned, inside and, in a structure, one behind the other. *)
Record well_laid (t : ctype) : Prop := {
  wl_member x u o : (x, (u, o)) ∈ members t →
    (align u | o) ∧ (align u | align t) ∧ o + size u ≤ size t;
  wl_disjoint i j x u o y v o' : (∀ ms, t ≠ TUnion ms) →
    members t !! i = Some (x, (u, o)) → members t !! j = Some (y, (v, o')) → i < j →
    o + size u ≤ o';
  wl_stride : (align t | size t);
  wl_found x u o : (x, (u, o)) ∈ members t → offset_of t x = Some (u, o);
}.

Lemma align_up_le n a : a ≠ 0 → n ≤ align_up n a.
Proof.
  intros Ha. unfold align_up. pose proof (Nat.div_mod (n + (a - 1)) a Ha).
  pose proof (Nat.mod_upper_bound (n + (a - 1)) a Ha). lia.
Qed.

Lemma align_up_divide n a : (a | align_up n a).
Proof. unfold align_up. apply Nat.divide_factor_r. Qed.

(** Induction over types with the hypothesis for every member. *)
Section induction.
Variable P : ctype → Prop.
Hypothesis HU : ∀ n, P (TUInt n).
Hypothesis HS : ∀ n, P (TSInt n).
Hypothesis HE : ∀ l, P (TEnum l).
Hypothesis HP : P TPtr.
Hypothesis HA : ∀ n t, P t → P (TArray n t).
Hypothesis Hstruct : ∀ ms, Forall (λ m, P m.2) ms → P (TStruct ms).
Hypothesis Hunion : ∀ ms, Forall (λ m, P m.2) ms → P (TUnion ms).

Fixpoint ctype_members_ind (t : ctype) : P t :=
  let go := fix go (ms : list (string * ctype)) : Forall (λ m, P m.2) ms :=
    match ms with
    | [] => Forall_nil_2 _
    | (x, t) :: ms => Forall_cons_2 _ (x, t) ms (ctype_members_ind t) (go ms)
    end in
  match t with
  | TUInt n => HU n
  | TSInt n => HS n
  | TEnum l => HE l
  | TPtr => HP
  | TArray n t => HA n t (ctype_members_ind t)
  | TStruct ms => Hstruct ms (go ms)
  | TUnion ms => Hunion ms (go ms)
  end.
End induction.

(** A structure and a union have the same alignment, that of all members. *)
Definition all_sane (ms : list (string * ctype)) : Prop := Forall (λ m : string * ctype, sane m.2 = true) ms.

Lemma sane_members (ms : list (string * ctype)) :
  bool_decide (NoDup ms.*1) && foldr (λ '(_, t) b, sane t && b) true ms = true →
  NoDup ms.*1 ∧ all_sane ms.
Proof.
  intros [Hn%bool_decide_eq_true Hs]%andb_true_iff. split; [done|]. clear Hn. revert Hs.
  induction ms as [|[x t] ms IH]; [constructor|]. cbn. intros [Ht Hms]%andb_true_iff.
  constructor; [done|by apply IH].
Qed.

(** Alignments are 1, 2, 4 or 8; among those the maximum is a multiple. *)
Definition good_align (n : nat) : Prop := n = 1 ∨ n = 2 ∨ n = 4 ∨ n = 8.

Lemma good_align_pos n : good_align n → n ≠ 0.
Proof. unfold good_align. lia. Qed.

Lemma good_align_max a b :
  good_align a → good_align b → good_align (a `max` b) ∧ (a | a `max` b) ∧ (b | a `max` b).
Proof.
  intros Ha Hb. split; [unfold good_align in *; lia|].
  destruct Ha as [->|[->|[->| ->]]], Hb as [->|[->|[->| ->]]]; split;
    apply Nat.Lcm0.mod_divide; done.
Qed.

Lemma sane_width_good n : sane_width n = true → good_align n.
Proof. intros Hn%bool_decide_eq_true. unfold good_align. set_solver. Qed.

Lemma members_align (ms : list (string * ctype)) :
  Forall (λ m : string * ctype, good_align (align m.2)) ms →
  good_align (align (TStruct ms)) ∧
  Forall (λ m : string * ctype, (align m.2 | align (TStruct ms))) ms.
Proof.
  induction 1 as [|[x t] ms Ht Hms [IHg IHd]]; [split; [unfold good_align; cbn; lia|constructor]|].
  destruct (good_align_max _ _ Ht IHg) as (Hg & H1 & H2).
  change (align (TStruct ((x, t) :: ms))) with (align t `max` align (TStruct ms)).
  split; [done|]. constructor; [done|]. eapply Forall_impl; [exact IHd|].
  intros m Hm. by transitivity (align (TStruct ms)).
Qed.

Lemma sane_align t : sane t = true → good_align (align t).
Proof.
  induction t as [n|n|l| |n t IH|ms IH|ms IH] using ctype_members_ind; cbn [sane];
    try (by apply sane_width_good); try (by unfold good_align; cbn; lia); [done|..];
    intros [_ Hs]%sane_members; apply (members_align ms);
    apply Forall_forall; unfold all_sane in Hs; rewrite Forall_forall in IH, Hs; eauto.
Qed.

Lemma all_sane_align ms :
  all_sane ms →
  good_align (align (TStruct ms)) ∧
  Forall (λ m : string * ctype, good_align (align m.2) ∧ (align m.2 | align (TStruct ms))) ms.
Proof.
  intros Hs. destruct (members_align ms) as [Hg Hd].
  { eapply Forall_impl; [exact Hs|]. intros m. apply sane_align. }
  split; [done|]. apply Forall_and; split; [|done].
  eapply Forall_impl; [exact Hs|]. intros m. apply sane_align.
Qed.

Lemma sane_stride t : sane t = true → (align t | size t).
Proof.
  induction t as [n|n|l| |n t IH|ms IH|ms IH] using ctype_members_ind; cbn [sane];
    intros Hs; try apply align_up_divide; try apply Nat.divide_refl.
  cbn. apply Nat.divide_mul_r. auto.
Qed.

(** The end of the members, before the padding that rounds the size up. *)
Definition struct_end (off : nat) (ms : list (string * ctype)) : nat :=
  foldl (λ off '(_, t), align_up off (align t) + size t) off ms.

Lemma struct_end_le off ms : all_sane ms → off ≤ struct_end off ms.
Proof.
  intros Hs. revert off. induction Hs as [|[x t] ms Ht Hms IH]; intros off; [done|].
  cbn. etransitivity; [|apply IH]. pose proof (good_align_pos _ (sane_align _ Ht)).
  pose proof (align_up_le off (align t)). cbn in *. lia.
Qed.

Lemma fields_in off ms x u o :
  all_sane ms → (x, (u, o)) ∈ fields off ms →
  (x, u) ∈ ms ∧ (align u | o) ∧ off ≤ o ∧ o + size u ≤ struct_end off ms.
Proof.
  intros Hs. revert off. induction Hs as [|[y t] ms Ht Hms IH]; intros off; cbn.
  { by intros ?%not_elem_of_nil. }
  pose proof (align_up_le off (align t) (good_align_pos _ (sane_align _ Ht))) as Hle.
  intros [[= -> -> ->]|Hin]%elem_of_cons.
  - split_and!; [left|apply align_up_divide|done|]. by apply struct_end_le.
  - apply IH in Hin as (Hin & Hd & Ho & He). split_and!; [by right|done|lia|done].
Qed.

Lemma fields_ordered off ms i j x u o y v o' :
  all_sane ms → fields off ms !! i = Some (x, (u, o)) →
  fields off ms !! j = Some (y, (v, o')) → i < j → o + size u ≤ o'.
Proof.
  intros Hs. revert off i j. induction Hs as [|[z t] ms Ht Hms IH]; intros off i j; [done|].
  cbn. destruct i as [|i], j as [|j]; cbn; try lia.
  - intros [= -> -> ->] Hj%list_elem_of_lookup_2 _. by apply fields_in in Hj as (_ & _ & ? & _).
  - intros Hi Hj ?. eapply IH; eauto. lia.
Qed.

Lemma fields_names off ms : (fields off ms).*1 = ms.*1.
Proof. revert off. induction ms as [|[x t] ms IH]; intros off; cbn; [done|]. by rewrite IH. Qed.

(** A member of a list without repeated names is found under its name. *)
Lemma find_named {A} (l : list (string * A)) x a :
  NoDup l.*1 → (x, a) ∈ l → ∃ i, list_find (λ m : string * A, m.1 = x) l = Some (i, (x, a)).
Proof.
  induction l as [|[y b] l IH]; cbn; [by intros _ ?%not_elem_of_nil|].
  intros [Hy Hn]%NoDup_cons [[= <- <-]|Hin]%elem_of_cons.
  - exists 0. by rewrite decide_True.
  - rewrite decide_False; [|intros ->; apply Hy, list_elem_of_fmap; by exists (x, a)].
    destruct (IH Hn Hin) as [i ->]. by eexists.
Qed.

Lemma union_size (ms : list (string * ctype)) x u :
  (x, u) ∈ ms → size u ≤ foldr (λ '(_, t) n, size t `max` n) 0 ms.
Proof.
  induction ms as [|[y t] ms IH]; cbn; [by intros ?%not_elem_of_nil|].
  intros [[= -> ->]|Hin]%elem_of_cons; [lia|]. apply IH in Hin. lia.
Qed.

Lemma sane_struct_well_laid ms : sane (TStruct ms) = true → well_laid (TStruct ms).
Proof.
  intros Hsane. destruct (sane_members ms Hsane) as [Hn Hs].
  destruct (all_sane_align ms Hs) as [Hg Hd]. split.
  - intros x u o (Hin & Ho & _ & He)%fields_in; [|done]. rewrite Forall_forall in Hd.
    split_and!; [done|by apply (Hd (x, u))|]. etransitivity; [exact He|].
    by apply align_up_le, good_align_pos.
  - intros i j x u o y v o' _. by apply fields_ordered.
  - by apply sane_stride.
  - intros x u o Hin. unfold offset_of. cbn.
    destruct (find_named (fields 0 ms) x (u, o)) as [i ->]; [by rewrite fields_names|done|done].
Qed.

Lemma sane_union_well_laid ms : sane (TUnion ms) = true → well_laid (TUnion ms).
Proof.
  intros Hsane. destruct (sane_members ms Hsane) as [Hn Hs].
  destruct (all_sane_align ms Hs) as [Hg Hd]. split.
  - intros x u o. cbn. intros ([y t] & [= -> -> ->] & Hin)%list_elem_of_fmap.
    rewrite Forall_forall in Hd.
    split_and!; [apply Nat.divide_0_r|by apply (Hd (y, t))|].
    etransitivity; [by eapply union_size|]. by apply align_up_le, good_align_pos.
  - intros i j x u o y v o' Hu. by destruct (Hu ms).
  - by apply sane_stride.
  - intros x u o Hin. unfold offset_of. cbn in *.
    destruct (find_named ((λ '(x, t), (x, (t, 0))) <$> ms) x (u, o)) as [i ->]; [|done|done].
    rewrite <- list_fmap_compose.
    rewrite (list_fmap_ext _ fst ms) by (intros ? [??] ?; done). done.
Qed.

Theorem sane_well_laid t : sane t = true → well_laid t.
Proof.
  destruct t as [n|n|l| |n t|ms|ms]; intros Hs;
    [..|by apply sane_struct_well_laid|by apply sane_union_well_laid];
    (split; [by intros ??? ?%not_elem_of_nil|done|by apply sane_stride|
             by intros ??? ?%not_elem_of_nil]).
Qed.

(** ** Values of the integer types *)

(** An int, a size_t, an ssize_t. *)
Definition int_ok (z : Z) : Prop := has_type int_t (VInt z).
Definition size_ok (z : Z) : Prop := has_type size_t (VInt z).

Definition ssize_ok (z : Z) : Prop := has_type ssize_t (VInt z).

Lemma swrap_range w z : (0 < w)%Z → (- 2 ^ (w - 1) ≤ swrap w z < 2 ^ (w - 1))%Z.
Proof.
  intros Hw. unfold swrap. pose proof (wrap_range w z ltac:(lia)) as [H1 H2].
  assert (2 ^ w = 2 * 2 ^ (w - 1))%Z as Hp by (rewrite <- Z.pow_succ_r by lia; f_equal; lia).
  case_bool_decide; lia.
Qed.

Lemma int_ok_range z : int_ok z ↔ (-2147483648 ≤ z < 2147483648)%Z.
Proof. done. Qed.

Lemma i64_ok z : ssize_ok (i64 z).
Proof. by apply swrap_range. Qed.

(** Operations bit by bit stay in the width. *)
Lemma high_bits w a l : (0 ≤ w ≤ l)%Z → in_width w a → Z.testbit a l = false.
Proof.
  intros [Hw Hl] [Ha Ha']. by apply (proj1 (Z.bounded_iff_bits_nonneg w a Hw Ha) Ha').
Qed.

Lemma width_bits w a :
  (0 ≤ w)%Z → (0 ≤ a)%Z → (∀ l, (w ≤ l)%Z → Z.testbit a l = false) → in_width w a.
Proof. intros Hw Ha Hl. split; [done|]. by apply Z.bounded_iff_bits_nonneg. Qed.

Lemma lor_width w a b : (0 ≤ w)%Z → in_width w a → in_width w b → in_width w (Z.lor a b).
Proof.
  intros Hw Ha Hb. apply width_bits; [done|apply Z.lor_nonneg; by destruct Ha, Hb|].
  intros l Hl. by rewrite Z.lor_spec, !(high_bits w).
Qed.

Lemma land_width w a b : (0 ≤ w)%Z → in_width w a → in_width w b → in_width w (Z.land a b).
Proof.
  intros Hw Ha Hb. apply width_bits; [done|apply Z.land_nonneg; left; apply Ha|].
  intros l Hl. by rewrite Z.land_spec, !(high_bits w).
Qed.

Lemma u64_width z : in_width 64 (u64 z).
Proof. by apply wrap_range. Qed.
Lemma u16_width z : in_width 16 (u16 z).
Proof. by apply wrap_range. Qed.
Lemma u32_width z : in_width 32 (u32 z).
Proof. by apply wrap_range. Qed.
#[export] Hint Resolve pointer_typed lor_width land_width u64_width u32_width i64_ok : typed.
#[export] Hint Extern 1 (int_ok _) => (split; vm_compute; congruence) : typed.
#[export] Hint Extern 1 (ssize_ok _) =>
  (cbn [fst]; first [apply i64_ok|split; vm_compute; congruence]) : typed.
#[export] Hint Extern 2 (in_width _ _) => (split; vm_compute; congruence) : typed.
