(* ===== verification/CMemory.v ===== *)
(** * Objects in memory

    How the values of CType.v lie in memory on x86-64, little end first:
    [reads t bs v] says that the bytes [bs] of an object of type [t] hold the
    value [v]; padding may be anything.  An lvalue such as
    [scheduler->threads[i].quanta] is a path into an object; loading it reads
    the bytes at its offset, storing to it replaces them, and the value of the
    object changes in that component only. *)

From S2P Require Import Prelude Bytes CType.

(** ** Representation *)

(** Member by member from offset [off] on, [R] for each. *)
Definition reads_fields (R : ctype → list Z → cval → Prop) (bs : list Z) :=
  fix go (off : nat) (ms : list (string * ctype)) (l : list cval) : Prop :=
    match ms, l with
    | [], [] => True
    | (_, t) :: ms, v :: l =>
        let o := align_up off (align t) in
        R t (slice o (size t) bs) v ∧ go (o + size t) ms l
    | _, _ => False
    end.

Definition reads_member (R : ctype → list Z → cval → Prop) (bs : list Z) (x : string) (v : cval) :=
  fix go (ms : list (string * ctype)) : Prop :=
    match ms with
    | [] => False
    | (y, t) :: ms => y = x ∧ R t (slice 0 (size t) bs) v ∨ go ms
    end.

Fixpoint reads (t : ctype) (bs : list Z) (v : cval) {struct t} : Prop :=
  length bs = size t ∧ bytes_ok bs ∧
  match t, v with
  | TUInt _, VInt z => z = word_of bs
  | TSInt n, VInt z => z = swrap (8 * Z.of_nat n) (word_of bs)
  | TEnum _, VInt z => z = i32 (word_of bs)
  | TPtr, VPtr => word_of bs ≠ 0%Z
  | TPtr, VNull => word_of bs = 0%Z
  | TArray n t, VArray l =>
      length l = n ∧ ∀ i w, l !! i = Some w → reads t (slice (i * size t) (size t) bs) w
  | TStruct ms, VStruct l => reads_fields reads bs 0 ms l
  | TUnion ms, VUnion x v => reads_member reads bs x v ms
  | _, _ => False
  end.

Lemma reads_length t bs v : reads t bs v → length bs = size t.
Proof. destruct t; by intros [? _]. Qed.
Lemma reads_bytes t bs v : reads t bs v → bytes_ok bs.
Proof. destruct t; by intros (_ & ? & _). Qed.

(** Every object in memory holds a value of its type. *)
Lemma word_width n bs : bytes_ok bs → length bs = n → in_width (8 * Z.of_nat n) (word_of bs).
Proof.
  intros Hb <-. pose proof (word_of_range bs Hb) as Hr. unfold in_width.
  by rewrite Z.pow_mul_r by lia.
Qed.

Lemma swrap_signed n z : n ≠ 0 → in_signed n (swrap (8 * Z.of_nat n) z).
Proof. intros Hn. apply swrap_range. lia. Qed.

Lemma reads_has_type t bs v : sane t = true → reads t bs v → has_type t v.
Proof.
  revert bs v. induction t as [n|n|l| |n t IH|ms IH|ms IH] using ctype_members_ind;
    intros bs v Hs (Hl & Hb & Hr); destruct v; try done; cbn [sane] in Hs.
  - subst z. by apply word_width.
  - subst z. apply swrap_signed. pose proof (good_align_pos _ (sane_width_good _ Hs)). lia.
  - subst z. by apply (swrap_signed 4).
  - destruct Hr as [Hn Hr]. split; [done|]. apply Forall_lookup. intros i w Hi. by eapply IH, Hr.
  - apply sane_members in Hs as [_ Hs]. cbn [reads] in Hr. clear Hl. revert Hr. generalize 0.
    revert l. induction Hs as [|[x t] ms Ht Hms IHms]; intros [|v l] off; cbn; try done.
    apply Forall_cons in IH as [IHt IH]. intros [Hv Hr]. split; [by eapply IHt|].
    by apply (IHms IH) in Hr.
  - apply sane_members in Hs as [_ Hs]. cbn [reads] in Hr. clear Hl. revert Hr.
    induction Hs as [|[y t] ms Ht Hms IHms]; cbn; [done|].
    apply Forall_cons in IH as [IHt IH]. intros [[-> Hv]|Hr].
    + left. split; [done|]. by eapply IHt.
    + right. by apply IHms.
Qed.

(** ** Every value has a representation *)

Definition pad (n : nat) (bs : list Z) : list Z := bs ++ replicate (n - length bs) 0%Z.

Definition image_fields (I : ctype → cval → list Z) :=
  fix go (off : nat) (ms : list (string * ctype)) (l : list cval) : list Z :=
    match ms, l with
    | (_, t) :: ms, v :: l =>
        let o := align_up off (align t) in
        replicate (o - off) 0%Z ++ I t v ++ go (o + size t) ms l
    | _, _ => []
    end.

Definition image_member (I : ctype → cval → list Z) (x : string) (v : cval) :=
  fix go (ms : list (string * ctype)) : list Z :=
    match ms with
    | [] => []
    | (y, t) :: ms => if decide (y = x) then I t v else go ms
    end.

(** The bytes of a value, with zeros as padding; a pointer that is not followed
    gets the address 1. *)
Fixpoint image (t : ctype) (v : cval) {struct t} : list Z :=
  match t, v with
  | TUInt n, VInt z | TSInt n, VInt z => bytes_of n z
  | TEnum _, VInt z => bytes_of 4 z
  | TPtr, VPtr => bytes_of 8 1
  | TArray _ t, VArray l => mjoin (image t <$> l)
  | TStruct ms, VStruct l => pad (size (TStruct ms)) (image_fields image 0 ms l)
  | TUnion ms, VUnion x v => pad (size (TUnion ms)) (image_member image x v ms)
  | t, _ => replicate (size t) 0%Z
  end.

Lemma signed_back n z : n ≠ 0 → in_signed n z → swrap (8 * Z.of_nat n) (word_of (bytes_of n z)) = z.
Proof. intros Hn Hz. rewrite word_of_bytes_wrap. apply swrap_wrap; [lia|exact Hz]. Qed.

Lemma slice_app_exact {A} (l1 l2 l3 : list A) : slice (length l1) (length l2) (l1 ++ l2 ++ l3) = l2.
Proof. unfold slice. by rewrite drop_app_length, take_app_length. Qed.

(** Elements of one size one behind the other. *)
Lemma slice_join {A} n (ls : list (list A)) i l :
  Forall (λ l, length l = n) ls → ls !! i = Some l → slice (i * n) n (mjoin ls) = l.
Proof.
  intros Hn. revert i. induction Hn as [|l' ls <- Hls IH]; intros [|i]; try done; cbn.
  - intros [= ->]. by apply (slice_app_exact []).
  - intros Hi. etransitivity; [|exact (IH _ Hi)]. unfold slice.
    by rewrite <-drop_drop, drop_app_length.
Qed.

Lemma join_length {A} n (ls : list (list A)) :
  Forall (λ l, length l = n) ls → length (mjoin ls) = length ls * n.
Proof.
  induction 1 as [|l ls Hl Hls IH]; [done|]. change (mjoin (l :: ls)) with (l ++ mjoin ls).
  by rewrite length_app, Hl, IH.
Qed.

Lemma bytes_ok_join ls : Forall bytes_ok ls → bytes_ok (mjoin ls).
Proof. induction 1; [constructor|]. by apply Forall_app_2. Qed.

Lemma bytes_ok_pad n bs : bytes_ok bs → bytes_ok (pad n bs).
Proof. intros Hb. apply Forall_app_2; [done|apply bytes_ok_zeros]. Qed.

Lemma pad_length n bs : length bs ≤ n → length (pad n bs) = n.
Proof. intros Hl. unfold pad. rewrite length_app, length_replicate. lia. Qed.

Lemma reads_scalar t v n z :
  length (bytes_of n z) = size t →
  match t, v with
  | TUInt _, VInt z' => z' = word_of (bytes_of n z)
  | TSInt m, VInt z' => z' = swrap (8 * Z.of_nat m) (word_of (bytes_of n z))
  | TEnum _, VInt z' => z' = i32 (word_of (bytes_of n z))
  | _, _ => False
  end → reads t (bytes_of n z) v.
Proof. intros Hl Hv. pose proof (bytes_of_ok n z). destruct t; try done; by split_and!. Qed.

Lemma image_fields_reads ms :
  all_sane ms →
  Forall (λ m, ∀ v, sane m.2 = true → has_type m.2 v → reads m.2 (image m.2 v) v) ms →
  ∀ off l pre post, length pre = off → has_type (TStruct ms) (VStruct l) →
  let bs := image_fields image off ms l in
  off + length bs = struct_end off ms ∧ bytes_ok bs ∧ reads_fields reads (pre ++ bs ++ post) off ms l.
Proof.
  intros Hs HI. induction Hs as [|[x t] ms Ht Hms IHms]; intros off [|v l] pre post Hpre Hv; try done.
  { cbn. split_and!; [lia|constructor|done]. }
  apply Forall_cons in HI as [HIt HI]. destruct Hv as [Hv Hl]. cbn [image_fields snd] in *.
  set (o := align_up off (align t)).
  assert (off ≤ o) as Ho by (apply align_up_le, good_align_pos, sane_align; exact Ht).
  specialize (HIt v Ht Hv). pose proof (reads_length _ _ _ HIt) as Hlen.
  set (gap := replicate (o - off) 0%Z).
  assert (length (pre ++ gap) = o) as Hgap by (unfold gap; rewrite length_app, length_replicate; lia).
  destruct (IHms HI (o + size t) l ((pre ++ gap) ++ image t v) post) as (He & Hb & Hr); [|done|].
  { rewrite length_app, Hgap. lia. }
  split_and!.
  - rewrite !length_app. unfold gap. rewrite length_replicate. cbn [struct_end foldl] in *.
    fold o. unfold struct_end in He. lia.
  - apply Forall_app_2; [apply bytes_ok_zeros|]. apply Forall_app_2; [by eapply reads_bytes|done].
  - cbn [reads_fields]. fold o. split.
    + replace (slice o (size t) _) with (image t v); [done|].
      rewrite <-!app_assoc, (app_assoc pre), <-Hgap, <-Hlen. symmetry. apply slice_app_exact.
    + by rewrite <-!app_assoc in Hr |- *.
Qed.

Lemma union_member (ms : list (string * ctype)) x v :
  has_type (TUnion ms) (VUnion x v) → ∃ t, (x, t) ∈ ms ∧ has_type t v.
Proof.
  cbn. induction ms as [|[y t] ms IH]; [done|]. intros [[-> Hv]|Hr].
  - exists t. by split; [left|].
  - destruct (IH Hr) as (u & Hu & Hv). exists u. by split; [right|].
Qed.

Lemma reads_member_in R bs x v ms t :
  (x, t) ∈ ms → R t (slice 0 (size t) bs) v → reads_member R bs x v ms.
Proof.
  induction ms as [|[y u] ms IH]; [by intros ?%not_elem_of_nil|].
  intros [[= <- <-]|Hin]%elem_of_cons Hr; [by left|right; by apply IH].
Qed.

Lemma image_member_in I x v ms t : NoDup ms.*1 → (x, t) ∈ ms → image_member I x v ms = I t v.
Proof.
  induction ms as [|[y u] ms IH]; [by intros _ ?%not_elem_of_nil|]. cbn.
  intros [Hy Hn]%NoDup_cons [[= <- <-]|Hin]%elem_of_cons; [by rewrite decide_True|].
  rewrite decide_False; [by apply IH|]. intros ->. apply Hy, list_elem_of_fmap. by exists (x, t).
Qed.

Theorem image_reads t v : sane t = true → has_type t v → reads t (image t v) v.
Proof.
  revert v. induction t as [n|n|l| |n t IH|ms IH|ms IH] using ctype_members_ind; intros v Hs Hv;
    destruct v as [z| | |l'|l'|x v]; try done.
  - apply reads_scalar; [apply length_bytes_of|]. symmetry. by apply word_of_bytes, in_width_bytes.
  - apply reads_scalar; [apply length_bytes_of|]. symmetry. apply signed_back; [|done].
    by apply good_align_pos, sane_width_good.
  - apply reads_scalar; [done|]. symmetry. by apply (signed_back 4).
  - split_and!; [done|apply (bytes_of_ok 8 1)|done].
  - split_and!; [done|apply bytes_ok_zeros|done].
  - destruct Hv as [Hn Hv]. assert (∀ w, w ∈ l' → reads t (image t w) w) as Hw.
    { intros w Hin. apply IH; [done|]. rewrite Forall_forall in Hv. by apply Hv. }
    assert (Forall (λ bs, length bs = size t) (image t <$> l')) as Hlen.
    { apply Forall_fmap, Forall_forall. intros w Hin. by eapply reads_length, Hw. }
    split_and!; [|apply bytes_ok_join, Forall_fmap, Forall_forall; intros w Hin; by eapply reads_bytes, Hw|done|].
    + cbn. by rewrite (join_length _ _ Hlen), length_fmap, Hn.
    + intros i w Hi. change (image (TArray n t) (VArray l')) with (mjoin (image t <$> l')).
      erewrite slice_join; [by apply Hw; eapply list_elem_of_lookup_2|done|].
      by rewrite list_lookup_fmap, Hi.
  - apply sane_members in Hs as Hs'. destruct Hs' as [_ Hms].
    destruct (image_fields_reads ms Hms) with (off := 0) (l := l') (pre := @nil Z)
      (post := replicate (size (TStruct ms) - length (image_fields image 0 ms l')) 0%Z)
      as (He & Hb & Hr); [|done..|].
    { eapply Forall_impl; [exact IH|]. cbn. auto. }
    change (image (TStruct ms) (VStruct l')) with (pad (size (TStruct ms)) (image_fields image 0 ms l')).
    split_and!; [apply pad_length|by apply bytes_ok_pad|exact Hr].
    rewrite Nat.add_0_l in He. rewrite He. by apply align_up_le, good_align_pos, (sane_align (TStruct ms)).
  - destruct (union_member _ _ _ Hv) as (t & Hin & Ht). apply sane_members in Hs as Hs'.
    destruct Hs' as [Hn Hms]. unfold all_sane in Hms. rewrite Forall_forall in IH, Hms.
    pose proof (IH _ Hin v (Hms _ Hin) Ht) as Hr. cbn [snd] in Hr.
    assert (length (image t v) ≤ size (TUnion ms)) as Hle.
    { rewrite (reads_length _ _ _ Hr). etransitivity; [by eapply union_size|].
      by apply align_up_le, good_align_pos, (sane_align (TUnion ms)). }
    cbn [image]. erewrite image_member_in by done.
    split_and!; [by apply pad_length|by eapply bytes_ok_pad, reads_bytes|].
    eapply reads_member_in; [done|].
    replace (slice 0 (size t) _) with (image t v); [done|].
    rewrite <-(reads_length _ _ _ Hr). symmetry. exact (slice_app_exact [] _ _).
Qed.

(** ** What the bytes determine *)

(** Types whose values can be read off their bytes: no unions, whose member is
    not recorded. *)
Fixpoint followed (t : ctype) : bool :=
  match t with
  | TUInt _ | TSInt _ | TEnum _ | TPtr => true
  | TUnion _ => false
  | TArray _ t => followed t
  | TStruct ms => foldr (λ '(_, t) b, followed t && b) true ms
  end.

Theorem reads_unique t bs v w : followed t = true → reads t bs v → reads t bs w → v = w.
Proof.
  revert bs v w. induction t as [n|n|l| |n t IH|ms IH|ms IH] using ctype_members_ind;
    intros bs v w Hf (_ & _ & Hv) (_ & _ & Hw); destruct v as [z| | |xs|xs|x v], w as [z'| | |ys|ys|y w]; try done; cbn [reads] in Hv, Hw;
    try congruence.
  - destruct Hv as [Hl Hv], Hw as [Hl' Hw]. f_equal. apply list_eq_same_length with n; [done..|].
    intros i x y _ Hx Hy. by eapply (IH _ x y Hf (Hv _ _ Hx)), Hw.
  - f_equal. revert Hv Hw. generalize 0. revert xs ys Hf.
    induction IH as [|[x t] ms IHt IH IHms]; intros [|v xs] [|w ys] Hf off; cbn; try done.
    cbn in Hf. apply andb_true_iff in Hf as [Ht Hf]. intros [Hv Hvs] [Hw Hws].
    rewrite (IHt _ _ _ Ht Hv Hw). f_equal. by eapply IHms.
Qed.

(** Any bytes hold a value of such a type. *)
Lemma reads_fields_total bs ms :
  Forall (λ m, ∀ bs, sane m.2 = true → followed m.2 = true → length bs = size m.2 → bytes_ok bs →
    ∃ v, reads m.2 bs v) ms →
  all_sane ms → foldr (λ '(_, t) b, followed t && b) true ms = true →
  ∀ off, struct_end off ms ≤ length bs → bytes_ok bs → ∃ l, reads_fields reads bs off ms l.
Proof.
  intros HI Hs. induction Hs as [|[x t] ms Ht Hms IHms]; intros Hf off Hle Hb; [by exists []|].
  apply Forall_cons in HI as [HIt HI]. cbn in Hf. apply andb_true_iff in Hf as [Hft Hf].
  cbn [struct_end foldl] in Hle. fold (struct_end (align_up off (align t) + size t) ms) in Hle.
  pose proof (struct_end_le (align_up off (align t) + size t) ms Hms) as He.
  destruct (HIt (slice (align_up off (align t)) (size t) bs)) as [v Hv]; [done|done| | |].
  { apply slice_length. cbn. lia. }
  { by apply Forall_slice. }
  destruct (IHms HI Hf _ Hle Hb) as [l Hl]. exists (v :: l). by split.
Qed.

Lemma reads_total t bs :
  sane t = true → followed t = true → length bs = size t → bytes_ok bs → ∃ v, reads t bs v.
Proof.
  revert bs. induction t as [n|n|l| |n t IH|ms IH|ms IH] using ctype_members_ind;
    intros bs Hs Hf Hl Hb; try done; try (by eexists (VInt _)).
  - destruct (decide (word_of bs = 0%Z)); [by exists VNull|by exists VPtr].
  - assert (∃ l, length l = n ∧ ∀ i w, l !! i = Some w → reads t (slice (i * size t) (size t) bs) w)
      as (l & Hn & Hr); [|by exists (VArray l)].
    cbn in Hl, Hs, Hf. assert (n * size t ≤ length bs) as Hle by lia. clear Hl.
    induction n as [|n IHn]; [by exists []|]. cbn in Hle.
    destruct IHn as (l & Hn & Hr); [lia|].
    destruct (IH (slice (n * size t) (size t) bs)) as [v Hv]; [done|done| |by apply Forall_slice|].
    { apply slice_length. lia. }
    exists (l ++ [v]). split; [rewrite length_app; cbn; lia|].
    intros i w [Hi|[Hi [H0 <-]%list_lookup_singleton_Some]]%lookup_app_Some; [by apply Hr|].
    by replace i with n by lia.
  - apply sane_members in Hs as Hs'. destruct Hs' as [_ Hms].
    destruct (reads_fields_total bs ms IH Hms Hf 0) as [l Hr]; [|done|by exists (VStruct l)].
    rewrite Hl. by apply align_up_le, good_align_pos, (sane_align (TStruct ms)).
Qed.

(** All bytes zero, as after memset or calloc: every number is zero and every
    pointer null. *)
Fixpoint zeroed (v : cval) : bool :=
  match v with
  | VInt z => bool_decide (z = 0%Z)
  | VPtr => false
  | VNull => true
  | VArray l | VStruct l => forallb zeroed l
  | VUnion _ v => zeroed v
  end.

Lemma swrap_zero n : n ≠ 0 → swrap (8 * Z.of_nat n) 0 = 0%Z.
Proof. intros Hn. apply swrap_small; [lia|]. split; [done|]. apply Z.pow_pos_nonneg; lia. Qed.

Lemma slice_zeros o n N : o + n ≤ N → slice o n (replicate N 0%Z) = replicate n 0%Z.
Proof. intros Hle. unfold slice. rewrite drop_replicate, take_replicate. f_equal. lia. Qed.

Lemma reads_fields_zero ms :
  all_sane ms →
  Forall (λ m, ∀ v, sane m.2 = true → has_type m.2 v → zeroed v = true →
    reads m.2 (replicate (size m.2) 0%Z) v) ms →
  ∀ N off l, struct_end off ms ≤ N → has_type (TStruct ms) (VStruct l) →
  forallb zeroed l = true → reads_fields reads (replicate N 0%Z) off ms l.
Proof.
  intros Hs HI N. induction Hs as [|[x t] ms Ht Hms IHms]; intros off [|v l] Hle Hv Hz; try done.
  apply Forall_cons in HI as [HIt HI]. destruct Hv as [Hv Hl].
  cbn in Hz. apply andb_true_iff in Hz as [Hz Hzs]. cbn [reads_fields].
  pose proof (struct_end_le (align_up off (align t) + size t) ms Hms) as He.
  cbn [struct_end foldl] in Hle. fold (struct_end (align_up off (align t) + size t) ms) in Hle.
  split; [|by apply IHms].
  rewrite slice_zeros by lia. by apply HIt.
Qed.

Theorem reads_zero t v :
  sane t = true → has_type t v → zeroed v = true → reads t (replicate (size t) 0%Z) v.
Proof.
  revert v. induction t as [n|n|l| |n t IH|ms IH|ms IH] using ctype_members_ind; intros v Hs Hv Hz;
    destruct v as [z| | |l'|l'|x v]; try done; cbn [zeroed] in Hz;
    (split; [apply length_replicate|split; [apply bytes_ok_zeros|]]); cbn [size].
  1-3: apply bool_decide_eq_true in Hz as ->; rewrite word_of_zeros; symmetry; try done.
  - by apply swrap_zero, good_align_pos, sane_width_good.
  - apply word_of_zeros.
  - destruct Hv as [Hn Hv]. split; [done|]. intros i w Hi.
    apply list_elem_of_lookup_2 in Hi as Hin.
    rewrite slice_zeros by (apply lookup_lt_Some in Hi; nia).
    apply IH; [done|by rewrite Forall_forall in Hv; apply Hv|].
    rewrite forallb_forall in Hz. by apply Hz, list_elem_of_In.
  - apply sane_members in Hs as Hs'. destruct Hs' as [_ Hms].
    apply reads_fields_zero; [done|done| |done|done].
    by apply align_up_le, good_align_pos, (sane_align (TStruct ms)).
  - destruct (union_member _ _ _ Hv) as (t & Hin & Ht). apply sane_members in Hs as Hs'.
    destruct Hs' as [Hn Hms]. unfold all_sane in Hms. rewrite Forall_forall in IH, Hms.
    eapply reads_member_in; [done|]. rewrite slice_zeros.
    + by apply (IH _ Hin); [apply (Hms _ Hin)|..].
    + etransitivity; [by eapply (union_size ms x t)|].
      by apply align_up_le, good_align_pos, (sane_align (TUnion ms)).
Qed.

(** ** Lvalues *)

(** A member of a structure or an element of an array. *)
Inductive accessor : Type := Member (x : string) | Element (i : nat).

(** The index of the part among the parts, its type and its offset. *)
Definition part (t : ctype) (a : accessor) : option (nat * (ctype * nat)) :=
  match t, a with
  | TStruct ms, Member x => '(i, (_, m)) ← list_find (λ m, m.1 = x) (fields 0 ms); Some (i, m)
  | TArray n u, Element i => if decide (i < n) then Some (i, (u, i * size u)) else None
  | _, _ => None
  end.

Lemma part_element n u i : i < n → part (TArray n u) (Element i) = Some (i, (u, i * size u)).
Proof. intros Hi. cbn. by rewrite decide_True. Qed.

(** The type and the offset of the object that a path leads to. *)
Fixpoint locate (t : ctype) (p : list accessor) : option (ctype * nat) :=
  match p with
  | [] => Some (t, 0)
  | a :: p => '(_, (u, o)) ← part t a; '(w, o') ← locate u p; Some (w, o + o')
  end.

Definition parts (v : cval) : list cval := match v with VArray l | VStruct l => l | _ => [] end.
Definition with_parts (v : cval) (l : list cval) : cval :=
  match v with VArray _ => VArray l | VStruct _ => VStruct l | v => v end.

(** The value of a part, and the value with the part replaced. *)
Fixpoint value_at (t : ctype) (v : cval) (p : list accessor) : option cval :=
  match p with
  | [] => Some v
  | a :: p => '(i, (u, _)) ← part t a; w ← parts v !! i; value_at u w p
  end.

Fixpoint assign (t : ctype) (v : cval) (p : list accessor) (w : cval) : option cval :=
  match p with
  | [] => Some w
  | a :: p =>
      '(i, (u, _)) ← part t a;
      x ← parts v !! i;
      x' ← assign u x p w;
      Some (with_parts v (<[i := x']> (parts v)))
  end.

(** Following a path, one accessor at a time. *)
Lemma locate_cons t a p i u o : part t a = Some (i, (u, o)) →
  locate t (a :: p) = '(w, o') ← locate u p; Some (w, o + o').
Proof. intros H. cbn [locate]. by rewrite H. Qed.

Lemma value_at_cons t v a p i u o : part t a = Some (i, (u, o)) →
  value_at t v (a :: p) = w ← parts v !! i; value_at u w p.
Proof. intros H. cbn [value_at]. by rewrite H. Qed.

Lemma assign_cons t v a p w i u o : part t a = Some (i, (u, o)) →
  assign t v (a :: p) w =
    x ← parts v !! i; x' ← assign u x p w; Some (with_parts v (<[i := x']> (parts v))).
Proof. intros H. cbn [assign]. by rewrite H. Qed.

(** A part lies inside, its bytes hold its value, and storing other bytes there
    replaces that value and nothing else. *)
Record sound_part (t : ctype) (bs : list Z) (v : cval) (i : nat) (u : ctype) (o : nat) : Prop := {
  part_sane : sane u = true;
  part_inside : o + size u ≤ size t;
  part_aligned : (align u | o) ∧ (align u | align t);
  part_load : ∃ w, parts v !! i = Some w ∧ reads u (slice o (size u) bs) w;
  part_store ws w : reads u ws w →
    reads t (splice o ws bs) (with_parts v (<[i := w]> (parts v)));
}.

Lemma array_part n u bs v i :
  sane u = true → reads (TArray n u) bs v → i < n → sound_part (TArray n u) bs v i u (i * size u).
Proof.
  intros Hs (Hl & Hb & Hv) Hi. destruct v as [| | |l| |]; try done. destruct Hv as [Hn Hv].
  assert (i * size u + size u ≤ size (TArray n u)) as Hin by (cbn; nia).
  split; [done|done|split; [by apply Nat.divide_mul_r, sane_stride|done]| |].
  - destruct (lookup_lt_is_Some_2 l i) as [w Hw]; [lia|]. exists w. split; [done|by apply Hv].
  - intros ws w Hw. pose proof (reads_length _ _ _ Hw) as Hlw. rewrite <-Hl in Hin.
    split_and!; [by rewrite splice_length by lia|by eapply Forall_splice, reads_bytes|].
    cbn [with_parts parts]. split; [by rewrite length_insert|]. intros j x Hx.
    apply list_lookup_insert_Some in Hx as [(<- & <- & _)|[Hne Hx]].
    + rewrite <-Hlw, Hlw in Hin |- *. rewrite <-Hlw at 2. by rewrite slice_splice_same by lia.
    + rewrite slice_splice_apart; [by apply Hv|lia|].
      destruct (decide (i < j)); [right|left]; nia.
Qed.

(** The members of a structure, by their index. *)
Lemma reads_fields_lookup R bs off ms l :
  reads_fields R bs off ms l ↔
  length l = length ms ∧
  ∀ i x u o, fields off ms !! i = Some (x, (u, o)) →
    ∃ w, l !! i = Some w ∧ R u (slice o (size u) bs) w.
Proof.
  revert off l. induction ms as [|[x t] ms IH]; intros off [|v l]; cbn; try by split; [|intros [? _]].
  rewrite IH. split.
  - intros (Hv & Hl & Hr). split; [by f_equal|]. intros [|i] y u o; cbn; [|apply Hr].
    intros [= <- <- <-]. by exists v.
  - intros [Hl Hr]. split; [|split; [by injection Hl|]].
    + by destruct (Hr 0 x t _ eq_refl) as (w & [= ->] & Hw).
    + intros i y u o Hi. exact (Hr (S i) y u o Hi).
Qed.

Lemma fields_length off ms : length (fields off ms) = length ms.
Proof. by rewrite <-(length_fmap fst), fields_names, length_fmap. Qed.

Lemma struct_part ms bs v x i u o :
  sane (TStruct ms) = true → reads (TStruct ms) bs v → fields 0 ms !! i = Some (x, (u, o)) →
  sound_part (TStruct ms) bs v i u o.
Proof.
  intros Hs (Hl & Hb & Hv) Hi. destruct v as [| | | |l|]; try done. cbn [reads] in Hv.
  apply reads_fields_lookup in Hv as [Hn Hv].
  pose proof (list_elem_of_lookup_2 _ _ _ Hi) as Hin.
  destruct (sane_well_laid _ Hs) as [Hmem Hdis _ _].
  destruct (Hmem _ _ _ Hin) as (Ho & Ha & Hinside).
  apply sane_members in Hs as [_ Hms].
  split; [|done|done|by eapply Hv|].
  - apply fields_in in Hin as [Hin _]; [|done]. unfold all_sane in Hms. rewrite Forall_forall in Hms.
    exact (Hms _ Hin).
  - intros ws w Hw. pose proof (reads_length _ _ _ Hw) as Hlw. rewrite <-Hl in Hinside.
    split; [by rewrite splice_length by lia|split; [by eapply Forall_splice, reads_bytes|]].
    cbn [reads with_parts parts]. apply reads_fields_lookup.
    split; [by rewrite length_insert|]. intros j y u' o' Hj. destruct (decide (i = j)) as [<-|Hne].
    + rewrite Hi in Hj. injection Hj as <- <- <-. exists w.
      split; [apply list_lookup_insert_eq; rewrite Hn, <-(fields_length 0 ms); by eapply lookup_lt_Some|].
      by rewrite <-Hlw, slice_splice_same by lia.
    + destruct (Hv _ _ _ _ Hj) as (w' & Hw' & Hr). exists w'.
      rewrite list_lookup_insert_ne by done. split; [done|].
      rewrite slice_splice_apart; [done|lia|]. rewrite Hlw.
      destruct (decide (i < j)); [right; by eapply (Hdis i j)|left; eapply (Hdis j i); eauto; lia].
Qed.

Lemma part_sound t bs v a i u o :
  sane t = true → reads t bs v → part t a = Some (i, (u, o)) → sound_part t bs v i u o.
Proof.
  intros Hs Hv Hp. destruct t as [| | | |n t|ms|], a as [x|j]; try done; cbn [part] in Hp.
  - case_decide; [|done]. injection Hp as <- <- <-. by apply array_part.
  - apply bind_Some in Hp as ([k [y m]] & Hf & [= <- ->]).
    apply list_find_Some in Hf as (Hk & _). by eapply struct_part.
Qed.

(** An lvalue of an object: it lies aligned inside the object, its bytes hold
    the component's value, and storing the bytes of another value there assigns
    the component. *)
Theorem lvalue_sound t p bs v u o :
  sane t = true → reads t bs v → locate t p = Some (u, o) →
  o + size u ≤ size t ∧ (align u | o) ∧ (align u | align t) ∧
  (∃ w, value_at t v p = Some w ∧ reads u (slice o (size u) bs) w) ∧
  ∀ ws w, reads u ws w → ∃ v', assign t v p w = Some v' ∧ reads t (splice o ws bs) v'.
Proof.
  revert t bs v o. induction p as [|a p IH]; intros t bs v o Hs Hv; cbn [locate value_at assign].
  - intros [= -> <-]. pose proof (reads_length _ _ _ Hv) as Hl.
    split_and!; [lia|apply Nat.divide_0_r|done| |].
    + exists v. split; [done|]. by rewrite <-Hl, slice_all.
    + intros ws w Hw. exists w. split; [done|]. replace (splice 0 ws bs) with ws; [done|].
      apply reads_length in Hw. unfold splice.
      rewrite take_0, drop_ge by lia. by rewrite app_nil_r.
  - intros ([i [u1 o1]] & Hp & Hr)%bind_Some. apply bind_Some in Hr as ([u2 o2] & Hl & [= -> <-]).
    destruct (part_sound _ _ _ _ _ _ _ Hs Hv Hp) as [Hs1 Hin [Ho1 Ha1] (w1 & Hw1 & Hr1) Hst].
    destruct (IH u1 _ w1 o2 Hs1 Hr1 Hl) as (Hin2 & Ho2 & Ha2 & (w & Hw & Hr) & Hst2).
    rewrite Hp. cbn [mbind option_bind]. rewrite Hw1. cbn [mbind option_bind].
    pose proof (reads_length _ _ _ Hv) as Hlen.
    split_and!; [lia|apply Nat.divide_add_r; [by etransitivity|done]|by etransitivity| |].
    + exists w. split; [done|]. by rewrite slice_slice in Hr by done.
    + intros ws x Hx. destruct (Hst2 ws x Hx) as (w' & Hw' & Hrw). rewrite Hw'. eexists.
      split; [done|]. pose proof (reads_length _ _ _ Hx).
      rewrite <-(splice_slice o1 (size u1)) by lia. by apply Hst.
Qed.

(** An array of bytes is its bytes. *)
Lemma word_of_byte b : word_of [b] = b.
Proof. cbn. lia. Qed.

Lemma reads_byte_array n l :
  length l = n → bytes_ok l → reads (TArray n uint8_t) l (VArray (VInt <$> l)).
Proof.
  intros Hl Hb. split; [cbn; lia|split; [done|]]. split; [by rewrite length_fmap|].
  intros i w (z & -> & Hz)%list_lookup_fmap_Some. pose proof (lookup_lt_Some _ _ _ Hz).
  change (size uint8_t) with 1. rewrite Nat.mul_1_r. assert (slice i 1 l = [z]) as ->.
  { unfold slice. by rewrite (drop_S _ _ _ Hz). }
  split; [done|]. split; [|by rewrite word_of_byte].
  constructor; [|constructor]. by eapply (Forall_lookup_1 _ l i).
Qed.

Lemma reads_byte_array_inv n bs l :
  reads (TArray n uint8_t) bs (VArray (VInt <$> l)) → bs = l ∧ length l = n.
Proof.
  intros (Hl & Hb & Hn & Hr). rewrite length_fmap in Hn. cbn in Hl.
  split; [|done]. apply list_eq_same_length with n; [done|lia|].
  intros i x y Hi Hx Hy. destruct (Hr i (VInt y)) as (_ & _ & Hw).
  { by rewrite list_lookup_fmap, Hy. }
  change (size uint8_t) with 1 in Hw. rewrite Nat.mul_1_r in Hw. unfold slice in Hw.
  rewrite (drop_S _ _ _ Hx) in Hw. change (take 1 (x :: drop (S i) bs)) with [x] in Hw.
  by rewrite word_of_byte in Hw.
Qed.

(** The values of an array are images of records when each of them is. *)
Lemma values_of {A} (f : A → cval) (P : A → Prop) l :
  Forall (λ w, ∃ x, w = f x ∧ P x) l → ∃ xs, l = f <$> xs ∧ Forall P xs.
Proof.
  induction 1 as [|w l (x & -> & Hx) _ (xs & -> & Hxs)]; [by exists []|].
  exists (x :: xs). by split; [|constructor].
Qed.

Lemma byte_array_shape n w :
  has_type (TArray n uint8_t) w → ∃ l, w = VArray (VInt <$> l) ∧ length l = n ∧ bytes_ok l.
Proof.
  destruct w as [| | |l| |]; try done. intros [Hl Hall].
  destruct (values_of VInt (in_width 8) l) as (zs & -> & Hz).
  { eapply Forall_impl; [exact Hall|]. intros [z| | | | |] Hw; try done. by exists z. }
  exists zs. by rewrite length_fmap in Hl.
Qed.
