(* ===== verification/Simulation.v ===== *)
(** * Simulation of one program by another

    A program on memory simulates one on records: as long as the memory
    represents the record, whenever the second returns, the first returns with a
    related result and a memory that represents the new record. *)

From S2P Require Import Prelude.

Section simulation.
(** Memory [m] represents the value [v]; a record [s] stands for [val s]. *)
Context {Mem V S : Type} (R : Mem → V → Prop) (val : S → V).
Implicit Types (m : Mem) (v : V) (s : S).

(** The memory may be ahead of the record: it represents [v] while the second
    program is still at [s]. *)
Definition simulation {A B} v s (low : M Mem A) (high : M S B) (Q : A → B → S → Prop) : Prop :=
  ∀ bs b s', R bs v → high s = Done (b, s') →
    ∃ a bs', low bs = Done (a, bs') ∧ R bs' (val s') ∧ Q a b s'.

Abbreviation sim := simulation.

Lemma sim_bind {A B A' B'} v s low (high : M S B) (kl : A → M Mem A') (kh : B → M S B') Q Q' :
  sim v s low high Q → (∀ a b s', Q a b s' → sim (val s') s' (kl a) (kh b) Q') →
  sim v s (low ≫= kl) (high ≫= kh) Q'.
Proof.
  intros H Hk bs b s' Hv (x & s1 & Hx & Hb)%bind_Done_inv.
  destruct (H bs x s1 Hv Hx) as (a & bs1 & Ha & Hr & Hq).
  destruct (Hk _ _ _ Hq bs1 b s' Hr Hb) as (a' & bs' & Ha' & Hr' & Hq').
  exists a', bs'. split; [by bind Ha|done].
Qed.

Lemma sim_ret {A B} s (a : A) (b : B) (Q : A → B → S → Prop) :
  Q a b s → sim (val s) s (mret a) (mret b) Q.
Proof. intros Hq bs b' s' Hv [= <- <-]. by exists a, bs. Qed.

Lemma sim_done {A B} v s (a : A) (b : B) (Q : A → B → S → Prop) :
  v = val s → Q a b s → sim v s (mret a) (mret b) Q.
Proof. intros ->. apply sim_ret. Qed.

Lemma sim_weaken {A B} v s low high (Q Q' : A → B → S → Prop) :
  sim v s low high Q → (∀ a b s', Q a b s' → Q' a b s') → sim v s low high Q'.
Proof.
  intros H Hq bs b s' Hv Hb. destruct (H bs b s' Hv Hb) as (a & bs' & Ha & Hr & Hx).
  exists a, bs'. auto.
Qed.

(** The common case: equal results, and a property of the record. *)
Lemma sim_seq {A A' B'} (P : S → Prop) v s low (high : M S A) (kl : A → M Mem A')
    (kh : A → M S B') Q' :
  sim v s low high (λ a b s', a = b ∧ P s') →
  (∀ a s', P s' → sim (val s') s' (kl a) (kh a) Q') →
  sim v s (low ≫= kl) (high ≫= kh) Q'.
Proof. intros H Hk. eapply sim_bind; [exact H|]. intros a b s' [-> HP]. by apply Hk. Qed.

(** A step of the program on the record only. *)
Lemma sim_high {A B C} v s s1 low (high : M S C) c (k : C → M S B) (Q : A → B → S → Prop) :
  high s = Done (c, s1) → sim v s1 low (k c) Q → sim v s low (high ≫= k) Q.
Proof. intros Hc H bs b s' Hv Hb. rewrite (bind_Done _ _ _ _ _ Hc) in Hb. by apply (H bs). Qed.

Lemma sim_modify {A B} v s f low (k : unit → M S B) (Q : A → B → S → Prop) :
  sim v (f s) low (k tt) Q → sim v s low (modify f ≫= k) Q.
Proof. by apply sim_high. Qed.

Lemma sim_modify_last s f (Q : unit → unit → S → Prop) :
  Q tt tt (f s) → sim (val (f s)) s (mret tt) (modify f) Q.
Proof. intros Hq bs b s' Hv [= <- <-]. by exists tt, bs. Qed.

(** Sequencing is associative, and ends with returning the result. *)
Lemma sim_assoc_low {A B C D} v s (m : M Mem A) (k : A → M Mem B) (k' : B → M Mem C)
    (high : M S D) (Q : C → D → S → Prop) :
  sim v s (m ≫= λ a, k a ≫= k') high Q → sim v s ((m ≫= k) ≫= k') high Q.
Proof. intros H bs b s' Hv Hb. rewrite bind_assoc. by apply H. Qed.

Lemma sim_assoc_high {A B C D} v s low (m : M S A) (k : A → M S B) (k' : B → M S C)
    (Q : D → C → S → Prop) :
  sim v s low (m ≫= λ a, k a ≫= k') Q → sim v s low ((m ≫= k) ≫= k') Q.
Proof. intros H bs b s' Hv Hb. rewrite bind_assoc in Hb. by apply H. Qed.

Lemma sim_tail {A B} v s (low : M Mem A) (high : M S B) (Q : A → B → S → Prop) :
  sim v s (low ≫= mret) (high ≫= mret) Q → sim v s low high Q.
Proof.
  intros H bs b s' Hv Hb. destruct (H bs b s' Hv) as (a & bs' & Ha & Hq); [by bind Hb|].
  apply bind_Done_inv in Ha as (a' & bs1 & Ha & [= -> ->]). by exists a, bs'.
Qed.

(** A part of the program on the bytes that only reads. *)
Lemma sim_low {A A' B} v s (low : M Mem A) a (k : A → M Mem A') (high : M S B)
    (Q : A' → B → S → Prop) :
  (∀ bs, R bs v → low bs = Done (a, bs)) →
  sim v s (k a) high Q → sim v s (low ≫= k) high Q.
Proof. intros Hl H bs b s' Hv Hb. bind (Hl bs Hv). by apply H. Qed.

Lemma sim_the {A B C} v s (o : option C) low (k : C → M S B) (Q : A → B → S → Prop) :
  (∀ x, o = Some x → sim v s low (k x) Q) → sim v s low (the o ≫= k) Q.
Proof.
  intros H bs b s' Hv Hb. destruct o as [x|]; [by eapply H|done].
Qed.

Lemma sim_for_loop {Y} (P : S → Prop) n k bl (bh : nat → M S (option Y)) s :
  (∀ i s, k ≤ i < k + n → P s → sim (val s) s (bl i) (bh i) (λ a b s', a = b ∧ P s')) →
  P s → sim (val s) s (for_loop n k bl) (for_loop n k bh) (λ a b s', a = b ∧ P s').
Proof.
  revert k s. induction n as [|n IH]; intros k s Hb Hp; [by apply sim_ret|]. cbn [for_loop].
  eapply sim_bind; [apply Hb; [lia|done]|]. intros a b s1 [<- Hp1].
  destruct a as [r|]; [by apply sim_ret|]. apply IH; [|done]. intros i s' Hi. apply Hb. lia.
Qed.

Lemma sim_for_fold {X} (I : X → S → Prop) n k bl (bh : nat → X → M S X) x s :
  (∀ i x s, k ≤ i < k + n → I x s → sim (val s) s (bl i x) (bh i x) (λ a b s', a = b ∧ I b s')) →
  I x s → sim (val s) s (for_fold n k bl x) (for_fold n k bh x) (λ a b s', a = b ∧ I b s').
Proof.
  revert k x s. induction n as [|n IH]; intros k x s Hb Hp; [by apply sim_ret|]. cbn [for_fold].
  eapply sim_bind; [apply Hb; [lia|done]|]. intros a b s1 [<- Hp1].
  apply IH; [|done]. intros i y s' Hi. apply Hb. lia.
Qed.

(** Sequences of calls. *)
Lemma trace_on_bytes {Op Obs} (low : Op → M Mem Obs) (high : Op → M S Obs)
    (ok : Op → Prop) (wf : S → Prop) :
  (∀ op s, ok op → wf s → sim (val s) s (low op) (high op) (λ a b _, a = b)) →
  (∀ op s, ok op → wf s → ∃ o s', high op s = Done (o, s') ∧ wf s') →
  ∀ ops bs s, R bs (val s) → wf s → Forall ok ops →
    ∃ os bs' s', exec_trace low ops bs = Done (os, bs') ∧ exec_trace high ops s = Done (os, s') ∧
      R bs' (val s') ∧ wf s'.
Proof.
  intros Hsim Hrun ops bs s Hr Hwf Hops. revert bs s Hr Hwf.
  induction Hops as [|op ops Hop _ IH]; intros bs s Hr Hwf; [by exists [], bs, s|].
  destruct (Hrun op s Hop Hwf) as (o & s1 & Ho & Hwf1).
  destruct (Hsim op s Hop Hwf bs o s1 Hr Ho) as (o' & bs1 & Ho' & Hr1 & ->).
  destruct (IH bs1 s1 Hr1 Hwf1) as (os & bs' & s' & Hl & Hh & Hr' & Hwf').
  exists (o :: os), bs', s'. cbn [exec_trace]. bind Ho'. bind Ho. bind Hl. by bind Hh.
Qed.

(** Calls that refine a specification on records do so on bytes. *)
Lemma refines_on_bytes {Op Obs Sp} (low : Op → M Mem Obs) (high : Op → M S Obs)
    (spec : Op → Sp → Obs * Sp) (ok : Op → Prop) (holds : S → Sp → Prop)
    `{!Refines high spec ok holds} :
  (∀ op s q, ok op → holds s q → sim (val s) s (low op) (high op) (λ a b _, a = b)) →
  ∀ ops bs s q, R bs (val s) → holds s q → Forall ok ops →
    ∃ os bs' s' q', exec_trace low ops bs = Done (os, bs') ∧ exec_trace high ops s = Done (os, s') ∧
      spec_trace spec ops q = (os, q') ∧ R bs' (val s') ∧ holds s' q'.
Proof.
  intros Hsim ops bs s q Hr Hh Hops. revert bs s q Hr Hh.
  induction Hops as [|op ops Hop _ IH]; intros bs s q Hr Hh; [by exists [], bs, s, q|].
  destruct (refines_step op s q Hh Hop) as (o & s1 & q1 & Ho & Hs & Hh1).
  destruct (Hsim op s q Hop Hh bs o s1 Hr Ho) as (o' & bs1 & Ho' & Hr1 & ->).
  destruct (IH bs1 s1 q1 Hr1 Hh1) as (os & bs' & s' & q' & Hl & Hhi & Hss & Hr' & Hh').
  exists (o :: os), bs', s', q'. cbn [exec_trace spec_trace]. rewrite Hs, Hss.
  bind Ho'. bind Ho. bind Hl. by bind Hhi.
Qed.
End simulation.
