(* ===== verification/CObject.v ===== *)
(** * Programs on the bytes of an object

    A C function that works on one object, statement by statement on its bytes:
    loads and stores of lvalues at the offsets that the header gives them.
    [sim] relates such a program to one on a record: as long as the bytes hold
    the value of the record, both give the same results. *)

From S2P Require Import Prelude Bytes CType CMemory Simulation.
Export Simulation.

Abbreviation sim T val := (simulation (reads T) val).

Section accesses.
Context (T : ctype).

(** The bytes at an lvalue; outside the block it is undefined. *)
Definition lvalue (p : list accessor) : M (list Z) (ctype * nat) :=
  '(u, o) ← the (locate T p);
  bs ← gets (λ bs, bs);
  if decide (o + size u ≤ length bs) then mret (u, o) else undef.

Definition load_bytes (p : list accessor) : M (list Z) (list Z) :=
  '(u, o) ← lvalue p;
  gets (slice o (size u)).

(** [memcpy(&lvalue, ws, length of ws)] *)
Definition store_bytes (p : list accessor) (ws : list Z) : M (list Z) unit :=
  '(u, o) ← lvalue p;
  if decide (length ws ≤ size u) then modify (splice o ws) else undef.

(** A number read from its bytes, and the bytes of a number converted to the
    type. *)
Definition number (u : ctype) (bs : list Z) : option Z :=
  match u with
  | TUInt _ => Some (word_of bs)
  | TSInt n => Some (swrap (8 * Z.of_nat n) (word_of bs))
  | TEnum _ => Some (i32 (word_of bs))
  | _ => None
  end.

Definition load (p : list accessor) : M (list Z) Z :=
  '(u, o) ← lvalue p;
  bs ← gets (slice o (size u));
  the (number u bs).

Definition store (p : list accessor) (z : Z) : M (list Z) unit :=
  '(u, _) ← lvalue p;
  store_bytes p (bytes_of (size u) z).

(** ** Running them *)

Context (Hsane : sane T = true).

Lemma lvalue_run p bs v u o :
  reads T bs v → locate T p = Some (u, o) → lvalue p bs = Done ((u, o), bs).
Proof using Hsane.
  intros Hv Hp. unfold lvalue. rewrite Hp. run.
  destruct (lvalue_sound _ _ _ _ _ _ Hsane Hv Hp) as [Hin _].
  by rewrite decide_True by (by rewrite (reads_length _ _ _ Hv)).
Qed.

Lemma load_bytes_run p bs v u o w :
  reads T bs v → locate T p = Some (u, o) → value_at T v p = Some w →
  ∃ ws, load_bytes p bs = Done (ws, bs) ∧ reads u ws w.
Proof using Hsane.
  intros Hv Hp Hw. unfold load_bytes. bind (lvalue_run _ _ _ _ _ Hv Hp).
  eexists. split; [done|].
  destruct (lvalue_sound _ _ _ _ _ _ Hsane Hv Hp) as (_ & _ & _ & (x & Hx & Hr) & _).
  by simplify_eq.
Qed.

Lemma number_reads u bs z : reads u bs (VInt z) → number u bs = Some z.
Proof. destruct u; intros (_ & _ & Hz); try done; by rewrite Hz. Qed.

Lemma object_load_run p bs v u o z :
  reads T bs v → locate T p = Some (u, o) → value_at T v p = Some (VInt z) →
  load p bs = Done (z, bs).
Proof using Hsane.
  intros Hv Hp Hz. unfold load. bind (lvalue_run _ _ _ _ _ Hv Hp). run.
  destruct (lvalue_sound _ _ _ _ _ _ Hsane Hv Hp) as (_ & _ & _ & (x & Hx & Hr) & _).
  simplify_eq. by rewrite (number_reads _ _ _ Hr).
Qed.

Lemma store_bytes_run p bs v u o ws w v' :
  reads T bs v → locate T p = Some (u, o) → reads u ws w → assign T v p w = Some v' →
  ∃ bs', store_bytes p ws bs = Done (tt, bs') ∧ reads T bs' v'.
Proof using Hsane.
  intros Hv Hp Hw Ha. unfold store_bytes. bind (lvalue_run _ _ _ _ _ Hv Hp).
  rewrite decide_True by (by rewrite (reads_length _ _ _ Hw)). eexists. split; [done|].
  destruct (lvalue_sound _ _ _ _ _ _ Hsane Hv Hp) as (_ & _ & _ & _ & Hst).
  destruct (Hst ws w Hw) as (x & Hx & Hr). by simplify_eq.
Qed.

(** [memcpy] of the first bytes of an array of bytes. *)
Lemma store_prefix_run p bs v n o ws l v' :
  reads T bs v → locate T p = Some (TArray n uint8_t, o) →
  value_at T v p = Some (VArray (VInt <$> l)) → length ws ≤ n → bytes_ok ws →
  assign T v p (VArray (VInt <$> (ws ++ drop (length ws) l))) = Some v' →
  ∃ bs', store_bytes p ws bs = Done (tt, bs') ∧ reads T bs' v'.
Proof using Hsane.
  intros Hv Hp Hl Hn Hb Ha. unfold store_bytes. bind (lvalue_run _ _ _ _ _ Hv Hp).
  assert (size (TArray n uint8_t) = n) as Hsz by (cbn; lia).
  rewrite decide_True by lia. eexists. split; [done|].
  destruct (lvalue_sound _ _ _ _ _ _ Hsane Hv Hp) as (Hin & _ & _ & (x & Hx & Hr) & Hst).
  rewrite Hl in Hx. injection Hx as <-. pose proof (reads_bytes _ _ _ Hr) as Hold.
  apply reads_byte_array_inv in Hr as [Hsl Hlen]. rewrite Hsl in Hold.
  destruct (Hst (ws ++ drop (length ws) l) (VArray (VInt <$> (ws ++ drop (length ws) l)))) as (y & Hy & Hr).
  { apply reads_byte_array; [rewrite length_app, length_drop; lia|].
    apply Forall_app_2; [done|by apply Forall_drop]. }
  rewrite Ha in Hy. injection Hy as <-. replace (splice o ws bs) with (splice o (ws ++ drop (length ws) l) bs); [done|].
  pose proof (reads_length _ _ _ Hv). rewrite <-(Nat.add_0_r o) at 2.
  rewrite <-(splice_slice o n 0) by lia. rewrite Hsz in Hsl. rewrite Hsl.
  unfold splice. by rewrite take_0.
Qed.

(** The number types, and their bytes. *)
Definition numeric (u : ctype) : bool :=
  match u with TUInt _ | TSInt _ | TEnum _ => true | _ => false end.

Lemma bytes_of_reads u z :
  sane u = true → numeric u = true → has_type u (VInt z) → reads u (bytes_of (size u) z) (VInt z).
Proof. intros Hs Hu Hz. pose proof (image_reads u (VInt z) Hs Hz). by destruct u. Qed.

Lemma locate_sane p t u o : sane t = true → locate t p = Some (u, o) → sane u = true.
Proof.
  revert t o. induction p as [|a p IH]; intros t o Hs; cbn [locate]; [by intros [= <- _]|].
  intros ([i [u1 o1]] & Hp & ([u2 o2] & Hl & [= <- _])%bind_Some)%bind_Some.
  eapply IH; [|done]. clear Hl. destruct t as [| | | |n t|ms|], a as [x|j]; try done; cbn [part] in Hp.
  - case_decide; [|done]. by injection Hp as _ <- _.
  - apply bind_Some in Hp as ([k [y m]] & Hf & [= _ ->]). apply list_find_Some in Hf as (Hk & _).
    apply list_elem_of_lookup_2 in Hk. apply sane_members in Hs as [_ Hs].
    apply fields_in in Hk as [Hk _]; [|done]. unfold all_sane in Hs. rewrite Forall_forall in Hs.
    exact (Hs _ Hk).
Qed.

Lemma object_store_run p bs v u o z v' :
  reads T bs v → locate T p = Some (u, o) → numeric u = true → has_type u (VInt z) →
  assign T v p (VInt z) = Some v' →
  ∃ bs', store p z bs = Done (tt, bs') ∧ reads T bs' v'.
Proof using Hsane.
  intros Hv Hp Hu Hz Ha. unfold store. bind (lvalue_run _ _ _ _ _ Hv Hp).
  eapply store_bytes_run; [done|done| |done]. apply bytes_of_reads; [|done|done].
  by eapply locate_sane.
Qed.
End accesses.

(** ** Simulation of a program on a record *)

Section simulation.
Context {S : Type} (T : ctype) (Hsane : sane T = true) (val : S → cval).
Implicit Types (v : cval) (s : S).
Abbreviation sim := (simulation (reads T)).

(** What a program on bytes simulates keeps the types. *)
Lemma sim_typed {A B} s (low : M (list Z) A) (high : M S B) Q b s' :
  has_type T (val s) → sim val (val s) s low high Q → high s = Done (b, s') → has_type T (val s').
Proof using Hsane.
  intros Ht Hsim Hrun. destruct (Hsim (image T (val s)) b s') as (a & bs' & _ & Hr & _);
    [by apply image_reads|done|]. by eapply reads_has_type.
Qed.

Lemma sim_load {A B} v s p u o z k (high : M S B) (Q : A → B → S → Prop) :
  locate T p = Some (u, o) → value_at T v p = Some (VInt z) →
  sim val v s (k z) high Q → sim val v s (load T p ≫= k) high Q.
Proof using Hsane.
  intros Hp Hz H bs b s' Hv Hb. bind (object_load_run T Hsane _ _ _ _ _ _ Hv Hp Hz). by apply H.
Qed.

Lemma sim_store {A B} v s p u o z v' k (high : M S B) (Q : A → B → S → Prop) :
  locate T p = Some (u, o) → numeric u = true → has_type u (VInt z) →
  assign T v p (VInt z) = Some v' →
  sim val v' s (k tt) high Q → sim val v s (store T p z ≫= k) high Q.
Proof using Hsane.
  intros Hp Hu Hz Ha H bs b s' Hv Hb.
  destruct (object_store_run T Hsane _ _ _ _ _ _ _ Hv Hp Hu Hz Ha) as (bs1 & Hs & Hr).
  bind Hs. by apply H.
Qed.

(** The last store of a program. *)
Lemma sim_store_last {B} v s p u o z v' (high : M S B) (Q : unit → B → S → Prop) :
  locate T p = Some (u, o) → numeric u = true → has_type u (VInt z) →
  assign T v p (VInt z) = Some v' →
  sim val v' s (mret tt) high Q → sim val v s (store T p z) high Q.
Proof using Hsane.
  intros Hp Hu Hz Ha H bs b s' Hv Hb.
  destruct (object_store_run T Hsane _ _ _ _ _ _ _ Hv Hp Hu Hz Ha) as (bs1 & -> & Hr).
  destruct (H bs1 b s' Hr Hb) as (a & bs' & [= <- <-] & Hr' & Hq). by exists tt, bs1.
Qed.

Lemma sim_store_prefix {A B} v s p n o ws l v' k (high : M S B) (Q : A → B → S → Prop) :
  locate T p = Some (TArray n uint8_t, o) → value_at T v p = Some (VArray (VInt <$> l)) →
  length ws ≤ n → bytes_ok ws →
  assign T v p (VArray (VInt <$> (ws ++ drop (length ws) l))) = Some v' →
  sim val v' s (k tt) high Q → sim val v s (store_bytes T p ws ≫= k) high Q.
Proof using Hsane.
  intros Hp Hl Hn Hb Ha H bs b s' Hv Hr.
  destruct (store_prefix_run T Hsane _ _ _ _ _ _ _ _ Hv Hp Hl Hn Hb Ha) as (bs1 & Hs & Hr1).
  bind Hs. by apply H.
Qed.

Lemma sim_load_bytes {A B} v s p u o w k (high : M S B) (Q : A → B → S → Prop) :
  locate T p = Some (u, o) → value_at T v p = Some w →
  (∀ ws, reads u ws w → sim val v s (k ws) high Q) → sim val v s (load_bytes T p ≫= k) high Q.
Proof using Hsane.
  intros Hp Hw H bs b s' Hv Hr.
  destruct (load_bytes_run T Hsane _ _ _ _ _ _ Hv Hp Hw) as (ws & Hl & Hws).
  bind Hl. by apply (H ws).
Qed.
End simulation.

(** ** Tables

    An object that begins with an array of structures, as the tables of the
    kernel do: [slots] are the records of its elements. *)

Class Table (S X : Type) := {
  object : ctype;
  element : ctype;
  slot_count : nat;
  slots_name : string;
  object_val : S → cval;
  element_val : X → cval;
  slots : S → list X;
  set_slots : list X → S → S;
}.

Class TableOk (S X : Type) `{!Table S X} : Prop := {
  object_sane : sane object = true;
  slots_part : part object (Member slots_name) = Some (0, (TArray slot_count element, 0));
  slots_val s : parts (object_val s) !! 0 = Some (VArray (element_val <$> slots s));
  set_slots_val l s :
    with_parts (object_val s) (<[0 := VArray (element_val <$> l)]> (parts (object_val s))) =
      object_val (set_slots l s);
  set_slots_slots l s : slots (set_slots l s) = l;
  set_slots_set l l' s : set_slots l' (set_slots l s) = set_slots l' s;
}.

Section tables.
Context {S X : Type} `{!Table S X} `{!TableOk S X}.
Implicit Types (s : S) (x : X).

(** [object.slots[i].p], and the table with another element in slot [i]. *)
Definition slot (i : nat) (p : list accessor) : list accessor := Member slots_name :: Element i :: p.
Definition put_slot (i : nat) (x : X) (s : S) : S := set_slots (<[i := x]> (slots s)) s.

(** All slots are there. *)
Definition full s : Prop := length (slots s) = slot_count.

Lemma full_lookup s i : full s → i < slot_count → ∃ x, slots s !! i = Some x.
Proof. intros Hf Hi. apply lookup_lt_is_Some_2. by rewrite Hf. Qed.

Lemma full_put i x s : full s → full (put_slot i x s).
Proof. intros Hf. unfold full, put_slot. by rewrite set_slots_slots, length_insert. Qed.

Lemma put_lookup i x s : full s → i < slot_count → slots (put_slot i x s) !! i = Some x.
Proof.
  intros Hf Hi. unfold put_slot. rewrite set_slots_slots. apply list_lookup_insert_eq. by rewrite Hf.
Qed.

Lemma put_put i x x' s : put_slot i x' (put_slot i x s) = put_slot i x' s.
Proof. unfold put_slot. by rewrite set_slots_set, set_slots_slots, list_insert_insert_eq. Qed.

Lemma slot_locate i p u o :
  i < slot_count → locate element p = Some (u, o) → ∃ o', locate object (slot i p) = Some (u, o').
Proof.
  intros Hi Hp. unfold slot. rewrite (locate_cons _ _ _ _ _ _ slots_part).
  rewrite (locate_cons _ _ _ _ _ _ (part_element _ _ _ Hi)), Hp. by eexists.
Qed.

Lemma slot_value s i x p w :
  i < slot_count → slots s !! i = Some x → value_at element (element_val x) p = Some w →
  value_at object (object_val s) (slot i p) = Some w.
Proof.
  intros Hi Hx Hw. unfold slot.
  rewrite (value_at_cons _ _ _ _ _ _ _ slots_part), slots_val. cbn [mbind option_bind].
  rewrite (value_at_cons _ _ _ _ _ _ _ (part_element _ _ _ Hi)). cbn [parts].
  by rewrite list_lookup_fmap, Hx.
Qed.

Lemma slot_assign s i x x' p w :
  i < slot_count → slots s !! i = Some x →
  assign element (element_val x) p w = Some (element_val x') →
  assign object (object_val s) (slot i p) w = Some (object_val (put_slot i x' s)).
Proof.
  intros Hi Hx Hw. unfold slot.
  rewrite (assign_cons _ _ _ _ _ _ _ _ slots_part), slots_val. cbn [mbind option_bind].
  rewrite (assign_cons _ _ _ _ _ _ _ _ (part_element _ _ _ Hi)). cbn [parts].
  rewrite list_lookup_fmap, Hx. cbn [fmap option_fmap option_map mbind option_bind].
  rewrite Hw. cbn [mbind option_bind with_parts]. rewrite <-list_fmap_insert. by rewrite set_slots_val.
Qed.

Lemma load_slot_run s bs i x p u o z :
  reads object bs (object_val s) → i < slot_count → slots s !! i = Some x →
  locate element p = Some (u, o) → value_at element (element_val x) p = Some (VInt z) →
  load object (slot i p) bs = Done (z, bs).
Proof.
  intros Hv Hi Hx Hp Hz. destruct (slot_locate i p u o Hi Hp) as [o' Ho].
  eapply object_load_run; [apply object_sane|done|done|by eapply slot_value].
Qed.

Abbreviation simulates := (sim object object_val).

(** The memory holds [s0]; the simulated program may be further, at [s]. *)
Lemma sim_load_slot {A B} s0 s i x p u o z (k : Z → M (list Z) A) (high : M S B) Q :
  i < slot_count → slots s0 !! i = Some x → locate element p = Some (u, o) →
  value_at element (element_val x) p = Some (VInt z) →
  simulates (object_val s0) s (k z) high Q →
  simulates (object_val s0) s (load object (slot i p) ≫= k) high Q.
Proof. intros Hi Hx Hp Hz. eapply sim_low. intros bs Hv. by eapply load_slot_run. Qed.

Lemma sim_store_slot {A B} s0 s i x x' p u o z (k : unit → M (list Z) A) (high : M S B) Q :
  i < slot_count → slots s0 !! i = Some x → locate element p = Some (u, o) → numeric u = true →
  has_type u (VInt z) → assign element (element_val x) p (VInt z) = Some (element_val x') →
  simulates (object_val (put_slot i x' s0)) s (k tt) high Q →
  simulates (object_val s0) s (store object (slot i p) z ≫= k) high Q.
Proof.
  intros Hi Hx Hp Hu Hz Ha. destruct (slot_locate i p u o Hi Hp) as [o' Ho].
  eapply sim_store; [apply object_sane|done|done|done|by eapply slot_assign].
Qed.

Lemma sim_store_slot_prefix {A B} s0 s i x x' p n o ws l (k : unit → M (list Z) A) (high : M S B) Q :
  i < slot_count → slots s0 !! i = Some x → locate element p = Some (TArray n uint8_t, o) →
  value_at element (element_val x) p = Some (VArray (VInt <$> l)) →
  length ws ≤ n → bytes_ok ws →
  assign element (element_val x) p (VArray (VInt <$> (ws ++ drop (length ws) l))) =
    Some (element_val x') →
  simulates (object_val (put_slot i x' s0)) s (k tt) high Q →
  simulates (object_val s0) s (store_bytes object (slot i p) ws ≫= k) high Q.
Proof.
  intros Hi Hx Hp Hl Hn Hb Ha. destruct (slot_locate i p _ o Hi Hp) as [o' Ho].
  eapply sim_store_prefix; [apply object_sane|done|by eapply slot_value|done|done|by eapply slot_assign].
Qed.

(** A copy of a whole slot. *)
Lemma sim_load_element {A B} s0 s i x (k : list Z → M (list Z) A) (high : M S B) Q :
  i < slot_count → slots s0 !! i = Some x →
  (∀ ws, reads element ws (element_val x) → simulates (object_val s0) s (k ws) high Q) →
  simulates (object_val s0) s (load_bytes object (slot i []) ≫= k) high Q.
Proof.
  intros Hi Hx. destruct (slot_locate i [] element 0 Hi eq_refl) as [o' Ho].
  eapply sim_load_bytes; [apply object_sane|done|by eapply slot_value].
Qed.
End tables.

(** [load_slot p]: the next load, of the lvalue [p] of a slot that is known;
    [store_slot p x']: the next store, which makes the slot [x']. *)
Ltac load_slot :=
  eapply sim_load_slot; [done | first [eassumption | by apply put_lookup] | done | done |].
Ltac store_slot x' :=
  eapply (sim_store_slot _ _ _ _ x');
  [ done | first [eassumption | by apply put_lookup] | done | done
  | first [apply u64_width | apply u32_width | apply u16_width | assumption | done | solve [eauto with typed]]
  | reflexivity | ];
  rewrite ?put_put.
