(* ===== verification/CHeap.v ===== *)
(** * A memory of blocks at addresses

    Where CObject.v has one object, a program with pointers has many: a memory
    is a finite map from addresses to blocks of bytes.  A pointer is a number,
    its value the address of a block; loads and stores through it are loads and
    stores of an lvalue in that block.  calloc and free make and remove blocks.
    [represents] says which record such a memory holds, and the rules below
    extend the simulation of Simulation.v to it. *)

From S2P Require Import Prelude LinkedList Bytes CType CMemory Simulation CObject.

(** ** Blocks *)

(** [dynamic]: made by calloc, so that free may take it. *)
Record block : Type := Block { dynamic : bool; bytes : list Z }.

(** [answers]: whether the calls of calloc to come succeed, as in the models on
    records; [taken]: how many have. *)
Record memory : Type := Memory { heap : gmap Z block; taken : nat; answers : list bool }.

Definition set_heap (h : gmap Z block) (m : memory) : memory := Memory h (taken m) (answers m).

(** A program on the bytes of the block at an address; at NULL there is none. *)
Definition at_block {A} (z : Z) (prog : M (list Z) A) : M memory A :=
  h ← gets heap;
  b ← the (if decide (z = 0%Z) then None else h !! z);
  match prog (bytes b) with
  | Done (a, bs) => modify (set_heap (<[z := Block (dynamic b) bs]> h));; mret a
  | Undef => undef
  | NoFuel => no_fuel
  end.

Definition load_at (T : ctype) (z : Z) (p : list accessor) : M memory Z := at_block z (load T p).
Definition store_at (T : ctype) (z : Z) (p : list accessor) (x : Z) : M memory unit :=
  at_block z (store T p x).
Definition load_bytes_at (T : ctype) (z : Z) (p : list accessor) : M memory (list Z) :=
  at_block z (load_bytes T p).
Definition store_bytes_at (T : ctype) (z : Z) (p : list accessor) (ws : list Z) : M memory unit :=
  at_block z (store_bytes T p ws).

(** [memset] of a whole object to zero. *)
Definition clear_at (T : ctype) (z : Z) : M memory unit :=
  store_bytes_at T z [] (replicate (size T) 0%Z).

(** [memcpy(z, ws, n)] *)
Definition memcpy_at (z : Z) (ws : list Z) (n : nat) : M memory unit :=
  at_block z (bs ← gets (λ bs, bs); new ← the (memcpy bs ws n); modify (λ _, new)).

(** calloc of [n] bytes: NULL, or the next address that [fresh] gives, at which
    nothing may lie. *)
Definition calloc_at (fresh : nat → Z) (n : nat) : M memory Z :=
  m ← gets (λ m, m);
  let ok := match answers m with [] => true | b :: _ => b end in
  modify (λ m, Memory (heap m) (taken m) (tail (answers m)));;
  if ok then
    let z := fresh (taken m) in
    if decide (heap m !! z = None) then
      modify (λ m, Memory (<[z := Block true (replicate n 0%Z)]> (heap m)) (S (taken m)) (answers m));;
      mret z
    else undef
  else mret 0%Z.

(** free: NULL, or the address of a block that calloc made. *)
Definition free_at (z : Z) : M memory unit :=
  if decide (z = 0%Z) then mret tt
  else
    h ← gets heap;
    b ← the (h !! z);
    if dynamic b then modify (set_heap (delete z h)) else undef.

(** [while (p != NULL) { ...; p = p->next; }], as [walk] of LinkedList.v. *)
Fixpoint walk_at {A R : Type} (next : Z → M memory Z) (fuel : nat) (p : Z) (a : A)
    (body : A → Z → M memory (R + A)) : M memory (R + A) :=
  if decide (p = 0%Z) then mret (inr a)
  else
    match fuel with
    | O => no_fuel
    | S fuel =>
        r ← body a p;
        match r with
        | inl v => mret (inl v)
        | inr a' => q ← next p; walk_at next fuel q a' body
        end
    end.

(** Enough fuel for a walk that visits no block twice. *)
Definition walk_fuel : M memory nat := gets (λ m, S (base.size (heap m))).

(** ** Pointers as numbers *)

(** The type whose pointers are the numbers that they are in memory. *)
Fixpoint words (t : ctype) : ctype :=
  match t with
  | TPtr => TUInt 8
  | TArray n t => TArray n (words t)
  | TStruct ms => TStruct ((λ '(x, t), (x, words t)) <$> ms)
  | TUnion ms => TUnion ((λ '(x, t), (x, words t)) <$> ms)
  | t => t
  end.

(** Its layout is the same. *)
Lemma words_size_align t : size (words t) = size t ∧ align (words t) = align t.
Proof.
  induction t as [n|n|l| |n t IH|ms IH|ms IH] using ctype_members_ind; try done;
    cbn [words]; [cbn; by destruct IH as [-> ->]|..].
  all: assert (align (TStruct ((λ '(x, t), (x, words t)) <$> ms)) = align (TStruct ms)) as Ha
    by (cbn; induction IH as [|[x t] ms [_ Ht] _ IHms]; [done|]; cbn in *; by rewrite Ht, IHms).
  - split; [|exact Ha]. cbn [size]. rewrite Ha. f_equal. generalize 0. clear Ha.
    induction IH as [|[x t] ms [Hs Ht] _ IHms]; intros off; [done|]. cbn in *.
    by rewrite Hs, Ht, IHms.
  - split; [|exact Ha]. cbn [size]. change (align (TUnion ?l)) with (align (TStruct l)).
    rewrite Ha. f_equal. clear Ha.
    induction IH as [|[x t] ms [Hs _] _ IHms]; [done|]. cbn in *. by rewrite Hs, IHms.
Qed.

Lemma words_fields off ms :
  fields off ((λ '(x, t), (x, words t)) <$> ms) =
    (λ '(x, (t, o)), (x, (words t, o))) <$> fields off ms.
Proof.
  revert off. induction ms as [|[x t] ms IH]; intros off; [done|]. cbn.
  destruct (words_size_align t) as [-> ->]. f_equal. apply IH.
Qed.

(** Members lie where they lay. *)
Lemma words_members t :
  members (words t) = (λ '(x, (t, o)), (x, (words t, o))) <$> members t.
Proof.
  destruct t as [| | | | |ms|ms]; try done; cbn [words members]; [apply words_fields|].
  rewrite <-!list_fmap_compose. apply list_fmap_ext. by intros i [x t] _.
Qed.

(** ** Which record a memory holds *)

(** An object of the program: its storage, its type and its value. *)
Record cell : Type := Cell { cell_dynamic : bool; cell_type : ctype; cell_val : cval }.

Definition cell_in (c : cell) (b : block) : Prop :=
  dynamic b = cell_dynamic c ∧ reads (cell_type c) (bytes b) (cell_val c).

(** The objects of a state: [stored s a] lists what lies at the place [a], one
    object or none; allocation number [n] takes the place [fresh_place n]. *)
Class Objects (S P : Type) := {
  address : P → Z;
  stored : S → P → list cell;
  fresh_place : nat → P;
  next_place : S → nat;
  calloc_answers : S → list bool;
}.

(** Places have addresses of their own; NULL is none of them; every type that
    is used is sound. *)
Class ObjectsOk (S P : Type) `{!Objects S P} : Prop := {
  address_inj :: Inj (=) (=) (address (S:=S) (P:=P));
  address_pos (a : P) : (0 < address (S:=S) a)%Z;
  stored_sane (s : S) a c : c ∈ stored s a → sane (cell_type c) = true;
}.

Section representation.
Context {S P : Type} `{!Objects S P} `{!ObjectsOk S P}.
Implicit Types (m : memory) (v s : S) (a : P).
Abbreviation addr := (address (S:=S) (P:=P)).

Definition contents (b : option block) (l : list cell) : Prop :=
  match l, b with [], None => True | [c], Some b => cell_in c b | _, _ => False end.

Record represents m s : Prop := {
  rep_blocks a : contents (heap m !! addr a) (stored s a);
  rep_fresh n : next_place s ≤ n → stored s (fresh_place n) = [];
  rep_taken : taken m = next_place s;
  rep_answers : answers m = calloc_answers s;
}.

Lemma rep_cell m s a c :
  represents m s → c ∈ stored s a →
  stored s a = [c] ∧ ∃ b, heap m !! addr a = Some b ∧ cell_in c b.
Proof.
  intros Hr Hc. pose proof (rep_blocks _ _ Hr a) as H.
  destruct (stored s a) as [|c' [|c'' l]]; [by apply not_elem_of_nil in Hc| |by destruct (heap m !! _)].
  apply list_elem_of_singleton in Hc as <-. split; [done|].
  destruct (heap m !! _) as [b|]; [by exists b|done].
Qed.

(** *** Updates of one object *)

(** [v'] is [v] with the value of an object replaced; with an object more; with
    an object less. *)
Record updated v a (d : bool) (T : ctype) (w w' : cval) v' : Prop := {
  upd_old : Cell d T w ∈ stored v a;
  upd_new : stored v a = [Cell d T w] → stored v' a = [Cell d T w'];
  upd_other b : b ≠ a → stored v' b = stored v b;
  upd_next : next_place v' = next_place v;
  upd_answers : calloc_answers v' = calloc_answers v;
}.

Record created v (T : ctype) (w : cval) v' : Prop := {
  cre_new : stored v (fresh_place (next_place v)) = [] →
    stored v' (fresh_place (next_place v)) = [Cell true T w];
  cre_other b : b ≠ fresh_place (next_place v) → stored v' b = stored v b;
  cre_next : next_place v' = Datatypes.S (next_place v);
  cre_answers : calloc_answers v' = tail (calloc_answers v);
}.

Record removed v a v' : Prop := {
  rem_old : ∃ T w, Cell true T w ∈ stored v a;
  rem_new c : stored v a = [c] → stored v' a = [];
  rem_other b : b ≠ a → stored v' b = stored v b;
  rem_next : next_place v' = next_place v;
  rem_answers : calloc_answers v' = calloc_answers v;
}.

Lemma rep_store m v a d T w bs w' v' :
  represents m v → updated v a d T w w' v' → reads T bs w' →
  represents (set_heap (<[addr a := Block d bs]> (heap m)) m) v'.
Proof.
  intros Hr [Hold Hnew Hother Hnext Hans] Hbs.
  destruct (rep_cell _ _ _ _ Hr Hold) as [Hone _]. split; cbn.
  - intros b. destruct (decide (addr a = addr b)) as [->%(inj _)|Hne].
    + by rewrite lookup_insert_eq, (Hnew Hone).
    + rewrite lookup_insert_ne by done. rewrite Hother by (intros ->; done). apply Hr.
  - intros n. rewrite Hnext. intros Hn. pose proof (rep_fresh _ _ Hr n Hn) as Hf.
    rewrite Hother; [done|]. intros <-. congruence.
  - rewrite Hnext. apply Hr.
  - rewrite Hans. apply Hr.
Qed.

Lemma rep_free m v a v' :
  represents m v → removed v a v' →
  represents (set_heap (delete (addr a) (heap m)) m) v'.
Proof.
  intros Hr [(T & w & Hold) Hnew Hother Hnext Hans].
  destruct (rep_cell _ _ _ _ Hr Hold) as [Hone _]. split; cbn.
  - intros b. destruct (decide (addr a = addr b)) as [->%(inj _)|Hne].
    + by rewrite lookup_delete_eq, (Hnew _ Hone).
    + rewrite lookup_delete_ne by done. rewrite Hother by (intros ->; done). apply Hr.
  - intros n. rewrite Hnext. intros Hn. pose proof (rep_fresh _ _ Hr n Hn) as Hf.
    rewrite Hother; [done|]. intros <-. congruence.
  - rewrite Hnext. apply Hr.
  - rewrite Hans. apply Hr.
Qed.

Lemma rep_calloc m v T w v' :
  represents m v → created v T w v' → Inj (=) (=) fresh_place → reads T (replicate (size T) 0%Z) w →
  heap m !! addr (fresh_place (taken m)) = None ∧
  represents (Memory (<[addr (fresh_place (taken m)) := Block true (replicate (size T) 0%Z)]> (heap m))
    (Datatypes.S (taken m)) (tail (answers m))) v'.
Proof.
  intros Hr [Hnew Hother Hnext Hans] Hinj Hz. rewrite (rep_taken _ _ Hr), (rep_answers _ _ Hr).
  pose proof (rep_fresh _ _ Hr _ (Nat.le_refl _)) as Hf.
  pose proof (rep_blocks _ _ Hr (fresh_place (next_place v))) as Hb. rewrite Hf in Hb.
  split; [by destruct (heap m !! _)|]. split; cbn; [| |by rewrite Hnext|done].
  - intros b. destruct (decide (addr (fresh_place (next_place v)) = addr b)) as [<-%(inj _)|Hne].
    + by rewrite lookup_insert_eq, (Hnew Hf).
    + rewrite lookup_insert_ne by done. rewrite Hother by (intros ->; done). apply Hr.
  - intros n. rewrite Hnext. intros Hn. rewrite Hother; [apply Hr; lia|].
    intros E%(inj _). lia.
Qed.

(** A state that is like another: the memory holds both. *)
Lemma rep_same m v v' :
  (∀ a, stored v' a = stored v a) → next_place v' = next_place v →
  calloc_answers v' = calloc_answers v → represents m v → represents m v'.
Proof.
  intros Hs Hn Ha Hr. split; [intros a; rewrite Hs; apply Hr|intros n; rewrite Hs, Hn; apply Hr
    |rewrite Hn; apply Hr|rewrite Ha; apply Hr].
Qed.

(** There are at least as many blocks as places in use. *)
Lemma rep_size m s (l : list P) :
  represents m s → NoDup l → (∀ a, a ∈ l → stored s a ≠ []) → length l ≤ base.size (heap m).
Proof.
  intros Hr Hl Hs. rewrite <-size_dom, <-(length_fmap addr).
  rewrite <-(size_list_to_set (C:=gset Z)) by (by apply NoDup_fmap_2; [apply _|]).
  apply subseteq_size. intros z (a & -> & Ha)%elem_of_list_to_set%list_elem_of_fmap.
  apply elem_of_dom. pose proof (rep_blocks _ _ Hr a) as Hb. specialize (Hs a Ha).
  destruct (stored s a) as [|c [|]]; destruct (heap m !! addr a); try done.
Qed.

(** A memory that holds a state whose objects lie at the given places. *)
Definition block_of s a : block :=
  match stored s a with
  | c :: _ => Block (cell_dynamic c) (image (cell_type c) (cell_val c))
  | [] => Block false []
  end.
Definition memory_of s (l : list P) : memory :=
  Memory (list_to_map ((λ a, (addr a, block_of s a)) <$> l)) (next_place s) (calloc_answers s).

Lemma memory_of_represents s (l : list P) :
  NoDup l → (∀ a, a ∉ l → stored s a = []) →
  (∀ a, a ∈ l → ∃ c, stored s a = [c] ∧ has_type (cell_type c) (cell_val c)) →
  (∀ n, next_place s ≤ n → stored s (fresh_place n) = []) → represents (memory_of s l) s.
Proof.
  intros Hl Hout Hin Hfresh. split; cbn; [|done..]. intros a.
  destruct (list_to_map ((λ a, (addr a, block_of s a)) <$> l) !! addr a) as [b|] eqn:E.
  - apply elem_of_list_to_map_2, list_elem_of_fmap in E as (a' & [= ->%(inj _) ->] & Ha).
    destruct (Hin a' Ha) as (c & Hc & Ht). rewrite Hc. cbn. unfold block_of. rewrite Hc.
    split; [done|]. cbn. apply image_reads; [|done]. eapply (stored_sane s a'). rewrite Hc. by left.
  - apply not_elem_of_list_to_map_2 in E. rewrite Hout; [done|]. intros Ha. apply E.
    rewrite <-list_fmap_compose. apply list_elem_of_fmap. by exists a.
Qed.

(** *** Running programs on a block *)

Lemma address_not_null a : addr a ≠ 0%Z.
Proof. pose proof (address_pos a). lia. Qed.
Hint Resolve address_not_null : core.

Lemma at_block_run {A} m z b (prog : M (list Z) A) x bs :
  z ≠ 0%Z → heap m !! z = Some b → prog (bytes b) = Done (x, bs) →
  at_block z prog m = Done (x, set_heap (<[z := Block (dynamic b) bs]> (heap m)) m).
Proof.
  intros Hz Hb Hp. unfold at_block. run. rewrite decide_False by done.
  bind (the_Some _ _ _ Hb). by rewrite Hp.
Qed.

(** A program that only reads. *)
Lemma at_block_read {A} m z b (prog : M (list Z) A) x :
  z ≠ 0%Z → heap m !! z = Some b → prog (bytes b) = Done (x, bytes b) →
  at_block z prog m = Done (x, m).
Proof.
  intros Hz Hb Hp. rewrite (at_block_run _ _ _ _ _ _ Hz Hb Hp). destruct b as [d bs].
  rewrite insert_id by done. by destruct m.
Qed.

(** ** Simulation *)

Abbreviation sim := (simulation represents (λ s, s)).

Lemma sim_load_at {A B} v s a d T w p u o z (k : Z → M memory A) (high : M S B) Q :
  Cell d T w ∈ stored v a → locate T p = Some (u, o) → value_at T w p = Some (VInt z) →
  (has_type u (VInt z) → sim v s (k z) high Q) →
  sim v s (load_at T (addr a) p ≫= k) high Q.
Proof.
  intros Hc Hp Hz H m b s' Hr Hb. destruct (rep_cell _ _ _ _ Hr Hc) as (_ & bl & Hbl & _ & Hv).
  pose proof (stored_sane _ _ _ Hc) as Hs. cbn in Hs, Hv.
  bind by (eapply at_block_read; [done|done|by eapply object_load_run]).
  apply H; [|done|done].
  destruct (lvalue_sound _ _ _ _ _ _ Hs Hv Hp) as (_ & _ & _ & (x & Hx & Hrd) & _). simplify_eq.
  eapply reads_has_type; [by eapply locate_sane|done].
Qed.

(** The objects have their types. *)
Lemma sim_cell_typed {A B} v s a c (low : M memory A) (high : M S B) Q :
  c ∈ stored v a → (has_type (cell_type c) (cell_val c) → sim v s low high Q) →
  sim v s low high Q.
Proof.
  intros Hc H m b s' Hr Hb. destruct (rep_cell _ _ _ _ Hr Hc) as (_ & bl & _ & _ & Hv).
  apply H; [|done|done]. eapply reads_has_type; [by eapply stored_sane|exact Hv].
Qed.

Lemma sim_load_bytes_at {A B} v s a d T w p u o w' (k : list Z → M memory A) (high : M S B) Q :
  Cell d T w ∈ stored v a → locate T p = Some (u, o) → value_at T w p = Some w' →
  (∀ ws, reads u ws w' → sim v s (k ws) high Q) →
  sim v s (load_bytes_at T (addr a) p ≫= k) high Q.
Proof.
  intros Hc Hp Hz H m b s' Hr Hb. destruct (rep_cell _ _ _ _ Hr Hc) as (_ & bl & Hbl & _ & Hv).
  pose proof (stored_sane _ _ _ Hc) as Hs. cbn in Hs, Hv.
  destruct (load_bytes_run T Hs _ _ _ _ _ _ Hv Hp Hz) as (ws & Hl & Hws).
  bind by (by eapply at_block_read). by apply (H ws).
Qed.

(** A store of any kind, given what it does to the bytes of its object. *)
Lemma sim_at_block {A B} v s a d T w (prog : M (list Z) unit) w' v' k (high : M S B)
    (Q : A → B → S → Prop) :
  (∀ bs, reads T bs w → ∃ bs', prog bs = Done (tt, bs') ∧ reads T bs' w') →
  updated v a d T w w' v' → sim v' s (k tt) high Q →
  sim v s (at_block (addr a) prog ≫= k) high Q.
Proof.
  intros Hprog Hu H m b s' Hr Hb.
  destruct (rep_cell _ _ _ _ Hr (upd_old _ _ _ _ _ _ _ Hu)) as (_ & bl & Hbl & Hd & Hv).
  destruct (Hprog _ Hv) as (bs' & Hp & Hv'). bind (at_block_run _ _ _ _ _ _ (address_not_null a) Hbl Hp).
  apply H; [|done]. cbn in Hd. rewrite Hd. by eapply rep_store.
Qed.

Lemma sim_store_at {A B} v s a d T w p u o z w' v' k (high : M S B) (Q : A → B → S → Prop) :
  updated v a d T w w' v' → locate T p = Some (u, o) → numeric u = true →
  has_type u (VInt z) → assign T w p (VInt z) = Some w' →
  sim v' s (k tt) high Q → sim v s (store_at T (addr a) p z ≫= k) high Q.
Proof.
  intros Hu Hp Hn Hz Ha. pose proof (stored_sane _ _ _ (upd_old _ _ _ _ _ _ _ Hu)) as Hs.
  apply (sim_at_block _ _ _ d T w _ w'); [|done]. intros bs Hv. by eapply object_store_run.
Qed.

Lemma sim_store_bytes_at {A B} v s a d T w p u o ws x w' v' k (high : M S B) (Q : A → B → S → Prop) :
  updated v a d T w w' v' → locate T p = Some (u, o) → reads u ws x → assign T w p x = Some w' →
  sim v' s (k tt) high Q → sim v s (store_bytes_at T (addr a) p ws ≫= k) high Q.
Proof.
  intros Hu Hp Hx Ha. pose proof (stored_sane _ _ _ (upd_old _ _ _ _ _ _ _ Hu)) as Hs.
  apply (sim_at_block _ _ _ d T w _ w'); [|done]. intros bs Hv. by eapply store_bytes_run.
Qed.

Lemma sim_store_prefix_at {A B} v s a d T w p n o ws l w' v' k (high : M S B)
    (Q : A → B → S → Prop) :
  updated v a d T w w' v' → locate T p = Some (TArray n uint8_t, o) →
  value_at T w p = Some (VArray (VInt <$> l)) → length ws ≤ n → bytes_ok ws →
  assign T w p (VArray (VInt <$> (ws ++ drop (length ws) l))) = Some w' →
  sim v' s (k tt) high Q → sim v s (store_bytes_at T (addr a) p ws ≫= k) high Q.
Proof.
  intros Hu Hp Hl Hn Hb Ha. pose proof (stored_sane _ _ _ (upd_old _ _ _ _ _ _ _ Hu)) as Hs.
  apply (sim_at_block _ _ _ d T w _ w'); [|done]. intros bs Hv. by eapply store_prefix_run.
Qed.

Lemma sim_free {A B} v s a v' k (high : M S B) (Q : A → B → S → Prop) :
  removed v a v' → sim v' s (k tt) high Q → sim v s (free_at (addr a) ≫= k) high Q.
Proof.
  intros Hrem H m b s' Hr Hb. pose proof (rem_old _ _ _ Hrem) as (T & w & Hc).
  destruct (rep_cell _ _ _ _ Hr Hc) as (_ & bl & Hbl & Hd & _). cbn in Hd.
  bind by (unfold free_at; rewrite decide_False by done; run;
    bind (the_Some _ _ _ Hbl); rewrite Hd; reflexivity).
  apply H; [|done]. by eapply rep_free.
Qed.

Lemma sim_calloc_at {A B} v s T w v' v'' k (high : M S B) (Q : A → B → S → Prop) :
  created v T w v' → Inj (=) (=) fresh_place → reads T (replicate (size T) 0%Z) w →
  (∀ a, stored v'' a = stored v a) → next_place v'' = next_place v →
  calloc_answers v'' = tail (calloc_answers v) →
  (if (match calloc_answers v with [] => true | b :: _ => b end)
   then sim v' s (k (addr (fresh_place (next_place v)))) high Q else sim v'' s (k 0%Z) high Q) →
  sim v s (calloc_at (λ n, addr (fresh_place n)) (size T) ≫= k) high Q.
Proof.
  intros Hc Hinj Hz Hs Hn Ha H m b s' Hr Hb.
  destruct (rep_calloc _ _ _ _ _ Hr Hc Hinj Hz) as [Hfree Hrep].
  unfold calloc_at. run. rewrite (rep_answers _ _ Hr).
  destruct (match calloc_answers v with [] => true | b :: _ => b end); run; cbn [taken heap].
  - rewrite decide_True by done. run. cbn. rewrite (rep_taken _ _ Hr). apply H; [|done].
    by rewrite <-(rep_taken _ _ Hr), <-(rep_answers _ _ Hr).
  - apply H; [|done]. destruct m as [h t an]. split; cbn.
    + intros a. rewrite Hs. apply Hr.
    + intros n. rewrite Hs, Hn. apply Hr.
    + rewrite Hn. apply Hr.
    + by rewrite Ha, <-(rep_answers _ _ Hr).
Qed.

(** Two walks in step: [Rp] holds of the pointers they follow, [I] of the state
    as long as they go on. *)
Lemma sim_walk {A A' R R'} (word : option loc → Z) (Rp : option loc → Prop) (I : S → Prop)
    (Ra : A → A' → Prop) (Rr : R → R' → S → Prop) nextl nexth bl bh fl fh p (a : A) (a' : A') s :
  word None = 0%Z → (∀ l, word (Some l) ≠ 0%Z) →
  (∀ l s, I s → sim s s (nextl (word (Some l))) (nexth l)
     (λ z q s', z = word q ∧ Rp q ∧ I s')) →
  let step (x : R + A) (y : R' + A') s' := match x, y with
    | inl r, inl r' => Rr r r' s' | inr a, inr a' => Ra a a' ∧ I s' | _, _ => False end in
  (∀ (a : A) (a' : A') l s, I s → Rp (Some l) → Ra a a' → sim s s (bl a (word (Some l))) (bh a' l) step) →
  fh ≤ fl → I s → Rp p → Ra a a' →
  sim s s (walk_at nextl fl (word p) a bl) (walk nexth fh p a' bh) step.
Proof.
  intros Hn0 Hnz Hnext step Hbody. revert fl p a a' s.
  induction fh as [|fh IH]; intros fl p a a' s Hf Hi Hp Ha.
  - destruct p as [l|]; [by intros ????|]. cbn [walk]. rewrite Hn0.
    destruct fl; cbn [walk_at]; rewrite decide_True by done; by apply sim_done.
  - destruct fl as [|fl]; [lia|]. cbn [walk walk_at]. destruct p as [l|].
    + rewrite decide_False by done. eapply sim_bind; [by apply Hbody|].
      intros [r|b] [r'|b'] s1; cbn; try done; [intros Hr; by apply sim_done|].
      intros [Hb Hi1]. eapply sim_bind; [by apply Hnext|]. intros z q s2 (-> & Hq & Hi2).
      apply IH; [lia|done..].
    + rewrite Hn0, decide_True by done. by apply sim_done.
Qed.
End representation.
