(* ===== verification/Headers.v ===== *)
(** * The data types the headers declare

    Every enumeration, structure and union of the headers under src/nova-os,
    member by member: kernel/core/include/nova_core.h, novakit.h,
    nova_linuxkpi.h, kernel/network/network_stack.h, kernel/io/io_stack.h,
    userland/uimode/desktop/desktop.h and ui_boot_path.h.  A function pointer is
    a pointer; the anonymous union of struct nova_device is a member without a
    name; an enumerator without a value has the one after its predecessor's. *)

From S2P Require Import Prelude Core NovaKit CType.

Local Open Scope Z_scope.

(** ** kernel/core/include/nova_core.h *)

Definition enum_nova_result : ctype := TEnum [
  ("NOVA_OK", 0);
  ("NOVA_ERR", -1);
  ("NOVA_FULL", -2);
  ("NOVA_EMPTY", -3);
  ("NOVA_NOT_FOUND", -4)].

Definition enum_nova_thread_state : ctype := TEnum [
  ("NOVA_THREAD_DEAD", 0);
  ("NOVA_THREAD_RUNNABLE", 1);
  ("NOVA_THREAD_BLOCKED", 2)].

Definition struct_nova_thread_t : ctype := TStruct [
  ("id", uint32_t);
  ("priority", uint8_t);
  ("quanta", uint64_t);
  ("state", enum_nova_thread_state)].

Definition struct_nova_scheduler_t : ctype := TStruct [
  ("threads", TArray NOVA_MAX_THREADS struct_nova_thread_t);
  ("count", size_t);
  ("tick", uint64_t)].

Definition struct_nova_ipc_message_t : ctype := TStruct [
  ("sender", uint32_t);
  ("length", uint16_t);
  ("payload", TArray NOVA_IPC_PAYLOAD_SIZE uint8_t)].

Definition struct_nova_ipc_endpoint_t : ctype := TStruct [
  ("messages", TArray NOVA_IPC_QUEUE_LENGTH struct_nova_ipc_message_t);
  ("head", size_t);
  ("tail", size_t);
  ("count", size_t)].

Definition struct_nova_page_allocator_t : ctype := TStruct [("allocated", TArray NOVA_VM_MAX_PAGES uint8_t)].

Definition struct_nova_vm_mapping_t : ctype := TStruct [
  ("virtual_page", uint64_t);
  ("physical_page", uint32_t);
  ("writable", uint8_t)].

Definition struct_nova_address_space_t : ctype := TStruct [
  ("mappings", TArray NOVA_MAX_MAPPINGS struct_nova_vm_mapping_t);
  ("count", size_t)].

(** ** kernel/novakit/include/novakit.h *)

Definition enum_novakit_device_class_t : ctype := TEnum [
  ("NOVAKIT_STORAGE", 0);
  ("NOVAKIT_NETWORK", 1);
  ("NOVAKIT_GPU", 2);
  ("NOVAKIT_INPUT", 3);
  ("NOVAKIT_AUDIO", 4);
  ("NOVAKIT_BUS", 5)].

Definition enum_novakit_device_state_t : ctype := TEnum [
  ("NOVAKIT_DETACHED", 0);
  ("NOVAKIT_ATTACHED", 1)].

Definition struct_novakit_device_t : ctype := TStruct [
  ("id", uint32_t);
  ("vendor_id", uint16_t);
  ("device_id", uint16_t);
  ("class", enum_novakit_device_class_t);
  ("state", enum_novakit_device_state_t);
  ("name", TArray NovaKit.NOVAKIT_NAME_LENGTH char_t)].

Definition struct_novakit_registry_t : ctype := TStruct [
  ("devices", TArray NovaKit.NOVAKIT_MAX_DEVICES struct_novakit_device_t);
  ("count", size_t)].

(** ** drivers/linuxkpi/include/nova_linuxkpi.h *)

Definition struct_nova_linuxkpi_module_t : ctype := TStruct [
  ("name", TPtr);
  ("license", TPtr);
  ("upstream_revision", TPtr)].

(** ** kernel/network/network_stack.h *)

Definition socklen_t : ctype := TUInt 4.

Definition enum_nova_af : ctype := TEnum [
  ("NOVA_AF_UNSPEC", 0);
  ("NOVA_AF_INET", 2);
  ("NOVA_AF_INET6", 10);
  ("NOVA_AF_UNIX", 1)].

Definition enum_nova_sock_type : ctype := TEnum [
  ("NOVA_SOCK_STREAM", 1);
  ("NOVA_SOCK_DGRAM", 2);
  ("NOVA_SOCK_RAW", 3);
  ("NOVA_SOCK_SEQPACKET", 5)].

Definition enum_nova_ipproto : ctype := TEnum [
  ("NOVA_IPPROTO_IP", 0);
  ("NOVA_IPPROTO_ICMP", 1);
  ("NOVA_IPPROTO_TCP", 6);
  ("NOVA_IPPROTO_UDP", 17);
  ("NOVA_IPPROTO_IPV6", 41);
  ("NOVA_IPPROTO_ICMPV6", 58)].

Definition struct_nova_sockaddr : ctype := TStruct [
  ("sa_family", uint16_t);
  ("sa_data", TArray 14 char_t)].

Definition struct_nova_sockaddr_in : ctype := TStruct [
  ("sin_family", uint16_t);
  ("sin_port", uint16_t);
  ("sin_addr", uint32_t);
  ("sin_zero", TArray 8 char_t)].

Definition struct_nova_sockaddr_in6 : ctype := TStruct [
  ("sin6_family", uint16_t);
  ("sin6_port", uint16_t);
  ("sin6_flowinfo", uint32_t);
  ("sin6_addr", TArray 16 uint8_t);
  ("sin6_scope_id", uint32_t)].

Definition struct_nova_in_addr : ctype := TStruct [("s_addr", uint32_t)].

Definition struct_nova_in6_addr : ctype := TStruct [
  ("__u6_addr", TUnion [
    ("__u6_addr8", TArray 16 uint8_t);
    ("__u6_addr16", TArray 8 uint16_t);
    ("__u6_addr32", TArray 4 uint32_t)])].

Definition enum_nova_sol_socket : ctype := TEnum [
  ("NOVA_SOL_SOCKET", 1);
  ("NOVA_SOL_IP", 0);
  ("NOVA_SOL_TCP", 6);
  ("NOVA_SOL_UDP", 17)].

Definition enum_nova_so : ctype := TEnum [
  ("NOVA_SO_DEBUG", 1);
  ("NOVA_SO_REUSEADDR", 2);
  ("NOVA_SO_TYPE", 3);
  ("NOVA_SO_ERROR", 4);
  ("NOVA_SO_DONTROUTE", 5);
  ("NOVA_SO_BROADCAST", 6);
  ("NOVA_SO_SNDBUF", 7);
  ("NOVA_SO_RCVBUF", 8);
  ("NOVA_SO_KEEPALIVE", 9);
  ("NOVA_SO_LINGER", 13);
  ("NOVA_SO_TIMESTAMP", 29)].

Definition enum_nova_shut_rd : ctype := TEnum [
  ("NOVA_SHUT_RD", 0);
  ("NOVA_SHUT_WR", 1);
  ("NOVA_SHUT_RDWR", 2)].

Definition enum_nova_iff : ctype := TEnum [
  ("NOVA_IFF_UP", 0x1);
  ("NOVA_IFF_BROADCAST", 0x2);
  ("NOVA_IFF_LOOPBACK", 0x8);
  ("NOVA_IFF_RUNNING", 0x40);
  ("NOVA_IFF_MULTICAST", 0x1000)].

Definition struct_nova_net_stats : ctype := TStruct [
  ("rx_bytes", uint64_t);
  ("rx_packets", uint64_t);
  ("rx_errors", uint64_t);
  ("rx_dropped", uint64_t);
  ("tx_bytes", uint64_t);
  ("tx_packets", uint64_t);
  ("tx_errors", uint64_t);
  ("tx_dropped", uint64_t)].

Definition struct_nova_ifreq : ctype := TStruct [
  ("ifr_name", TArray 16 char_t);
  ("ifr_ifru", TUnion [
    ("ifru_addr", struct_nova_sockaddr);
    ("ifru_dstaddr", struct_nova_sockaddr);
    ("ifru_broadaddr", struct_nova_sockaddr);
    ("ifru_netmask", struct_nova_sockaddr);
    ("ifru_flags", short_t);
    ("ifru_metric", int_t);
    ("ifru_mtu", int_t);
    ("ifru_data", TPtr)])].

(** The macros that name the members of the union in a struct nova_ifreq. *)
Definition ifr_macros : list (string * list string) := [
  ("ifr_addr", ["ifr_ifru"; "ifru_addr"]);
  ("ifr_dstaddr", ["ifr_ifru"; "ifru_dstaddr"]);
  ("ifr_broadaddr", ["ifr_ifru"; "ifru_broadaddr"]);
  ("ifr_netmask", ["ifr_ifru"; "ifru_netmask"]);
  ("ifr_flags", ["ifr_ifru"; "ifru_flags"]);
  ("ifr_metric", ["ifr_ifru"; "ifru_metric"]);
  ("ifr_mtu", ["ifr_ifru"; "ifru_mtu"]);
  ("ifr_data", ["ifr_ifru"; "ifru_data"])].

Definition struct_nova_socket_ops : ctype := TStruct [
  ("create", TPtr);
  ("bind", TPtr);
  ("connect", TPtr);
  ("listen", TPtr);
  ("accept", TPtr);
  ("send", TPtr);
  ("recv", TPtr);
  ("shutdown", TPtr);
  ("getsockopt", TPtr);
  ("setsockopt", TPtr);
  ("close", TPtr)].

Definition struct_nova_socket : ctype := TStruct [
  ("family", enum_nova_af);
  ("type", enum_nova_sock_type);
  ("protocol", int_t);
  ("state", int_t);
  ("flags", int_t);
  ("ops", TPtr);
  ("private_data", TPtr);
  ("dev", TPtr)].

Definition struct_nova_sk_buff : ctype := TStruct [
  ("data", TPtr);
  ("len", size_t);
  ("headroom", size_t);
  ("tailroom", size_t);
  ("dev", TPtr);
  ("hash", uint32_t);
  ("protocol", uint16_t);
  ("priority", uint8_t);
  ("error", int_t)].

Definition struct_nova_net_device_ops : ctype := TStruct [
  ("open", TPtr);
  ("stop", TPtr);
  ("start_xmit", TPtr);
  ("set_mac", TPtr);
  ("get_stats", TPtr)].

Definition struct_nova_net_device : ctype := TStruct [
  ("name", TArray 16 char_t);
  ("mac", TArray 6 uint8_t);
  ("mtu", uint32_t);
  ("flags", uint32_t);
  ("family", enum_nova_af);
  ("ops", TPtr);
  ("stats", struct_nova_net_stats);
  ("private_data", TPtr);
  ("next", TPtr)].

(** The ioctl numbers. *)
Definition nova_ioctls : list (string * Z) := [
  ("NOVA_SIOCGIFADDR", 0x8913);
  ("NOVA_SIOCGIFNETMASK", 0x891B);
  ("NOVA_SIOCGIFBRDADDR", 0x8919);
  ("NOVA_SIOCGIFFLAGS", 0x8913);
  ("NOVA_SIOCSIFFLAGS", 0x8914);
  ("NOVA_SIOCGIFMTU", 0x8921);
  ("NOVA_SIOCSIFMTU", 0x8922)].

(** ** kernel/io/io_stack.h *)

Definition enum_nova_io_type : ctype := TEnum [
  ("NOVA_IO_READ", 1);
  ("NOVA_IO_WRITE", 2);
  ("NOVA_IO_IOCTL", 3);
  ("NOVA_IO_FLUSH", 4);
  ("NOVA_IO_DISCARD", 5)].

Definition enum_nova_io_status : ctype := TEnum [
  ("NOVA_IO_PENDING", 0);
  ("NOVA_IO_SUCCESS", 1);
  ("NOVA_IO_ERROR", -1);
  ("NOVA_IO_CANCELLED", -2)].

Definition enum_nova_device_type : ctype := TEnum [
  ("NOVA_DEVICE_BLOCK", 1);
  ("NOVA_DEVICE_CHAR", 2);
  ("NOVA_DEVICE_NETWORK", 3);
  ("NOVA_DEVICE_FRAMEBUFFER", 4);
  ("NOVA_DEVICE_INPUT", 5);
  ("NOVA_DEVICE_AUDIO", 6)].

Definition struct_nova_io_request : ctype := TStruct [
  ("type", enum_nova_io_type);
  ("status", enum_nova_io_status);
  ("device", TPtr);
  ("offset", uint64_t);
  ("buffer", TPtr);
  ("length", size_t);
  ("flags", uint32_t);
  ("timeout_ms", uint64_t);
  ("callback", TPtr);
  ("callback_ctx", TPtr);
  ("completion", TPtr);
  ("error_code", int_t)].

Definition struct_nova_block_geometry : ctype := TStruct [
  ("total_sectors", uint64_t);
  ("sector_size", uint32_t);
  ("cylinders", uint32_t);
  ("heads", uint32_t);
  ("sectors_per_track", uint32_t)].

Definition struct_nova_char_ops : ctype := TStruct [
  ("open", TPtr);
  ("close", TPtr);
  ("read", TPtr);
  ("write", TPtr);
  ("ioctl", TPtr)].

Definition struct_nova_block_ops : ctype := TStruct [
  ("open", TPtr);
  ("close", TPtr);
  ("submit_io", TPtr);
  ("flush", TPtr);
  ("get_geometry", TPtr)].

Definition struct_nova_net_ops : ctype := TStruct [
  ("open", TPtr);
  ("close", TPtr);
  ("transmit", TPtr);
  ("receive", TPtr);
  ("set_mac", TPtr);
  ("get_mac", TPtr)].

Definition struct_nova_fb_info : ctype := TStruct [
  ("width", uint32_t);
  ("height", uint32_t);
  ("pitch", uint32_t);
  ("bits_per_pixel", uint8_t);
  ("red_mask_size", uint8_t);
  ("red_field_position", uint8_t);
  ("green_mask_size", uint8_t);
  ("green_field_position", uint8_t);
  ("blue_mask_size", uint8_t);
  ("blue_field_position", uint8_t)].

Definition struct_nova_fb_ops : ctype := TStruct [
  ("open", TPtr);
  ("close", TPtr);
  ("get_info", TPtr);
  ("map_buffer", TPtr);
  ("unmap_buffer", TPtr);
  ("set_palette", TPtr)].

Definition enum_nova_input_event_type : ctype := TEnum [
  ("NOVA_INPUT_KEY_PRESS", 1);
  ("NOVA_INPUT_KEY_RELEASE", 2);
  ("NOVA_INPUT_MOUSE_MOVE", 3);
  ("NOVA_INPUT_MOUSE_BUTTON", 4);
  ("NOVA_INPUT_MOUSE_SCROLL", 5);
  ("NOVA_INPUT_TOUCH", 6)].

Definition struct_nova_input_event : ctype := TStruct [
  ("type", enum_nova_input_event_type);
  ("code", uint32_t);
  ("value", int32_t);
  ("timestamp_ns", uint64_t)].

Definition struct_nova_input_ops : ctype := TStruct [
  ("open", TPtr);
  ("close", TPtr);
  ("read_event", TPtr);
  ("poll", TPtr)].

Definition struct_nova_device : ctype := TStruct [
  ("name", TArray 64 char_t);
  ("path", TArray 128 char_t);
  ("type", enum_nova_device_type);
  ("major", uint32_t);
  ("minor", uint32_t);
  ("ref_count", int_t);
  ("flags", int_t);
  ("private_data", TPtr);
  ("", TUnion [
    ("char_ops", TPtr);
    ("block_ops", TPtr);
    ("net_ops", TPtr);
    ("fb_ops", TPtr);
    ("input_ops", TPtr)]);
  ("next", TPtr);
  ("parent", TPtr)].

Definition struct_nova_io_completion_port : ctype := TStruct [
  ("queue", TPtr);
  ("max_events", uint32_t);
  ("timeout_ms", uint32_t)].

Definition enum_nova_io_scheduler : ctype := TEnum [
  ("NOVA_SCHEDULER_NOOP", 1);
  ("NOVA_SCHEDULER_DEADLINE", 2);
  ("NOVA_SCHEDULER_CFQ", 3)].

(** ** userland/uimode/desktop/desktop.h *)

Definition enum_nova_window_type : ctype := TEnum [
  ("NOVA_WINDOW_NORMAL", 0);
  ("NOVA_WINDOW_DIALOG", 1);
  ("NOVA_WINDOW_POPUP", 2);
  ("NOVA_WINDOW_TOOLBAR", 3);
  ("NOVA_WINDOW_MENU", 4);
  ("NOVA_WINDOW_FULLSCREEN", 5)].

Definition enum_nova_window_state : ctype := TEnum [
  ("NOVA_WINDOW_STATE_NORMAL", 0);
  ("NOVA_WINDOW_STATE_MINIMIZED", 1);
  ("NOVA_WINDOW_STATE_MAXIMIZED", 2);
  ("NOVA_WINDOW_STATE_FULLSCREEN", 4);
  ("NOVA_WINDOW_STATE_ACTIVE", 8);
  ("NOVA_WINDOW_STATE_HIDDEN", 16)].

Definition enum_nova_cursor_type : ctype := TEnum [
  ("NOVA_CURSOR_ARROW", 0);
  ("NOVA_CURSOR_IBEAM", 1);
  ("NOVA_CURSOR_WAIT", 2);
  ("NOVA_CURSOR_CROSS", 3);
  ("NOVA_CURSOR_UPARROW", 4);
  ("NOVA_CURSOR_SIZE", 5);
  ("NOVA_CURSOR_SIZEWE", 6);
  ("NOVA_CURSOR_SIZENS", 7);
  ("NOVA_CURSOR_SIZEALL", 8);
  ("NOVA_CURSOR_NO", 9);
  ("NOVA_CURSOR_HAND", 10)].

Definition struct_nova_color : ctype := TStruct [
  ("r", uint8_t);
  ("g", uint8_t);
  ("b", uint8_t);
  ("a", uint8_t)].

Definition struct_nova_rect : ctype := TStruct [
  ("x", int32_t);
  ("y", int32_t);
  ("width", uint32_t);
  ("height", uint32_t)].

Definition struct_nova_point : ctype := TStruct [
  ("x", int32_t);
  ("y", int32_t)].

Definition struct_nova_window_props : ctype := TStruct [
  ("title", TArray 256 char_t);
  ("type", enum_nova_window_type);
  ("bounds", struct_nova_rect);
  ("flags", uint32_t);
  ("icon_data", TPtr);
  ("icon_size", size_t)].

Definition enum_nova_window_event_type : ctype := TEnum [
  ("NOVA_EVENT_WINDOW_CREATE", 1);
  ("NOVA_EVENT_WINDOW_DESTROY", 2);
  ("NOVA_EVENT_WINDOW_MOVE", 3);
  ("NOVA_EVENT_WINDOW_RESIZE", 4);
  ("NOVA_EVENT_WINDOW_FOCUS", 5);
  ("NOVA_EVENT_WINDOW_BLUR", 6);
  ("NOVA_EVENT_WINDOW_MINIMIZE", 7);
  ("NOVA_EVENT_WINDOW_MAXIMIZE", 8);
  ("NOVA_EVENT_WINDOW_CLOSE", 9)].

Definition struct_nova_window_event : ctype := TStruct [
  ("type", enum_nova_window_event_type);
  ("window_id", uint32_t);
  ("data", TUnion [
    ("bounds", struct_nova_rect);
    ("focused", int_t)]);
  ("timestamp", uint64_t)].

Definition struct_nova_window_ops : ctype := TStruct [
  ("create", TPtr);
  ("destroy", TPtr);
  ("show", TPtr);
  ("hide", TPtr);
  ("move", TPtr);
  ("resize", TPtr);
  ("set_title", TPtr);
  ("set_focus", TPtr);
  ("minimize", TPtr);
  ("maximize", TPtr);
  ("restore", TPtr);
  ("close", TPtr)].

Definition struct_nova_window : ctype := TStruct [
  ("id", uint32_t);
  ("props", struct_nova_window_props);
  ("state", enum_nova_window_state);
  ("ops", TPtr);
  ("surface", TPtr);
  ("private_data", TPtr);
  ("parent", TPtr);
  ("next", TPtr);
  ("prev", TPtr)].

Definition enum_nova_compositor_mode : ctype := TEnum [
  ("NOVA_COMP_SOFTWARE", 0);
  ("NOVA_COMP_HARDWARE", 1);
  ("NOVA_COMP_MIXED", 2)].

Definition struct_nova_compositor_config : ctype := TStruct [
  ("mode", enum_nova_compositor_mode);
  ("vsync_enabled", uint32_t);
  ("triple_buffering", uint32_t);
  ("cursor_composition", uint32_t);
  ("background_color", struct_nova_color)].

Definition struct_nova_compositor_ops : ctype := TStruct [
  ("init", TPtr);
  ("shutdown", TPtr);
  ("add_window", TPtr);
  ("remove_window", TPtr);
  ("composite", TPtr);
  ("set_cursor", TPtr);
  ("move_cursor", TPtr);
  ("update_region", TPtr)].

Definition struct_nova_compositor : ctype := TStruct [
  ("config", struct_nova_compositor_config);
  ("ops", TPtr);
  ("windows", TPtr);
  ("screen_width", uint32_t);
  ("screen_height", uint32_t);
  ("bits_per_pixel", uint32_t);
  ("framebuffer", TPtr);
  ("cursor_surface", TPtr);
  ("cursor_pos", struct_nova_point);
  ("cursor_type", enum_nova_cursor_type);
  ("cursor_visible", int_t)].

Definition enum_nova_taskbar_pos : ctype := TEnum [
  ("NOVA_TASKBAR_BOTTOM", 0);
  ("NOVA_TASKBAR_TOP", 1);
  ("NOVA_TASKBAR_LEFT", 2);
  ("NOVA_TASKBAR_RIGHT", 3)].

Definition struct_nova_desktop_config : ctype := TStruct [
  ("wallpaper_path", TArray 256 char_t);
  ("background_color", struct_nova_color);
  ("taskbar_position", enum_nova_taskbar_pos);
  ("taskbar_height", uint32_t);
  ("show_desktop_icons", uint32_t);
  ("font_name", TArray 64 char_t);
  ("font_size", uint32_t)].

Definition struct_nova_desktop_ops : ctype := TStruct [
  ("init", TPtr);
  ("shutdown", TPtr);
  ("set_wallpaper", TPtr);
  ("refresh", TPtr);
  ("show_context_menu", TPtr)].

Definition struct_nova_desktop : ctype := TStruct [
  ("config", struct_nova_desktop_config);
  ("ops", TPtr);
  ("compositor", TPtr);
  ("wallpaper_surface", TPtr);
  ("desktop_icons", TPtr);
  ("taskbar", TPtr)].

Definition enum_nova_taskbar_item_type : ctype := TEnum [
  ("NOVA_TASKBAR_ITEM_APP", 0);
  ("NOVA_TASKBAR_ITEM_TRAY", 1);
  ("NOVA_TASKBAR_ITEM_SYSTEM", 2)].

Definition struct_nova_taskbar_item : ctype := TStruct [
  ("type", enum_nova_taskbar_item_type);
  ("title", TArray 128 char_t);
  ("icon", TPtr);
  ("window_id", uint32_t);
  ("flags", uint32_t);
  ("next", TPtr)].

(** ** userland/uimode/desktop/ui_boot_path.h *)

Definition enum_nova_ui_mode : ctype := TEnum [
  ("NOVA_UI_MODE_TEXT", 0);
  ("NOVA_UI_MODE_DESKTOP", 1);
  ("NOVA_UI_MODE_COMPAT", 2)].

Definition enum_nova_ui_event : ctype := TEnum [
  ("NOVA_UI_EVENT_SERIAL_READY", 1);
  ("NOVA_UI_EVENT_SESSION_MANAGER_READY", 2);
  ("NOVA_UI_EVENT_DESKTOP_READY", 3);
  ("NOVA_UI_EVENT_COMPAT_SHELL_READY", 4);
  ("NOVA_UI_EVENT_LINUX_APP_LAUNCHED", 5);
  ("NOVA_UI_EVENT_WINDOWS_APP_LAUNCHED", 6)].

Definition struct_nova_ui_boot_plan : ctype := TStruct [
  ("mode", enum_nova_ui_mode);
  ("display_server", TPtr);
  ("session_manager", TPtr);
  ("desktop_shell", TPtr);
  ("compat_shell", TPtr);
  ("kernel_console_device", TPtr);
  ("vm_display_device", TPtr);
  ("auto_start_desktop", uint32_t);
  ("enable_compat_shell", uint32_t)].

Definition struct_nova_ui_boot_context : ctype := TStruct [
  ("plan", struct_nova_ui_boot_plan);
  ("current_mode", enum_nova_ui_mode);
  ("serial_ready", int_t);
  ("userland_ready", int_t);
  ("session_started", int_t);
  ("desktop_ready", int_t);
  ("compat_shell_ready", int_t)].

(** ** All of them *)

Definition header_structs : list ctype :=
  [struct_nova_thread_t; struct_nova_scheduler_t; struct_nova_ipc_message_t;
   struct_nova_ipc_endpoint_t; struct_nova_page_allocator_t; struct_nova_vm_mapping_t;
   struct_nova_address_space_t; struct_novakit_device_t; struct_novakit_registry_t;
   struct_nova_linuxkpi_module_t; struct_nova_sockaddr; struct_nova_sockaddr_in;
   struct_nova_sockaddr_in6; struct_nova_in_addr; struct_nova_in6_addr; struct_nova_net_stats;
   struct_nova_ifreq; struct_nova_socket_ops; struct_nova_socket; struct_nova_sk_buff;
   struct_nova_net_device_ops; struct_nova_net_device; struct_nova_io_request;
   struct_nova_block_geometry; struct_nova_char_ops; struct_nova_block_ops;
   struct_nova_net_ops; struct_nova_fb_info; struct_nova_fb_ops; struct_nova_input_event;
   struct_nova_input_ops; struct_nova_device; struct_nova_io_completion_port;
   struct_nova_color; struct_nova_rect; struct_nova_point; struct_nova_window_props;
   struct_nova_window_event; struct_nova_window_ops; struct_nova_window;
   struct_nova_compositor_config; struct_nova_compositor_ops; struct_nova_compositor;
   struct_nova_desktop_config; struct_nova_desktop_ops; struct_nova_desktop;
   struct_nova_taskbar_item; struct_nova_ui_boot_plan; struct_nova_ui_boot_context].

Definition header_enums : list ctype :=
  [enum_nova_result; enum_nova_thread_state; enum_novakit_device_class_t;
   enum_novakit_device_state_t; enum_nova_af; enum_nova_sock_type; enum_nova_ipproto;
   enum_nova_sol_socket; enum_nova_so; enum_nova_shut_rd; enum_nova_iff; enum_nova_io_type;
   enum_nova_io_status; enum_nova_device_type; enum_nova_input_event_type;
   enum_nova_io_scheduler; enum_nova_window_type; enum_nova_window_state;
   enum_nova_cursor_type; enum_nova_window_event_type; enum_nova_compositor_mode;
   enum_nova_taskbar_pos; enum_nova_taskbar_item_type; enum_nova_ui_mode; enum_nova_ui_event].

Definition enumerators (t : ctype) : list (string * Z) := match t with TEnum l => l | _ => [] end.

(** Enumerators are constants of one name space. *)
Definition constants : list (string * Z) := mjoin (enumerators <$> header_enums).

Definition constant (x : string) : option Z :=
  (λ m : nat * (string * Z), m.2.2) <$> list_find (λ m : string * Z, m.1 = x) constants.

(** The type and the offset of a member of a member. *)
Fixpoint member_of (t : ctype) (p : list string) : option (ctype * nat) :=
  match p with
  | [] => Some (t, 0%nat)
  | x :: p => '(u, o) ← offset_of t x; '(w, o') ← member_of u p; Some (w, (o + o')%nat)
  end.

(** Values that can be combined by |: single bits, each its own. *)
Definition flag_values (t : ctype) : Prop :=
  Forall (λ z, z = 0 ∨ z = 2 ^ Z.log2 z) (enumerators t).*2.

(** Within an enumeration every enumerator has its own value, one of an int. *)
Definition sound_enum (t : ctype) : Prop :=
  NoDup (enumerators t).*2 ∧ Forall (in_signed 4) (enumerators t).*2.

(** ** The types are sound as data

    In each structure, every member lies at a multiple of its alignment and inside
    the structure, the members do not overlap, each is found under its name, and
    the elements of an array of it stay aligned. *)
Lemma headers_well_laid : Forall well_laid header_structs.
Proof.
  eapply Forall_impl; [|exact sane_well_laid].
  by repeat (constructor; [vm_compute; reflexivity|]); constructor.
Qed.

(** The sizes on x86-64. *)
Example header_sizes :
  (size <$> header_structs) =
    [24; 784; 72; 1176; 128; 16; 2056; 64; 4104; 24; 16; 16; 28; 4; 16; 64; 32; 88; 48; 56; 40;
     128; 88; 24; 40; 40; 48; 20; 48; 24; 32; 248; 16; 4; 16; 8; 296; 32; 96; 360; 20; 64; 88;
     340; 40; 384; 160; 64; 88]%nat.
Proof. by vm_compute. Qed.

(** A struct nova_sockaddr_in can be read as a struct nova_sockaddr. *)
Example sockaddr_in_as_sockaddr :
  size struct_nova_sockaddr_in = size struct_nova_sockaddr ∧
  offset_of struct_nova_sockaddr_in "sin_family" = offset_of struct_nova_sockaddr "sa_family".
Proof. by vm_compute. Qed.

(** Each ifr_ macro leads behind the name of a struct nova_ifreq. *)
Example ifr_members :
  ((λ m : string * list string, member_of struct_nova_ifreq m.2) <$> ifr_macros) =
    (λ t, Some (t, 16%nat)) <$>
      [struct_nova_sockaddr; struct_nova_sockaddr; struct_nova_sockaddr; struct_nova_sockaddr;
       short_t; int_t; int_t; TPtr].
Proof. by vm_compute. Qed.

(** No enumerator is declared twice; interface flags and window states are single
    bits, so that sets of them are told apart. *)
Lemma header_enums_sound :
  Forall sound_enum header_enums ∧ NoDup constants.*1 ∧
  flag_values enum_nova_iff ∧ flag_values enum_nova_window_state.
Proof.
  split_and!; unfold sound_enum, flag_values; apply (bool_decide_unpack _); by vm_compute.
Qed.
