(* ===== verification/Prototypes.v ===== *)
(** * The functions the headers declare

    Every prototype of the headers of src/nova-os, parameter by parameter, over
    the types of Headers.v: what a call passes and what it gets back. *)

From S2P Require Import Prelude CType Headers.

Record prototype := Prototype {
  params : list (string * ctype);
  result : option ctype;
}.

Definition uintptr_t : ctype := TUInt 8.

(** A function with result [t], and a void function. *)
Abbreviation returns_ t ps := (Prototype ps (Some t)).
Abbreviation no_result ps := (Prototype ps None).

(** ** kernel/core/include/nova_core.h *)

Definition sched_prototypes : list (string * prototype) := [
  ("nova_sched_init", no_result [("scheduler", TPtr)]);
  ("nova_sched_add", returns_ int_t [("scheduler", TPtr); ("priority", uint8_t); ("id", TPtr)]);
  ("nova_sched_set_state",
    returns_ int_t [("scheduler", TPtr); ("id", uint32_t); ("state", enum_nova_thread_state)]);
  ("nova_sched_pick_next", returns_ int32_t [("scheduler", TPtr)]);
  ("nova_sched_account", no_result [("scheduler", TPtr); ("id", uint32_t)])].

Definition ipc_prototypes : list (string * prototype) := [
  ("nova_ipc_endpoint_init", no_result [("endpoint", TPtr)]);
  ("nova_ipc_send",
    returns_ int_t [("endpoint", TPtr); ("sender", uint32_t); ("payload", TPtr); ("length", size_t)]);
  ("nova_ipc_receive", returns_ int_t [("endpoint", TPtr); ("message", TPtr)])].

Definition vm_prototypes : list (string * prototype) := [
  ("nova_vm_init", no_result [("allocator", TPtr)]);
  ("nova_vm_alloc_page", returns_ int_t [("allocator", TPtr); ("physical_page", TPtr)]);
  ("nova_vm_free_page", returns_ int_t [("allocator", TPtr); ("physical_page", uint32_t)]);
  ("nova_vm_address_space_init", no_result [("space", TPtr)]);
  ("nova_vm_map",
    returns_ int_t [("space", TPtr); ("virtual_page", uint64_t); ("physical_page", uint32_t);
      ("writable", uint8_t)]);
  ("nova_vm_translate",
    returns_ int_t [("space", TPtr); ("virtual_page", uint64_t); ("physical_page", TPtr);
      ("writable", TPtr)])].

(** ** kernel/novakit/include/novakit.h *)

Definition novakit_prototypes : list (string * prototype) := [
  ("novakit_registry_init", no_result [("registry", TPtr)]);
  ("novakit_register_device",
    returns_ int_t [("registry", TPtr); ("vendor_id", uint16_t); ("device_id", uint16_t);
      ("class", enum_novakit_device_class_t); ("name", TPtr); ("device_id_out", TPtr)]);
  ("novakit_set_state",
    returns_ int_t [("registry", TPtr); ("device_id", uint32_t);
      ("state", enum_novakit_device_state_t)]);
  ("novakit_find", returns_ TPtr [("registry", TPtr); ("device_id", uint32_t)])].

(** ** drivers/linuxkpi/include/nova_linuxkpi.h *)

Definition linuxkpi_prototypes : list (string * prototype) := [
  ("nova_linuxkpi_register", returns_ int_t [("module", TPtr)]);
  ("nova_linuxkpi_module_count", returns_ size_t [])].

(** ** kernel/network/network_stack.h *)

Definition stack_prototypes : list (string * prototype) := [
  ("nova_network_init", returns_ int_t []);
  ("nova_network_shutdown", returns_ int_t [])].

Definition socket_prototypes : list (string * prototype) := [
  ("nova_socket", returns_ int_t [("domain", int_t); ("type", int_t); ("protocol", int_t)]);
  ("nova_bind", returns_ int_t [("sockfd", int_t); ("addr", TPtr); ("addrlen", socklen_t)]);
  ("nova_connect", returns_ int_t [("sockfd", int_t); ("addr", TPtr); ("addrlen", socklen_t)]);
  ("nova_listen", returns_ int_t [("sockfd", int_t); ("backlog", int_t)]);
  ("nova_accept", returns_ int_t [("sockfd", int_t); ("addr", TPtr); ("addrlen", TPtr)]);
  ("nova_send",
    returns_ ssize_t [("sockfd", int_t); ("buf", TPtr); ("len", size_t); ("flags", int_t)]);
  ("nova_recv",
    returns_ ssize_t [("sockfd", int_t); ("buf", TPtr); ("len", size_t); ("flags", int_t)]);
  ("nova_shutdown", returns_ int_t [("sockfd", int_t); ("how", int_t)]);
  ("nova_getsockopt",
    returns_ int_t [("sockfd", int_t); ("level", int_t); ("optname", int_t); ("optval", TPtr);
      ("optlen", TPtr)]);
  ("nova_setsockopt",
    returns_ int_t [("sockfd", int_t); ("level", int_t); ("optname", int_t); ("optval", TPtr);
      ("optlen", socklen_t)]);
  ("nova_close", returns_ int_t [("sockfd", int_t)])].

Definition netdev_prototypes : list (string * prototype) := [
  ("nova_netdev_register", returns_ int_t [("dev", TPtr)]);
  ("nova_netdev_unregister", returns_ int_t [("dev", TPtr)]);
  ("nova_netdev_find", returns_ TPtr [("name", TPtr)]);
  ("nova_loopback_init", returns_ int_t []);
  ("nova_nic_stub_init", returns_ int_t [])].

Definition skb_prototypes : list (string * prototype) := [
  ("nova_alloc_skb", returns_ TPtr [("size", size_t)]);
  ("nova_free_skb", no_result [("skb", TPtr)]);
  ("nova_netif_receive_skb", returns_ int_t [("skb", TPtr)]);
  ("nova_dev_queue_xmit", returns_ int_t [("skb", TPtr)])].

Definition byte_order_prototypes : list (string * prototype) := [
  ("nova_htonl", returns_ uint32_t [("hostlong", uint32_t)]);
  ("nova_htons", returns_ uint16_t [("hostshort", uint16_t)]);
  ("nova_ntohl", returns_ uint32_t [("netlong", uint32_t)]);
  ("nova_ntohs", returns_ uint16_t [("netshort", uint16_t)])].

(** ** kernel/io/io_stack.h *)

Definition io_registry_prototypes : list (string * prototype) := [
  ("nova_io_init", returns_ int_t []);
  ("nova_io_shutdown", returns_ int_t []);
  ("nova_device_register", returns_ int_t [("dev", TPtr)]);
  ("nova_device_unregister", returns_ int_t [("dev", TPtr)]);
  ("nova_device_find", returns_ TPtr [("path", TPtr)]);
  ("nova_device_get_by_major_minor", returns_ TPtr [("major", uint32_t); ("minor", uint32_t)])].

Definition io_request_prototypes : list (string * prototype) := [
  ("nova_io_request_alloc", returns_ TPtr []);
  ("nova_io_request_free", no_result [("req", TPtr)]);
  ("nova_io_submit", returns_ int_t [("req", TPtr)]);
  ("nova_io_wait", returns_ int_t [("req", TPtr); ("timeout_ms", uint32_t)]);
  ("nova_io_cancel", returns_ int_t [("req", TPtr)])].

Definition io_port_prototypes : list (string * prototype) := [
  ("nova_io_completion_port_create", returns_ TPtr [("max_events", uint32_t)]);
  ("nova_io_completion_port_destroy", returns_ int_t [("port", TPtr)]);
  ("nova_io_completion_port_associate",
    returns_ int_t [("port", TPtr); ("dev", TPtr); ("key", uintptr_t)]);
  ("nova_io_completion_port_get_event",
    returns_ int_t [("port", TPtr); ("req", TPtr); ("timeout_ms", uint32_t)])].

Definition block_prototypes : list (string * prototype) := [
  ("nova_block_read_sectors",
    returns_ int_t [("dev", TPtr); ("sector", uint64_t); ("buf", TPtr); ("count", uint32_t)]);
  ("nova_block_write_sectors",
    returns_ int_t [("dev", TPtr); ("sector", uint64_t); ("buf", TPtr); ("count", uint32_t)])].

(** ** userland/uimode/desktop/desktop.h *)

Definition desktop_prototypes : list (string * prototype) := [
  ("nova_uimode_init", returns_ int_t []);
  ("nova_uimode_shutdown", returns_ int_t []);
  ("nova_desktop_create", returns_ int_t [("desk", TPtr); ("config", TPtr)]);
  ("nova_desktop_destroy", returns_ int_t [("desk", TPtr)]);
  ("nova_compositor_create", returns_ int_t [("comp", TPtr); ("config", TPtr)]);
  ("nova_compositor_destroy", returns_ int_t [("comp", TPtr)])].

Definition window_prototypes : list (string * prototype) := [
  ("nova_window_create", returns_ int_t [("win", TPtr); ("props", TPtr)]);
  ("nova_window_destroy", returns_ int_t [("win", TPtr)]);
  ("nova_window_find", returns_ TPtr [("id", uint32_t)]);
  ("nova_window_bring_to_front", returns_ int_t [("win", TPtr)]);
  ("nova_window_send_to_back", returns_ int_t [("win", TPtr)])].

Definition event_prototypes : list (string * prototype) := [
  ("nova_poll_events", returns_ int_t [("event", TPtr); ("timeout_ms", int_t)]);
  ("nova_dispatch_event", returns_ int_t [("event", TPtr)]);
  ("nova_set_cursor", returns_ int_t [("cursor", enum_nova_cursor_type)]);
  ("nova_show_cursor", returns_ int_t []);
  ("nova_hide_cursor", returns_ int_t [])].

Definition graphics_prototypes : list (string * prototype) := [
  ("nova_draw_rect", returns_ int_t [("rect", TPtr); ("color", TPtr)]);
  ("nova_draw_line",
    returns_ int_t [("x0", int32_t); ("y0", int32_t); ("x1", int32_t); ("y1", int32_t);
      ("color", TPtr)]);
  ("nova_draw_text",
    returns_ int_t [("x", int32_t); ("y", int32_t); ("text", TPtr); ("color", TPtr)]);
  ("nova_blit_surface",
    returns_ int_t [("src", TPtr); ("src_rect", TPtr); ("dst", TPtr); ("dst_rect", TPtr)])].

(** ** userland/uimode/desktop/ui_boot_path.h *)

Definition ui_boot_prototypes : list (string * prototype) := [
  ("nova_ui_boot_prepare", returns_ int_t [("ctx", TPtr); ("plan", TPtr)]);
  ("nova_ui_boot_from_serial_shell", returns_ int_t [("ctx", TPtr); ("command", TPtr)]);
  ("nova_ui_boot_desktop", returns_ int_t [("ctx", TPtr)]);
  ("nova_ui_launch_compat_shell", returns_ int_t [("ctx", TPtr)]);
  ("nova_ui_launch_linux_app", returns_ int_t [("ctx", TPtr); ("path", TPtr); ("args", TPtr)]);
  ("nova_ui_launch_windows_app", returns_ int_t [("ctx", TPtr); ("path", TPtr); ("args", TPtr)])].

(** ** All of them *)

Definition prototypes : list (string * prototype) :=
  sched_prototypes ++ ipc_prototypes ++ vm_prototypes ++ novakit_prototypes ++
  linuxkpi_prototypes ++ stack_prototypes ++ socket_prototypes ++ netdev_prototypes ++
  skb_prototypes ++ byte_order_prototypes ++ io_registry_prototypes ++ io_request_prototypes ++
  io_port_prototypes ++ block_prototypes ++ desktop_prototypes ++ window_prototypes ++
  event_prototypes ++ graphics_prototypes ++ ui_boot_prototypes.

Definition prototype_of (f : string) : option prototype :=
  (λ m : nat * (string * prototype), m.2.2) <$>
    list_find (λ m : string * prototype, m.1 = f) prototypes.

(** A function is declared once, and what it takes and returns fits a register:
    integers and pointers, at most six of them. *)
Definition scalar (t : ctype) : bool :=
  match t with TArray _ _ | TStruct _ | TUnion _ => false | t => sane t end.

Lemma prototypes_sane :
  NoDup prototypes.*1 ∧
  Forall (λ p, length (params p) ≤ 6 ∧ NoDup (params p).*1 ∧
    Forall (λ t, scalar t = true) (params p).*2 ∧ from_option scalar true (result p) = true)
    prototypes.*2.
Proof. split; apply (bool_decide_unpack _); by vm_compute. Qed.

(** ** Calls

    [passes f args]: the arguments have the types of the parameters of [f]; an
    argument that the function ignores may be left out.  [gives f v]: [v] is a
    value of the result type. *)
Definition passes (f : string) (args : list (option cval)) : Prop :=
  ∃ p, prototype_of f = Some p ∧
    Forall2 (λ m a, from_option (has_type m.2) True a) (params p) args.

Definition gives (f : string) (v : option cval) : Prop :=
  ∃ p, prototype_of f = Some p ∧
    match result p, v with
    | Some t, Some v => has_type t v
    | None, None => True
    | _, _ => False
    end.

Lemma gives_value f p t v :
  prototype_of f = Some p → result p = Some t → has_type t v → gives f (Some v).
Proof. intros Hp Ht Hv. exists p. by rewrite Ht. Qed.

Lemma gives_nothing f p : prototype_of f = Some p → result p = None → gives f None.
Proof. intros Hp Ht. exists p. by rewrite Ht. Qed.

(** The types of the arguments, one by one. *)
Lemma passes_inv f p args :
  prototype_of f = Some p → passes f args →
  Forall2 (λ t a, from_option (has_type t) True a) (params p).*2 args.
Proof. intros Hp (p' & Hp' & H). simplify_eq. by apply Forall2_fmap_l. Qed.
