(* ===== verification/SchedMemory.v ===== *)
(** * The scheduler on its bytes (kernel/core/scheduler.c)

    The five functions of scheduler.c once more, statement by statement on the
    784 bytes of a nova_scheduler_t, with the offsets that nova_core.h gives to
    the members.  They do what the functions of Scheduler.v do on records. *)

From S2P Require Import Prelude Core Bytes CType CMemory CObject Headers Scheduler.

Module SchedMemory.
Import Sched.

(** ** The object *)

Definition state_code (st : nova_thread_state) : Z :=
  match st with
  | NOVA_THREAD_DEAD => 0
  | NOVA_THREAD_RUNNABLE => 1
  | NOVA_THREAD_BLOCKED => 2
  end.

Definition thread_val (t : nova_thread_t) : cval :=
  VStruct [VInt (th_id t); VInt (th_priority t); VInt (th_quanta t); VInt (state_code (th_state t))].
Definition sched_val (s : nova_scheduler_t) : cval :=
  VStruct [VArray (thread_val <$> threads s); VInt (count s); VInt (tick s)].

#[export] Instance sched_table : Table nova_scheduler_t nova_thread_t := {|
  object := struct_nova_scheduler_t;
  element := struct_nova_thread_t;
  slot_count := NOVA_MAX_THREADS;
  slots_name := "threads";
  object_val := sched_val;
  element_val := thread_val;
  slots := threads;
  set_slots := set_threads;
|}.

#[export] Instance sched_table_ok : TableOk nova_scheduler_t nova_thread_t.
Proof. by split. Qed.

Abbreviation T := (object (S:=nova_scheduler_t) (X:=nova_thread_t)).
Abbreviation mem := (M (list Z)).

(** [scheduler->threads[i].x] *)
Abbreviation thread_at i x := (slot (S:=nova_scheduler_t) i [Member x]).

(** ** The functions *)

Definition sched_init_bytes : mem unit :=
  store T [Member "count"] 0;;
  store T [Member "tick"] 0;;
  for_fold NOVA_MAX_THREADS 0 (λ index _,
    store T (thread_at index "state") (state_code NOVA_THREAD_DEAD)) tt.

Definition sched_add_bytes (priority : Z) : mem (nova_result * option Z) :=
  r ← for_loop NOVA_MAX_THREADS 0 (λ index,
    st ← load T (thread_at index "state");
    if decide (st ≠ state_code NOVA_THREAD_DEAD) then mret None
    else
      store T (thread_at index "id") (u32 (u32 (Z.of_nat index) + 1));;
      store T (thread_at index "priority") priority;;
      store T (thread_at index "quanta") 0;;
      store T (thread_at index "state") (state_code NOVA_THREAD_RUNNABLE);;
      c ← load T [Member "count"];
      store T [Member "count"] (u64 (c + 1));;
      id ← load T (thread_at index "id");
      mret (Some (NOVA_OK, Some id)));
  mret (default (NOVA_FULL, None) r).

Definition sched_set_state_bytes (id : Z) (state : nova_thread_state) : mem nova_result :=
  if decide (id = 0 ∨ Z.of_nat NOVA_MAX_THREADS < id)%Z then mret NOVA_NOT_FOUND
  else
    let index := Z.to_nat (id - 1) in
    st ← load T (thread_at index "state");
    if decide (st = state_code NOVA_THREAD_DEAD) then mret NOVA_NOT_FOUND
    else store T (thread_at index "state") (state_code state);; mret NOVA_OK.

(** The test of the selection, [&&] and [||] from left to right. *)
Definition better_bytes (candidate current : nat) : mem bool :=
  p ← load T (thread_at candidate "priority");
  q ← load T (thread_at current "priority");
  if decide (q < p)%Z then mret true
  else
    p ← load T (thread_at candidate "priority");
    q ← load T (thread_at current "priority");
    if decide (p = q) then
      a ← load T (thread_at candidate "quanta");
      b ← load T (thread_at current "quanta");
      mret (bool_decide (a < b)%Z)
    else mret false.

Definition sched_pick_next_bytes : mem Z :=
  selected ← for_fold NOVA_MAX_THREADS 0 (λ index selected,
    st ← load T (thread_at index "state");
    if decide (st ≠ state_code NOVA_THREAD_RUNNABLE) then mret selected
    else if decide (selected < 0)%Z then mret (i32 (Z.of_nat index))
    else
      b ← better_bytes index (Z.to_nat selected);
      mret (if (b : bool) then i32 (Z.of_nat index) else selected)) (-1)%Z;
  if decide (selected < 0)%Z then mret (-1)%Z
  else id ← load T (thread_at (Z.to_nat selected) "id"); mret (i32 id).

Definition sched_account_bytes (id : Z) : mem unit :=
  if decide (id = 0 ∨ Z.of_nat NOVA_MAX_THREADS < id)%Z then mret tt
  else
    let index := Z.to_nat (id - 1) in
    st ← load T (thread_at index "state");
    if decide (st ≠ state_code NOVA_THREAD_DEAD) then
      q ← load T (thread_at index "quanta");
      store T (thread_at index "quanta") (u64 (q + 1));;
      t ← load T [Member "tick"];
      store T [Member "tick"] (u64 (t + 1))
    else mret tt.

(** ** Its lvalues *)

Lemma count_locate : locate T [Member "count"] = Some (size_t, 768).
Proof. by vm_compute. Qed.
Lemma tick_locate : locate T [Member "tick"] = Some (uint64_t, 776).
Proof. by vm_compute. Qed.

Lemma state_code_decide st st' (A : Type) (x y : A) :
  (if decide (state_code st = state_code st') then x else y) = if decide (st = st') then x else y.
Proof. by destruct st, st'. Qed.
Lemma state_code_decide_not st st' (A : Type) (x y : A) :
  (if decide (state_code st ≠ state_code st') then x else y) = if decide (st ≠ st') then x else y.
Proof. by destruct st, st'. Qed.

Lemma state_code_typed st : has_type enum_nova_thread_state (VInt (state_code st)).
Proof. by destruct st; vm_compute. Qed.
#[local] Hint Resolve state_code_typed : typed.

(** ** Simulation, call by call *)

Abbreviation simulates := (sim T object_val).

Lemma put_thread_slot i t s : full s → i < 32 → put_thread i t s = Done (tt, put_slot i t s).
Proof. intros Hf Hi. apply put_thread_run. change (length (threads s) = 32) in Hf. lia. Qed.

Lemma add_sim p s :
  in_width 8 p → full s →
  simulates (object_val s) s (sched_add_bytes p) (nova_sched_add p) (λ a b s', a = b ∧ full s').
Proof.
  intros Hp Hf. unfold sched_add_bytes, nova_sched_add.
  eapply (sim_seq _ _ full); [|intros a s' Hf'; by apply sim_ret].
  eapply (sim_for_loop _ _ full); [|done]. clear s Hf.
  intros i s [_ Hi] Hf. change (i < slot_count) in Hi. destruct (full_lookup s i Hf Hi) as [t Ht].
  eapply sim_high; [by apply get_thread_run|]. load_slot.
  rewrite state_code_decide_not. case_decide; [by apply sim_ret|].
  set (new := Thread (u32 (u32 (Z.of_nat i) + 1)) p 0 NOVA_THREAD_RUNNABLE).
  eapply sim_high; [by apply put_thread_slot|]. apply sim_modify.
  eapply sim_high; [apply get_thread_run; exact (put_lookup i new s Hf Hi)|].
  store_slot (Thread (th_id new) (th_priority t) (th_quanta t) (th_state t)).
  store_slot (Thread (th_id new) p (th_quanta t) (th_state t)).
  store_slot (Thread (th_id new) p 0 (th_state t)).
  store_slot new.
  eapply sim_load; [apply object_sane|apply count_locate|done|].
  set (s2 := set_count (u64 (count s + 1)) (put_slot i new s)).
  eapply (sim_store _ object_sane _ _ _ _ _ _ _ (object_val s2));
    [apply count_locate|done|apply u64_width|done|].
  eapply (sim_load_slot s2); [done|exact (put_lookup i new s Hf Hi)|done|done|].
  apply sim_ret. split; [done|exact (full_put i new s Hf)].
Qed.

(** An id that passes the test names a slot. *)
Lemma id_slot id : in_width 32 id → ¬ (id = 0 ∨ Z.of_nat NOVA_MAX_THREADS < id)%Z →
  Z.to_nat (id - 1) < slot_count.
Proof. unfold in_width. change slot_count with 32. change (Z.of_nat NOVA_MAX_THREADS) with 32%Z. lia. Qed.

Lemma set_state_sim id st s :
  in_width 32 id → full s →
  simulates (object_val s) s (sched_set_state_bytes id st) (nova_sched_set_state id st)
    (λ a b s', a = b ∧ full s').
Proof.
  intros Hid Hf. unfold sched_set_state_bytes, nova_sched_set_state.
  case_decide as Hbad; [by apply sim_ret|]. cbv zeta. pose proof (id_slot id Hid Hbad) as Hi.
  set (i := Z.to_nat (id - 1)) in *. destruct (full_lookup s i Hf Hi) as [t Ht].
  eapply sim_high; [by apply get_thread_run|]. load_slot.
  rewrite state_code_decide. case_decide; [by apply sim_ret|].
  eapply sim_high; [by apply put_thread_slot|].
  store_slot (set_th_state st t). apply sim_ret. split; [done|by apply full_put].
Qed.

Lemma account_sim id s :
  in_width 32 id → full s →
  simulates (object_val s) s (sched_account_bytes id) (nova_sched_account id)
    (λ a b s', a = b ∧ full s').
Proof.
  intros Hid Hf. unfold sched_account_bytes, nova_sched_account.
  case_decide as Hbad; [by apply sim_ret|]. cbv zeta. pose proof (id_slot id Hid Hbad) as Hi.
  set (i := Z.to_nat (id - 1)) in *. destruct (full_lookup s i Hf Hi) as [t Ht].
  eapply sim_high; [by apply get_thread_run|]. load_slot.
  rewrite state_code_decide_not. destruct (decide (th_state t ≠ NOVA_THREAD_DEAD)) as [Hst|Hst].
  2: { rewrite bool_decide_eq_false_2 by exact Hst. by apply sim_ret. }
  rewrite bool_decide_eq_true_2 by done. cbn [when].
  set (t' := set_th_quanta (u64 (th_quanta t + 1)) t). set (s1 := put_slot i t' s).
  eapply sim_high; [by apply put_thread_slot|]. load_slot. store_slot t'. fold s1.
  eapply sim_load; [apply object_sane|apply tick_locate|done|].
  eapply (sim_store_last _ object_sane _ _ _ _ _ _ _ (object_val (set_tick (u64 (tick s1 + 1)) s1)));
    [apply tick_locate|done|apply u64_width|done|].
  apply (sim_modify_last (reads T) object_val s1 (λ s, set_tick (u64 (tick s + 1)) s)).
  split; [done|exact (full_put i t' s Hf)].
Qed.

(** The selection is a slot, or negative. *)
Definition selection (r : Z) (s : nova_scheduler_t) : Prop := full s ∧ (r < 32)%Z.

Lemma better_run s bs i j t u :
  reads T bs (object_val s) → i < slot_count → j < slot_count →
  slots s !! i = Some t → slots s !! j = Some u →
  better_bytes i j bs = Done (better t u, bs).
Proof.
  intros Hv Hi Hj Ht Hu. unfold better_bytes, better.
  pose proof (λ p u o z, load_slot_run s bs i t p u o z Hv Hi Ht) as Hlt.
  pose proof (λ p u' o z, load_slot_run s bs j u p u' o z Hv Hj Hu) as Hlu.
  bind (Hlt [Member "priority"] uint8_t 4 _ eq_refl eq_refl). bind (Hlu [Member "priority"] uint8_t 4 _ eq_refl eq_refl).
  case_decide as H1; [rewrite bool_decide_eq_true_2 by tauto; done|].
  bind (Hlt [Member "priority"] uint8_t 4 _ eq_refl eq_refl). bind (Hlu [Member "priority"] uint8_t 4 _ eq_refl eq_refl).
  case_decide as H2; [|rewrite bool_decide_eq_false_2 by (intros [?|[? _]]; congruence); done].
  bind (Hlt [Member "quanta"] uint64_t 8 _ eq_refl eq_refl). bind (Hlu [Member "quanta"] uint64_t 8 _ eq_refl eq_refl).
  run.
  do 2 f_equal. apply bool_decide_ext. split; [by right|]. by intros [?|[_ ?]].
Qed.

Lemma pick_next_sim s :
  full s →
  simulates (object_val s) s sched_pick_next_bytes nova_sched_pick_next (λ a b s', a = b ∧ full s').
Proof.
  intros Hf. unfold sched_pick_next_bytes, nova_sched_pick_next.
  eapply (sim_bind _ _ _ _ _ _ _ _ (λ a b s', a = b ∧ selection b s')).
  - eapply (sim_for_fold (reads T) object_val selection); [|by split]. clear s Hf.
    intros i r s [_ Hi] [Hf Hr]. change (i < slot_count) in Hi. destruct (full_lookup s i Hf Hi) as [t Ht].
    eapply sim_high; [by apply get_thread_run|]. load_slot.
    rewrite state_code_decide_not. case_decide; [by apply sim_ret|].
    assert (i32 (Z.of_nat i) < 32)%Z as Hsel by (rewrite i32_index by done; change slot_count with 32 in Hi; lia).
    case_decide; [by apply sim_ret|].
    assert (Z.to_nat r < slot_count) as Hr' by (change slot_count with 32; lia).
    destruct (full_lookup s _ Hf Hr') as [u Hu].
    eapply sim_high; [by apply get_thread_run|].
    eapply sim_low; [intros bs Hv; by eapply (better_run s bs i _ t u)|].
    apply sim_ret. split; [done|]. split; [done|]. by destruct (better t u).
  - intros a r s' [-> [Hf' Hr]]. case_decide; [by apply sim_ret|].
    assert (Z.to_nat r < slot_count) as Hr' by (change slot_count with 32; lia).
    destruct (full_lookup s' _ Hf' Hr') as [t Ht].
    eapply sim_high; [by apply get_thread_run|]. load_slot. by apply sim_ret.
Qed.

(** ** Initialisation of any memory *)

(** A scheduler object whose first [n] threads are dead. *)
Definition cleared (n : nat) (bs : list Z) : Prop :=
  ∃ l, reads T bs (VStruct [VArray l; VInt 0; VInt 0]) ∧
    ∀ j, j < n → ∃ a b c, l !! j = Some (VStruct [VInt a; VInt b; VInt c; VInt 0]).

Lemma thread_shape w :
  has_type struct_nova_thread_t w → ∃ a b c d, w = VStruct [VInt a; VInt b; VInt c; VInt d].
Proof.
  destruct w as [| | | |[|[a| | | | |] [|[b| | | | |] [|[c| | | | |] [|[d| | | | |] [|]]]]]|]; cbn;
    try tauto. intros _. by eexists _, _, _, _.
Qed.

Lemma sched_shape v :
  has_type T v → ∃ l c k, v = VStruct [VArray l; VInt c; VInt k] ∧ length l = 32 ∧
    Forall (has_type struct_nova_thread_t) l.
Proof.
  destruct v as [| | | |[|[| | |l| |] [|[c| | | | |] [|[k| | | | |] [|]]]]|]; cbn; try tauto.
  intros ([Hl Ht] & _ & _ & _). by exists l, c, k.
Qed.

Lemma clear_thread n bs :
  n < slot_count → cleared n bs →
  ∃ bs', store T (thread_at n "state") (state_code NOVA_THREAD_DEAD) bs = Done (tt, bs') ∧
    cleared (S n) bs'.
Proof.
  intros Hn (l & Hr & Hj). pose proof (reads_has_type T _ _ object_sane Hr) as Ht.
  destruct (sched_shape _ Ht) as (l' & c & k & [= <- <- <-] & Hl & Hall).
  destruct (lookup_lt_is_Some_2 l n) as [w Hw]; [by rewrite Hl|].
  destruct (thread_shape w) as (x & y & z & d & ->); [by rewrite Forall_lookup in Hall; eapply Hall|].
  destruct (slot_locate n [Member "state"] enum_nova_thread_state 16 Hn eq_refl) as [o Ho].
  set (w' := VStruct [VInt x; VInt y; VInt z; VInt 0]).
  destruct (object_store_run T object_sane _ _ _ _ _ (state_code NOVA_THREAD_DEAD)
    (VStruct [VArray (<[n := w']> l); VInt 0; VInt 0]) Hr Ho) as (bs' & Hs & Hr').
  - done.
  - apply state_code_typed.
  - unfold slot. rewrite (assign_cons _ _ _ _ _ _ _ _ slots_part). cbn [parts mbind option_bind lookup list_lookup].
    rewrite (assign_cons _ _ _ _ _ _ _ _ (part_element _ _ _ Hn)). cbn [parts]. by rewrite Hw.
  - exists bs'. split; [done|]. exists (<[n := w']> l). split; [done|].
    intros j Hlt. destruct (decide (n = j)) as [<-|Hne].
    + rewrite list_lookup_insert_eq by (by rewrite Hl). by eexists _, _, _.
    + rewrite list_lookup_insert_ne by done. apply Hj. lia.
Qed.

Lemma cleared_sched bs :
  cleared 32 bs → ∃ s, reads T bs (sched_val s) ∧ sched_wf s ∧ Forall dead (threads s) ∧
    count s = 0%Z ∧ tick s = 0%Z.
Proof.
  intros (l & Hr & Hj). pose proof (reads_has_type T _ _ object_sane Hr) as Ht.
  destruct (sched_shape _ Ht) as (l' & c & k & [= <- <- <-] & Hl & Hall).
  assert (∃ ts, l = thread_val <$> ts ∧ Forall dead ts) as (ts & -> & Hd).
  { rewrite <-Hl in Hj. clear -Hj. induction l as [|w l IH]; [by exists []|].
    destruct IH as (ts & -> & Hd); [intros j Hlt; apply (Hj (S j)); cbn; lia|].
    destruct (Hj 0) as (a & b & c & [= ->]); [cbn; lia|].
    exists (Thread a b c NOVA_THREAD_DEAD :: ts). split; [done|by constructor]. }
  exists (Scheduler ts 0 0). rewrite length_fmap in Hl. split; [done|].
  split; [|by split_and!]. split; [split; [done| |done|done]|].
  - rewrite Forall_fmap in Hall. eapply Forall_impl; [exact Hall|].
    by intros t (? & ? & ? & _).
  - intros i t Hi Hn. rewrite Forall_lookup in Hd. by destruct Hn; eapply Hd.
Qed.

Lemma sched_init_memory bs :
  length bs = 784 → bytes_ok bs →
  ∃ bs', sched_init_bytes bs = Done (tt, bs') ∧ cleared 32 bs'.
Proof.
  intros Hl Hb. destruct (reads_total struct_nova_scheduler_t bs) as [v Hv]; [by vm_compute|by vm_compute|done|done|].
  change (reads T bs v) in Hv.
  destruct (sched_shape v (reads_has_type T _ _ object_sane Hv)) as (l & c & k & -> & _ & _).
  unfold sched_init_bytes.
  destruct (object_store_run T object_sane _ _ _ _ _ 0 (VStruct [VArray l; VInt 0; VInt k]) Hv count_locate)
    as (bs1 & Hs1 & Hr1); [done..|]. bind Hs1.
  destruct (object_store_run T object_sane _ _ _ _ _ 0 (VStruct [VArray l; VInt 0; VInt 0]) Hr1 tick_locate)
    as (bs2 & Hs2 & Hr2); [done..|]. bind Hs2.
  destruct (for_fold_inv (λ i (_ : unit), cleared i)
    (λ index _, store T (thread_at index "state") (state_code NOVA_THREAD_DEAD))
    32 0 tt bs2) as ([] & bs' & Hr & Hc).
  - exists l. split; [done|lia].
  - intros i [] bs3 Hi Hc. destruct (clear_thread i bs3) as (bs4 & Hs & Hc'); [apply Hi|done|].
    by exists tt, bs4.
  - by exists bs'.
Qed.

(** ** All calls *)

(** What a call returns: its result code and the number it writes or returns. *)
Abbreviation observation := (option nova_result * option Z)%type.

Definition call (op : sched_op) : M nova_scheduler_t observation :=
  match op with
  | OpAdd priority => r ← nova_sched_add priority; mret (Some r.1, r.2)
  | OpSetState id state => r ← nova_sched_set_state id state; mret (Some r, None)
  | OpPick => r ← nova_sched_pick_next; mret (None, Some r)
  | OpAccount id => nova_sched_account id;; mret (None, None)
  end.

Definition call_bytes (op : sched_op) : mem observation :=
  match op with
  | OpAdd priority => r ← sched_add_bytes priority; mret (Some r.1, r.2)
  | OpSetState id state => r ← sched_set_state_bytes id state; mret (Some r, None)
  | OpPick => r ← sched_pick_next_bytes; mret (None, Some r)
  | OpAccount id => sched_account_bytes id;; mret (None, None)
  end.

Lemma sched_call_sim op s :
  op_typed op → full s →
  simulates (object_val s) s (call_bytes op) (call op) (λ a b s', a = b ∧ full s').
Proof.
  intros Hop Hf. destruct op as [p|id st| |id]; cbn [call_bytes call];
    (eapply (sim_seq _ _ full); [|intros a s' Hf'; by apply sim_ret]).
  - by apply add_sim.
  - by apply set_state_sim.
  - by apply pick_next_sim.
  - by apply account_sim.
Qed.

Lemma sched_call_wf op s :
  sched_wf s → op_typed op → ∃ o s', call op s = Done (o, s') ∧ sched_wf s'.
Proof.
  intros Hwf Hop. destruct (exec_op_wf op s Hwf Hop) as (s' & Hr & Hwf').
  destruct op; cbn [exec_op call] in *;
    try (apply bind_Done_inv in Hr as (r & s1 & Hr & [= ->])); bind Hr; by eexists _, s'.
Qed.

(** * Properties *)

(** C17. The scheduler works on any memory.  Whatever the 784 bytes of a
    nova_scheduler_t hold, nova_sched_init makes them an empty table; from then
    on every sequence of calls with arguments of their C types, executed load by
    load and store by store at the offsets of the header, stays inside the
    object, returns exactly what the functions on records return, and leaves the
    bytes of the record they end with: 32 slots of machine-width fields in which
    every live slot i carries the id i + 1. *)
Theorem nova_sched_on_bytes (bs : list Z) (ops : list sched_op) :
  length bs = size struct_nova_scheduler_t → bytes_ok bs → Forall op_typed ops →
  ∃ bs1 s1 os bs2 s2,
    sched_init_bytes bs = Done (tt, bs1) ∧ reads struct_nova_scheduler_t bs1 (sched_val s1) ∧
    Forall dead (threads s1) ∧ count s1 = 0%Z ∧ tick s1 = 0%Z ∧
    exec_trace call_bytes ops bs1 = Done (os, bs2) ∧ exec_trace call ops s1 = Done (os, s2) ∧
    reads struct_nova_scheduler_t bs2 (sched_val s2) ∧ sched_wf s2.
Proof.
  intros Hl Hb Hops. destruct (sched_init_memory bs) as (bs1 & Hi & Hc); [by rewrite Hl; vm_compute|done|].
  destruct (cleared_sched bs1 Hc) as (s1 & Hr & Hwf & Hd & Hcount & Htick).
  destruct (trace_on_bytes (reads T) sched_val call_bytes call op_typed sched_wf) with ops bs1 s1
    as (os & bs2 & s2 & Hlow & Hhigh & Hr2 & Hwf2); [| |done..|by exists bs1, s1, os, bs2, s2].
  - intros op s Hop Hs. eapply sim_weaken; [apply sched_call_sim; [done|apply wf_len, Hs]|].
    by intros a b s' [? _].
  - intros op s Hop Hs. by apply sched_call_wf.
Qed.

(** Memory that was never cleared: every byte is 165. *)
Definition dirty : list Z := replicate 784 165%Z.

Lemma nova_sched_on_bytes_witness :
  let ops := [OpAdd 10; OpAdd 50; OpPick; OpAccount 2; OpSetState 2 NOVA_THREAD_BLOCKED; OpPick] in
  ∃ bs1 s1 os bs2 s2,
    sched_init_bytes dirty = Done (tt, bs1) ∧ reads struct_nova_scheduler_t bs1 (sched_val s1) ∧
    Forall dead (threads s1) ∧ count s1 = 0%Z ∧ tick s1 = 0%Z ∧
    exec_trace call_bytes ops bs1 = Done (os, bs2) ∧ exec_trace call ops s1 = Done (os, s2) ∧
    reads struct_nova_scheduler_t bs2 (sched_val s2) ∧ sched_wf s2.
Proof.
  apply (nova_sched_on_bytes dirty); [reflexivity| |by repeat constructor].
  by apply Forall_replicate.
Defined.

(** What those calls return, computed on the bytes. *)
Lemma dirty_results :
  result_of ((sched_init_bytes;;
    exec_trace call_bytes [OpAdd 10; OpAdd 50; OpPick; OpAccount 2;
      OpSetState 2 NOVA_THREAD_BLOCKED; OpPick]) dirty) =
  Some [(Some NOVA_OK, Some 1); (Some NOVA_OK, Some 2); (None, Some 2); (None, None);
    (Some NOVA_OK, None); (None, Some 1)]%Z.
Proof. vm_compute. reflexivity. Qed.
End SchedMemory.
