(* ===== verification/IpcMemory.v ===== *)
(** * Message endpoints on their bytes (kernel/core/ipc.c)

    The three functions of ipc.c once more, statement by statement on the 1176
    bytes of a nova_ipc_endpoint_t, with memcpy as a store of bytes and the copy
    of a message as a load of its 72 bytes. *)

From S2P Require Import Prelude Core Bytes CType CMemory CObject Headers Ipc.

Module IpcMemory.
Import Ipc.

Definition message_val (m : nova_ipc_message_t) : cval :=
  VStruct [VInt (sender m); VInt (length_ m); VArray (VInt <$> payload m)].
Definition endpoint_val (e : nova_ipc_endpoint_t) : cval :=
  VStruct [VArray (message_val <$> messages e); VInt (head e); VInt (tail e); VInt (count e)].

#[export] Instance endpoint_table : Table nova_ipc_endpoint_t nova_ipc_message_t := {|
  object := struct_nova_ipc_endpoint_t;
  element := struct_nova_ipc_message_t;
  slot_count := NOVA_IPC_QUEUE_LENGTH;
  slots_name := "messages";
  object_val := endpoint_val;
  element_val := message_val;
  slots := messages;
  set_slots := set_messages;
|}.

#[export] Instance endpoint_table_ok : TableOk nova_ipc_endpoint_t nova_ipc_message_t.
Proof. by split. Qed.

Abbreviation T := (object (S:=nova_ipc_endpoint_t) (X:=nova_ipc_message_t)).
Abbreviation mem := (M (list Z)).
Abbreviation message_at i p := (slot (S:=nova_ipc_endpoint_t) (Z.to_nat i) p).

(** ** The functions *)

Definition ipc_endpoint_init_bytes : mem unit :=
  store T [Member "head"] 0;;
  store T [Member "tail"] 0;;
  store T [Member "count"] 0.

Definition ipc_send_bytes (from : Z) (buffer : list Z) (length : Z) : mem nova_result :=
  if decide (Z.of_nat NOVA_IPC_PAYLOAD_SIZE < length)%Z then mret NOVA_ERR
  else
    c ← load T [Member "count"];
    if decide (c = Z.of_nat NOVA_IPC_QUEUE_LENGTH) then mret NOVA_FULL
    else
      message ← load T [Member "tail"];
      store T (message_at message [Member "sender"]) from;;
      store T (message_at message [Member "length"]) (u16 length);;
      ws ← the (if decide (Z.to_nat length ≤ List.length buffer)
                then Some (take (Z.to_nat length) buffer) else None);
      store_bytes T (message_at message [Member "payload"]) ws;;
      t ← load T [Member "tail"];
      store T [Member "tail"] (next_slot t);;
      c ← load T [Member "count"];
      store T [Member "count"] (u64 (c + 1));;
      mret NOVA_OK.

(** The result and, when [*message] is written, its 72 bytes. *)
Definition ipc_receive_bytes : mem (nova_result * option (list Z)) :=
  c ← load T [Member "count"];
  if decide (c = 0)%Z then mret (NOVA_EMPTY, None)
  else
    h ← load T [Member "head"];
    message ← load_bytes T (message_at h []);
    h ← load T [Member "head"];
    store T [Member "head"] (next_slot h);;
    c ← load T [Member "count"];
    store T [Member "count"] (u64 (c - 1));;
    mret (NOVA_OK, Some message).

(** ** Lvalues *)

Lemma ipc_head_locate : locate T [Member "head"] = Some (size_t, 1152).
Proof. by vm_compute. Qed.
Lemma ipc_tail_locate : locate T [Member "tail"] = Some (size_t, 1160).
Proof. by vm_compute. Qed.
Lemma ipc_count_locate : locate T [Member "count"] = Some (size_t, 1168).
Proof. by vm_compute. Qed.

Abbreviation simulates := (sim T object_val).

Lemma next_slot_width i : in_width 64 (next_slot i).
Proof. pose proof (next_slot_range i). unfold in_width. lia. Qed.

(** Loads and stores of the three indices; the latter make the endpoint [e']. *)
Ltac load_index :=
  eapply sim_load;
  [ apply object_sane
  | first [apply ipc_count_locate | apply ipc_tail_locate | apply ipc_head_locate] | done | ].
Ltac store_index e' :=
  eapply (sim_store _ object_sane _ _ _ _ _ _ _ (object_val (S:=nova_ipc_endpoint_t) e'));
  [ first [apply ipc_count_locate | apply ipc_tail_locate | apply ipc_head_locate]
  | done | first [apply u64_width | apply next_slot_width] | done | ].

Lemma send_sim from buffer len e :
  endpoint_wf e → send_args_ok from buffer len →
  simulates (object_val e) e (ipc_send_bytes from buffer len) (nova_ipc_send from buffer len)
    (λ a b _, a = b).
Proof.
  intros Hwf (Hf & Hlen & Hb & Hl). unfold ipc_send_bytes, nova_ipc_send.
  case_decide as Hbig; [by apply sim_ret|]. change (Z.of_nat NOVA_IPC_PAYLOAD_SIZE) with 64%Z in Hbig.
  eapply sim_high; [by rewrite gets_run|]. load_index. case_decide as Hfull; [by apply sim_ret|].
  load_index. set (i := Z.to_nat (tail e)).
  assert (i < slot_count) as Hi.
  { unfold i. rewrite (tail_index e Hwf). by apply Nat.mod_upper_bound. }
  destruct (ipc_wf_slot e i Hwf Hi) as (m & Hm & _ & _ & Hp & _).
  change (messages e !! i = Some m) with (slots e !! i = Some m) in Hm.
  assert (full e) as Hfl by apply Hwf.
  assert (Z.to_nat len ≤ length buffer) as Hn by (unfold in_width in Hlen; lia).
  set (m' := Message from (u16 len) (take (Z.to_nat len) buffer ++ drop (Z.to_nat len) (payload m))).
  eapply sim_high; [exact (the_Some _ _ _ Hm)|].
  eapply sim_high; [apply the_Some, memcpy_Some; [rewrite Hp; sizes; lia|done]|].
  eapply sim_high.
  { apply the_Some, arr_set_Some. by eapply lookup_lt_Some. }
  do 3 apply sim_modify. fold m'.
  store_slot (Message from (length_ m) (payload m)).
  store_slot (Message from (u16 len) (payload m)).
  eapply sim_low; [intros bs _; by rewrite decide_True|].
  eapply (sim_store_slot_prefix _ _ _ _ m'); [done|by apply put_lookup|done|done| | | |].
  { rewrite length_take. unfold NOVA_IPC_PAYLOAD_SIZE. lia. }
  { by apply Forall_take. }
  { rewrite length_take_le by done. done. }
  rewrite put_put. load_index. set (e1 := put_slot i m' e).
  store_index (set_tail (next_slot (tail e)) e1).
  load_index. store_index (set_count (u64 (count e + 1)) (set_tail (next_slot (tail e)) e1)).
  by apply sim_ret.
Qed.

(** The bytes of the copied message, for the message. *)
Definition copied (ws : option (list Z)) (m : option nova_ipc_message_t) : Prop :=
  match ws, m with
  | Some ws, Some m => reads struct_nova_ipc_message_t ws (message_val m)
  | None, None => True
  | _, _ => False
  end.

Lemma receive_sim e :
  endpoint_wf e →
  simulates (object_val e) e ipc_receive_bytes nova_ipc_receive
    (λ a b _, a.1 = b.1 ∧ copied a.2 b.2 ∧ (∀ m, b.2 = Some m → message_typed m)).
Proof.
  intros Hwf. unfold ipc_receive_bytes, nova_ipc_receive.
  eapply sim_high; [by rewrite gets_run|]. load_index. case_decide as Hz; [by apply sim_ret|].
  load_index. set (i := Z.to_nat (head e)).
  assert (i < slot_count) as Hi by (pose proof (wf_head e Hwf); unfold i; change slot_count with 16; lia).
  destruct (ipc_wf_slot e i Hwf Hi) as (m & Hm & Ht).
  eapply sim_high; [exact (the_Some _ _ _ Hm)|]. do 2 apply sim_modify.
  eapply sim_load_element; [done|exact Hm|]. intros ws Hws.
  load_index. store_index (set_head (next_slot (head e)) e).
  load_index. store_index (set_count (u64 (count e - 1)) (set_head (next_slot (head e)) e)).
  apply sim_ret. split_and!; [done|done|]. by intros m' [= <-].
Qed.

(** ** Any memory is an endpoint *)

Lemma message_shape w :
  has_type struct_nova_ipc_message_t w → ∃ m, w = message_val m ∧ message_typed m.
Proof.
  destruct w as [| | | |[|[a| | | | |] [|[b| | | | |] [|w [|]]]]|]; cbn; try tauto.
  intros (Ha & Hb & Hw & _). destruct (byte_array_shape _ w Hw) as (l & -> & Hl & Hbytes).
  by exists (Message a b l).
Qed.

Lemma endpoint_shape v :
  has_type T v → ∃ e, v = endpoint_val e ∧ endpoint_typed e.
Proof.
  destruct v as [| | | |[|[| | |l| |] [|[h| | | | |] [|[t| | | | |] [|[c| | | | |] [|]]]]]|]; cbn; try tauto.
  intros ([Hl Hall] & _). destruct (values_of message_val message_typed l) as (ms & -> & Hms).
  { eapply Forall_impl; [exact Hall|]. intros w. apply message_shape. }
  rewrite length_fmap in Hl. by exists (Endpoint ms h t c).
Qed.

Lemma ipc_init_memory bs :
  length bs = 1176 → bytes_ok bs →
  ∃ bs' e, ipc_endpoint_init_bytes bs = Done (tt, bs') ∧ reads T bs' (endpoint_val e) ∧ holds e [].
Proof.
  intros Hl Hb. destruct (reads_total struct_nova_ipc_endpoint_t bs) as [v Hv];
    [by vm_compute|by vm_compute|done|done|]. change (reads T bs v) in Hv.
  destruct (endpoint_shape v (reads_has_type T _ _ object_sane Hv)) as (e & -> & He).
  unfold ipc_endpoint_init_bytes.
  destruct (object_store_run T object_sane _ _ _ _ _ 0 (endpoint_val (set_head 0 e)) Hv ipc_head_locate)
    as (bs1 & Hs1 & Hr1); [done..|]. bind Hs1.
  destruct (object_store_run T object_sane _ _ _ _ _ 0 (endpoint_val (set_tail 0 (set_head 0 e))) Hr1
    ipc_tail_locate) as (bs2 & Hs2 & Hr2); [done..|]. bind Hs2.
  destruct (object_store_run T object_sane _ _ _ _ _ 0 (endpoint_val (set_count 0 (set_tail 0 (set_head 0 e))))
    Hr2 ipc_count_locate) as (bs3 & Hs3 & Hr3); [done..|].
  exists bs3, (Endpoint (messages e) 0 0 0). split; [done|]. split; [done|].
  split; [by apply init_wf|done].
Qed.

(** ** All calls *)

(** What a caller sees of a message: its sender and the bytes sent. *)
Definition received (ws : list Z) : Z * list Z :=
  (word_of (slice 0 4 ws), take (Z.to_nat (word_of (slice 4 2 ws))) (slice 6 64 ws)).

Lemma received_view ws m : reads struct_nova_ipc_message_t ws (message_val m) → received ws = view m.
Proof.
  intros Hr. assert (sane struct_nova_ipc_message_t = true) as Hs by (by vm_compute).
  destruct (lvalue_sound _ [Member "sender"] _ _ uint32_t 0 Hs Hr) as (_ & _ & _ & (w1 & [= <-] & H1) & _); [done|].
  destruct (lvalue_sound _ [Member "length"] _ _ uint16_t 4 Hs Hr) as (_ & _ & _ & (w2 & [= <-] & H2) & _); [done|].
  destruct (lvalue_sound _ [Member "payload"] _ _ (TArray 64 uint8_t) 6 Hs Hr) as (_ & _ & _ & (w3 & [= <-] & H3) & _); [done|].
  apply number_reads in H1. apply number_reads in H2. injection H1 as H1. injection H2 as H2.
  apply reads_byte_array_inv in H3 as [H3 _]. unfold received, view. f_equal; [exact H1|].
  f_equal; [|exact H3]. f_equal. exact H2.
Qed.

Definition call_bytes (op : ipc_op) : mem observation :=
  match op with
  | OpSend from buffer len => r ← ipc_send_bytes from buffer len; mret (r, None)
  | OpReceive => r ← ipc_receive_bytes; mret (r.1, received <$> r.2)
  end.

Lemma ipc_call_sim op e :
  op_ok op → endpoint_wf e →
  simulates (object_val e) e (call_bytes op) (exec_op op) (λ a b _, a = b).
Proof.
  intros Hop Hwf. destruct op as [from buffer len|]; cbn [call_bytes exec_op].
  - eapply sim_bind; [by apply send_sim|]. intros a b e' ->. by apply sim_ret.
  - eapply sim_bind; [by apply receive_sim|]. intros [r ws] [r' m] e' ([= ->] & Hc & _).
    apply sim_ret. cbn [fst snd] in *. f_equal.
    destruct ws as [ws|], m as [m|]; try done. cbn. f_equal. by apply received_view.
Qed.

(** * Properties *)

(** C11. The bytes of an endpoint implement a queue.  Whatever the 1176 bytes of
    a nova_ipc_endpoint_t hold, nova_ipc_endpoint_init makes them an empty queue;
    from then on every sequence of sends and receives, executed load by load,
    store by store and memcpy by memcpy at the offsets of the header, stays
    inside the object and answers like a first-in first-out queue of 16 messages
    of at most 64 bytes: what a receiver reads from its copy is the sender and
    the bytes that were sent.  The functions on records give the same answers
    and end with the record that the bytes then hold. *)
Theorem nova_ipc_on_bytes (bs : list Z) (ops : list ipc_op) :
  length bs = size struct_nova_ipc_endpoint_t → bytes_ok bs → Forall op_ok ops →
  ∃ bs1 e1 os bs2 e q,
    ipc_endpoint_init_bytes bs = Done (tt, bs1) ∧
    reads struct_nova_ipc_endpoint_t bs1 (endpoint_val e1) ∧ contents e1 = [] ∧
    exec_trace call_bytes ops bs1 = Done (os, bs2) ∧ exec_trace exec_op ops e1 = Done (os, e) ∧
    spec_trace spec_op ops [] = (os, q) ∧
    reads struct_nova_ipc_endpoint_t bs2 (endpoint_val e) ∧ holds e q.
Proof.
  intros Hl Hb Hops. destruct (ipc_init_memory bs) as (bs1 & e1 & Hi & Hr & Hh); [by rewrite Hl; vm_compute|done|].
  destruct (refines_on_bytes (reads T) object_val call_bytes exec_op spec_op op_ok holds) with ops bs1 e1 (@nil (Z * list Z))
    as (os & bs2 & e & q & Hx & Hhi & Hs & Hr2 & Hq); [|done..|].
  2:{ exists bs1, e1, os, bs2, e, q. destruct Hh as [_ Hc]. by split_and!. }
  intros op e0 q0 Hop [Hwf _]. by apply ipc_call_sim.
Qed.

(** Memory that was never cleared, and the ends of the queue. *)
Definition dirty_endpoint : list Z := replicate 1176 90%Z.

Lemma nova_ipc_on_bytes_witness :
  let ops := [OpReceive; OpSend 7 [104; 105; 33]%Z 2; OpSend 8 [1]%Z 65; OpReceive; OpReceive] in
  ∃ bs1 e1 os bs2 e q,
    ipc_endpoint_init_bytes dirty_endpoint = Done (tt, bs1) ∧
    reads struct_nova_ipc_endpoint_t bs1 (endpoint_val e1) ∧ contents e1 = [] ∧
    exec_trace call_bytes ops bs1 = Done (os, bs2) ∧ exec_trace exec_op ops e1 = Done (os, e) ∧
    spec_trace spec_op ops [] = (os, q) ∧
    reads struct_nova_ipc_endpoint_t bs2 (endpoint_val e) ∧ holds e q.
Proof.
  apply (nova_ipc_on_bytes dirty_endpoint); [reflexivity|by apply Forall_replicate|].
  repeat constructor; cbn; lia.
Defined.

Lemma dirty_endpoint_results :
  result_of ((ipc_endpoint_init_bytes;;
    exec_trace call_bytes [OpReceive; OpSend 7 [104; 105; 33]%Z 2; OpSend 8 [1]%Z 65; OpReceive;
      OpReceive]) dirty_endpoint) =
  Some [(NOVA_EMPTY, None); (NOVA_OK, None); (NOVA_ERR, None); (NOVA_OK, Some (7, [104; 105]));
    (NOVA_EMPTY, None)]%Z.
Proof. vm_compute. reflexivity. Qed.
End IpcMemory.
