(* ===== verification/SpaceMemory.v ===== *)
(** * Address spaces on their bytes (kernel/core/vm.c)

    The three functions of the mapping table once more, statement by statement
    on the 2056 bytes of a nova_address_space_t.  (The page allocator needs no
    such version: its record is the array of its bytes.) *)

From S2P Require Import Prelude Core Bytes CType CMemory CObject Headers Space.

Module SpaceMemory.
Import Space.

Definition mapping_val (m : nova_vm_mapping_t) : cval :=
  VStruct [VInt (virtual_page m); VInt (physical_page m); VInt (writable m)].
Definition space_val (s : nova_address_space_t) : cval :=
  VStruct [VArray (mapping_val <$> mappings s); VInt (count s)].

#[export] Instance space_table : Table nova_address_space_t nova_vm_mapping_t := {|
  object := struct_nova_address_space_t;
  element := struct_nova_vm_mapping_t;
  slot_count := NOVA_MAX_MAPPINGS;
  slots_name := "mappings";
  object_val := space_val;
  element_val := mapping_val;
  slots := mappings;
  set_slots l s := AddressSpace l (count s);
|}.

#[export] Instance space_table_ok : TableOk nova_address_space_t nova_vm_mapping_t.
Proof. by split. Qed.

Abbreviation T := (object (S:=nova_address_space_t) (X:=nova_vm_mapping_t)).
Abbreviation mem := (M (list Z)).
Abbreviation mapping_at i x := (slot (S:=nova_address_space_t) i [Member x]).

(** ** The functions *)

Definition vm_address_space_init_bytes : mem unit := store T [Member "count"] 0.

Definition vm_map_bytes (vpage ppage w : Z) : mem nova_result :=
  n ← load T [Member "count"];
  r ← for_loop (Z.to_nat n) 0 (λ index,
    v ← load T (mapping_at index "virtual_page");
    if decide (v ≠ vpage) then mret None
    else
      store T (mapping_at index "physical_page") ppage;;
      store T (mapping_at index "writable") w;;
      mret (Some NOVA_OK));
  match r with
  | Some result => mret result
  | None =>
      n ← load T [Member "count"];
      if decide (n = Z.of_nat NOVA_MAX_MAPPINGS) then mret NOVA_FULL
      else
        n ← load T [Member "count"];
        store T (mapping_at (Z.to_nat n) "virtual_page") vpage;;
        n ← load T [Member "count"];
        store T (mapping_at (Z.to_nat n) "physical_page") ppage;;
        n ← load T [Member "count"];
        store T (mapping_at (Z.to_nat n) "writable") w;;
        n ← load T [Member "count"];
        store T [Member "count"] (u64 (n + 1));;
        mret NOVA_OK
  end.

Definition vm_translate_bytes (vpage : Z) : mem (nova_result * option (Z * Z)) :=
  n ← load T [Member "count"];
  r ← for_loop (Z.to_nat n) 0 (λ index,
    v ← load T (mapping_at index "virtual_page");
    if decide (v ≠ vpage) then mret None
    else
      p ← load T (mapping_at index "physical_page");
      w ← load T (mapping_at index "writable");
      mret (Some (NOVA_OK, Some (p, w))));
  mret (default (NOVA_NOT_FOUND, None) r).

Definition call_bytes (op : space_op) : mem (nova_result * option (Z * Z)) :=
  match op with
  | OpMap vpage ppage w => r ← vm_map_bytes vpage ppage w; mret (r, None)
  | OpTranslate vpage => vm_translate_bytes vpage
  end.

(** ** Simulation, call by call *)

Lemma space_count_locate : locate T [Member "count"] = Some (size_t, 2048).
Proof. by vm_compute. Qed.

Abbreviation simulates := (sim T object_val).
(** The next load, of the count of [s]. *)
Ltac load_count s :=
  eapply (sim_load _ object_sane _ _ _ _ _ _ (count s)); [apply space_count_locate | done | ].

Lemma get_mapping_slot i m s : slots s !! i = Some m → get_mapping i s = Done (m, s).
Proof. intros Hm. unfold get_mapping. run. exact (the_Some _ _ _ Hm). Qed.

Lemma put_mapping_slot i m s :
  full s → i < slot_count → put_mapping i m s = Done (tt, put_slot i m s).
Proof.
  intros Hf Hi. unfold put_mapping. run.
  bind (the_Some _ _ _ (arr_set_Some (mappings s) i m ltac:(by rewrite Hf))). done.
Qed.

(** Between the calls: all slots are there, the count is one of them or 128. *)
Definition counted (n : Z) (s : nova_address_space_t) : Prop := full s ∧ count s = n.

Lemma map_sim v p w s :
  in_width 64 v → in_width 32 p → in_width 8 w → space_wf s →
  simulates (object_val s) s (vm_map_bytes v p w) (nova_vm_map v p w) (λ a b _, a = b).
Proof.
  intros Hv Hp Hw [Hl Hc _]. unfold vm_map_bytes, nova_vm_map.
  eapply sim_high; [by rewrite gets_run|]. load_count s.
  eapply (sim_seq _ _ (counted (count s))).
  { eapply sim_for_loop; [|by split]. intros i s' [_ Hi] [Hf Hn].
    assert (i < slot_count) as Hi' by (change slot_count with 128; lia).
    destruct (full_lookup s' i Hf Hi') as [m Hm].
    eapply sim_high; [by apply get_mapping_slot|]. load_slot.
    case_decide as Hne; [by apply sim_ret|].
    eapply sim_high; [by apply put_mapping_slot|].
    store_slot (Mapping (virtual_page m) p (writable m)).
    store_slot (Mapping (virtual_page m) p w).
    apply sim_ret. split; [done|]. split; [by apply full_put|done]. }
  intros [r|] s' [Hf Hn]; [by apply sim_ret|]. rewrite <-Hn in Hc |- *. clear Hn Hl s.
  load_count s'. case_decide as Hfull; [by apply sim_ret|].
  change (Z.of_nat NOVA_MAX_MAPPINGS) with 128%Z in Hfull. set (i := Z.to_nat (count s')).
  assert (i < slot_count) as Hi by (unfold i; change slot_count with 128; lia).
  destruct (full_lookup s' i Hf Hi) as [m Hm].
  eapply sim_high; [by apply put_mapping_slot|]. apply sim_modify.
  load_count s'. store_slot (Mapping v (physical_page m) (writable m)).
  load_count s'. store_slot (Mapping v p (writable m)).
  load_count s'. store_slot (Mapping v p w).
  load_count s'. set (s1 := put_slot i (Mapping v p w) s').
  eapply (sim_store _ object_sane _ _ _ _ _ _ _
    (object_val (AddressSpace (mappings s1) (u64 (count s1 + 1)))));
    [apply space_count_locate|done|apply u64_width|done|].
  by apply sim_ret.
Qed.

Lemma translate_sim v s :
  space_wf s →
  simulates (object_val s) s (vm_translate_bytes v) (nova_vm_translate v) (λ a b _, a = b).
Proof.
  intros [Hl Hc _]. unfold vm_translate_bytes, nova_vm_translate.
  eapply sim_high; [by rewrite gets_run|]. load_count s.
  eapply (sim_seq _ _ full); [|intros a s' _; by apply sim_ret].
  eapply sim_for_loop; [|done]. intros i s' [_ Hi] Hf.
  assert (i < slot_count) as Hi' by (change slot_count with 128; lia).
  destruct (full_lookup s' i Hf Hi') as [m Hm].
  eapply sim_high; [by apply get_mapping_slot|]. load_slot.
  case_decide; [by apply sim_ret|]. do 2 load_slot. by apply sim_ret.
Qed.

Lemma space_call_sim op s :
  op_ok op → space_wf s →
  simulates (object_val s) s (call_bytes op) (exec_op op) (λ a b _, a = b).
Proof.
  intros Hop Hwf. destruct op as [v p w|v]; cbn [call_bytes exec_op].
  - destruct Hop as (Hv & Hp & Hw). eapply sim_bind; [by apply map_sim|].
    intros a b s' ->. by apply sim_ret.
  - by apply translate_sim.
Qed.

(** ** Any memory is an address space *)

Lemma mapping_shape w : has_type struct_nova_vm_mapping_t w → ∃ m, w = mapping_val m ∧ True.
Proof.
  destruct w as [| | | |[|[a| | | | |] [|[b| | | | |] [|[c| | | | |] [|]]]]|]; cbn; try tauto.
  intros _. by exists (Mapping a b c).
Qed.

Lemma space_shape v : has_type T v → ∃ s, v = space_val s ∧ space_typed s.
Proof.
  destruct v as [| | | |[|[| | |l| |] [|[c| | | | |] [|]]]|]; cbn; try tauto.
  intros ([Hl Hall] & Hc & _). destruct (values_of mapping_val (λ _, True) l) as (ms & -> & _).
  { eapply Forall_impl; [exact Hall|]. intros w. apply mapping_shape. }
  rewrite length_fmap in Hl. by exists (AddressSpace ms c).
Qed.

Lemma space_init_memory bs :
  length bs = 2056 → bytes_ok bs →
  ∃ bs' s, vm_address_space_init_bytes bs = Done (tt, bs') ∧ reads T bs' (space_val s) ∧ count s = 0%Z ∧ holds s ∅.
Proof.
  intros Hl Hb. destruct (reads_total struct_nova_address_space_t bs) as [v Hv];
    [by vm_compute|by vm_compute|done|done|]. change (reads T bs v) in Hv.
  destruct (space_shape v (reads_has_type T _ _ object_sane Hv)) as (s & -> & Hs).
  destruct (object_store_run T object_sane _ _ _ _ _ 0 (space_val (AddressSpace (mappings s) 0)) Hv
    space_count_locate) as (bs1 & Hs1 & Hr1); [done..|].
  eexists bs1, _. do 3 (split; [done|]). by apply space_init_holds.
Qed.

(** * Properties *)

(** C14. The bytes of an address space implement a map.  Whatever the 2056
    bytes of a nova_address_space_t hold, nova_vm_address_space_init makes them
    an empty map from virtual pages; from then on every sequence of nova_vm_map
    and nova_vm_translate calls, executed load by load and store by store at the
    offsets of the header, stays inside the object and answers like a finite map
    of at most 128 entries.  The functions on records give the same answers and
    end with the record that the bytes then hold. *)
Theorem nova_vm_space_on_bytes (bs : list Z) (ops : list space_op) :
  length bs = size struct_nova_address_space_t → bytes_ok bs → Forall op_ok ops →
  ∃ bs1 s1 os bs2 s m,
    vm_address_space_init_bytes bs = Done (tt, bs1) ∧
    reads struct_nova_address_space_t bs1 (space_val s1) ∧ count s1 = 0%Z ∧
    exec_trace call_bytes ops bs1 = Done (os, bs2) ∧ exec_trace exec_op ops s1 = Done (os, s) ∧
    spec_trace spec_op ops ∅ = (os, m) ∧
    reads struct_nova_address_space_t bs2 (space_val s) ∧ holds s m.
Proof.
  intros Hl Hb Hops.
  destruct (space_init_memory bs) as (bs1 & s1 & Hi & Hr & Hc & Hh); [by rewrite Hl; vm_compute|done|].
  destruct (refines_on_bytes (reads T) object_val call_bytes exec_op spec_op op_ok holds) with ops bs1 s1 (∅ : gmap Z (Z * Z))
    as (os & bs2 & s & m & Hx & Hhi & Hs & Hr2 & Hm); [|done..|by exists bs1, s1, os, bs2, s, m].
  intros op s0 m0 Hop [Hwf _]. by apply space_call_sim.
Qed.

Lemma nova_vm_space_on_bytes_witness :
  let ops := [OpTranslate 4096; OpMap 4096 3 1; OpMap 8192 4 0; OpMap 4096 5 0; OpTranslate 4096] in
  ∃ bs1 s1 os bs2 s m,
    vm_address_space_init_bytes (replicate 2056 255%Z) = Done (tt, bs1) ∧
    reads struct_nova_address_space_t bs1 (space_val s1) ∧ count s1 = 0%Z ∧
    exec_trace call_bytes ops bs1 = Done (os, bs2) ∧ exec_trace exec_op ops s1 = Done (os, s) ∧
    spec_trace spec_op ops ∅ = (os, m) ∧
    reads struct_nova_address_space_t bs2 (space_val s) ∧ holds s m.
Proof.
  apply (nova_vm_space_on_bytes (replicate 2056 255%Z)); [reflexivity|by apply Forall_replicate|].
  by repeat constructor.
Defined.

Lemma dirty_space_results :
  result_of ((vm_address_space_init_bytes;;
    exec_trace call_bytes [OpTranslate 4096; OpMap 4096 3 1; OpMap 8192 4 0; OpMap 4096 5 0;
      OpTranslate 4096]) (replicate 2056 255%Z)) =
  Some [(NOVA_NOT_FOUND, None); (NOVA_OK, None); (NOVA_OK, None); (NOVA_OK, None);
    (NOVA_OK, Some (5, 0))]%Z.
Proof. vm_compute. reflexivity. Qed.
End SpaceMemory.
