(* ===== verification/NovaKitMemory.v ===== *)
(** * The NovaKit registry on its bytes (kernel/novakit/registry.c)

    The four functions of registry.c once more, statement by statement on the
    4104 bytes of a novakit_registry_t: memset, strncpy and the pointer that
    novakit_find returns included. *)

From S2P Require Import Prelude CString Bytes CType CMemory CObject NovaKit Headers.

Module NovaKitMemory.
Import NovaKit.

Definition class_code (c : novakit_device_class_t) : Z :=
  match c with
  | NOVAKIT_STORAGE => 0 | NOVAKIT_NETWORK => 1 | NOVAKIT_GPU => 2
  | NOVAKIT_INPUT => 3 | NOVAKIT_AUDIO => 4 | NOVAKIT_BUS => 5
  end.
Definition kit_state_code (st : novakit_device_state_t) : Z :=
  match st with NOVAKIT_DETACHED => 0 | NOVAKIT_ATTACHED => 1 end.

Definition kit_device_val (d : novakit_device_t) : cval :=
  VStruct [VInt (id d); VInt (vendor_id d); VInt (device_id d); VInt (class_code (class d));
           VInt (kit_state_code (state d)); VArray (VInt <$> name d)].
Definition registry_val (r : novakit_registry_t) : cval :=
  VStruct [VArray (kit_device_val <$> devices r); VInt (count r)].

#[export] Instance registry_table : Table novakit_registry_t novakit_device_t := {|
  object := struct_novakit_registry_t;
  element := struct_novakit_device_t;
  slot_count := NOVAKIT_MAX_DEVICES;
  slots_name := "devices";
  object_val := registry_val;
  element_val := kit_device_val;
  slots := devices;
  set_slots l r := Registry l (count r);
|}.

#[export] Instance registry_table_ok : TableOk novakit_registry_t novakit_device_t.
Proof. by split. Qed.

Abbreviation T := (object (S:=novakit_registry_t) (X:=novakit_device_t)).
Abbreviation mem := (M (list Z)).
Abbreviation device_at i p := (slot (S:=novakit_registry_t) i p).

(** ** The functions *)

(** [memset(registry, 0, sizeof( *registry))] *)
Definition registry_init_bytes : mem unit := modify (λ bs, replicate (length bs) 0%Z).

Definition register_device_bytes (vendor device : Z) (cls : novakit_device_class_t)
    (name_ : list Z) : mem (Z * option Z) :=
  n ← load T [Member "count"];
  if decide (n = Z.of_nat NOVAKIT_MAX_DEVICES) then mret ((-1)%Z, None)
  else
    n ← load T [Member "count"];
    let device_ := Z.to_nat n in
    n ← load T [Member "count"];
    store T (device_at device_ [Member "id"]) (u32 (u32 n + 1));;
    store T (device_at device_ [Member "vendor_id"]) vendor;;
    store T (device_at device_ [Member "device_id"]) device;;
    store T (device_at device_ [Member "class"]) (class_code cls);;
    store T (device_at device_ [Member "state"]) (kit_state_code NOVAKIT_DETACHED);;
    ws ← the (strncpy_bytes name_ (NOVAKIT_NAME_LENGTH - 1));
    store_bytes T (device_at device_ [Member "name"]) ws;;
    store T (device_at device_ [Member "name"; Element (NOVAKIT_NAME_LENGTH - 1)]) 0;;
    n ← load T [Member "count"];
    store T [Member "count"] (u64 (n + 1));;
    id ← load T (device_at device_ [Member "id"]);
    mret (0%Z, Some id).

Definition set_state_bytes (dev_id : Z) (st : novakit_device_state_t) : mem Z :=
  n ← load T [Member "count"];
  if decide (dev_id = 0 ∨ n < dev_id)%Z then mret (-1)%Z
  else
    store T (device_at (Z.to_nat (dev_id - 1)) [Member "state"]) (kit_state_code st);;
    mret 0%Z.

(** The pointer, as the index of the device. *)
Definition find_bytes (dev_id : Z) : mem (option nat) :=
  n ← load T [Member "count"];
  if decide (dev_id = 0 ∨ n < dev_id)%Z then mret None
  else
    _ ← lvalue T (device_at (Z.to_nat (dev_id - 1)) []);
    mret (Some (Z.to_nat (dev_id - 1))).

(** ** What a caller reads through the pointer *)

Definition class_of (z : Z) : option novakit_device_class_t :=
  snd <$> (list_find (λ c, class_code c = z)
    [NOVAKIT_STORAGE; NOVAKIT_NETWORK; NOVAKIT_GPU; NOVAKIT_INPUT; NOVAKIT_AUDIO; NOVAKIT_BUS]).
Definition state_of_code (z : Z) : option novakit_device_state_t :=
  snd <$> (list_find (λ st, kit_state_code st = z) [NOVAKIT_DETACHED; NOVAKIT_ATTACHED]).

Definition deref_bytes (p : option nat) : mem (option device_view) :=
  match p with
  | None => mret None
  | Some i =>
      vendor ← load T (device_at i [Member "vendor_id"]);
      device ← load T (device_at i [Member "device_id"]);
      c ← load T (device_at i [Member "class"]);
      cls ← the (class_of c);
      c ← load T (device_at i [Member "state"]);
      st ← the (state_of_code c);
      ws ← load_bytes T (device_at i [Member "name"]);
      mret (Some (DeviceView vendor device cls st (c_string ws)))
  end.

Definition call_bytes (op : kit_op) : mem observation :=
  match op with
  | OpRegister vendor device cls name_ =>
      r ← register_device_bytes vendor device cls name_; mret (r, None)
  | OpSetState dev_id st => r ← set_state_bytes dev_id st; mret (r, None, None)
  | OpFind dev_id => p ← find_bytes dev_id; d ← deref_bytes p; mret (0%Z, None, d)
  end.

(** ** Simulation, call by call *)

Lemma class_of_code c : class_of (class_code c) = Some c.
Proof. by destruct c. Qed.
Lemma kit_state_of_code st : state_of_code (kit_state_code st) = Some st.
Proof. by destruct st. Qed.
Lemma class_code_typed c : has_type enum_novakit_device_class_t (VInt (class_code c)).
Proof. by destruct c; vm_compute. Qed.
Lemma kit_state_code_typed st : has_type enum_novakit_device_state_t (VInt (kit_state_code st)).
Proof. by destruct st; vm_compute. Qed.

#[local] Hint Resolve class_code_typed kit_state_code_typed : typed.

Lemma kit_count_locate : locate T [Member "count"] = Some (size_t, 4096).
Proof. by vm_compute. Qed.

Abbreviation simulates := (sim T object_val).
Ltac load_count r :=
  eapply (sim_load _ object_sane _ _ _ _ _ _ (count r)); [apply kit_count_locate | done | ].

(** The terminator, stored by itself. *)
Lemma store_terminator {A B} r s i d l' (k : unit → mem A) (high : M novakit_registry_t B) Q :
  i < slot_count → slots r !! i = Some d → arr_set (name d) 47 0%Z = Some l' → length (name d) = 48 →
  simulates (object_val (put_slot i (Device (id d) (vendor_id d) (device_id d) (class d) (state d) l') r))
    s (k tt) high Q →
  simulates (object_val r) s (store T (device_at i [Member "name"; Element 47]) 0 ≫= k) high Q.
Proof.
  intros Hi Hd Hl Hn. eapply sim_store_slot; [done|done|done|done|by vm_compute|].
  unfold arr_set in Hl. rewrite decide_True in Hl by lia. injection Hl as <-.
  destruct (lookup_lt_is_Some_2 (name d) 47) as [b Hb]; [lia|].
  rewrite (assign_cons _ _ _ _ _ 5 (TArray 48 char_t) 16) by (by vm_compute).
  cbn [kit_device_val element_val registry_table parts mbind option_bind lookup list_lookup].
  rewrite (assign_cons _ _ _ _ _ 47 char_t 47) by done. cbn [parts].
  rewrite list_lookup_fmap, Hb. cbn [fmap option_fmap option_map mbind option_bind assign with_parts].
  unfold kit_device_val. cbn [name]. by rewrite list_fmap_insert.
Qed.

Lemma register_sim vendor device cls name_ r :
  in_width 16 vendor → in_width 16 device → bytes_ok name_ → registry_wf r →
  simulates (object_val r) r (register_device_bytes vendor device cls name_)
    (novakit_register_device vendor device cls name_) (λ a b _, a = b).
Proof.
  intros Hv Hd Hb Hwf. unfold register_device_bytes, novakit_register_device.
  eapply sim_high; [by rewrite gets_run|]. load_count r. case_decide as Hfull; [by apply sim_ret|].
  load_count r. cbv zeta. set (i := Z.to_nat (count r)). load_count r.
  assert (i < slot_count) as Hi.
  { pose proof (wf_count r Hwf). unfold i. change (Z.of_nat NOVAKIT_MAX_DEVICES) with 64%Z in Hfull.
    change slot_count with 64. lia. }
  destruct (kit_wf_slot r i Hwf Hi) as (d & Hslot & Hn).
  change (devices r !! i = Some d) with (slots r !! i = Some d) in Hslot.
  assert (full r) as Hf by apply Hwf.
  eapply sim_high; [exact (the_Some _ _ _ Hslot)|].
  apply sim_the. intros copied Hcp. apply sim_the. intros l' Hl'.
  change (NOVAKIT_NAME_LENGTH - 1) with 47 in *.
  set (n' := u32 (u32 (count r) + 1)). set (new := Device n' vendor device cls NOVAKIT_DETACHED l').
  eapply sim_high; [apply the_Some, arr_set_Some; by eapply lookup_lt_Some|]. apply sim_modify.
  store_slot (Device n' (vendor_id d) (device_id d) (class d) (state d) (name d)).
  store_slot (Device n' vendor (device_id d) (class d) (state d) (name d)).
  store_slot (Device n' vendor device (class d) (state d) (name d)).
  store_slot (Device n' vendor device cls (state d) (name d)).
  store_slot (Device n' vendor device cls NOVAKIT_DETACHED (name d)).
  apply bind_Some in Hcp as (ws & Hws & Hcp).
  eapply sim_low; [intros bs _; exact (the_Some _ _ _ Hws)|].
  assert (length ws = 47) as Hlen by (by eapply length_strncpy_bytes).
  assert (copied = ws ++ drop (length ws) (name d)) as ->.
  { rewrite memcpy_Some in Hcp by lia. injection Hcp as <-. by rewrite Hlen, take_ge by lia. }
  eapply (sim_store_slot_prefix _ _ _ _
    (Device n' vendor device cls NOVAKIT_DETACHED (ws ++ drop (length ws) (name d))));
    [done|by apply put_lookup|done|done|rewrite Hlen; unfold NOVAKIT_NAME_LENGTH; lia|by eapply bytes_ok_strncpy|done|].
  rewrite put_put.
  eapply store_terminator; [done|by apply put_lookup|exact Hl'|
    cbn [name]; rewrite length_app, length_drop; lia|].
  cbn [id vendor_id device_id class state]. fold new. rewrite put_put.
  load_count r. set (r2 := Registry (<[i := new]> (devices r)) (u64 (count r + 1))).
  eapply (sim_store _ object_sane _ _ _ _ _ _ _ (object_val r2));
    [apply kit_count_locate|done|apply u64_width|done|].
  eapply (sim_load_slot r2); [done|exact (put_lookup i new r Hf Hi)|done|done|].
  by apply sim_ret.
Qed.

(** An identifier that passes the test names a slot. *)
Lemma kit_id_slot dev_id r :
  in_width 32 dev_id → registry_wf r → ¬ (dev_id = 0 ∨ count r < dev_id)%Z →
  Z.to_nat (dev_id - 1) < slot_count ∧ full r ∧
  ∃ d, slots r !! Z.to_nat (dev_id - 1) = Some d ∧ length (name d) = 48.
Proof.
  intros Hid Hwf Hok. pose proof (wf_count r Hwf). unfold in_width in Hid.
  assert (Z.to_nat (dev_id - 1) < 64) as Hi by lia. split; [done|]. split; [apply Hwf|].
  by apply kit_wf_slot.
Qed.

Lemma kit_set_state_sim dev_id st r :
  in_width 32 dev_id → registry_wf r →
  simulates (object_val r) r (set_state_bytes dev_id st) (novakit_set_state dev_id st) (λ a b _, a = b).
Proof.
  intros Hid Hwf. unfold set_state_bytes, novakit_set_state.
  eapply sim_high; [by rewrite gets_run|]. load_count r. case_decide as Hok; [by apply sim_ret|].
  destruct (kit_id_slot dev_id r Hid Hwf Hok) as (Hi & Hf & d & Hd & _).
  eapply sim_high; [exact (the_Some _ _ _ Hd)|].
  eapply sim_high; [apply the_Some, arr_set_Some; by eapply lookup_lt_Some|]. apply sim_modify.
  store_slot (Device (id d) (vendor_id d) (device_id d) (class d) st (name d)). by apply sim_ret.
Qed.

(** The pointer returned: a slot, or NULL. *)
Lemma find_sim dev_id r :
  in_width 32 dev_id → registry_wf r →
  simulates (object_val r) r (find_bytes dev_id) (novakit_find dev_id)
    (λ a b r', a = b ∧ r' = r ∧
      ∀ i, a = Some i → i < slot_count ∧ ∃ d, slots r !! i = Some d).
Proof.
  intros Hid Hwf. unfold find_bytes, novakit_find.
  eapply sim_high; [by rewrite gets_run|]. load_count r. case_decide as Hok; [by apply sim_ret|].
  destruct (kit_id_slot dev_id r Hid Hwf Hok) as (Hi & Hf & d & Hd & _).
  destruct (slot_locate (S:=novakit_registry_t) _ [] element 0 Hi eq_refl) as [o Ho].
  eapply sim_high; [exact (the_Some _ _ _ Hd)|].
  eapply sim_low; [intros bs Hv; by eapply lvalue_run; [apply object_sane|..]|].
  apply sim_ret. split_and!; [done|done|]. intros i [= <-]. split; [done|by exists d].
Qed.

Lemma deref_sim p r :
  (∀ i, p = Some i → i < slot_count ∧ ∃ d, slots r !! i = Some d) →
  simulates (object_val r) r (deref_bytes p) (deref p) (λ a b _, a = view <$> b).
Proof.
  intros Hp. destruct p as [i|]; cbn [deref_bytes deref]; [|by apply sim_ret].
  destruct (Hp i eq_refl) as (Hi & d & Hd).
  eapply sim_high; [by rewrite gets_run|]. eapply sim_high; [exact (the_Some _ _ _ Hd)|].
  do 3 load_slot. eapply sim_low; [intros bs _; exact (the_Some _ _ _ (class_of_code _))|].
  load_slot. eapply sim_low; [intros bs _; exact (the_Some _ _ _ (kit_state_of_code _))|].
  destruct (slot_locate (S:=novakit_registry_t) i [Member "name"] (TArray 48 char_t) 16 Hi eq_refl)
    as [o Ho].
  eapply sim_load_bytes; [apply object_sane|exact Ho|by eapply slot_value|].
  intros ws [-> _]%reads_byte_array_inv. by apply sim_ret.
Qed.

(** The arguments are bytes, too. *)
Definition bytes_op_ok (op : kit_op) : Prop :=
  op_ok op ∧ match op with OpRegister _ _ _ name_ => bytes_ok name_ | _ => True end.

#[local] Instance kit_refines_bytes : Refines exec_op spec_op bytes_op_ok holds.
Proof. intros op s q Hh [Hop _]. by apply refines_step. Qed.

Lemma kit_call_sim op r :
  bytes_op_ok op → registry_wf r →
  simulates (object_val r) r (call_bytes op) (exec_op op) (λ a b _, a = b).
Proof.
  intros [Hop Hb] Hwf. destruct op as [vendor device cls name_|dev_id st|dev_id];
    cbn [call_bytes exec_op].
  - destruct Hop as (Hv & Hd & _). eapply sim_bind; [by apply register_sim|].
    intros a b r' ->. by apply sim_ret.
  - eapply sim_bind; [by apply kit_set_state_sim|]. intros a b r' ->. by apply sim_ret.
  - eapply sim_bind; [by apply find_sim|]. intros p b r' (-> & -> & Hp).
    eapply sim_bind; [by apply deref_sim|]. intros d e r' ->. by apply sim_ret.
Qed.

(** memset makes the bytes those of the empty registry. *)
Lemma kit_init_memory bs :
  length bs = 4104 →
  ∃ bs', registry_init_bytes bs = Done (tt, bs') ∧
    reads T bs' (registry_val (Registry (replicate 64 zero_device) 0)).
Proof.
  intros Hl. eexists. split; [done|]. rewrite Hl.
  assert (size T = 4104) as <- by (by vm_compute).
  apply reads_zero; [apply object_sane| |by vm_compute].
  split; [split; [done|]|by split_and!]. cbn [devices]. rewrite fmap_replicate. apply Forall_replicate.
  do 5 (split; [done|]). split; [|done]. split; [done|].
  cbn [name zero_device]. rewrite fmap_replicate. by apply Forall_replicate.
Qed.

(** * Properties *)

(** C18. The bytes of a NovaKit registry implement a list of devices.  Whatever
    the 4104 bytes of a novakit_registry_t hold, the memset of
    novakit_registry_init makes them the empty registry; from then on every
    sequence of novakit_register_device, novakit_set_state and novakit_find
    calls, executed load by load, store by store and with strncpy as a store of
    47 bytes, at the offsets of the header, stays inside the object and answers
    like an append-only list of at most 64 devices: registration returns the
    identifier position + 1 (or -1 when full), and what a caller reads through
    the pointer of novakit_find is the device as last set, its name the first 47
    characters of the name given.  The functions on records give the same
    answers and end with the record that the bytes then hold. *)
Theorem novakit_on_bytes (bs : list Z) (ops : list kit_op) :
  length bs = size struct_novakit_registry_t → Forall bytes_op_ok ops →
  ∃ bs1 os bs2 r q,
    registry_init_bytes bs = Done (tt, bs1) ∧ exec_trace call_bytes ops bs1 = Done (os, bs2) ∧
    exec_trace exec_op ops (Registry (replicate 64 zero_device) 0) = Done (os, r) ∧
    spec_trace spec_op ops [] = (os, q) ∧
    reads struct_novakit_registry_t bs2 (registry_val r) ∧ holds r q.
Proof.
  intros Hl Hops. destruct (kit_init_memory bs) as (bs1 & Hi & Hr); [by rewrite Hl; vm_compute|].
  destruct (refines_on_bytes (reads T) object_val call_bytes exec_op spec_op bytes_op_ok holds)
    with ops bs1 (Registry (replicate 64 zero_device) 0%Z) (@nil device_view)
    as (os & bs2 & r & q & Hx & Hhi & Hs & Hr2 & Hq); [|done|apply kit_init_holds|done|by exists bs1, os, bs2, r, q].
  intros op r0 q0 Hop [Hwf _]. by apply kit_call_sim.
Qed.

Lemma novakit_on_bytes_witness :
  let ops := [OpFind 1; OpRegister 6900 4096 NOVAKIT_NETWORK (cstr "virtio-net");
              OpSetState 1 NOVAKIT_ATTACHED; OpSetState 2 NOVAKIT_ATTACHED; OpFind 1] in
  ∃ bs1 os bs2 r q,
    registry_init_bytes (replicate 4104 170%Z) = Done (tt, bs1) ∧
    exec_trace call_bytes ops bs1 = Done (os, bs2) ∧
    exec_trace exec_op ops (Registry (replicate 64 zero_device) 0) = Done (os, r) ∧
    spec_trace spec_op ops [] = (os, q) ∧
    reads struct_novakit_registry_t bs2 (registry_val r) ∧ holds r q.
Proof.
  apply (novakit_on_bytes (replicate 4104 170%Z)); [reflexivity|].
  repeat constructor; try (unfold in_width; lia). by eexists.
Defined.

Lemma dirty_registry_results :
  result_of ((registry_init_bytes;;
    exec_trace call_bytes [OpFind 1; OpRegister 6900 4096 NOVAKIT_NETWORK (cstr "virtio-net");
      OpSetState 1 NOVAKIT_ATTACHED; OpFind 1]) (replicate 4104 170%Z)) =
  Some [(0, None, None); (0, Some 1, None); (0, None, None);
    (0, None, Some (DeviceView 6900 4096 NOVAKIT_NETWORK NOVAKIT_ATTACHED (Some (chars "virtio-net"))))]%Z.
Proof. vm_compute. reflexivity. Qed.
End NovaKitMemory.
