(* ===== verification/ByteOrder.v ===== *)
(** * Network byte order (nova_htonl and friends, kernel/network/network_stack.c)

    Words are unsigned integers below 2^32 or 2^16, shifted and masked as in
    the source; the specification is the reversal of their bytes. *)

From S2P Require Import Prelude Bytes.

Module ByteOrder.

Local Open Scope Z_scope.

Definition nova_htonl (hostlong : Z) : Z :=
  Z.lor (Z.lor (Z.lor
    (u32 (Z.shiftl (Z.land hostlong 0x000000FF) 24))
    (u32 (Z.shiftl (Z.land hostlong 0x0000FF00) 8)))
    (Z.shiftr (Z.land hostlong 0x00FF0000) 8))
    (Z.shiftr (Z.land hostlong 0xFF000000) 24).

Definition nova_htons (hostshort : Z) : Z :=
  u16 (Z.lor (Z.shiftl (Z.land hostshort 0x00FF) 8)
             (Z.shiftr (Z.land hostshort 0xFF00) 8)).

Definition nova_ntohl (netlong : Z) : Z := nova_htonl netlong.
Definition nova_ntohs (netshort : Z) : Z := nova_htons netshort.

(** ** Bits *)

Lemma mask_bits k x i :
  0 <= k -> 0 <= i -> Z.testbit (Z.land x (Z.shiftl 255 k)) i =
    Z.testbit x i && (bool_decide (k <= i) && bool_decide (i < k + 8)).
Proof.
  intros Hk Hi. rewrite Z.land_spec, Z.shiftl_spec by done. f_equal.
  change 255 with (Z.ones 8). case_bool_decide as H1; cbn.
  - case_bool_decide as H2; [apply Z.ones_spec_low; lia|apply Z.ones_spec_high; lia].
  - apply Z.testbit_neg_r. lia.
Qed.

(** A masked byte moved to another place. *)
Lemma byte_at k x : 0 <= k -> Z.land x (Z.shiftl 255 k) = Z.shiftl ((x / 2 ^ k) mod 256) k.
Proof.
  intros Hk. apply Z.bits_inj'. intros i Hi.
  rewrite mask_bits, Z.shiftl_spec by done. change 256 with (2 ^ 8).
  rewrite <-Z.land_ones, <-Z.shiftr_div_pow2 by lia.
  destruct (decide (k <= i)) as [Hki|Hki];
    [rewrite (bool_decide_eq_true_2 (k <= i)) by done
    |rewrite (bool_decide_eq_false_2 (k <= i)), andb_false_r by done;
     symmetry; apply Z.testbit_neg_r; lia].
  rewrite Z.land_spec, Z.shiftr_spec by lia. cbn [andb].
  replace (i - k + k) with i by lia. f_equal. case_bool_decide.
  - symmetry. apply Z.ones_spec_low. lia.
  - symmetry. apply Z.ones_spec_high. lia.
Qed.

(** Bytes in separate places: [lor] is addition. *)
Lemma lor_add a b k : 0 <= k -> 0 <= a < 2 ^ k -> Z.lor (Z.shiftl b k) a = b * 2 ^ k + a.
Proof.
  intros Hk Ha. rewrite <-Z.shiftl_mul_pow2 by done. symmetry.
  rewrite Z.add_nocarry_lxor, Z.lxor_lor; [done| |];
    (apply Z.bits_inj'; intros i Hi; rewrite Z.land_spec, Z.bits_0;
     destruct (decide (i < k)) as [Hlt|Hge];
     [rewrite Z.shiftl_spec, (Z.testbit_neg_r b) by lia; done|
      rewrite <-(Z.mod_small a (2 ^ k)), Z.mod_pow2_bits_high by lia; apply andb_false_r]).
Qed.

Lemma shift_down a k j : 0 <= j -> j <= k -> Z.shiftr (Z.shiftl a k) j = Z.shiftl a (k - j).
Proof. intros Hj Hk. by rewrite Z.shiftr_shiftl_l by lia. Qed.

Lemma nova_htonl_bytes x :
  0 <= x < 2 ^ 32 -> nova_htonl x = word_of (rev (bytes_of 4 x)).
Proof.
  intros Hx. unfold nova_htonl.
  change 0x000000FF with (Z.shiftl 255 0). change 0x0000FF00 with (Z.shiftl 255 8).
  change 0x00FF0000 with (Z.shiftl 255 16). change 0xFF000000 with (Z.shiftl 255 24).
  rewrite !byte_at by lia.
  set (b0 := (x / 2 ^ 0) mod 256). set (b1 := (x / 2 ^ 8) mod 256).
  set (b2 := (x / 2 ^ 16) mod 256). set (b3 := (x / 2 ^ 24) mod 256).
  assert (0 <= b0 < 256) by (apply Z.mod_pos_bound; lia).
  assert (0 <= b1 < 256) by (apply Z.mod_pos_bound; lia).
  assert (0 <= b2 < 256) by (apply Z.mod_pos_bound; lia).
  assert (0 <= b3 < 256) by (apply Z.mod_pos_bound; lia).
  rewrite !shift_down, !Z.shiftl_shiftl by lia. cbn [Z.add Z.sub Z.opp Z.pos_sub].
  change (0 + 24) with 24. change (8 + 8) with 16. change (16 - 8) with 8.
  change (24 - 24) with 0. rewrite Z.shiftl_0_r.
  unfold u32. rewrite !wrap_small
    by (unfold in_width; rewrite Z.shiftl_mul_pow2 by lia; lia).
  rewrite <-(Z.lor_assoc _ (Z.shiftl b2 8)), (lor_add b3 b2 8) by lia.
  rewrite <-Z.lor_assoc, (lor_add _ b1 16), (lor_add _ b0 24) by lia.
  cbn [bytes_of rev app word_of]. rewrite !Z.div_div by lia.
  change (256 * (256 * 256)) with (2 ^ 24). change (256 * 256) with (2 ^ 16).
  unfold b0, b1, b2, b3. change (2 ^ 8) with 256. rewrite Z.pow_0_r, Z.div_1_r. lia.
Qed.

Lemma nova_htons_bytes x :
  0 <= x < 2 ^ 16 -> nova_htons x = word_of (rev (bytes_of 2 x)).
Proof.
  intros Hx. unfold nova_htons.
  change 0x00FF with (Z.shiftl 255 0). change 0xFF00 with (Z.shiftl 255 8).
  rewrite !byte_at by lia.
  set (b0 := (x / 2 ^ 0) mod 256). set (b1 := (x / 2 ^ 8) mod 256).
  assert (0 <= b0 < 256) by (apply Z.mod_pos_bound; lia).
  assert (0 <= b1 < 256) by (apply Z.mod_pos_bound; lia).
  rewrite shift_down, Z.shiftl_shiftl by lia.
  change (0 + 8) with 8. change (8 - 8) with 0. rewrite Z.shiftl_0_r, lor_add by lia.
  unfold u16. rewrite wrap_small by (unfold in_width; lia).
  cbn [bytes_of rev app word_of]. unfold b0, b1. change (2 ^ 8) with 256.
  rewrite Z.pow_0_r, Z.div_1_r. lia.
Qed.

(** * Properties *)

(** C38. nova_htonl and nova_htons reverse the bytes of a 32-bit and a 16-bit
    word, stay in range, and nova_ntohl and nova_ntohs undo them: converting to
    network order and back is the identity on every word. *)
Theorem nova_byte_order (x y : Z) :
  in_width 32 x → in_width 16 y →
  (nova_htonl x = word_of (rev (bytes_of 4 x)) ∧ in_width 32 (nova_htonl x) ∧
   nova_ntohl (nova_htonl x) = x) ∧
  (nova_htons y = word_of (rev (bytes_of 2 y)) ∧ in_width 16 (nova_htons y) ∧
   nova_ntohs (nova_htons y) = y).
Proof.
  intros Hx Hy. unfold nova_ntohl, nova_ntohs.
  pose proof (swap_range 4 x) as Hrx. pose proof (swap_range 2 y) as Hry.
  rewrite (nova_htonl_bytes x), (nova_htons_bytes y) by done.
  rewrite nova_htonl_bytes, nova_htons_bytes by done.
  split; (split; [done|split; [done|by apply swap_involutive]]).
Qed.

Lemma nova_byte_order_witness :
  nova_htonl 0x0A000001 = 0x0100000A ∧ nova_htons 0x0050 = 0x5000 ∧
  (nova_htonl 0x0A000001 = word_of (rev (bytes_of 4 0x0A000001)) ∧
   in_width 32 (nova_htonl 0x0A000001) ∧
   nova_ntohl (nova_htonl 0x0A000001) = 0x0A000001) ∧
  (nova_htons 0x0050 = word_of (rev (bytes_of 2 0x0050)) ∧
   in_width 16 (nova_htons 0x0050) ∧ nova_ntohs (nova_htons 0x0050) = 0x0050).
Proof.
  split; [reflexivity|]. split; [reflexivity|].
  apply nova_byte_order; unfold in_width; lia.
Defined.

End ByteOrder.
