(* ===== verification/NetState.v ===== *)
(** * The state of the network stack and its packet buffers
      (kernel/network/network_stack.h and the skb part of network_stack.c)

    The static variables of network_stack.c and the memory its pointers reach:
    caller-owned devices, calloc'ed sockets, packet buffers and byte blocks.
    An address is never reused, so a dangling pointer is one that is no longer
    in its heap.  The type [O] of driver tables is a parameter: see NetDev.v. *)

From S2P Require Import Prelude CString LinkedList.

Definition NOVA_SOCKET_TABLE_SIZE : nat := 64.

(** enum nova_af, nova_sock_type and nova_iff. *)
Definition NOVA_AF_UNSPEC : Z := 0.
Definition NOVA_AF_UNIX : Z := 1.
Definition NOVA_AF_INET : Z := 2.
Definition NOVA_AF_INET6 : Z := 10.
Definition NOVA_SOCK_STREAM : Z := 1.
Definition NOVA_SOCK_DGRAM : Z := 2.
Definition NOVA_SOCK_RAW : Z := 3.
Definition NOVA_SOCK_SEQPACKET : Z := 5.
Definition NOVA_IFF_UP : Z := 0x1.
Definition NOVA_IFF_LOOPBACK : Z := 0x8.
Definition NOVA_IFF_RUNNING : Z := 0x40.

Record nova_net_stats : Type := Stats {
  rx_bytes : Z; rx_packets : Z; rx_errors : Z; rx_dropped : Z;
  tx_bytes : Z; tx_packets : Z; tx_errors : Z; tx_dropped : Z;
}.

Definition zero_stats : nova_net_stats := Stats 0 0 0 0 0 0 0 0.

(** [stats.rx_packets += 1; stats.rx_bytes += len] and the same for tx. *)
Definition count_rx (len : Z) (t : nova_net_stats) : nova_net_stats :=
  Stats (u64 (rx_bytes t + len)) (u64 (rx_packets t + 1)) (rx_errors t) (rx_dropped t)
    (tx_bytes t) (tx_packets t) (tx_errors t) (tx_dropped t).
Definition count_tx (len : Z) (t : nova_net_stats) : nova_net_stats :=
  Stats (rx_bytes t) (rx_packets t) (rx_errors t) (rx_dropped t)
    (u64 (tx_bytes t + len)) (u64 (tx_packets t + 1)) (tx_errors t) (tx_dropped t).

Record nova_net_device (O : Type) : Type := NetDevice {
  dev_name : list Z;
  mac : list Z;
  mtu : Z;
  dev_flags : Z;
  dev_family : Z;
  ops : option O;
  stats : nova_net_stats;
  dev_private_data : option loc;
  next : option loc;
}.
Arguments NetDevice {O}.
Arguments dev_name {O}.
Arguments mac {O}.
Arguments mtu {O}.
Arguments dev_flags {O}.
Arguments dev_family {O}.
Arguments ops {O}.
Arguments stats {O}.
Arguments dev_private_data {O}.
Arguments next {O}.

Record nova_socket : Type := Socket {
  family : Z;
  type : Z;
  protocol : Z;
  state : Z;
  flags : Z;
  sock_ops : option loc;
  private_data : option loc;
  dev : option loc;
}.

Record nova_sk_buff : Type := SkBuff {
  data : option loc;
  len : Z;
  headroom : Z;
  tailroom : Z;
  skb_dev : option loc;
  hash : Z;
  skb_protocol : Z;
  skb_priority : Z;
  error : Z;
}.

(** [calloc_results]: whether the allocations to come succeed (all do once the
    list is used up); [brk]: the next fresh address. *)
Record net_state (O : Type) : Type := NetState {
  g_nova_netdev_registry : option loc;
  g_socket_table : list (option loc);
  g_next_socket_fd : Z;
  g_network_initialized : Z;
  netdevs : gmap loc (nova_net_device O);
  sockets : gmap loc nova_socket;
  skbs : gmap loc nova_sk_buff;
  blocks : gmap loc (list Z);
  brk : loc;
  calloc_results : list bool;
}.
Arguments NetState {O}.
Arguments g_nova_netdev_registry {O}.
Arguments g_socket_table {O}.
Arguments g_next_socket_fd {O}.
Arguments g_network_initialized {O}.
Arguments netdevs {O}.
Arguments sockets {O}.
Arguments skbs {O}.
Arguments blocks {O}.
Arguments brk {O}.
Arguments calloc_results {O}.

#[export] Instance net_device_linked {O} : Linked (nova_net_device O) := {|
  node_next := next;
  set_node_next p d := NetDevice (dev_name d) (mac d) (mtu d) (dev_flags d) (dev_family d)
    (ops d) (stats d) (dev_private_data d) p;
  node_next_set p d := eq_refl;
|}.

Section net.
Context {O : Type}.
Implicit Types (s : net_state O) (d : nova_net_device O).

(** ** Field assignments *)

Definition set_flags (f : Z) d : nova_net_device O :=
  NetDevice (dev_name d) (mac d) (mtu d) f (dev_family d) (ops d) (stats d)
    (dev_private_data d) (next d).
Definition set_stats (t : nova_net_stats) d : nova_net_device O :=
  NetDevice (dev_name d) (mac d) (mtu d) (dev_flags d) (dev_family d) (ops d) t
    (dev_private_data d) (next d).

Definition set_registry (p : option loc) s : net_state O :=
  NetState p (g_socket_table s) (g_next_socket_fd s) (g_network_initialized s)
    (netdevs s) (sockets s) (skbs s) (blocks s) (brk s) (calloc_results s).
Definition set_table (t : list (option loc)) s : net_state O :=
  NetState (g_nova_netdev_registry s) t (g_next_socket_fd s) (g_network_initialized s)
    (netdevs s) (sockets s) (skbs s) (blocks s) (brk s) (calloc_results s).
Definition set_next_fd (fd : Z) s : net_state O :=
  NetState (g_nova_netdev_registry s) (g_socket_table s) fd (g_network_initialized s)
    (netdevs s) (sockets s) (skbs s) (blocks s) (brk s) (calloc_results s).
Definition set_initialized (b : Z) s : net_state O :=
  NetState (g_nova_netdev_registry s) (g_socket_table s) (g_next_socket_fd s) b
    (netdevs s) (sockets s) (skbs s) (blocks s) (brk s) (calloc_results s).
Definition set_netdevs (h : gmap loc (nova_net_device O)) s : net_state O :=
  NetState (g_nova_netdev_registry s) (g_socket_table s) (g_next_socket_fd s)
    (g_network_initialized s) h (sockets s) (skbs s) (blocks s) (brk s) (calloc_results s).
Definition set_sockets (h : gmap loc nova_socket) s : net_state O :=
  NetState (g_nova_netdev_registry s) (g_socket_table s) (g_next_socket_fd s)
    (g_network_initialized s) (netdevs s) h (skbs s) (blocks s) (brk s) (calloc_results s).
Definition set_skbs (h : gmap loc nova_sk_buff) s : net_state O :=
  NetState (g_nova_netdev_registry s) (g_socket_table s) (g_next_socket_fd s)
    (g_network_initialized s) (netdevs s) (sockets s) h (blocks s) (brk s) (calloc_results s).
Definition set_blocks (h : gmap loc (list Z)) s : net_state O :=
  NetState (g_nova_netdev_registry s) (g_socket_table s) (g_next_socket_fd s)
    (g_network_initialized s) (netdevs s) (sockets s) (skbs s) h (brk s) (calloc_results s).
Definition set_brk (l : loc) s : net_state O :=
  NetState (g_nova_netdev_registry s) (g_socket_table s) (g_next_socket_fd s)
    (g_network_initialized s) (netdevs s) (sockets s) (skbs s) (blocks s) l (calloc_results s).
Definition set_calloc (r : list bool) s : net_state O :=
  NetState (g_nova_netdev_registry s) (g_socket_table s) (g_next_socket_fd s)
    (g_network_initialized s) (netdevs s) (sockets s) (skbs s) (blocks s) (brk s) r.

(** ** Memory *)

Definition get_dev (l : loc) : M (net_state O) (nova_net_device O) :=
  s ← gets (λ s, s); the (netdevs s !! l).
Definition put_dev (l : loc) d : M (net_state O) unit :=
  get_dev l;; modify (λ s, set_netdevs (<[l := d]> (netdevs s)) s).

Definition get_socket (l : loc) : M (net_state O) nova_socket :=
  s ← gets (λ s, s); the (sockets s !! l).
Definition put_socket (l : loc) (k : nova_socket) : M (net_state O) unit :=
  get_socket l;; modify (λ s, set_sockets (<[l := k]> (sockets s)) s).

Definition get_skb (l : loc) : M (net_state O) nova_sk_buff :=
  s ← gets (λ s, s); the (skbs s !! l).
Definition put_skb (l : loc) (b : nova_sk_buff) : M (net_state O) unit :=
  get_skb l;; modify (λ s, set_skbs (<[l := b]> (skbs s)) s).

(** calloc: NULL, or a fresh address at which [store] puts the zeroed object. *)
Definition calloc (store : loc → net_state O → net_state O) : M (net_state O) (option loc) :=
  s ← gets (λ s, s);
  let ok := match calloc_results s with [] => true | b :: _ => b end in
  modify (set_calloc (tail (calloc_results s)));;
  if ok then
    modify (set_brk (S (brk s)));;
    modify (store (brk s));;
    mret (Some (brk s))
  else mret None.

Definition store_socket (k : nova_socket) (l : loc) s : net_state O :=
  set_sockets (<[l := k]> (sockets s)) s.
Definition store_skb (b : nova_sk_buff) (l : loc) s : net_state O :=
  set_skbs (<[l := b]> (skbs s)) s.
Definition store_block (n : nat) (l : loc) s : net_state O :=
  set_blocks (<[l := replicate n 0%Z]> (blocks s)) s.

(** free: NULL is allowed, an address that is not allocated is not. *)
Definition free_block (p : option loc) : M (net_state O) unit :=
  match p with
  | None => mret tt
  | Some l =>
      s ← gets (λ s, s);
      the (blocks s !! l);;
      modify (λ s, set_blocks (delete l (blocks s)) s)
  end.
Definition free_skb_struct (l : loc) : M (net_state O) unit :=
  get_skb l;; modify (λ s, set_skbs (delete l (skbs s)) s).
Definition free_socket_struct (l : loc) : M (net_state O) unit :=
  get_socket l;; modify (λ s, set_sockets (delete l (sockets s)) s).

(** ** Packet buffers *)

Definition zero_skb : nova_sk_buff := SkBuff None 0 0 0 None 0 0 0 0.
Definition zero_socket : nova_socket := Socket 0 0 0 0 0 None None None.

Definition nova_alloc_skb (size : Z) : M (net_state O) (option loc) :=
  p ← calloc (store_skb zero_skb);
  match p with
  | None => mret None
  | Some skb =>
      block ← calloc (store_block (if decide (size = 0)%Z then 1 else Z.to_nat size));
      match block with
      | None => free_skb_struct skb;; mret None
      | Some b => put_skb skb (SkBuff (Some b) size 0 0 None 0 0 0 0);; mret (Some skb)
      end
  end.

Definition nova_free_skb (skb : option loc) : M (net_state O) unit :=
  match skb with
  | None => mret tt
  | Some l => b ← get_skb l; free_block (data b);; free_skb_struct l
  end.

Definition set_error (e : Z) (b : nova_sk_buff) : nova_sk_buff :=
  SkBuff (data b) (len b) (headroom b) (tailroom b) (skb_dev b) (hash b) (skb_protocol b)
    (skb_priority b) e.

Definition nova_netif_receive_skb (skb : option loc) : M (net_state O) Z :=
  match skb with
  | None => mret (-1)%Z
  | Some l =>
      b ← get_skb l;
      match skb_dev b with
      | None => mret tt
      | Some dl => d ← get_dev dl; put_dev dl (set_stats (count_rx (len b) (stats d)) d)
      end;;
      b ← get_skb l;
      put_skb l (set_error 0 b);;
      mret 0%Z
  end.
End net.
