(* ===== verification/NetDev.v ===== *)
(** * Network devices: the driver interface and the device registry
      (struct nova_net_device_ops and the nova_netdev_* functions)

    A driver is a table of functions.  The stack is written against the class
    [NetDrivers]; its theorems need the promises of [NetDriversOk], which
    Drivers.v proves for the two drivers of the repository.  The registry is a
    linked list of caller-owned devices; it refines a list of addresses with
    pairwise distinct names. *)

From S2P Require Import Prelude CString LinkedList NetState.

Module NetDev.

(** struct nova_net_device_ops: the functions a table [o] holds, NULL is
    [None]; pointer arguments may be NULL. *)
Class NetDrivers (O : Type) := {
  op_open : O → option (option loc → M (net_state O) Z);
  op_stop : O → option (option loc → M (net_state O) Z);
  op_start_xmit : O → option (option loc → option loc → M (net_state O) Z);
  op_set_mac : O → option (option loc → list Z → M (net_state O) Z);
  op_get_stats : O → option (option loc → option nova_net_stats →
    M (net_state O) (Z * option nova_net_stats));
}.

(** ** Devices up to flags and statistics

    What drivers may change of a device without the registry noticing. *)

Section same.
Context {O : Type}.
Implicit Types (h : gmap loc (nova_net_device O)).

Definition core (d : nova_net_device O) : nova_net_device O :=
  set_flags 0 (set_stats zero_stats d).

Record same_devs h1 h2 : Prop := { same_cores : core <$> h1 = core <$> h2 }.

#[export] Instance same_devs_equiv : Equivalence same_devs.
Proof.
  split; [intros h|intros h1 h2 []|intros h1 h2 h3 [] []]; split; congruence.
Qed.

Lemma same_lookup h1 h2 l d1 :
  same_devs h1 h2 → h1 !! l = Some d1 → ∃ d2, h2 !! l = Some d2 ∧ core d1 = core d2.
Proof.
  intros [H] Hl. apply (f_equal (lookup l)) in H. rewrite !lookup_fmap, Hl in H.
  destruct (h2 !! l) as [d2|]; [|done]. exists d2. split; [done|]. by apply (inj Some) in H.
Qed.

Lemma core_fields d1 d2 :
  core d1 = core d2 →
  dev_name d1 = dev_name d2 ∧ ops d1 = ops d2 ∧ next d1 = next d2.
Proof. by intros [=]. Qed.

(** A device rewritten in its flags and statistics only. *)
Lemma same_insert h l d d' :
  h !! l = Some d → core d' = core d → same_devs (<[l := d']> h) h.
Proof.
  intros Hl Hc. split. rewrite fmap_insert, Hc.
  apply insert_id. by rewrite lookup_fmap, Hl.
Qed.

#[export] Instance chain_same :
  Proper (same_devs ==> eq ==> eq ==> iff) (@chain (nova_net_device O) _).
Proof.
  assert (∀ h1 h2 p ls, same_devs h1 h2 → chain h1 p ls → chain h2 p ls) as Himp.
  { intros h1 h2 p ls [H]. apply chain_frame. intros l _.
    apply (f_equal (lookup l)) in H. rewrite !lookup_fmap in H.
    destruct (h1 !! l) as [d1|], (h2 !! l) as [d2|]; try done.
    apply (inj Some), core_fields in H as (Hn & _ & Hx). cbn. by rewrite ?Hn, ?Hx. }
  intros h1 h2 H p ? <- ls ? <-. split; apply Himp; [done|by symmetry].
Qed.

(** The name of the device at [l], as a string. *)
Definition dev_string h (l : loc) : option (list Z) :=
  d ← h !! l; c_string (dev_name d).

#[export] Instance dev_string_same : Proper (same_devs ==> eq ==> eq) dev_string.
Proof.
  intros h1 h2 [H] l ? <-. apply (f_equal (lookup l)) in H.
  rewrite !lookup_fmap in H. unfold dev_string.
  destruct (h1 !! l) as [d1|], (h2 !! l) as [d2|]; try done.
  apply (inj Some), core_fields in H as (Hn & _ & Hx). cbn. by rewrite ?Hn, ?Hx.
Qed.

Lemma dev_string_insert h l d l' :
  dev_string h l = c_string (dev_name d) → dev_string (<[l := d]> h) l' = dev_string h l'.
Proof.
  intros H. unfold dev_string at 1. rewrite lookup_insert. case_decide as E; [|done].
  by rewrite <-E, H.
Qed.
Lemma dev_string_next h l d q l' :
  h !! l = Some d → dev_string (<[l := set_node_next q d]> h) l' = dev_string h l'.
Proof. intros H. apply dev_string_insert. unfold dev_string. by rewrite H. Qed.

(** Only next pointers differ. *)
Definition relinked h h' : Prop :=
  ∀ l, set_node_next None <$> h' !! l = set_node_next None <$> h !! l.

Lemma relinked_next h h' l d q :
  relinked h h' → h' !! l = Some d → relinked h (<[l := set_node_next q d]> h').
Proof.
  intros Hr Hl l'. rewrite <-Hr, lookup_insert. destruct (decide (l = l')) as [<-|]; [|done].
  by rewrite Hl.
Qed.

Lemma relinked_string h h' l : relinked h h' → dev_string h' l = dev_string h l.
Proof.
  intros Hr. specialize (Hr l). unfold dev_string.
  destruct (h' !! l) as [d'|], (h !! l) as [d|]; try done. cbn in *.
  apply (inj Some) in Hr. apply (f_equal dev_name) in Hr. cbn in Hr. by rewrite Hr.
Qed.

Lemma relinked_dom h h' l : relinked h h' → is_Some (h !! l) → is_Some (h' !! l).
Proof.
  intros Hr [d Hd]. specialize (Hr l). rewrite Hd in Hr.
  destruct (h' !! l); [by eexists|done].
Qed.
End same.

(** ** What the stack relies on *)

(** Packet [sl] is a live buffer for device [dl], with its data in block [bl]. *)
Definition packet {O} (s : net_state O) (sl bl dl : loc) (b : nova_sk_buff) : Prop :=
  skbs s !! sl = Some b ∧ data b = Some bl ∧ is_Some (blocks s !! bl) ∧ skb_dev b = Some dl.

(** A transmission with result [r]: devices change in flags and statistics; the
    packet is freed with its data, or it is left alone, which it must be when
    the result is not 0; nothing else changes. *)
Inductive transmitted {O} (sl bl : loc) (s : net_state O) : Z → net_state O → Prop :=
  | packet_kept r h b :
      same_devs h (netdevs s) → data b = Some bl →
      transmitted sl bl s r (set_skbs (<[sl := b]> (skbs s)) (set_netdevs h s))
  | packet_freed h :
      same_devs h (netdevs s) →
      transmitted sl bl s 0%Z (set_blocks (delete bl (blocks s))
        (set_skbs (delete sl (skbs s)) (set_netdevs h s))).

Class NetDriversOk (O : Type) `{!NetDrivers O} : Prop := {
  open_ok o f l (s : net_state O) :
    op_open o = Some f → is_Some (netdevs s !! l) →
    ∃ r h, f (Some l) s = Done (r, set_netdevs h s) ∧ same_devs h (netdevs s);
  start_xmit_ok o f dl sl bl b (s : net_state O) :
    op_start_xmit o = Some f → is_Some (netdevs s !! dl) → packet s sl bl dl b →
    ∃ r s', f (Some dl) (Some sl) s = Done (r, s') ∧ transmitted sl bl s r s';
}.

(** ** The registry functions *)

Section registry.
Context {O : Type} `{!NetDrivers O}.
Implicit Types (s : net_state O).

Definition get_next (l : loc) : M (net_state O) (option loc) := d ← get_dev l; mret (next d).

(** Every walk visits each device once: one more step than there are devices
    is reached only by a walk that does not end. *)
Definition registry_fuel s : nat := S (size (netdevs s)).

Definition nova_netdev_register (dev : option loc) : M (net_state O) Z :=
  match dev with
  | None => mret (-1)%Z
  | Some l =>
      d ← get_dev l;
      c ← the (dev_name d !! 0);
      if decide (c = 0)%Z then mret (-1)%Z
      else
        s ← gets (λ s, s);
        found ← walk get_next (registry_fuel s) (g_nova_netdev_registry s) tt (λ _ curr,
          c ← get_dev curr;
          d ← get_dev l;
          equal ← the (strcmp_eq (dev_name c) (dev_name d));
          mret (if (equal : bool) then inl (-1)%Z else inr tt));
        match found with
        | inl r => mret r
        | inr _ =>
            d ← get_dev l;
            put_dev l (set_node_next (g_nova_netdev_registry s) d);;
            modify (set_registry (Some l));;
            d ← get_dev l;
            match ops d ≫= op_open with
            | None => mret tt
            | Some open => open (Some l);; mret tt
            end;;
            mret 0%Z
        end
  end.

(** The body of the loop of nova_netdev_unregister. *)
Definition unregister_step (l : loc) (prev : option loc) (curr : loc)
    : M (net_state O) (Z + option loc) :=
  if decide (curr = l) then
    c ← get_dev curr;
    match prev with
    | None => modify (set_registry (next c))
    | Some p => d ← get_dev p; put_dev p (set_node_next (next c) d)
    end;;
    c ← get_dev curr;
    put_dev curr (set_node_next None c);;
    mret (inl 0%Z)
  else mret (inr (Some curr)).

Definition nova_netdev_unregister (dev : option loc) : M (net_state O) Z :=
  s ← gets (λ s, s);
  match dev with
  | None => mret (-1)%Z
  | Some l =>
      found ← walk get_next (registry_fuel s) (g_nova_netdev_registry s) None
        (unregister_step l);
      mret (match found with inl r => r | inr _ => (-1)%Z end)
  end.

Definition nova_netdev_find (name : option (list Z)) : M (net_state O) (option loc) :=
  match name with
  | None => mret None
  | Some name =>
      s ← gets (λ s, s);
      found ← walk get_next (registry_fuel s) (g_nova_netdev_registry s) tt (λ _ dev,
        d ← get_dev dev;
        equal ← the (strcmp_eq (dev_name d) name);
        mret (if (equal : bool) then inl dev else inr tt));
      mret (match found with inl dev => Some dev | inr _ => None end)
  end.

Definition nova_network_init : M (net_state O) Z :=
  modify (set_table (replicate NOVA_SOCKET_TABLE_SIZE None));;
  modify (set_next_fd 1);;
  modify (set_initialized 1);;
  modify (set_registry None);;
  mret 0%Z.

(** [next = dev->next; dev->next = NULL; dev = next] until NULL. *)
Fixpoint unlink_all (fuel : nat) (dev : option loc) : M (net_state O) unit :=
  match dev with
  | None => mret tt
  | Some l =>
      match fuel with
      | 0 => no_fuel
      | S fuel =>
          d ← get_dev l;
          put_dev l (set_node_next None d);;
          unlink_all fuel (next d)
      end
  end.

Definition nova_network_shutdown : M (net_state O) Z :=
  s ← gets (λ s, s);
  unlink_all (registry_fuel s) (g_nova_netdev_registry s);;
  modify (set_registry None);;
  modify (set_initialized 0);;
  mret 0%Z.

Definition nova_dev_queue_xmit (skb : option loc) : M (net_state O) Z :=
  match skb with
  | None => mret (-1)%Z
  | Some sl =>
      b ← get_skb sl;
      match skb_dev b with
      | None => mret (-1)%Z
      | Some dl =>
          d ← get_dev dl;
          match ops d ≫= op_start_xmit with
          | None => mret (-1)%Z
          | Some start_xmit => start_xmit (Some dl) (Some sl)
          end
      end
  end.

End registry.

(** ** Registry lemmas *)

Section lemmas.
Context {O : Type} `{!NetDrivers O}.
Implicit Types (s : net_state O).

Lemma get_dev_run l d s : netdevs s !! l = Some d → get_dev l s = Done (d, s).
Proof. intros H. unfold get_dev. run. by apply the_Some. Qed.

Lemma put_dev_run l d d' s :
  netdevs s !! l = Some d → put_dev l d' s = Done (tt, set_netdevs (<[l := d']> (netdevs s)) s).
Proof. intros H. unfold put_dev. by bind (get_dev_run _ _ _ H). Qed.

Lemma get_next_run l d s : netdevs s !! l = Some d → get_next l s = Done (node_next d, s).
Proof. intros H. unfold get_next. by bind (get_dev_run _ _ _ H). Qed.

Lemma registry_fuel_enough s p ls : chain (netdevs s) p ls → length ls < registry_fuel s.
Proof. intros H%chain_size. unfold registry_fuel. lia. Qed.

Lemma dev_string_Some (h : gmap loc (nova_net_device O)) l n :
  dev_string h l = Some n → ∃ d, h !! l = Some d ∧ c_string (dev_name d) = Some n.
Proof. unfold dev_string. destruct (h !! l) as [d|] eqn:E; [|done]. by exists d. Qed.

(** Every device of the list has a terminated name. *)
Definition names_ok s (ls : list loc) : Prop :=
  Forall (λ l, is_Some (dev_string (netdevs s) l)) ls.

(** The first device called [n]. *)
Definition holder s (n : list Z) (ls : list loc) : option loc :=
  snd <$> list_find (λ l, dev_string (netdevs s) l = Some n) ls.

(** The loops compare with the name of each device in turn. *)
Lemma find_walk {R} (v : loc → R) body n s p ls :
  chain (netdevs s) p ls → names_ok s ls →
  (∀ l d m, l ∈ ls → netdevs s !! l = Some d → c_string (dev_name d) = Some m →
    body tt l s = Done (if bool_decide (m = n) then inl (v l) else inr tt, s)) →
  walk get_next (registry_fuel s) p tt body s =
    Done (match holder s n ls with Some l => inl (v l) | None => inr tt end, s).
Proof.
  intros Hc Hn Hb.
  rewrite (walk_find netdevs get_next get_next_run (λ l, dev_string (netdevs s) l = Some n) v
    _ _ body s ls tt Hc).
  - unfold holder. by destruct (list_find _ ls) as [[]|].
  - by eapply registry_fuel_enough.
  - intros l Hl. apply (proj1 (Forall_forall _ _) Hn) in Hl as Hm. destruct Hm as [m Hm].
    destruct (dev_string_Some _ _ _ Hm) as (d & Hd & Hdm).
    rewrite (Hb l d m) by done. rewrite Hm.
    destruct (decide (Some m = Some n)) as [[= ->]|Hne].
    + by rewrite bool_decide_eq_true_2.
    + rewrite bool_decide_eq_false_2; [done|congruence].
Qed.

Lemma nova_netdev_find_run name n s ls :
  chain (netdevs s) (g_nova_netdev_registry s) ls → names_ok s ls → c_string name = Some n →
  nova_netdev_find (Some name) s = Done (holder s n ls, s).
Proof.
  intros Hc Hn Hname. unfold nova_netdev_find. run.
  bind by (apply (find_walk id _ n _ _ _ Hc Hn); intros l d m _ Hd Hm;
    bind (get_dev_run _ _ _ Hd); bind (the_Some _ _ _ (strcmp_eq_Some _ _ _ _ Hm Hname)); done).
  run. by destruct (holder s n ls).
Qed.

(** The device linked in front of the registry. *)
Definition linked (l : loc) (d : nova_net_device O) s : net_state O :=
  set_registry (Some l)
    (set_netdevs (<[l := set_node_next (g_nova_netdev_registry s) d]> (netdevs s)) s).

(** Registering: refused without a name, refused when the name is taken,
    otherwise the device becomes the head and is opened. *)
Lemma nova_netdev_register_links l d n s ls :
  chain (netdevs s) (g_nova_netdev_registry s) ls → names_ok s ls →
  netdevs s !! l = Some d → c_string (dev_name d) = Some n →
  nova_netdev_register (Some l) s =
    if decide (n = [] ∨ is_Some (holder s n ls)) then Done ((-1)%Z, s)
    else (match ops d ≫= op_open with
          | None => mret tt
          | Some open => open (Some l);; mret tt
          end;; mret 0%Z) (linked l d s).
Proof.
  intros Hc Hn Hd Hname. unfold nova_netdev_register.
  bind (get_dev_run _ _ _ Hd). destruct (c_string_head _ _ Hname) as (c & Hc0 & Hempty).
  bind (the_Some _ _ _ Hc0).
  destruct (decide (c = 0%Z)) as [H0|H0].
  { rewrite decide_True by (left; by apply Hempty). done. }
  run. bind by (apply (find_walk (λ _, (-1)%Z) _ n _ _ _ Hc Hn); intros l' d' m _ Hd' Hm;
    bind (get_dev_run _ _ _ Hd'); bind (get_dev_run _ _ _ Hd);
    bind (the_Some _ _ _ (strcmp_eq_Some _ _ _ _ Hm Hname)); done).
  destruct (holder s n ls) as [l'|] eqn:Hh.
  { rewrite decide_True by (right; by eexists). done. }
  rewrite decide_False by (intros [?%Hempty|[? ?]]; done).
  bind (get_dev_run _ _ _ Hd). bind (put_dev_run _ _ _ _ Hd). run.
  change (set_registry _ _) with (linked l d s).
  bind by (apply get_dev_run, lookup_insert_eq). done.
Qed.

Lemma nova_netdev_register_run `{!NetDriversOk O} l d n s ls :
  chain (netdevs s) (g_nova_netdev_registry s) ls → names_ok s ls →
  netdevs s !! l = Some d → c_string (dev_name d) = Some n →
  if decide (n = [] ∨ is_Some (holder s n ls))
  then nova_netdev_register (Some l) s = Done ((-1)%Z, s)
  else ∃ h, nova_netdev_register (Some l) s =
      Done (0%Z, set_netdevs h (set_registry (Some l) s)) ∧
    same_devs h (<[l := set_node_next (g_nova_netdev_registry s) d]> (netdevs s)).
Proof.
  intros Hc Hn Hd Hname. rewrite (nova_netdev_register_links l d n s ls) by done.
  destruct (decide (n = [] ∨ is_Some (holder s n ls))); [done|].
  destruct (ops d ≫= op_open) as [open|] eqn:Hopen; run; [|by eexists].
  apply bind_Some in Hopen as (o & _ & Hopen).
  destruct (open_ok o open l (linked l d s) Hopen) as (r & h & Hrun & Hsame).
  { eexists. apply lookup_insert_eq. }
  exists h. bind Hrun. run. done.
Qed.

(** Unregistering a device that is not in the list. *)
Lemma nova_netdev_unregister_absent l s ls :
  chain (netdevs s) (g_nova_netdev_registry s) ls → l ∉ ls →
  nova_netdev_unregister (Some l) s = Done ((-1)%Z, s).
Proof.
  intros Hc Hl. unfold nova_netdev_unregister. run.
  bind by (apply (walk_through netdevs get_next get_next_run (λ _, Some) _ _ _ _ _ ls Hc);
    [by eapply registry_fuel_enough|];
    intros a l' Hl'; unfold unregister_step; rewrite decide_False by congruence; done).
  done.
Qed.

(** The step that reaches the device unlinks it, from the head or from the
    device before it. *)
Lemma unregister_step_run l s ls1 ls2 :
  chain (netdevs s) (g_nova_netdev_registry s) (ls1 ++ l :: ls2) →
  ∃ p h, unregister_step l (last ls1) l s =
      Done (inl 0%Z, set_netdevs h (set_registry p s)) ∧
    chain h p (ls1 ++ ls2) ∧ next <$> h !! l = Some None ∧
    relinked (netdevs s) h.
Proof.
  intros Hc. pose proof (chain_NoDup _ _ _ Hc) as Hnd.
  destruct (chain_lookup _ _ _ l Hc) as [d Hd]; [set_solver|].
  unfold unregister_step. rewrite decide_True by done. bind (get_dev_run _ _ _ Hd).
  destruct (last ls1) as [p|] eqn:Hlast.
  - apply last_Some in Hlast as [ls ->]. rewrite <-app_assoc in Hc, Hnd. cbn in Hc, Hnd.
    destruct (chain_lookup _ _ _ p Hc) as [dp Hdp]; [set_solver|].
    assert (p ≠ l) as Hpl by (apply NoDup_app in Hnd as (_ & _ & [Hnd _]%NoDup_cons); set_solver).
    pose proof (chain_unlink _ _ _ _ _ _ _ _ Hc Hdp Hd) as Hc'.
    run. bind (get_dev_run _ _ _ Hdp). bind (put_dev_run _ _ _ _ Hdp).
    set (s1 := set_netdevs _ s).
    assert (netdevs s1 !! l = Some d) as Hd1 by (by cbn; rewrite lookup_insert_ne).
    bind (get_dev_run _ _ _ Hd1). bind (put_dev_run _ _ _ _ Hd1). run.
    eexists _, _. split; [done|]. split_and!.
    + rewrite <-app_assoc. cbn. apply chain_insert_other; [|exact Hc'].
      apply NoDup_app in Hnd as (_ & Hnd1 & Hnd2). 
      apply NoDup_cons in Hnd2 as [Hp Hnd2]. apply NoDup_cons in Hnd2 as [Hl2 _].
      rewrite not_elem_of_app, not_elem_of_cons. split_and!; [|done|done].
      intros Hin. apply (Hnd1 _ Hin). set_solver.
    + by rewrite lookup_insert_eq.
    + apply relinked_next; [|done]. by apply relinked_next.
  - apply last_None in Hlast as ->. cbn in Hc, Hnd.
    destruct Hc as [Hreg (d' & Hd' & Hc)]. rewrite Hd in Hd'. injection Hd' as <-. run.
    set (s1 := set_registry _ s).
    assert (netdevs s1 !! l = Some d) as Hd1 by done.
    bind (get_dev_run _ _ _ Hd1). bind (put_dev_run _ _ _ _ Hd1). run.
    eexists _, _. split; [done|]. split_and!.
    + cbn. apply chain_insert_other; [|exact Hc]. by apply NoDup_cons in Hnd as [].
    + by rewrite lookup_insert_eq.
    + by apply relinked_next.
Qed.

Lemma nova_netdev_unregister_run l s ls1 ls2 :
  chain (netdevs s) (g_nova_netdev_registry s) (ls1 ++ l :: ls2) →
  ∃ p h, nova_netdev_unregister (Some l) s =
      Done (0%Z, set_netdevs h (set_registry p s)) ∧
    chain h p (ls1 ++ ls2) ∧ next <$> h !! l = Some None ∧
    relinked (netdevs s) h.
Proof.
  intros Hc. destruct (unregister_step_run _ _ _ _ Hc) as (p & h & Hstep & Hrest).
  exists p, h. split; [|exact Hrest].
  unfold nova_netdev_unregister. run.
  destruct (walk_until netdevs get_next get_next_run (λ _, Some)
    (registry_fuel s) _ None (unregister_step l) s ls1 l ls2 Hc) as [fuel Hw].
  - by eapply registry_fuel_enough.
  - intros a l' Hl'. unfold unregister_step. rewrite decide_False; [done|].
    apply chain_NoDup, NoDup_app in Hc as (_ & Hnd & _). intros ->.
    apply (Hnd _ Hl'). constructor.
  - bind by (rewrite Hw, foldl_last;
      replace (match last ls1 with Some l => Some l | None => None end) with (last ls1)
        by (by destruct (last ls1)); bind Hstep; done).
    done.
Qed.

(** ** Shutting down *)

Lemma set_netdevs_id s : set_netdevs (netdevs s) s = s.
Proof. by destruct s. Qed.

(** The loop clears the next pointer of every device of the list. *)
Lemma unlink_all_run fuel p s ls :
  chain (netdevs s) p ls → length ls ≤ fuel →
  ∃ h, unlink_all fuel p s = Done (tt, set_netdevs h s) ∧
    (∀ l, l ∈ ls → h !! l = set_node_next None <$> netdevs s !! l) ∧
    (∀ l, l ∉ ls → h !! l = netdevs s !! l).
Proof.
  revert p s ls. induction fuel as [|fuel IH]; intros p s ls Hc Hf.
  { destruct ls; [|cbn in Hf; lia]. cbn in Hc. subst p. exists (netdevs s).
    rewrite set_netdevs_id. split_and!; [done|by intros l ?%elem_of_nil|done]. }
  destruct ls as [|l ls].
  { cbn in Hc. subst p. exists (netdevs s). cbn. rewrite set_netdevs_id.
    split_and!; [done|by intros l ?%elem_of_nil|done]. }
  pose proof (chain_NoDup _ _ _ Hc) as [Hl Hnd]%NoDup_cons.
  destruct Hc as [-> (d & Hd & Hc)]. cbn [unlink_all].
  bind (get_dev_run _ _ _ Hd). bind (put_dev_run _ _ _ _ Hd).
  destruct (IH (next d) (set_netdevs (<[l := set_node_next None d]> (netdevs s)) s) ls)
    as (h & Hrun & Hin & Hout); [by apply chain_insert_other|cbn in Hf; lia|].
  exists h. rewrite Hrun. cbn [netdevs set_netdevs] in *. split_and!; [done| |].
  - intros l' [->|Hl']%elem_of_cons.
    + by rewrite Hout, lookup_insert_eq, Hd.
    + rewrite Hin, lookup_insert_ne by (done || set_solver). done.
  - intros l' [Hne Hl']%not_elem_of_cons. by rewrite Hout, lookup_insert_ne.
Qed.

Lemma nova_network_shutdown_run s ls :
  chain (netdevs s) (g_nova_netdev_registry s) ls →
  ∃ h, nova_network_shutdown s =
      Done (0%Z, set_initialized 0 (set_registry None (set_netdevs h s))) ∧
    (∀ l, l ∈ ls → h !! l = set_node_next None <$> netdevs s !! l) ∧
    (∀ l, l ∉ ls → h !! l = netdevs s !! l).
Proof.
  intros Hc. destruct (unlink_all_run (registry_fuel s) _ s ls Hc) as (h & Hrun & Hh).
  { apply Nat.lt_le_incl. by eapply registry_fuel_enough. }
  exists h. split; [|done]. unfold nova_network_shutdown. run. by bind Hrun.
Qed.

Lemma unlinked_relinked (h h' : gmap loc (nova_net_device O)) (ls : list loc) :
  (∀ l, l ∈ ls → h' !! l = set_node_next None <$> h !! l) →
  (∀ l, l ∉ ls → h' !! l = h !! l) → relinked h h'.
Proof.
  intros Hin Hout l. destruct (decide (l ∈ ls)) as [Hl|Hl].
  - rewrite (Hin _ Hl). by destruct (h !! l).
  - by rewrite (Hout _ Hl).
Qed.

End lemmas.

(** ** The specification: a list of devices with distinct names *)

Inductive registry_op : Type :=
  | OpInit
  | OpShutdown
  | OpRegister (dev : option loc)
  | OpUnregister (dev : option loc)
  | OpFind (name : option (list Z)).

(** The return code and the device found. *)
Abbreviation observation := (Z * option loc)%type.

Definition exec_op {O} `{!NetDrivers O} (op : registry_op) : M (net_state O) observation :=
  match op with
  | OpInit => r ← nova_network_init; mret (r, None)
  | OpShutdown => r ← nova_network_shutdown; mret (r, None)
  | OpRegister dev => r ← nova_netdev_register dev; mret (r, None)
  | OpUnregister dev => r ← nova_netdev_unregister dev; mret (r, None)
  | OpFind name => p ← nova_netdev_find name; mret (0%Z, p)
  end.

(** [names] gives the name of every device the callers own. *)
Section spec.
Variable names : gmap loc (list Z).

Definition registered_as (n : list Z) (q : list loc) : option loc :=
  snd <$> list_find (λ l, names !! l = Some n) q.

Definition spec_register (l : loc) (q : list loc) : observation * list loc :=
  match names !! l with
  | Some n =>
      if decide (n = [] ∨ is_Some (registered_as n q)) then (((-1)%Z, None), q)
      else ((0%Z, None), l :: q)
  | None => (((-1)%Z, None), q)
  end.

Definition spec_op (op : registry_op) (q : list loc) : observation * list loc :=
  match op with
  | OpInit | OpShutdown => ((0%Z, None), [])
  | OpRegister (Some l) => spec_register l q
  | OpUnregister (Some l) =>
      if decide (l ∈ q) then ((0%Z, None), filter (λ l', l' ≠ l) q)
      else (((-1)%Z, None), q)
  | OpRegister None | OpUnregister None => (((-1)%Z, None), q)
  | OpFind (Some name) =>
      ((0%Z, match c_string name with Some n => registered_as n q | None => None end), q)
  | OpFind None => ((0%Z, None), q)
  end.

(** Arguments: devices of the callers, strings that end. *)
Definition op_ok (op : registry_op) : Prop :=
  match op with
  | OpRegister (Some l) => is_Some (names !! l)
  | OpFind (Some name) => is_Some (c_string name)
  | _ => True
  end.

Record holds {O} (s : net_state O) (q : list loc) : Prop := {
  holds_chain : chain (netdevs s) (g_nova_netdev_registry s) q;
  holds_names : ∀ l n, names !! l = Some n → dev_string (netdevs s) l = Some n;
  holds_known : ∀ l, l ∈ q → ∃ n, names !! l = Some n ∧ n ≠ [];
  holds_unique : NoDup ((names !!.) <$> q);
}.
End spec.

(** ** The refinement *)

Section refinement.
Context {O : Type} `{!NetDrivers O} `{!NetDriversOk O} (names : gmap loc (list Z)).
Implicit Types (s : net_state O) (q : list loc).

Lemma holds_names_ok s q : holds names s q → names_ok s q.
Proof.
  intros [_ Hn Hk _]. apply Forall_forall. intros l Hl.
  destruct (Hk l Hl) as (n & Hnl & _). rewrite (Hn _ _ Hnl). by eexists.
Qed.

Lemma holder_registered s q n : holds names s q → holder s n q = registered_as names n q.
Proof.
  intros [_ Hn Hk _]. unfold holder, registered_as. f_equal. apply list_find_ext_in.
  intros l Hl. destruct (Hk l Hl) as (m & Hm & _). by rewrite (Hn _ _ Hm), Hm.
Qed.

Lemma holds_empty s s' q :
  holds names s q → g_nova_netdev_registry s' = None →
  (∀ l, dev_string (netdevs s') l = dev_string (netdevs s) l) → holds names s' [].
Proof.
  intros [_ Hn _ _] Hr Hd. split; [done| |by intros l ?%elem_of_nil|constructor].
  intros l n Hl. rewrite Hd. by apply Hn.
Qed.

Lemma register_refines l s q :
  holds names s q → is_Some (names !! l) →
  ∃ o s', exec_op (OpRegister (Some l)) s = Done (o, s') ∧
    ∃ q', spec_register names l q = (o, q') ∧ holds names s' q'.
Proof.
  intros Hh [n Hn]. pose proof Hh as [Hc Hnames Hk Hu].
  destruct (dev_string_Some _ _ _ (Hnames _ _ Hn)) as (d & Hd & Hdn).
  pose proof (nova_netdev_register_run l d n s q Hc (holds_names_ok _ _ Hh) Hd Hdn) as Hrun.
  unfold spec_register. rewrite Hn. rewrite <-(holder_registered s q n Hh).
  cbn [exec_op]. case_decide as Hdec.
  { bind Hrun. eexists _, _. split; [done|]. by eexists. }
  destruct Hrun as (h & Hrun & Hsame). bind Hrun. eexists _, _. split; [done|].
  eexists. split; [done|]. apply Decidable.not_or in Hdec as [Hne Hfree].
  assert (names !! l ∉ (names !!.) <$> q) as Hnew.
  { intros (l' & Hl' & Hin)%list_elem_of_fmap. apply Hfree.
    rewrite (holder_registered s q n Hh). unfold registered_as.
    destruct (list_find _ q) as [[]|] eqn:E; [by eexists|].
    apply list_find_None in E. apply (proj1 (Forall_forall _ _) E) in Hin. congruence. }
  split.
  - cbn [netdevs set_netdevs g_nova_netdev_registry set_registry]. rewrite Hsame. apply chain_push; [|done].
    intros Hin. apply Hnew. apply list_elem_of_fmap. by eexists.
  - intros l' n' Hl'. cbn. rewrite Hsame, (dev_string_next _ _ _ _ _ Hd). by apply Hnames.
  - intros l' [->|Hl']%elem_of_cons; [by eexists|by apply Hk].
  - by constructor.
Qed.

Lemma unregister_refines l s q :
  holds names s q →
  ∃ o s', exec_op (OpUnregister (Some l)) s = Done (o, s') ∧
    ∃ q', spec_op names (OpUnregister (Some l)) q = (o, q') ∧ holds names s' q'.
Proof.
  intros Hh. pose proof Hh as [Hc Hnames Hk Hu]. cbn [exec_op spec_op].
  case_decide as Hl.
  - destruct (list_elem_of_split _ _ Hl) as (ls1 & ls2 & ->).
    destruct (nova_netdev_unregister_run _ _ _ _ Hc) as (p & h & Hrun & Hc' & _ & Hstr).
    bind Hrun. eexists _, _. split; [done|]. eexists. split; [done|].
    rewrite filter_remove by (by eapply chain_NoDup). split; [done| | |].
    + intros l' n Hn. cbn. rewrite (relinked_string _ _ _ Hstr). by apply Hnames.
    + intros l' Hl'. apply Hk. set_solver.
    + rewrite <-Permutation_middle in Hu. by apply NoDup_cons in Hu as [].
  - bind (nova_netdev_unregister_absent _ _ _ Hc Hl). eexists _, _. split; [done|].
    by eexists.
Qed.

#[export] Instance netdev_refines : Refines exec_op (spec_op names) (op_ok names) (holds names).
Proof.
  intros op s q Hh Hop. pose proof Hh as [Hc _ _ _].
  assert (∀ (m : M (net_state O) observation) sp,
    (∃ o s', m s = Done (o, s') ∧ ∃ q', sp = (o, q') ∧ holds names s' q') →
    ∃ o s' q', m s = Done (o, s') ∧ sp = (o, q') ∧ holds names s' q') as Hpack
    by naive_solver.
  apply Hpack. destruct op as [| |[l|]|[l|]|[name|]].
  - eexists _, _. split; [done|]. eexists. split; [done|]. by eapply holds_empty.
  - destruct (nova_network_shutdown_run _ _ Hc) as (h & Hrun & Hin & Hout).
    cbn [exec_op]. bind Hrun. eexists _, _. split; [done|]. eexists. split; [done|].
    eapply holds_empty; [done|done|]. intros l. cbn. by eapply relinked_string, unlinked_relinked.
  - by apply register_refines.
  - eexists _, _. split; [done|]. by eexists.
  - by apply unregister_refines.
  - eexists _, _. split; [done|]. by eexists.
  - destruct Hop as [n Hn]. cbn [exec_op spec_op]. rewrite Hn.
    bind (nova_netdev_find_run _ _ _ _ Hc (holds_names_ok _ _ Hh) Hn).
    rewrite (holder_registered s q n Hh). eexists _, _. split; [done|]. by eexists.
  - eexists _, _. split; [done|]. by eexists.
Qed.
End refinement.

End NetDev.
