(* ===== verification/Sockets.v ===== *)
(** * The socket API (kernel/network/network_stack.c)

    A table of 64 pointers to calloc'ed sockets, indexed by descriptor.
    Descriptors are handed out in increasing order.  Packets are sent through
    the driver of the socket's device. *)

From S2P Require Import Prelude CString LinkedList NetState NetDev.
Export NetDev.

Module Sockets.
Section api.
Context {O : Type} `{!NetDrivers O}.
Implicit Types (s : net_state O).

Definition set_state (z : Z) (k : nova_socket) : nova_socket :=
  Socket (family k) (type k) (protocol k) z (flags k) (sock_ops k) (private_data k) (dev k).
Definition set_dev (p : option loc) (k : nova_socket) : nova_socket :=
  Socket (family k) (type k) (protocol k) (state k) (flags k) (sock_ops k) (private_data k) p.

Definition nova_socket_lookup (sockfd : Z) : M (net_state O) (option loc) :=
  if decide (sockfd <= 0 ∨ sockfd >= Z.of_nat NOVA_SOCKET_TABLE_SIZE)%Z then mret None
  else s ← gets (λ s, s); the (g_socket_table s !! Z.to_nat sockfd).

(** [g_socket_table[fd] = p]. *)
Definition put_table (fd : Z) (p : option loc) : M (net_state O) unit :=
  s ← gets (λ s, s);
  t ← the (if decide (fd < 0)%Z then None else arr_set (g_socket_table s) (Z.to_nat fd) p);
  modify (set_table t).

(** [if (sock->dev == NULL) sock->dev = nova_netdev_find(lo);] *)
Definition attach (l : loc) : M (net_state O) unit :=
  k ← get_socket l;
  match dev k with
  | Some _ => mret tt
  | None =>
      found ← nova_netdev_find (Some (cstr "lo"));
      k ← get_socket l;
      put_socket l (set_dev found k)
  end.

Definition nova_socket (domain type protocol : Z) : M (net_state O) Z :=
  s ← gets (λ s, s);
  when (bool_decide (g_network_initialized s = 0)%Z) (nova_network_init;; mret tt);;
  if decide (domain ≠ NOVA_AF_UNSPEC ∧ domain ≠ NOVA_AF_INET ∧
             domain ≠ NOVA_AF_INET6 ∧ domain ≠ NOVA_AF_UNIX) then mret (-1)%Z
  else if decide (type ≠ NOVA_SOCK_STREAM ∧ type ≠ NOVA_SOCK_DGRAM ∧
                  type ≠ NOVA_SOCK_RAW ∧ type ≠ NOVA_SOCK_SEQPACKET) then mret (-1)%Z
  else
    s ← gets (λ s, s);
    if decide (g_next_socket_fd s >= Z.of_nat NOVA_SOCKET_TABLE_SIZE)%Z then mret (-1)%Z
    else
      let fd := g_next_socket_fd s in
      modify (set_next_fd (fd + 1));;
      sock ← calloc (store_socket zero_socket);
      match sock with
      | None => mret (-1)%Z
      | Some l =>
          k ← get_socket l;
          put_socket l (Socket domain type protocol 0 0 None None (dev k));;
          found ← nova_netdev_find (Some (cstr "lo"));
          k ← get_socket l;
          put_socket l (set_dev found k);;
          put_table fd (Some l);;
          mret fd
      end.

(** The calls that only look the socket up: their other arguments are not
    used. *)
Definition nova_bind (sockfd : Z) : M (net_state O) Z :=
  sock ← nova_socket_lookup sockfd;
  match sock with None => mret (-1)%Z | Some _ => mret 0%Z end.

Definition nova_connect (sockfd : Z) : M (net_state O) Z :=
  sock ← nova_socket_lookup sockfd;
  match sock with
  | None => mret (-1)%Z
  | Some l =>
      k ← get_socket l;
      put_socket l (set_state 1 k);;
      attach l;;
      mret 0%Z
  end.

Definition nova_listen (sockfd : Z) : M (net_state O) Z :=
  sock ← nova_socket_lookup sockfd;
  match sock with
  | None => mret (-1)%Z
  | Some l => k ← get_socket l; put_socket l (set_state 2 k);; mret 0%Z
  end.

Definition nova_accept (sockfd : Z) : M (net_state O) Z :=
  sock ← nova_socket_lookup sockfd;
  match sock with None => mret (-1)%Z | Some _ => mret (-1)%Z end.

Definition nova_shutdown (sockfd : Z) : M (net_state O) Z :=
  sock ← nova_socket_lookup sockfd;
  match sock with
  | None => mret (-1)%Z
  | Some l => k ← get_socket l; put_socket l (set_state 0 k);; mret 0%Z
  end.

Definition nova_getsockopt (sockfd : Z) : M (net_state O) Z :=
  sock ← nova_socket_lookup sockfd;
  match sock with None => mret (-1)%Z | Some _ => mret 0%Z end.

Definition nova_setsockopt (sockfd : Z) : M (net_state O) Z :=
  sock ← nova_socket_lookup sockfd;
  match sock with None => mret (-1)%Z | Some _ => mret 0%Z end.

(** [memcpy(skb->data, buf, len); skb->len = len; skb->dev = dev]. *)
Definition fill_skb (sl : loc) (buf : list Z) (len : Z) (dev : option loc)
    : M (net_state O) unit :=
  b ← get_skb sl;
  s ← gets (λ s, s);
  bl ← the (data b);
  block ← the (blocks s !! bl);
  block ← the (memcpy block buf (Z.to_nat len));
  modify (λ s, set_blocks (<[bl := block]> (blocks s)) s);;
  put_skb sl (SkBuff (data b) len (headroom b) (tailroom b) dev (hash b) (skb_protocol b)
    (skb_priority b) (error b)).

Definition nova_send (sockfd : Z) (buf : option (list Z)) (len : Z) : M (net_state O) Z :=
  sock ← nova_socket_lookup sockfd;
  match sock, buf with
  | Some l, Some buf =>
      if decide (len = 0)%Z then mret (-1)%Z
      else
        attach l;;
        k ← get_socket l;
        match dev k with
        | None => mret (-1)%Z
        | Some dl =>
            d ← get_dev dl;
            match ops d ≫= op_start_xmit with
            | None => mret (-1)%Z
            | Some _ =>
                skb ← nova_alloc_skb len;
                match skb with
                | None => mret (-1)%Z
                | Some sl =>
                    k ← get_socket l;
                    fill_skb sl buf len (dev k);;
                    r ← nova_dev_queue_xmit (Some sl);
                    if decide (r ≠ 0)%Z then nova_free_skb (Some sl);; mret (-1)%Z
                    else mret (i64 len)
                end
            end
        end
  | _, _ => mret (-1)%Z
  end.

(** The result and the buffer after the call. *)
Definition nova_recv (sockfd : Z) (buf : option (list Z)) (len : Z)
    : M (net_state O) (Z * option (list Z)) :=
  sock ← nova_socket_lookup sockfd;
  match sock, buf with
  | Some _, Some bytes =>
      if decide (len = 0)%Z then mret ((-1)%Z, buf)
      else
        bytes ← the (memcpy bytes (replicate (Z.to_nat len) 0%Z) (Z.to_nat len));
        mret (i64 len, Some bytes)
  | _, _ => mret ((-1)%Z, buf)
  end.

Definition nova_close (sockfd : Z) : M (net_state O) Z :=
  sock ← nova_socket_lookup sockfd;
  match sock with
  | None => mret (-1)%Z
  | Some l =>
      k ← get_socket l;
      free_block (private_data k);;
      free_socket_struct l;;
      put_table sockfd None;;
      mret 0%Z
  end.
End api.

(** ** Well-formed states *)

Section wf.
Context {O : Type} `{!NetDrivers O}.
Implicit Types (s : net_state O).

(** A socket of the table: nothing to free behind it, its device exists. *)
Record socket_ok (h : gmap loc (nova_net_device O)) (k : NetState.nova_socket) : Prop := {
  ok_private : private_data k = None;
  ok_dev : ∀ dl, dev k = Some dl → is_Some (h !! dl);
}.

Record net_wf s : Prop := {
  wf_registry : ∃ ls, chain (netdevs s) (g_nova_netdev_registry s) ls ∧ names_ok s ls;
  wf_table : length (g_socket_table s) = 64;
  wf_next_fd : (1 ≤ g_next_socket_fd s ≤ 64)%Z;
  wf_slots : ∀ i l, g_socket_table s !! i = Some (Some l) →
    1 ≤ i < Z.to_nat (g_next_socket_fd s) ∧ ∃ k, sockets s !! l = Some k ∧ socket_ok (netdevs s) k;
  wf_distinct : ∀ i j l, g_socket_table s !! i = Some (Some l) →
    g_socket_table s !! j = Some (Some l) → i = j;
  wf_fresh : ∀ l, brk s ≤ l → sockets s !! l = None ∧ skbs s !! l = None ∧ blocks s !! l = None;
}.

(** ** The specification: descriptors and the sockets behind them

    [a_lo]: the device registered as lo; [a_calloc]: as in the state. *)
Record api : Type := Api {
  a_initialized : bool;
  a_next : Z;
  a_open : list (option NetState.nova_socket);
  a_lo : option loc;
  a_calloc : list bool;
}.

Definition set_open (l : list (option NetState.nova_socket)) (q : api) : api :=
  Api (a_initialized q) (a_next q) l (a_lo q) (a_calloc q).

(** The sockets of the table. *)
Definition open_of s : list (option NetState.nova_socket) :=
  (λ p, p ≫= λ l, sockets s !! l) <$> g_socket_table s.

Definition lo_name : list Z := chars "lo".

Record holds s (q : api) : Prop := {
  holds_wf : net_wf s;
  holds_initialized : a_initialized q = bool_decide (g_network_initialized s ≠ 0%Z);
  holds_next : a_next q = g_next_socket_fd s;
  holds_open : a_open q = open_of s;
  holds_lo : ∃ ls, chain (netdevs s) (g_nova_netdev_registry s) ls ∧ names_ok s ls ∧
    a_lo q = holder s lo_name ls;
  holds_calloc : a_calloc q = calloc_results s;
}.

Lemma holds_exists s : net_wf s → ∃ q, holds s q.
Proof.
  intros Hwf. pose proof (wf_registry _ Hwf) as (ls & Hc & Hn).
  exists (Api (bool_decide (g_network_initialized s ≠ 0%Z)) (g_next_socket_fd s) (open_of s)
    (holder s lo_name ls) (calloc_results s)).
  by split; try (by exists ls).
Qed.

(** The entry of a descriptor, in the table and in the specification. *)
Definition fd_ok (fd : Z) : Prop := (0 < fd < 64)%Z.
#[export] Instance fd_ok_dec fd : Decision (fd_ok fd).
Proof. unfold fd_ok. apply _. Defined.

Definition slot s (fd : Z) : option loc :=
  if decide (fd_ok fd) then mjoin (g_socket_table s !! Z.to_nat fd) else None.
Definition entry (q : api) (fd : Z) : option NetState.nova_socket :=
  if decide (fd_ok fd) then mjoin (a_open q !! Z.to_nat fd) else None.

Lemma nova_socket_lookup_run fd s :
  net_wf s → nova_socket_lookup fd s = Done (slot s fd, s).
Proof.
  intros Hwf. unfold nova_socket_lookup, slot, NOVA_SOCKET_TABLE_SIZE, fd_ok.
  destruct (decide (fd <= 0 ∨ fd >= Z.of_nat 64)%Z) as [Hbad|Hok].
  - by rewrite decide_False by lia.
  - rewrite decide_True by lia. run.
    destruct (lookup_lt_is_Some_2 (g_socket_table s) (Z.to_nat fd)) as [p Hp].
    { rewrite wf_table by done. lia. }
    by rewrite Hp.
Qed.

Lemma slot_Some fd l s :
  slot s fd = Some l → fd_ok fd ∧ g_socket_table s !! Z.to_nat fd = Some (Some l).
Proof.
  unfold slot. case_decide as Hfd; [|done]. intros H. split; [done|].
  by destruct (g_socket_table s !! Z.to_nat fd) as [[l'|]|]; cbn in H; simplify_eq.
Qed.

Lemma slot_socket fd l s q :
  holds s q → slot s fd = Some l →
  ∃ k, sockets s !! l = Some k ∧ socket_ok (netdevs s) k ∧ entry q fd = Some k.
Proof.
  intros Hh Hs. apply slot_Some in Hs as [Hfd Ht].
  destruct (wf_slots _ (holds_wf _ _ Hh) _ _ Ht) as (_ & k & Hk & Hok).
  exists k. split_and!; [done|done|]. unfold entry. rewrite decide_True by done.
  rewrite (holds_open _ _ Hh). unfold open_of. by rewrite list_lookup_fmap, Ht; cbn.
Qed.

Lemma slot_None fd s q : holds s q → slot s fd = None → entry q fd = None.
Proof.
  intros Hh. unfold slot, entry. case_decide; [|done].
  rewrite (holds_open _ _ Hh). unfold open_of. rewrite list_lookup_fmap.
  by destruct (g_socket_table s !! Z.to_nat fd) as [[]|].
Qed.

Lemma get_socket_run l k s : sockets s !! l = Some k → get_socket l s = Done (k, s).
Proof. intros H. unfold get_socket. run. by apply the_Some. Qed.

Lemma put_socket_run l k k' s :
  sockets s !! l = Some k →
  put_socket l k' s = Done (tt, set_sockets (<[l := k']> (sockets s)) s).
Proof. intros H. unfold put_socket. by bind (get_socket_run _ _ _ H). Qed.

(** The device found as lo exists. *)
Lemma holder_device s n ls dl :
  chain (netdevs s) (g_nova_netdev_registry s) ls → holder s n ls = Some dl →
  is_Some (netdevs s !! dl).
Proof.
  intros Hc. unfold holder. destruct (list_find _ ls) as [[i l]|] eqn:E; [|done].
  intros [= <-]. apply list_find_Some in E as (Hi & _). eapply chain_lookup; [exact Hc|].
  by eapply list_elem_of_lookup_2.
Qed.

Lemma find_lo_run s q :
  holds s q → nova_netdev_find (Some (cstr "lo")) s = Done (a_lo q, s) ∧
    ∀ dl, a_lo q = Some dl → is_Some (netdevs s !! dl).
Proof.
  intros Hh. destruct (holds_lo _ _ Hh) as (ls & Hc & Hn & ->). split.
  - by apply nova_netdev_find_run.
  - intros dl. by apply holder_device.
Qed.

(** ** Steps on one socket *)

Lemma open_update s fd l k' :
  net_wf s → slot s fd = Some l →
  open_of (set_sockets (<[l := k']> (sockets s)) s) =
    <[Z.to_nat fd := Some k']> (open_of s).
Proof.
  intros Hwf [Hfd Ht]%slot_Some. apply list_eq. intros i. unfold open_of. cbn.
  rewrite list_lookup_fmap. destruct (decide (i = Z.to_nat fd)) as [->|Hi].
  - rewrite Ht, list_lookup_insert_eq; cbn; [by rewrite lookup_insert_eq|].
    rewrite length_fmap. by eapply lookup_lt_Some.
  - rewrite list_lookup_insert_ne, list_lookup_fmap by done.
    destruct (g_socket_table s !! i) as [[l'|]|] eqn:E; cbn; [|done|done].
    rewrite lookup_insert_ne; [done|]. intros ->. by apply Hi, (wf_distinct _ Hwf _ _ l').
Qed.

Lemma holds_update s q fd l k' :
  holds s q → slot s fd = Some l → socket_ok (netdevs s) k' →
  holds (set_sockets (<[l := k']> (sockets s)) s)
    (set_open (<[Z.to_nat fd := Some k']> (a_open q)) q).
Proof.
  intros Hh Hs Hok. pose proof Hh as [Hwf Hi Hn Ho Hlo Hca]. split; cbn; try done.
  - destruct Hwf as [Hr Ht Hfd Hsl Hd Hf]. split; cbn; try done.
    + intros i l' Hl'. destruct (Hsl i l' Hl') as (Hri & k & Hk & Hkok). split; [done|].
      rewrite lookup_insert. destruct (decide (l = l')); [by exists k'|by exists k].
    + intros l' Hl'. destruct (Hf l' Hl') as (Hs1 & Hs2). split; [|done].
      apply slot_Some in Hs as [_ Ht']. destruct (Hsl _ _ Ht') as (_ & k & Hk & _).
      rewrite lookup_insert_ne; [done|]. intros ->. congruence.
  - rewrite Ho. symmetry. by apply open_update.
Qed.

(** A call that sets the state of the socket. *)
Lemma set_state_run s q fd l k z :
  holds s q → slot s fd = Some l → sockets s !! l = Some k →
  ∃ s', put_socket l (set_state z k) s = Done (tt, s') ∧
    holds s' (set_open (<[Z.to_nat fd := Some (set_state z k)]> (a_open q)) q).
Proof.
  intros Hh Hs Hk. rewrite (put_socket_run _ _ _ _ Hk). eexists. split; [done|].
  apply holds_update; [done|done|].
  destruct (slot_socket _ _ _ _ Hh Hs) as (k1 & Hk1 & [Hp Hd] & _). simplify_eq.
  by split.
Qed.

(** The socket after [attach]. *)
Definition attached (q : api) (k : NetState.nova_socket) : NetState.nova_socket :=
  match dev k with Some _ => k | None => set_dev (a_lo q) k end.

Lemma attach_run s q fd l k :
  holds s q → slot s fd = Some l → sockets s !! l = Some k →
  let s' := set_sockets (<[l := attached q k]> (sockets s)) s in
  attach l s = Done (tt, s') ∧
  holds s' (set_open (<[Z.to_nat fd := Some (attached q k)]> (a_open q)) q).
Proof.
  intros Hh Hs Hk s'. destruct (slot_socket _ _ _ _ Hh Hs) as (k1 & Hk1 & Hok & _).
  rewrite Hk in Hk1. injection Hk1 as <-. destruct (find_lo_run _ _ Hh) as [Hfind Hlo]. split.
  - unfold attach. bind (get_socket_run _ _ _ Hk). subst s'. unfold attached.
    destruct (dev k) eqn:Hdev; [|bind Hfind; bind (get_socket_run _ _ _ Hk);
      by apply (put_socket_run _ _ _ _ Hk)].
    rewrite insert_id by done. by destruct s.
  - apply holds_update; [done|done|]. destruct Hok as [Hp Hd]. unfold attached.
    destruct (dev k) eqn:Hdev; split; cbn; rewrite ?Hdev; done.
Qed.

(** ** Initialising, shutting down, devices *)

(** The devices change, none disappears. *)
Lemma holds_devices s q h p b ls :
  let s' := set_initialized b (set_registry p (set_netdevs h s)) in
  holds s q → (∀ l, is_Some (netdevs s !! l) → is_Some (h !! l)) →
  chain h p ls → names_ok s' ls →
  holds s' (Api (bool_decide (b ≠ 0%Z)) (a_next q) (a_open q) (holder s' lo_name ls)
    (a_calloc q)).
Proof.
  intros s' [[Hr Ht Hfd Hsl Hd Hf] Hi Hn Ho Hlo Hca] Hdom Hc Hnames.
  split; try done; [|by exists ls]. split; try done; [by exists ls|].
  intros i l Hl. destruct (Hsl i l Hl) as (Hi' & k & Hk & [Hkp Hkd]). split; [done|].
  exists k. split; [done|]. split; [done|]. intros dl Hdl. by apply Hdom, Hkd.
Qed.

(** What nova_network_init leaves. *)
Definition initial_api (q : api) : api :=
  Api true 1 (replicate NOVA_SOCKET_TABLE_SIZE None) None (a_calloc q).

Lemma nova_network_init_run s q :
  holds s q →
  ∃ s', nova_network_init s = Done (0%Z, s') ∧ holds s' (initial_api q) ∧
    g_nova_netdev_registry s' = None.
Proof.
  intros [[Hr Ht Hfd Hsl Hd Hf] Hi Hn Ho Hlo Hca].
  unfold nova_network_init. run. eexists. split; [done|]. split; [|done].
  assert (∀ i l, replicate NOVA_SOCKET_TABLE_SIZE (None (A:=loc)) !! i ≠ Some (Some l)) as Hno
    by (intros i l [? _]%lookup_replicate; done).
  assert (names_ok s []) as Hnil by constructor.
  split; try done; [|by exists []]. split; try done; [by exists []| |].
  - intros i l Hl. by destruct (Hno i l).
  - intros i j l Hl. by destruct (Hno i l).
Qed.

Lemma nova_network_shutdown_holds s q :
  holds s q →
  ∃ s', nova_network_shutdown s = Done (0%Z, s') ∧
    holds s' (Api false (a_next q) (a_open q) None (a_calloc q)).
Proof.
  intros Hh. destruct (wf_registry _ (holds_wf _ _ Hh)) as (ls & Hc & Hnames).
  destruct (nova_network_shutdown_run _ _ Hc) as (h & Hrun & Hin & Hout).
  rewrite Hrun. eexists. split; [done|].
  apply (holds_devices s q h None 0 []); [done| |done|constructor].
  intros l. by eapply relinked_dom, unlinked_relinked.
Qed.

(** [if (!g_network_initialized) nova_network_init();] *)
Definition ensure_init (q : api) : api := if a_initialized q then q else initial_api q.

Lemma implicit_init_run s q :
  holds s q →
  ∃ s', when (bool_decide (g_network_initialized s = 0)%Z) (nova_network_init;; mret tt) s =
      Done (tt, s') ∧ holds s' (ensure_init q) ∧
    (g_network_initialized s = 0%Z → g_nova_netdev_registry s' = None).
Proof.
  intros Hh. unfold ensure_init. rewrite (holds_initialized _ _ Hh). unfold when.
  destruct (decide (g_network_initialized s = 0%Z)) as [H0|H0].
  - rewrite bool_decide_eq_true_2, bool_decide_eq_false_2 by tauto.
    destruct (nova_network_init_run _ _ Hh) as (s' & Hrun & Hh' & Hreg).
    exists s'. split; [by bind Hrun|done].
  - rewrite bool_decide_eq_false_2, bool_decide_eq_true_2 by done. by eexists.
Qed.

(** ** Creating a socket *)

(** Whether the next allocation succeeds. *)
Definition next_alloc (r : list bool) : bool := match r with [] => true | b :: _ => b end.

Lemma calloc_run (store : loc → net_state O → net_state O) s :
  next_alloc (calloc_results s) = true →
  calloc store s = Done (Some (brk s),
    store (brk s) (set_brk (S (brk s)) (set_calloc (tail (calloc_results s)) s))).
Proof.
  unfold calloc, next_alloc. intros H. run. by destruct (calloc_results s) as [|[]].
Qed.

Lemma calloc_fails (store : loc → net_state O → net_state O) s :
  next_alloc (calloc_results s) = false →
  calloc store s = Done (None, set_calloc (tail (calloc_results s)) s).
Proof.
  unfold calloc, next_alloc. intros H. run. by destruct (calloc_results s) as [|[]].
Qed.

Lemma put_table_run fd p s :
  fd_ok fd → net_wf s →
  put_table fd p s = Done (tt, set_table (<[Z.to_nat fd := p]> (g_socket_table s)) s).
Proof.
  unfold fd_ok. intros Hfd Hwf. unfold put_table. run. rewrite decide_False by lia.
  bind by (apply the_Some, arr_set_Some; rewrite wf_table by done; lia). done.
Qed.

(** The descriptor is spent, with or without a socket. *)
Definition spend_fd (q : api) : api :=
  Api (a_initialized q) (a_next q + 1) (a_open q) (a_lo q) (tail (a_calloc q)).

Lemma holds_spend s q :
  holds s q → (a_next q < 64)%Z →
  holds (set_calloc (tail (calloc_results s)) (set_next_fd (g_next_socket_fd s + 1) s))
    (spend_fd q).
Proof.
  intros [[Hr Ht Hfd Hsl Hd Hf] Hi Hn Ho Hlo Hca] Hlt.
  split; cbn; [|done|congruence|done|done|congruence].
  split; cbn; [done|done|lia| |done|done].
  intros i l Hl. destruct (Hsl i l Hl) as (Hil & Hk). split; [lia|done].
Qed.

(** The fresh socket is in no slot: it enters the table at the next one. *)
Lemma holds_create s q k :
  holds s q → (a_next q < 64)%Z → socket_ok (netdevs s) k →
  holds (set_table (<[Z.to_nat (g_next_socket_fd s) := Some (brk s)]> (g_socket_table s))
      (set_sockets (<[brk s := k]> (sockets s)) (set_brk (S (brk s))
        (set_calloc (tail (calloc_results s)) (set_next_fd (g_next_socket_fd s + 1) s)))))
    (set_open (<[Z.to_nat (a_next q) := Some k]> (a_open q)) (spend_fd q)).
Proof.
  intros Hh Hlt Hok. pose proof (holds_spend _ _ Hh Hlt) as [Hwf' Hi' Hn' Ho' Hlo' Hca'].
  pose proof Hh as [[Hr Ht Hfd Hsl Hd Hf] Hi Hn Ho Hlo Hca].
  assert (∀ i l, g_socket_table s !! i = Some (Some l) → l ≠ brk s) as Hnew.
  { intros i l Hl ->. destruct (Hsl _ _ Hl) as (_ & k' & Hk' & _).
    destruct (Hf (brk s)) as [Hnone _]; [done|]. congruence. }
  split; try done.
  - destruct Hwf' as [Hr' Ht' Hfd' Hsl' Hd' Hf']. split; try done.
    + cbn. by rewrite length_insert.
    + cbn. intros i l [(<- & [= <-] & _)|[Hne Hl]]%list_lookup_insert_Some.
      * split; [lia|]. exists k. by rewrite lookup_insert_eq.
      * destruct (Hsl' _ _ Hl) as (Hil & k' & Hk' & Hok'). split; [done|].
        exists k'. rewrite lookup_insert_ne by (symmetry; by eapply Hnew). done.
    + cbn. intros i j l [(<- & [= <-] & _)|[Hne Hl]]%list_lookup_insert_Some
        [(<- & Heq & _)|[Hne' Hl']]%list_lookup_insert_Some; [done| | |by eapply Hd].
      * by destruct (Hnew _ _ Hl').
      * injection Heq as <-. by destruct (Hnew _ _ Hl).
    + cbn. intros l Hl. rewrite lookup_insert_ne by lia. apply Hf. lia.
  - cbn. rewrite Ho. unfold open_of. cbn. apply list_eq. intros i.
    rewrite Hn, list_lookup_fmap. destruct (decide (i = Z.to_nat (g_next_socket_fd s))) as [->|Hne].
    + rewrite !list_lookup_insert_eq by (rewrite ?length_fmap; lia). cbn.
      by rewrite lookup_insert_eq.
    + rewrite !list_lookup_insert_ne, list_lookup_fmap by done.
      destruct (g_socket_table s !! i) as [[l|]|] eqn:E; cbn; [|done|done].
      rewrite lookup_insert_ne; [done|]. symmetry. by eapply Hnew.
Qed.

Definition bad_domain (domain : Z) : Prop :=
  domain ≠ NOVA_AF_UNSPEC ∧ domain ≠ NOVA_AF_INET ∧
  domain ≠ NOVA_AF_INET6 ∧ domain ≠ NOVA_AF_UNIX.
#[export] Instance bad_domain_dec z : Decision (bad_domain z).
Proof. unfold bad_domain. apply _. Defined.

Definition bad_type (type : Z) : Prop :=
  type ≠ NOVA_SOCK_STREAM ∧ type ≠ NOVA_SOCK_DGRAM ∧
  type ≠ NOVA_SOCK_RAW ∧ type ≠ NOVA_SOCK_SEQPACKET.
#[export] Instance bad_type_dec z : Decision (bad_type z).
Proof. unfold bad_type. apply _. Defined.

Definition spec_socket (domain type protocol : Z) (q : api) : Z * api :=
  let q := ensure_init q in
  if decide (bad_domain domain ∨ bad_type type ∨ (a_next q >= 64)%Z) then ((-1)%Z, q)
  else if next_alloc (a_calloc q) then
    (a_next q, set_open (<[Z.to_nat (a_next q) :=
        Some (Socket domain type protocol 0 0 None None (a_lo q))]> (a_open q)) (spend_fd q))
  else ((-1)%Z, spend_fd q).

Lemma nova_socket_run domain type protocol s q :
  holds s q →
  ∃ r s' q', nova_socket domain type protocol s = Done (r, s') ∧
    spec_socket domain type protocol q = (r, q') ∧ holds s' q' ∧
    (g_network_initialized s = 0%Z → g_nova_netdev_registry s' = None).
Proof.
  intros Hh0. destruct (implicit_init_run _ _ Hh0) as (s1 & Hinit & Hh & Hreg).
  unfold nova_socket, spec_socket. run. bind Hinit. clear Hh0 Hinit.
  set (q1 := ensure_init q) in *. clearbody q1.
  pose proof Hh as [Hwf Hi Hn Ho Hlo Hca]. pose proof (wf_next_fd _ Hwf) as Hfd.
  destruct (decide (domain ≠ NOVA_AF_UNSPEC ∧ _)) as [Hdom|Hdom].
  { rewrite decide_True by (by left). by eexists _, _, _. }
  destruct (decide (type ≠ NOVA_SOCK_STREAM ∧ _)) as [Htype|Htype].
  { rewrite decide_True by (by right; left). by eexists _, _, _. }
  run. destruct (decide (_ >= Z.of_nat NOVA_SOCKET_TABLE_SIZE)%Z) as [Hfull|Hroom];
    unfold NOVA_SOCKET_TABLE_SIZE in *.
  { rewrite decide_True by (right; right; lia). by eexists _, _, _. }
  rewrite decide_False by (intros [?|[?|?]]; [done|done|lia]). run.
  destruct (next_alloc (a_calloc q1)) eqn:Halloc; rewrite Hca in Halloc.
  - destruct (find_lo_run _ _ Hh) as [Hfind Hdev]. bind by (by apply calloc_run).
    bind by (apply get_socket_run; apply lookup_insert_eq).
    bind by (eapply put_socket_run, lookup_insert_eq).
    destruct Hlo as (ls & Hc & Hnames & Hlo).
    bind by (apply (nova_netdev_find_run _ lo_name _ ls); [exact Hc|exact Hnames|done]).
    bind by (apply get_socket_run; apply lookup_insert_eq).
    bind by (eapply put_socket_run, lookup_insert_eq).
    eexists _, _, _. split; [|split; [done|split]].
    2: apply holds_create; [done|lia|by split].
    2: exact Hreg.
    unfold put_table. run. rewrite decide_False by (cbn; lia).
    bind by (apply the_Some, arr_set_Some; cbn; rewrite wf_table by done; lia). run.
    rewrite Hn. f_equal. f_equal. unfold set_table, set_sockets, store_socket. cbn.
    rewrite !insert_insert_eq. unfold set_dev. cbn. by rewrite Hlo.
  - bind (calloc_fails _ (set_next_fd (g_next_socket_fd s1 + 1) s1) Halloc). eexists _, _, _. split; [done|].
    split; [done|].
    split; [apply (holds_spend s1 q1); [done|lia]|exact Hreg].
Qed.

(** ** Closing *)

Lemma nova_close_run fd l s q :
  holds s q → slot s fd = Some l →
  ∃ s', nova_close fd s = Done (0%Z, s') ∧
    holds s' (set_open (<[Z.to_nat fd := None]> (a_open q)) q).
Proof.
  intros Hh Hs. pose proof Hh as [Hwf Hi Hn Ho Hlo Hca].
  destruct (slot_socket _ _ _ _ Hh Hs) as (k & Hk & [Hkp _] & _).
  pose proof (slot_Some _ _ _ Hs) as [Hfd Ht].
  assert (∀ i l', i ≠ Z.to_nat fd → g_socket_table s !! i = Some (Some l') → l ≠ l') as Hother.
  { intros i l' Hne Hl' ->. by apply Hne, (wf_distinct _ Hwf _ _ l'). }
  unfold nova_close. bind (nova_socket_lookup_run fd s Hwf). rewrite Hs.
  bind (get_socket_run _ _ _ Hk). rewrite Hkp. cbn [free_block]. run.
  unfold free_socket_struct. run. bind (get_socket_run _ _ _ Hk). run.
  unfold put_table. run. unfold fd_ok in Hfd. rewrite decide_False by lia.
  bind by (apply the_Some, arr_set_Some; cbn; rewrite wf_table by done; lia). run.
  eexists. split; [done|]. destruct Hwf as [Hr Hl Hnf Hsl Hd Hf]. split; try done.
  - split; try done; cbn.
    + by rewrite length_insert.
    + intros i l' [(_ & [=] & _)|[Hne Hl']]%list_lookup_insert_Some.
      destruct (Hsl _ _ Hl') as (Hil & k' & Hk' & Hok'). split; [done|]. exists k'.
      by rewrite lookup_delete_ne by (by eapply Hother).
    + intros i j l' [(_ & [=] & _)|[Hne Hl']]%list_lookup_insert_Some
        [(_ & [=] & _)|[Hne' Hl2]]%list_lookup_insert_Some. by eapply Hd.
    + intros l' Hl'. destruct (Hf l' Hl') as (Hs1 & Hs2). split; [|done].
      by rewrite lookup_delete_None; right.
  - cbn. rewrite Ho. unfold open_of. cbn. apply list_eq. intros i. rewrite list_lookup_fmap.
    destruct (decide (i = Z.to_nat fd)) as [->|Hne].
    + by rewrite !list_lookup_insert_eq by (rewrite ?length_fmap; lia).
    + rewrite !list_lookup_insert_ne, list_lookup_fmap by done.
      destruct (g_socket_table s !! i) as [[l'|]|] eqn:E; cbn; [|done|done].
      by rewrite lookup_delete_ne by (by eapply Hother).
Qed.
End wf.

(** ** The specification of the API *)

Inductive api_op : Type :=
  | OpNetworkInit | OpNetworkShutdown
  | OpSocket (domain type protocol : Z)
  | OpBind (fd : Z) | OpConnect (fd : Z) | OpListen (fd : Z) | OpAccept (fd : Z)
  | OpShutdown (fd : Z) | OpGetsockopt (fd : Z) | OpSetsockopt (fd : Z)
  | OpRecv (fd : Z) (buf : option (list Z)) (len : Z)
  | OpClose (fd : Z).

(** The return code and, after nova_recv, the buffer. *)
Abbreviation api_observation := (Z * option (list Z))%type.

(** The buffer has the length the call states. *)
Definition op_ok (op : api_op) : Prop :=
  match op with
  | OpRecv _ (Some buf) len => (0 ≤ len < 2 ^ 63 ∧ len ≤ Z.of_nat (length buf))%Z
  | _ => True
  end.

Definition exec_op {O} `{!NetDrivers O} (op : api_op) : M (net_state O) api_observation :=
  match op with
  | OpRecv fd buf len => nova_recv fd buf len
  | OpNetworkInit => r ← nova_network_init; mret (r, None)
  | OpNetworkShutdown => r ← nova_network_shutdown; mret (r, None)
  | OpSocket domain type protocol => r ← nova_socket domain type protocol; mret (r, None)
  | OpBind fd => r ← nova_bind fd; mret (r, None)
  | OpConnect fd => r ← nova_connect fd; mret (r, None)
  | OpListen fd => r ← nova_listen fd; mret (r, None)
  | OpAccept fd => r ← nova_accept fd; mret (r, None)
  | OpShutdown fd => r ← nova_shutdown fd; mret (r, None)
  | OpGetsockopt fd => r ← nova_getsockopt fd; mret (r, None)
  | OpSetsockopt fd => r ← nova_setsockopt fd; mret (r, None)
  | OpClose fd => r ← nova_close fd; mret (r, None)
  end.

(** A call on a descriptor: -1 when nothing is open there, else what [f] makes
    of the socket. *)
Definition on_socket (fd : Z) (f : NetState.nova_socket → option NetState.nova_socket) (q : api)
    : api_observation * api :=
  match entry q fd with
  | None => (((-1)%Z, None), q)
  | Some k => ((0%Z, None), set_open (<[Z.to_nat fd := f k]> (a_open q)) q)
  end.

Definition spec_op (op : api_op) (q : api) : api_observation * api :=
  match op with
  | OpNetworkInit => ((0%Z, None), initial_api q)
  | OpNetworkShutdown => ((0%Z, None), Api false (a_next q) (a_open q) None (a_calloc q))
  | OpSocket domain type protocol =>
      let '(r, q) := spec_socket domain type protocol q in ((r, None), q)
  | OpBind fd | OpGetsockopt fd | OpSetsockopt fd => on_socket fd Some q
  | OpConnect fd => on_socket fd (λ k, Some (attached q (set_state 1 k))) q
  | OpListen fd => on_socket fd (λ k, Some (set_state 2 k)) q
  | OpShutdown fd => on_socket fd (λ k, Some (set_state 0 k)) q
  | OpAccept _ => (((-1)%Z, None), q)
  | OpRecv fd buf len =>
      match entry q fd, buf with
      | Some _, Some bytes =>
          if decide (len = 0)%Z then (((-1)%Z, buf), q)
          else ((len, Some (replicate (Z.to_nat len) 0%Z ++ drop (Z.to_nat len) bytes)), q)
      | _, _ => (((-1)%Z, buf), q)
      end
  | OpClose fd => on_socket fd (λ _, None) q
  end.

(** ** The refinement *)

Section refinement.
Context {O : Type} `{!NetDrivers O}.
Implicit Types (s : net_state O).

Lemma on_socket_refines fd (m : option loc → M (net_state O) Z) f s q :
  holds s q → m None s = Done ((-1)%Z, s) →
  (∀ l k, slot s fd = Some l → sockets s !! l = Some k → ∃ s', m (Some l) s = Done (0%Z, s') ∧
     holds s' (set_open (<[Z.to_nat fd := f k]> (a_open q)) q)) →
  ∃ o s' q', (r ← (sock ← nova_socket_lookup fd; m sock); mret (r, None)) s = Done (o, s') ∧
    on_socket fd f q = (o, q') ∧ holds s' q'.
Proof.
  intros Hh Hnone Hsome. run. bind (nova_socket_lookup_run fd s (holds_wf _ _ Hh)).
  unfold on_socket. destruct (slot s fd) as [l|] eqn:Hs.
  - destruct (slot_socket _ _ _ _ Hh Hs) as (k & Hk & _ & ->).
    destruct (Hsome l k eq_refl Hk) as (s' & Hrun & Hh'). bind Hrun. by eexists _, _, _.
  - rewrite (slot_None _ _ _ Hh Hs). bind Hnone. by eexists _, _, _.
Qed.

(** Nothing changes. *)
Lemma set_open_same s q fd l k :
  holds s q → slot s fd = Some l → sockets s !! l = Some k →
  holds s (set_open (<[Z.to_nat fd := Some k]> (a_open q)) q).
Proof.
  intros Hh Hs Hk. pose proof (holds_update s q fd l k Hh Hs) as H.
  destruct (slot_socket _ _ _ _ Hh Hs) as (k' & Hk' & Hok & _).
  rewrite Hk in Hk'. injection Hk' as <-. specialize (H Hok).
  rewrite insert_id in H by done. by destruct s.
Qed.

Lemma connect_run s q fd l k :
  holds s q → slot s fd = Some l → sockets s !! l = Some k →
  ∃ s', (k ← get_socket l; put_socket l (set_state 1 k);; attach l;; mret 0%Z) s =
      Done (0%Z, s') ∧
    holds s' (set_open (<[Z.to_nat fd := Some (attached q (set_state 1 k))]> (a_open q)) q).
Proof.
  intros Hh Hs Hk. bind (get_socket_run _ _ _ Hk).
  destruct (set_state_run s q fd l k 1 Hh Hs Hk) as (s1 & Hput & Hh1). bind Hput.
  rewrite (put_socket_run _ _ _ _ Hk) in Hput. injection Hput as <-.
  destruct (attach_run _ _ fd l (set_state 1 k) Hh1 Hs) as (Hat & Hh2).
  { apply lookup_insert_eq. }
  bind Hat. run. eexists. split; [done|]. unfold set_open in Hh2 at 1. cbn in Hh2.
  rewrite list_insert_insert_eq in Hh2. exact Hh2.
Qed.

Lemma recv_refines fd buf len s q :
  holds s q → op_ok (OpRecv fd buf len) →
  ∃ o s' q', nova_recv fd buf len s = Done (o, s') ∧
    spec_op (OpRecv fd buf len) q = (o, q') ∧ holds s' q'.
Proof.
  intros Hh Hok. unfold nova_recv. bind (nova_socket_lookup_run fd s (holds_wf _ _ Hh)).
  cbn [spec_op]. destruct (slot s fd) as [l|] eqn:Hs.
  - destruct (slot_socket _ _ _ _ Hh Hs) as (k & _ & _ & ->).
    destruct buf as [bytes|]; [|by eexists _, _, _].
    case_decide; [by eexists _, _, _|]. destruct Hok as [Hlen Hbuf].
    bind by (apply the_Some, memcpy_Some; rewrite ?length_replicate; lia).
    rewrite take_ge by (rewrite length_replicate; lia).
    eexists _, _, _. split; [done|]. split; [|done].
    unfold i64. by rewrite swrap_small by lia.
  - rewrite (slot_None _ _ _ Hh Hs). by eexists _, _, _.
Qed.

#[export] Instance api_refines : Refines (exec_op (O:=O)) spec_op op_ok holds.
Proof.
  intros op s q Hh Hok.
  destruct op as [| |domain type protocol|fd|fd|fd|fd|fd|fd|fd|fd buf len|fd];
    cbn [exec_op].
  - destruct (nova_network_init_run _ _ Hh) as (s' & Hrun & Hh' & _). bind Hrun.
    by eexists _, _, _.
  - destruct (nova_network_shutdown_holds _ _ Hh) as (s' & Hrun & Hh'). bind Hrun.
    by eexists _, _, _.
  - destruct (nova_socket_run domain type protocol _ _ Hh) as (r & s' & q' & Hrun & Hsp & Hh' & _).
    bind Hrun. cbn [spec_op]. rewrite Hsp. by eexists _, _, _.
  - apply (on_socket_refines fd (λ sock, _)); [done|done|]. intros l k Hs Hk.
    eexists. split; [done|]. by eapply set_open_same.
  - apply (on_socket_refines fd (λ sock, _)); [done|done|]. intros l k Hs Hk.
    by apply connect_run.
  - apply (on_socket_refines fd (λ sock, _)); [done|done|]. intros l k Hs Hk.
    bind (get_socket_run _ _ _ Hk). destruct (set_state_run s q fd l k 2) as (s' & Hrun & Hh');
      [done|done|done|]. bind Hrun. by eexists.
  - unfold nova_accept. run. bind (nova_socket_lookup_run fd s (holds_wf _ _ Hh)).
    destruct (slot s fd); by eexists _, _, _.
  - apply (on_socket_refines fd (λ sock, _)); [done|done|]. intros l k Hs Hk.
    bind (get_socket_run _ _ _ Hk). destruct (set_state_run s q fd l k 0) as (s' & Hrun & Hh');
      [done|done|done|]. bind Hrun. by eexists.
  - apply (on_socket_refines fd (λ sock, _)); [done|done|]. intros l k Hs Hk.
    eexists. split; [done|]. by eapply set_open_same.
  - apply (on_socket_refines fd (λ sock, _)); [done|done|]. intros l k Hs Hk.
    eexists. split; [done|]. by eapply set_open_same.
  - by apply recv_refines.
  - cbn [spec_op]. unfold on_socket. destruct (slot s fd) as [l|] eqn:Hs.
    + destruct (slot_socket _ _ _ _ Hh Hs) as (k & Hk & _ & ->).
      destruct (nova_close_run _ _ _ _ Hh Hs) as (s' & Hrun & Hh'). bind Hrun.
      by eexists _, _, _.
    + rewrite (slot_None _ _ _ Hh Hs). unfold nova_close. run.
      bind (nova_socket_lookup_run fd s (holds_wf _ _ Hh)). rewrite Hs.
      by eexists _, _, _.
Qed.
End refinement.
End Sockets.
