(* ===== verification/Send.v ===== *)
(** * Sending a packet through any driver (nova_send)

    The contract of nova_send against the promises of [NetDriversOk]: what the
    driver is given, what the caller gets back, and that no packet buffer is
    lost or freed twice on the error paths. *)

From S2P Require Import Prelude CString LinkedList NetState NetDev Sockets.

Module Send.
Import Sockets.

Section send.
Context {O : Type} `{!NetDrivers O}.
Implicit Types (s : net_state O).

(** Everything but packets, their data and the device counters is the same. *)
Record same_tables s s' : Prop := {
  st_registry : g_nova_netdev_registry s' = g_nova_netdev_registry s;
  st_table : g_socket_table s' = g_socket_table s;
  st_next : g_next_socket_fd s' = g_next_socket_fd s;
  st_initialized : g_network_initialized s' = g_network_initialized s;
  st_sockets : sockets s' = sockets s;
  st_devs : same_devs (netdevs s') (netdevs s);
}.

#[export] Instance same_tables_preorder : PreOrder same_tables.
Proof.
  split; [intros s; by split|].
  intros s1 s2 s3 [] []. split; try congruence. by etransitivity.
Qed.

(** Addresses from [b] on are free. *)
Definition packets_below (b : loc) s : Prop :=
  ∀ l, b ≤ l → skbs s !! l = None ∧ blocks s !! l = None.

Lemma same_tables_wf s s' :
  net_wf s → same_tables s s' → brk s ≤ brk s' → packets_below (brk s') s' → net_wf s'.
Proof.
  intros [(ls & Hc & Hn) Ht Hfd Hsl Hd Hf] [E1 E2 E3 _ E5 E6] Hb Hp.
  split; rewrite ?E2, ?E3; try done.
  - exists ls. rewrite E1, E6. split; [done|]. unfold names_ok in *.
    eapply Forall_impl; [exact Hn|]. intros l. by rewrite E6.
  - intros i l Hl. destruct (Hsl i l Hl) as (Hi & k & Hk & [Hkp Hkd]). split; [done|].
    exists k. rewrite E5. split; [done|]. split; [done|]. intros dl Hdl.
    destruct (Hkd _ Hdl) as [d Hd']. symmetry in E6.
    destruct (same_lookup _ _ _ _ E6 Hd') as (d2 & Hd2 & _). by eexists.
  - intros l Hl. rewrite E5. split; [apply Hf; lia|by apply Hp].
Qed.

(** ** The steps *)

Lemma get_skb_run l b s : skbs s !! l = Some b → get_skb l s = Done (b, s).
Proof. intros H. unfold get_skb. run. by apply the_Some. Qed.

Lemma put_skb_run l b b' s :
  skbs s !! l = Some b → put_skb l b' s = Done (tt, set_skbs (<[l := b']> (skbs s)) s).
Proof. intros H. unfold put_skb. by bind (get_skb_run _ _ _ H). Qed.

(** Both allocations succeed: a buffer and its data at fresh addresses. *)
Lemma nova_alloc_skb_run len s :
  (0 < len)%Z → next_alloc (calloc_results s) = true →
  next_alloc (tail (calloc_results s)) = true →
  nova_alloc_skb len s = Done (Some (brk s),
    set_skbs (<[brk s := SkBuff (Some (S (brk s))) len 0 0 None 0 0 0 0]> (skbs s))
      (set_blocks (<[S (brk s) := replicate (Z.to_nat len) 0%Z]> (blocks s))
        (set_brk (S (S (brk s))) (set_calloc (tail (tail (calloc_results s))) s)))).
Proof.
  intros Hlen H1 H2. unfold nova_alloc_skb.
  bind (calloc_run (store_skb zero_skb) s H1).
  set (s1 := store_skb zero_skb _ _). rewrite decide_False by lia.
  bind (calloc_run (store_block (Z.to_nat len)) s1 H2).
  bind by (eapply put_skb_run, lookup_insert_eq). run.
  unfold store_block, set_skbs, set_blocks. cbn. by rewrite insert_insert_eq.
Qed.

(** An allocation fails: no buffer is left. *)
Lemma nova_alloc_skb_fails len s :
  (0 < len)%Z → net_wf s →
  next_alloc (calloc_results s) && next_alloc (tail (calloc_results s)) = false →
  ∃ s', nova_alloc_skb len s = Done (None, s') ∧ same_tables s s' ∧ brk s ≤ brk s' ∧
    skbs s' = skbs s ∧ blocks s' = blocks s.
Proof.
  intros Hlen Hwf. unfold nova_alloc_skb.
  destruct (next_alloc (calloc_results s)) eqn:H1; cbn [andb]; [intros H2|intros _].
  - bind (calloc_run (store_skb zero_skb) s H1).
    set (s1 := store_skb zero_skb _ _). rewrite decide_False by lia.
    bind (calloc_fails (store_block (Z.to_nat len)) s1 H2).
    unfold free_skb_struct. run. bind by (apply get_skb_run, lookup_insert_eq). run.
    eexists. split; [done|]. cbn. split_and!; [by split|lia| |done].
    apply delete_insert_id. by apply (wf_fresh _ Hwf).
  - bind (calloc_fails (store_skb zero_skb) s H1). eexists. split; [done|].
    cbn. split_and!; [by split|lia|done|done].
Qed.

Lemma fill_skb_run sl bl b block buf len p s :
  skbs s !! sl = Some b → data b = Some bl → blocks s !! bl = Some block →
  length block = Z.to_nat len → Z.to_nat len ≤ length buf →
  fill_skb sl buf len p s = Done (tt,
    set_skbs (<[sl := SkBuff (Some bl) len (headroom b) (tailroom b) p (hash b)
        (skb_protocol b) (skb_priority b) (error b)]> (skbs s))
      (set_blocks (<[bl := take (Z.to_nat len) buf]> (blocks s)) s)).
Proof.
  intros Hb Hd Hbl Hlen Hbuf. unfold fill_skb. bind (get_skb_run _ _ _ Hb). run.
  bind (the_Some _ _ _ Hd). bind (the_Some _ _ _ Hbl).
  bind by (apply the_Some, memcpy_Some; lia). run.
  rewrite (drop_ge block), app_nil_r, Hd by lia.
  by apply (put_skb_run sl b _ (set_blocks _ s)).
Qed.

Lemma nova_free_skb_run sl bl b s :
  skbs s !! sl = Some b → data b = Some bl → is_Some (blocks s !! bl) →
  nova_free_skb (Some sl) s = Done (tt,
    set_skbs (delete sl (skbs s)) (set_blocks (delete bl (blocks s)) s)).
Proof.
  intros Hb Hd [block Hbl]. unfold nova_free_skb. bind (get_skb_run _ _ _ Hb).
  rewrite Hd. unfold free_block. run. bind (the_Some _ _ _ Hbl). run.
  unfold free_skb_struct. bind by (by apply get_skb_run). done.
Qed.

Lemma nova_dev_queue_xmit_run sl bl dl b d f s :
  packet s sl bl dl b → netdevs s !! dl = Some d → ops d ≫= op_start_xmit = Some f →
  nova_dev_queue_xmit (Some sl) s = f (Some dl) (Some sl) s.
Proof.
  intros (Hb & _ & _ & Hdev) Hd Hf. unfold nova_dev_queue_xmit.
  bind (get_skb_run _ _ _ Hb). rewrite Hdev. bind (get_dev_run _ _ _ Hd). by rewrite Hf.
Qed.

(** ** Handing the packet to the driver *)

Lemma transmitted_facts sl bl s r s' :
  transmitted sl bl s r s' →
  same_tables s s' ∧ brk s' = brk s ∧ (packets_below (brk s) s → sl < brk s →
    packets_below (brk s) s') ∧
  (r ≠ 0%Z → (∃ b, skbs s' = <[sl := b]> (skbs s) ∧ data b = Some bl) ∧ blocks s' = blocks s).
Proof.
  intros [r' h b Hh Hd|h Hh]; cbn; split_and!; try done; try (by split).
  - intros Hp Hsl l Hl. cbn. rewrite lookup_insert_ne by lia. by apply Hp.
  - intros _. split; [|done]. by eexists.
  - intros Hp Hsl l Hl. cbn. rewrite !lookup_delete_None. destruct (Hp l Hl). auto.
Qed.

Definition hand_over (sl : loc) (len : Z) : M (net_state O) Z :=
  r ← nova_dev_queue_xmit (Some sl);
  if decide (r ≠ 0)%Z then nova_free_skb (Some sl);; mret (-1)%Z
  else mret (i64 len).

Lemma hand_over_run `{!NetDriversOk O} sl bl dl b d f len s :
  packet s sl bl dl b → netdevs s !! dl = Some d → ops d ≫= op_start_xmit = Some f →
  packets_below (brk s) s → sl < brk s →
  ∃ r s' r1 s2, hand_over sl len s = Done (r, s') ∧ f (Some dl) (Some sl) s = Done (r1, s2) ∧
    same_tables s s' ∧ brk s' = brk s ∧ packets_below (brk s) s' ∧
    ((r1 = 0%Z ∧ r = i64 len ∧ s' = s2) ∨
     (r1 ≠ 0%Z ∧ r = (-1)%Z ∧ skbs s' = delete sl (skbs s) ∧ blocks s' = delete bl (blocks s))).
Proof.
  intros Hpk Hd Hf Hbelow Hsl. pose proof Hf as (o & _ & Ho)%bind_Some.
  destruct (start_xmit_ok o f dl sl bl b s) as (r1 & s2 & Hrun & Htr); [done|by eexists|done|].
  destruct (transmitted_facts _ _ _ _ _ Htr) as (Hsame & Hbrk & Hkeep & Hne).
  unfold hand_over. bind by (by rewrite (nova_dev_queue_xmit_run sl bl dl b d f)).
  destruct (decide (r1 = 0%Z)) as [H0|H0].
  - rewrite decide_False by tauto. eexists _, _, r1, s2. split_and!; try done; auto.
  - rewrite decide_True by done. destruct (Hne H0) as ((b' & Hskb & Hb') & Hbl).
    destruct Hpk as (_ & _ & Hblock & _). specialize (Hkeep Hbelow Hsl).
    bind by (apply (nova_free_skb_run sl bl b');
      [by rewrite Hskb, lookup_insert_eq|done|by rewrite Hbl]). run.
    eexists _, _, r1, s2. split; [done|]. split; [done|].
    split; [by destruct Hsame; split|]. split; [done|]. split.
    + intros l Hl. cbn. rewrite !lookup_delete_None. destruct (Hkeep l Hl). auto.
    + right. cbn. rewrite Hskb, Hbl, delete_insert_eq. by split_and!.
Qed.

(** ** The contract *)

(** The device and the transmit function a call reaches, when it gets that far. *)
Definition send_target s (q : api) (fd : Z) (buf : option (list Z)) (len : Z)
    : option (loc * (option loc → option loc → M (net_state O) Z)) :=
  k ← entry q fd;
  _ ← buf;
  dl ← dev (attached q k);
  d ← netdevs s !! dl;
  f ← ops d ≫= op_start_xmit;
  if decide (len = 0%Z ∨ next_alloc (a_calloc q) && next_alloc (tail (a_calloc q)) = false)
  then None else Some (dl, f).

Definition send_args_ok (buf : option (list Z)) (len : Z) : Prop :=
  (0 ≤ len < 2 ^ 63)%Z ∧ from_option (λ b, len ≤ Z.of_nat (length b))%Z True buf.

(** What the caller sees. *)
Definition send_result s (q : api) fd buf len (r : Z) s' : Prop :=
  match send_target s q fd buf len, buf with
  | Some (dl, f), Some bytes =>
      ∃ s1 r1 s2, f (Some dl) (Some (brk s)) s1 = Done (r1, s2) ∧
        skbs s1 = <[brk s := SkBuff (Some (S (brk s))) len 0 0 (Some dl) 0 0 0 0]> (skbs s) ∧
        blocks s1 = <[S (brk s) := take (Z.to_nat len) bytes]> (blocks s) ∧
        netdevs s1 = netdevs s ∧
        ((r1 = 0%Z ∧ r = len ∧ s' = s2) ∨
         (r1 ≠ 0%Z ∧ r = (-1)%Z ∧ skbs s' = skbs s ∧ blocks s' = blocks s))
  | _, _ => r = (-1)%Z ∧ skbs s' = skbs s ∧ blocks s' = blocks s
  end.

(** A buffer allocated, filled and handed over. *)
Definition send_packet (l : loc) (buf : list Z) (len : Z) : M (net_state O) Z :=
  skb ← nova_alloc_skb len;
  match skb with
  | None => mret (-1)%Z
  | Some sl => k ← get_socket l; fill_skb sl buf len (dev k);; hand_over sl len
  end.

Lemma send_packet_run `{!NetDriversOk O} l k dl d f buf len s :
  net_wf s → sockets s !! l = Some k → dev k = Some dl → netdevs s !! dl = Some d →
  ops d ≫= op_start_xmit = Some f → (0 < len < 2 ^ 63)%Z → (len ≤ Z.of_nat (length buf))%Z →
  next_alloc (calloc_results s) = true → next_alloc (tail (calloc_results s)) = true →
  ∃ r s' s1 r1 s2, send_packet l buf len s = Done (r, s') ∧ net_wf s' ∧
    f (Some dl) (Some (brk s)) s1 = Done (r1, s2) ∧
    skbs s1 = <[brk s := SkBuff (Some (S (brk s))) len 0 0 (Some dl) 0 0 0 0]> (skbs s) ∧
    blocks s1 = <[S (brk s) := take (Z.to_nat len) buf]> (blocks s) ∧
    netdevs s1 = netdevs s ∧
    ((r1 = 0%Z ∧ r = len ∧ s' = s2) ∨
     (r1 ≠ 0%Z ∧ r = (-1)%Z ∧ skbs s' = skbs s ∧ blocks s' = blocks s)).
Proof.
  intros Hwf Hk Hdev Hd Hf Hlen Hbuf H1 H2.
  unfold send_packet. bind by (apply nova_alloc_skb_run; [lia|done|done]).
  bind by (by apply get_socket_run). rewrite Hdev.
  bind by (eapply fill_skb_run; cbn;
    [apply lookup_insert_eq|done|apply lookup_insert_eq|apply length_replicate|lia]).
  cbn. rewrite !insert_insert_eq. set (s1 := set_skbs _ _).
  assert (same_tables s s1) as Hsame by (by split).
  destruct (wf_fresh _ Hwf (brk s)) as (_ & Hnsl & _); [done|].
  destruct (wf_fresh _ Hwf (S (brk s))) as (_ & _ & Hnbl); [lia|].
  destruct (hand_over_run (brk s) (S (brk s)) dl
    (SkBuff (Some (S (brk s))) len 0 0 (Some dl) 0 0 0 0) d f len s1)
    as (r & s' & r1 & s2 & Hrun & Hfrun & Hsame' & Hbrk & Hbelow & Hres); try done.
  - split_and!; [apply lookup_insert_eq|done|eexists; apply lookup_insert_eq|done].
  - intros l' Hl'. cbn in *. rewrite !lookup_insert_ne by lia.
    apply (wf_fresh _ Hwf). lia.
  - cbn. lia.
  - exists r, s', s1, r1, s2. split; [done|]. split.
    { apply (same_tables_wf s); [done|by etransitivity| |by rewrite Hbrk].
      rewrite Hbrk. cbn. lia. }
    split_and!; [done|done|done|done|].
    destruct Hres as [(-> & -> & ->)|(? & -> & Hsk & Hblk)]; [left|right].
    + unfold i64. by rewrite swrap_small by lia.
    + rewrite Hsk, Hblk. cbn. by rewrite !delete_insert_id.
Qed.

Lemma nova_send_run `{!NetDriversOk O} fd buf len s q :
  holds s q → send_args_ok buf len →
  ∃ r s', nova_send fd buf len s = Done (r, s') ∧ net_wf s' ∧ send_result s q fd buf len r s'.
Proof.
  intros Hh [Hlen Hbuf]. pose proof (holds_wf _ _ Hh) as Hwf.
  unfold nova_send, send_result, send_target.
  bind (nova_socket_lookup_run fd s Hwf). destruct (slot s fd) as [l|] eqn:Hs.
  2: { rewrite (slot_None _ _ _ Hh Hs). by eexists _, _. }
  destruct (slot_socket _ _ _ _ Hh Hs) as (k & Hk & Hkok & ->). cbn [mbind option_bind].
  destruct buf as [bytes|]; [|by eexists _, _]. cbn in Hbuf.
  destruct (attach_run _ _ _ _ _ Hh Hs Hk) as [Hat Hh1].
  set (s1 := set_sockets _ _) in *.
  assert (sockets s1 !! l = Some (attached q k)) as Hk1 by apply lookup_insert_eq.
  destruct (slot_socket _ _ _ _ Hh1 Hs) as (k1 & Hk1' & [_ Hdevok] & _).
  rewrite Hk1 in Hk1'. injection Hk1' as <-.
  destruct (decide (len = 0%Z)) as [->|Hne].
  { destruct (dev (attached q k)) as [dl|]; cbn [mbind option_bind]; [|by eexists _, _].
    destruct (netdevs s !! dl) as [d|]; cbn [mbind option_bind]; [|by eexists _, _].
    destruct (ops d ≫= op_start_xmit); cbn [mbind option_bind]; [|by eexists _, _].
    rewrite decide_True by (by left). by eexists _, _. }
  bind Hat. bind (get_socket_run _ _ _ Hk1). pose proof (holds_wf _ _ Hh1) as Hwf1.
  destruct (dev (attached q k)) as [dl|] eqn:Hdev; cbn [mbind option_bind];
    [|by eexists _, s1].
  destruct (Hdevok _ eq_refl) as [d Hd]. change (netdevs s1) with (netdevs s) in Hd.
  bind by (by apply get_dev_run). rewrite Hd. cbn [mbind option_bind].
  destruct (ops d ≫= op_start_xmit) as [f|] eqn:Hf; cbn [mbind option_bind];
    [|by eexists _, s1].
  rewrite (holds_calloc _ _ Hh).
  destruct (next_alloc (calloc_results s) && next_alloc (tail (calloc_results s))) eqn:Ha.
  - rewrite decide_False by (intros [?|?]; done). apply andb_true_iff in Ha as [Ha1 Ha2].
    destruct (send_packet_run l (attached q k) dl d f bytes len s1)
      as (r & s' & s2 & r1 & s3 & Hrun & Hwf' & Hrest); try done; [lia|].
    exists r, s'. split; [exact Hrun|]. split; [done|]. by exists s2, r1, s3.
  - rewrite decide_True by (by right).
    destruct (nova_alloc_skb_fails len s1) as (s' & Hrun & Hsame & Hbrk & Hsk & Hbl);
      [lia|done|done|].
    bind Hrun. eexists _, s'. split; [done|]. split; [|done].
    apply (same_tables_wf s1); [done|done|done|]. intros l' Hl'. rewrite Hsk, Hbl.
    apply (wf_fresh _ Hwf1). lia.
Qed.
End send.
End Send.
