(* ===== verification/Drivers.v ===== *)
(** * The two network drivers (kernel/network/loopback.c and nic_stub.c)

    Their operation tables are the two inhabitants of [nova_ops], an instance
    of the driver interface that keeps its promises. *)

From S2P Require Import Prelude CString LinkedList NetState NetDev Sockets Send.

Module Drivers.
Import Sockets Send.

(** The statics [lo_dev] and [nic_dev]. *)
Definition lo_dev : loc := 1.
Definition nic_dev : loc := 2.

Section operations.
Context {O : Type}.

Definition lo_open (dev : option loc) : M (net_state O) Z :=
  l ← the dev;
  d ← get_dev l;
  put_dev l (set_flags (Z.lor (dev_flags d) (Z.lor NOVA_IFF_RUNNING NOVA_IFF_LOOPBACK)) d);;
  mret 0%Z.

Definition lo_stop (dev : option loc) : M (net_state O) Z :=
  l ← the dev;
  d ← get_dev l;
  put_dev l (set_flags (Z.land (dev_flags d) (u32 (Z.lnot NOVA_IFF_RUNNING))) d);;
  mret 0%Z.

Definition lo_start_xmit (dev skb : option loc) : M (net_state O) Z :=
  match skb with
  | None => mret (-1)%Z
  | Some sl =>
      dl ← the dev;
      b ← get_skb sl;
      d ← get_dev dl;
      put_dev dl (set_stats (count_tx (len b) (stats d)) d);;
      d ← get_dev dl;
      put_dev dl (set_stats (count_rx (len b) (stats d)) d);;
      nova_netif_receive_skb (Some sl);;
      mret 0%Z
  end.

(** The result and the statistics copied out. *)
Definition lo_get_stats (dev : option loc) (out : option nova_net_stats)
    : M (net_state O) (Z * option nova_net_stats) :=
  match dev, out with
  | Some l, Some _ => d ← get_dev l; mret (0%Z, Some (stats d))
  | _, _ => mret ((-1)%Z, out)
  end.

Definition nic_open (dev : option loc) : M (net_state O) Z :=
  l ← the dev;
  d ← get_dev l;
  put_dev l (set_flags (Z.lor (dev_flags d) NOVA_IFF_RUNNING) d);;
  mret 0%Z.

Definition nic_stop (dev : option loc) : M (net_state O) Z :=
  l ← the dev;
  d ← get_dev l;
  put_dev l (set_flags (Z.land (dev_flags d) (u32 (Z.lnot NOVA_IFF_RUNNING))) d);;
  mret 0%Z.

Definition nic_start_xmit (dev skb : option loc) : M (net_state O) Z :=
  match dev, skb with
  | Some dl, Some sl =>
      d ← get_dev dl;
      b ← get_skb sl;
      put_dev dl (set_stats (count_tx (len b) (stats d)) d);;
      nova_free_skb (Some sl);;
      mret 0%Z
  | _, _ => mret (-1)%Z
  end.

Definition nic_get_stats (dev : option loc) (out : option nova_net_stats)
    : M (net_state O) (Z * option nova_net_stats) :=
  match dev, out with
  | Some l, Some _ => d ← get_dev l; mret (0%Z, Some (stats d))
  | _, _ => mret ((-1)%Z, out)
  end.
End operations.

(** The two static tables; [set_mac] is NULL in both. *)
Inductive nova_ops : Type := lo_ops | nic_ops.

#[export] Instance nova_drivers : NetDrivers nova_ops := {|
  op_open o := Some (match o with lo_ops => lo_open | nic_ops => nic_open end);
  op_stop o := Some (match o with lo_ops => lo_stop | nic_ops => nic_stop end);
  op_start_xmit o :=
    Some (match o with lo_ops => lo_start_xmit | nic_ops => nic_start_xmit end);
  op_set_mac o := None;
  op_get_stats o :=
    Some (match o with lo_ops => lo_get_stats | nic_ops => nic_get_stats end);
|}.

(** memset of a whole struct nova_net_device. *)
Definition zero_device : nova_net_device nova_ops :=
  NetDevice (replicate 16 0%Z) (replicate 6 0%Z) 0 0 NOVA_AF_UNSPEC None zero_stats None None.

Definition nova_loopback_init : M (net_state nova_ops) Z :=
  put_dev lo_dev zero_device;;
  d ← get_dev lo_dev;
  name ← the (strncpy (dev_name d) (cstr "lo") 15);
  put_dev lo_dev (NetDevice name (mac d) 65536 (Z.lor NOVA_IFF_LOOPBACK NOVA_IFF_UP)
    (dev_family d) (Some lo_ops) (stats d) (dev_private_data d) (next d));;
  nova_netdev_register (Some lo_dev).

Definition nova_nic_stub_init : M (net_state nova_ops) Z :=
  put_dev nic_dev zero_device;;
  d ← get_dev nic_dev;
  name ← the (strncpy (dev_name d) (cstr "nic0") 15);
  put_dev nic_dev (NetDevice name [0x02; 0x00; 0x00; 0x00; 0x00; 0x01]%Z 1500
    (Z.lor NOVA_IFF_UP NOVA_IFF_RUNNING)
    (dev_family d) (Some nic_ops) (stats d) (dev_private_data d) (next d));;
  nova_netdev_register (Some nic_dev).

(** ** The drivers keep the promises of the interface *)

Implicit Types (s : net_state nova_ops).

Lemma put_flags_ok l d f s :
  netdevs s !! l = Some d →
  ∃ r h, ((put_dev l (set_flags f d);; mret 0%Z) : M (net_state nova_ops) Z) s =
      Done (r, set_netdevs h s) ∧ same_devs h (netdevs s).
Proof.
  intros Hd. bind (put_dev_run _ _ _ _ Hd). eexists _, _. split; [done|].
  by eapply same_insert.
Qed.

Lemma lo_start_xmit_run dl sl bl b d s :
  packet s sl bl dl b → netdevs s !! dl = Some d →
  lo_start_xmit (Some dl) (Some sl) s = Done (0%Z,
    set_skbs (<[sl := set_error 0 b]> (skbs s))
      (set_netdevs (<[dl := set_stats (count_rx (len b) (count_rx (len b)
        (count_tx (len b) (stats d)))) d]> (netdevs s)) s)).
Proof.
  intros (Hb & _ & _ & Hdev) Hd. unfold lo_start_xmit. run.
  bind (get_skb_run _ _ _ Hb). bind (get_dev_run _ _ _ Hd). bind (put_dev_run _ _ _ _ Hd).
  set (s1 := set_netdevs _ s).
  assert (netdevs s1 !! dl = Some (set_stats (count_tx (len b) (stats d)) d)) as Hd1
    by apply lookup_insert_eq.
  bind (get_dev_run _ _ _ Hd1). bind (put_dev_run _ _ _ _ Hd1).
  set (s2 := set_netdevs _ s1). unfold nova_netif_receive_skb.
  assert (skbs s2 !! sl = Some b) as Hb2 by done. run.
  bind (get_skb_run _ _ _ Hb2). rewrite Hdev. run.
  bind by (apply get_dev_run, lookup_insert_eq).
  bind by (eapply put_dev_run, lookup_insert_eq).
  run. bind by (by apply get_skb_run). bind by (by eapply put_skb_run). run.
  unfold s2, s1, set_skbs, set_netdevs. cbn. by rewrite !insert_insert_eq.
Qed.

Lemma nic_start_xmit_run dl sl bl b d s :
  packet s sl bl dl b → netdevs s !! dl = Some d →
  nic_start_xmit (Some dl) (Some sl) s = Done (0%Z,
    set_blocks (delete bl (blocks s)) (set_skbs (delete sl (skbs s))
      (set_netdevs (<[dl := set_stats (count_tx (len b) (stats d)) d]> (netdevs s)) s))).
Proof.
  intros (Hb & Hdata & Hbl & Hdev) Hd. unfold nic_start_xmit.
  bind (get_dev_run _ _ _ Hd). bind (get_skb_run _ _ _ Hb). bind (put_dev_run _ _ _ _ Hd).
  by bind by (by apply (nova_free_skb_run sl bl b)).
Qed.

#[export] Instance nova_drivers_ok : NetDriversOk nova_ops.
Proof.
  split.
  - intros o f l s [= <-] [d Hd].
    destruct o; cbv beta match; [unfold lo_open|unfold nic_open]; run;
      bind (get_dev_run _ _ _ Hd); by apply put_flags_ok.
  - intros o f dl sl bl b s [= <-] [d Hd] Hp. destruct o; cbv beta match.
    + rewrite (lo_start_xmit_run _ _ _ _ _ _ Hp Hd). eexists _, _. split; [done|].
      constructor; [by eapply same_insert|]. apply Hp.
    + rewrite (nic_start_xmit_run _ _ _ _ _ _ Hp Hd). eexists _, _. split; [done|].
      constructor. by eapply same_insert.
Qed.

(** ** Initialising a driver *)

(** The devices as their initialisation leaves them before registration. *)
Definition lo_device : nova_net_device nova_ops :=
  NetDevice (chars "lo" ++ replicate 14 0%Z) (replicate 6 0%Z) 65536 9 NOVA_AF_UNSPEC
    (Some lo_ops) zero_stats None None.
Definition nic_device : nova_net_device nova_ops :=
  NetDevice (chars "nic0" ++ replicate 12 0%Z) [2; 0; 0; 0; 0; 1]%Z 1500 65 NOVA_AF_UNSPEC
    (Some nic_ops) zero_stats None None.

(** The static device written over, before it is registered. *)
Definition reset (l : loc) (d : nova_net_device nova_ops) s : net_state nova_ops :=
  set_netdevs (<[l := d]> (netdevs s)) s.

Lemma nova_loopback_init_reset s :
  is_Some (netdevs s !! lo_dev) →
  nova_loopback_init s = nova_netdev_register (Some lo_dev) (reset lo_dev lo_device s).
Proof.
  intros [d Hd]. unfold nova_loopback_init. bind (put_dev_run _ _ _ _ Hd).
  bind by (apply get_dev_run, lookup_insert_eq).
  bind by (apply the_Some; reflexivity).
  bind by (eapply put_dev_run, lookup_insert_eq).
  unfold reset, set_netdevs. cbn [netdevs]. by rewrite insert_insert_eq.
Qed.

Lemma nova_nic_stub_init_reset s :
  is_Some (netdevs s !! nic_dev) →
  nova_nic_stub_init s = nova_netdev_register (Some nic_dev) (reset nic_dev nic_device s).
Proof.
  intros [d Hd]. unfold nova_nic_stub_init. bind (put_dev_run _ _ _ _ Hd).
  bind by (apply get_dev_run, lookup_insert_eq).
  bind by (apply the_Some; reflexivity).
  bind by (eapply put_dev_run, lookup_insert_eq).
  unfold reset, set_netdevs. cbn [netdevs]. by rewrite insert_insert_eq.
Qed.

(** Resetting a device cuts the registry behind it. *)
Lemma reset_registry l d n s ls :
  chain (netdevs s) (g_nova_netdev_registry s) ls → names_ok s ls →
  next d = None → c_string (dev_name d) = Some n →
  chain (netdevs (reset l d s)) (g_nova_netdev_registry (reset l d s)) (cut l ls) ∧
  names_ok (reset l d s) (cut l ls).
Proof.
  intros Hc Hn Hnext Hname. split; [by apply chain_cut|].
  apply Forall_forall. intros l' Hl'%cut_elem. cbn. unfold dev_string. rewrite lookup_insert.
  destruct (decide (l = l')) as [<-|Hne]; [cbn; by rewrite Hname; eexists|].
  by apply (proj1 (Forall_forall _ _) Hn).
Qed.
End Drivers.
