(* ===== verification/Packets.v ===== *)
(** * The life of a packet buffer (the packet functions of network_stack.c)

    What nova_alloc_skb takes nova_free_skb gives back, on every branch of the
    two allocations and for every size, and what the functions in between do
    with a packet that has no device yet. *)

From S2P Require Import Prelude CString LinkedList NetState NetDev Sockets Send Drivers.

Module Packets.
Import Sockets Send Drivers.

Section packets.
Context {O : Type} `{!NetDrivers O}.
Implicit Types (s : net_state O).

(** Nothing but the allocator has changed. *)
Definition allocator_only s s' : Prop :=
  s' = set_brk (brk s') (set_calloc (calloc_results s') s).

(** [size == 0 ? 1 : size] *)
Definition data_size (n : Z) : nat := if decide (n = 0)%Z then 1 else Z.to_nat n.

(** A packet as nova_alloc_skb makes it: no device, its length the size asked for,
    its data zeroed. *)
Definition with_packet (sl bl : loc) (n : Z) s : net_state O :=
  set_skbs (<[sl := SkBuff (Some bl) n 0 0 None 0 0 0 0]> (skbs s))
    (set_blocks (<[bl := replicate (data_size n) 0%Z]> (blocks s)) s).

(** An answer of calloc is used up and [k] addresses are. *)
Definition advanced (k : nat) s : net_state O :=
  set_brk (k + brk s) (set_calloc (tail (calloc_results s)) s).

Lemma alloc_skb_run n s :
  packets_below (brk s) s →
  nova_alloc_skb n s =
    if next_alloc (calloc_results s) then
      if next_alloc (tail (calloc_results s)) then
        Done (Some (brk s), with_packet (brk s) (S (brk s)) n (advanced 1 (advanced 1 s)))
      else Done (None, set_calloc (tail (tail (calloc_results s))) (advanced 1 s))
    else Done (None, advanced 0 s).
Proof.
  intros Hp. unfold nova_alloc_skb. destruct (next_alloc (calloc_results s)) eqn:H1; cycle 1.
  { bind (calloc_fails (store_skb zero_skb) s H1). by destruct s. }
  bind (calloc_run (store_skb zero_skb) s H1). set (s1 := store_skb zero_skb _ _).
  fold (data_size n). destruct (next_alloc (tail (calloc_results s))) eqn:H2.
  - bind (calloc_run (store_block (data_size n)) s1 H2).
    bind by (eapply put_skb_run, lookup_insert_eq). run.
    unfold with_packet, store_block, set_skbs, set_blocks. cbn. by rewrite insert_insert_eq.
  - bind (calloc_fails (store_block (data_size n)) s1 H2). unfold free_skb_struct.
    bind by (apply get_skb_run, lookup_insert_eq). run. unfold set_skbs. cbn.
    rewrite delete_insert_id by (by apply Hp). by destruct s.
Qed.

Lemma free_packet sl bl n s :
  skbs s !! sl = None → blocks s !! bl = None →
  nova_free_skb (Some sl) (with_packet sl bl n s) = Done (tt, s).
Proof.
  intros Hs Hb. rewrite (nova_free_skb_run sl bl (SkBuff (Some bl) n 0 0 None 0 0 0 0));
    [|apply lookup_insert_eq|done|eexists; apply lookup_insert_eq].
  unfold with_packet, set_skbs, set_blocks. cbn. rewrite !delete_insert_id by done. by destruct s.
Qed.

Lemma free_missing sl s : skbs s !! sl = None → nova_free_skb (Some sl) s = Undef.
Proof. intros H. unfold nova_free_skb. apply bind_Undef. unfold get_skb. run. by rewrite H. Qed.

Lemma unsent_packet sl bl n s :
  nova_netif_receive_skb (Some sl) (with_packet sl bl n s) = Done (0%Z, with_packet sl bl n s) ∧
  nova_dev_queue_xmit (Some sl) (with_packet sl bl n s) = Done ((-1)%Z, with_packet sl bl n s).
Proof.
  pose (b := SkBuff (Some bl) n 0 0 None 0 0 0 0).
  assert (skbs (with_packet sl bl n s) !! sl = Some b) as Hb by apply lookup_insert_eq. split.
  - unfold nova_netif_receive_skb. bind (get_skb_run _ _ _ Hb).
    cbn [skb_dev b]. run. bind (get_skb_run _ _ _ Hb). bind (put_skb_run _ _ (set_error 0 b) _ Hb).
    run. unfold with_packet, set_skbs. cbn. by rewrite insert_insert_eq.
  - unfold nova_dev_queue_xmit. by bind (get_skb_run _ _ _ Hb).
Qed.
End packets.

(** * Properties *)

(** C21. A packet from nova_alloc_skb to nova_free_skb.  Whatever the size, 0
    included, and whatever the two calls of calloc answer: either nova_alloc_skb
    returns NULL, one of them having failed, and neither a packet nor a data
    block is left; or it returns a packet that was not there before, with the
    size asked for as its length and no device, and a zeroed data block of its
    own, of one byte for size 0.  Receiving such a packet counts nowhere,
    queueing it is refused with -1, and both leave everything as it is.
    nova_free_skb then restores the packets and the data blocks there were;
    freeing the packet a second time is undefined. *)
Theorem nova_packet_life {O : Type} `{!NetDrivers O} (n : Z) (s : net_state O) :
  packets_below (brk s) s →
  ∃ p s1, nova_alloc_skb n s = Done (p, s1) ∧
    match p with
    | None =>
        next_alloc (calloc_results s) && next_alloc (tail (calloc_results s)) = false ∧
        allocator_only s s1
    | Some sl =>
        ∃ bl s0, allocator_only s s0 ∧ s1 = with_packet sl bl n s0 ∧
          skbs s !! sl = None ∧ blocks s !! bl = None ∧ packets_below (brk s1) s1 ∧
          nova_netif_receive_skb p s1 = Done (0%Z, s1) ∧
          nova_dev_queue_xmit p s1 = Done ((-1)%Z, s1) ∧
          ∃ s2, nova_free_skb p s1 = Done (tt, s2) ∧ allocator_only s s2 ∧
            nova_free_skb p s2 = Undef
    end.
Proof.
  intros Hp. rewrite (alloc_skb_run n s Hp). destruct (Hp (brk s)) as [Hs _]; [lia|].
  destruct (Hp (S (brk s))) as [_ Hb]; [lia|].
  destruct (next_alloc (calloc_results s)); [destruct (next_alloc (tail _))|];
    try (by eexists None, _; split; [done|]; split).
  set (s0 := advanced 1 (advanced 1 s)).
  destruct (unsent_packet (brk s) (S (brk s)) n s0) as [Hr Hx].
  eexists (Some (brk s)), _. split; [done|]. exists (S (brk s)), s0. split_and!; try done.
  - intros l Hl. cbn in *. rewrite !lookup_insert_ne by lia. apply Hp. lia.
  - exists s0. split; [by apply free_packet|]. split; [done|by apply free_missing].
Qed.

(** The second allocation fails; both succeed. *)
Lemma nova_packet_life_witness :
  let s answers : net_state nova_ops := NetState None (replicate 64 None) 1 1 ∅ ∅ ∅ ∅ 10 answers in
  (∃ s1, nova_alloc_skb 0 (s [true; false]) = Done (None, s1) ∧ allocator_only (s [true; false]) s1) ∧
  ∃ s1 s2, nova_alloc_skb 0 (s []) = Done (Some 10, s1) ∧ nova_free_skb (Some 10) s1 = Done (tt, s2) ∧
    allocator_only (s []) s2 ∧ nova_free_skb (Some 10) s2 = Undef.
Proof.
  intros s. assert (∀ answers, packets_below 10 (s answers)) as Hs by (by intros answers l _).
  split.
  - destruct (nova_packet_life 0 (s [true; false]) (Hs _)) as (p & s1 & Hrun & H).
    injection Hrun as <- <-. eexists. split; [reflexivity|]. apply H.
  - destruct (nova_packet_life 0 (s []) (Hs _)) as (p & s1 & Hrun & H).
    injection Hrun as <- <-. destruct H as (bl & s0 & _ & _ & _ & _ & _ & _ & _ & s2 & Hf & Ho & Hu).
    eexists _, s2. split; [reflexivity|]. split; [exact Hf|]. split; [exact Ho|exact Hu].
Defined.
End Packets.
