(* ===== verification/Network.v ===== *)
(** * The network stack as a whole: its properties

    The components of the stack (registry, sockets, packets, drivers) put
    together: the transition system of all their calls, and the theorems about
    the stack with the drivers of the repository or with any driver that keeps
    the promises of the interface. *)

From S2P Require Import Prelude CString LinkedList NetState NetDev Sockets Send Drivers.

Module Network.
Import Sockets Send Drivers.
Implicit Types (s : net_state nova_ops).

(** ** All calls *)

Inductive net_call : Type :=
  | CallApi (op : api_op)
  | CallRegistry (op : registry_op)
  | CallSend (fd : Z) (buf : option (list Z)) (len : Z)
  | CallLoopbackInit
  | CallNicStubInit.

Definition exec_call (c : net_call) : M (net_state nova_ops) Z :=
  match c with
  | CallApi op => o ← Sockets.exec_op op; mret o.1
  | CallRegistry op => o ← NetDev.exec_op op; mret o.1
  | CallSend fd buf len => nova_send fd buf len
  | CallLoopbackInit => nova_loopback_init
  | CallNicStubInit => nova_nic_stub_init
  end.

(** The arguments are what the C prototypes promise: devices that exist and
    have a terminated name, strings that end, buffers of the stated length. *)
Definition call_ok s (c : net_call) : Prop :=
  match c with
  | CallApi op => Sockets.op_ok op
  | CallRegistry (OpRegister (Some l)) => is_Some (dev_string (netdevs s) l)
  | CallRegistry (OpFind (Some name)) => is_Some (c_string name)
  | CallRegistry _ => True
  | CallSend _ buf len => send_args_ok buf len
  | CallLoopbackInit => is_Some (netdevs s !! lo_dev)
  | CallNicStubInit => is_Some (netdevs s !! nic_dev)
  end.

(** The stack runs a call, or a caller allocates a device of its own. *)
Inductive net_step s : net_state nova_ops → Prop :=
  | step_call c r s' : call_ok s c → exec_call c s = Done (r, s') → net_step s s'
  | step_device l d :
      netdevs s !! l = None → net_step s (set_netdevs (<[l := d]> (netdevs s)) s).

(** ** Every call keeps the state well formed *)

Lemma net_wf_devices s h p ls :
  let s' := set_registry p (set_netdevs h s) in
  net_wf s → (∀ l, is_Some (netdevs s !! l) → is_Some (h !! l)) →
  chain h p ls → names_ok s' ls → net_wf s'.
Proof.
  intros s' Hwf Hdom Hc Hn. destruct (holds_exists s Hwf) as [q Hq].
  exact (holds_wf _ _ (holds_devices s q h p (g_network_initialized s) ls Hq Hdom Hc Hn)).
Qed.

Lemma netdev_register_wf l s n :
  net_wf s → dev_string (netdevs s) l = Some n →
  ∃ r s', nova_netdev_register (Some l) s = Done (r, s') ∧ net_wf s'.
Proof.
  intros Hwf Hn. destruct (wf_registry _ Hwf) as (ls & Hc & Hnames).
  destruct (dev_string_Some _ _ _ Hn) as (d & Hd & Hdn).
  pose proof (nova_netdev_register_run l d n s ls Hc Hnames Hd Hdn) as Hrun.
  case_decide as Hdec; [by eexists _, _|]. destruct Hrun as (h & Hrun & Hsame).
  eexists _, _. split; [exact Hrun|].
  assert (l ∉ ls) as Hl.
  { intros Hin. apply Hdec. right. unfold holder.
    destruct (list_find _ ls) as [[]|] eqn:E; [by eexists|].
    apply list_find_None in E. by apply (proj1 (Forall_forall _ _) E) in Hin. }
  apply (net_wf_devices s h (Some l) (l :: ls)); [done| | |].
  - intros l' [d' Hd']. symmetry in Hsame.
    destruct (decide (l = l')) as [<-|Hne].
    + destruct (same_lookup _ _ l (set_node_next (g_nova_netdev_registry s) d) Hsame)
        as (d2 & Hd2 & _); [apply lookup_insert_eq|by eexists].
    + destruct (same_lookup _ _ l' d' Hsame) as (d2 & Hd2 & _);
        [by rewrite lookup_insert_ne|by eexists].
  - rewrite Hsame. by apply chain_push.
  - apply Forall_forall. intros l' Hl'. cbn [netdevs set_registry set_netdevs].
    rewrite Hsame, (dev_string_next _ _ _ _ _ Hd).
    apply elem_of_cons in Hl' as [->|Hl']; [by eexists|].
    by apply (proj1 (Forall_forall _ _) Hnames).
Qed.

Lemma netdev_unregister_wf l s :
  net_wf s → ∃ r s', nova_netdev_unregister (Some l) s = Done (r, s') ∧ net_wf s'.
Proof.
  intros Hwf. destruct (wf_registry _ Hwf) as (ls & Hc & Hnames).
  destruct (decide (l ∈ ls)) as [Hl|Hl].
  2: { eexists _, _. split; [by eapply nova_netdev_unregister_absent|done]. }
  destruct (list_elem_of_split _ _ Hl) as (ls1 & ls2 & ->).
  destruct (nova_netdev_unregister_run _ _ _ _ Hc) as (p & h & Hrun & Hc' & _ & Hrel).
  eexists _, _. split; [exact Hrun|].
  apply (net_wf_devices s h p (ls1 ++ ls2)); [done| |done|].
  - intros l'. by apply relinked_dom.
  - apply Forall_forall. intros l' Hl'. cbn [netdevs set_registry set_netdevs].
    rewrite (relinked_string _ _ _ Hrel). apply (proj1 (Forall_forall _ _) Hnames). set_solver.
Qed.

Lemma find_wf name n s :
  net_wf s → c_string name = Some n →
  ∃ o, nova_netdev_find (Some name) s = Done (o, s).
Proof.
  intros Hwf Hn. destruct (wf_registry _ Hwf) as (ls & Hc & Hnames).
  eexists. by apply (nova_netdev_find_run _ n _ ls).
Qed.

Lemma registry_wf op s :
  net_wf s → call_ok s (CallRegistry op) →
  ∃ o s', NetDev.exec_op op s = Done (o, s') ∧ net_wf s'.
Proof.
  intros Hwf Hok. destruct (holds_exists s Hwf) as [q Hq].
  destruct op as [| |[l|]|[l|]|[name|]]; cbn [NetDev.exec_op]; try by eexists _, _.
  - destruct (nova_network_init_run _ _ Hq) as (s' & Hrun & Hh & _). bind Hrun.
    eexists _, _. split; [done|by eapply holds_wf].
  - destruct (nova_network_shutdown_holds _ _ Hq) as (s' & Hrun & Hh). bind Hrun.
    eexists _, _. split; [done|by eapply holds_wf].
  - destruct Hok as [n Hn]. destruct (netdev_register_wf _ _ _ Hwf Hn) as (r & s' & Hrun & Hwf').
    bind Hrun. by eexists _, _.
  - destruct (netdev_unregister_wf l _ Hwf) as (r & s' & Hrun & Hwf'). bind Hrun. by eexists _, _.
  - destruct Hok as [n Hn]. destruct (find_wf _ _ _ Hwf Hn) as (o & Hrun). bind Hrun.
    by eexists _, _.
Qed.

Lemma reset_wf l d n s :
  net_wf s → is_Some (netdevs s !! l) → next d = None → c_string (dev_name d) = Some n →
  net_wf (reset l d s) ∧ dev_string (netdevs (reset l d s)) l = Some n.
Proof.
  intros Hwf Hl Hnext Hname. destruct (wf_registry _ Hwf) as (ls & Hc & Hnames). split.
  - destruct (reset_registry l d n s ls) as [Hc' Hn']; [done|done|done|done|].
    change (net_wf (set_registry (g_nova_netdev_registry s)
      (set_netdevs (<[l := d]> (netdevs s)) s))).
    apply (net_wf_devices s _ _ (cut l ls)); [done| |done|done].
    intros l' Hl'. rewrite lookup_insert. by case_decide.
  - unfold dev_string. cbn. by rewrite lookup_insert_eq.
Qed.

Lemma call_wf c s :
  net_wf s → call_ok s c → ∃ r s', exec_call c s = Done (r, s') ∧ net_wf s'.
Proof.
  intros Hwf Hok. destruct (holds_exists s Hwf) as [q Hq].
  destruct c as [op|op|fd buf len| |]; cbn [exec_call].
  - destruct (refines_step op s q Hq Hok) as (o & s' & q' & Hrun & _ & Hh). bind Hrun.
    eexists _, _. split; [done|by eapply holds_wf].
  - destruct (registry_wf op s Hwf Hok) as (o & s' & Hrun & Hwf'). bind Hrun.
    by eexists _, _.
  - destruct (nova_send_run fd buf len s q Hq Hok) as (r & s' & Hrun & Hwf' & _).
    by eexists _, _.
  - rewrite nova_loopback_init_reset by done.
    destruct (reset_wf lo_dev lo_device (chars "lo") s) as [Hwf' Hn]; [done..|].
    by eapply netdev_register_wf.
  - rewrite nova_nic_stub_init_reset by done.
    destruct (reset_wf nic_dev nic_device (chars "nic0") s) as [Hwf' Hn]; [done..|].
    by eapply netdev_register_wf.
Qed.

(** A device a caller allocates is not in the registry yet. *)
Lemma device_wf l d s :
  net_wf s → netdevs s !! l = None → net_wf (set_netdevs (<[l := d]> (netdevs s)) s).
Proof.
  intros Hwf Hl. destruct (wf_registry _ Hwf) as (ls & Hc & Hnames).
  assert (l ∉ ls) as Hnew.
  { intros Hin. destruct (chain_lookup _ _ _ _ Hc Hin). congruence. }
  change (net_wf (set_registry (g_nova_netdev_registry s)
    (set_netdevs (<[l := d]> (netdevs s)) s))).
  apply (net_wf_devices s _ _ ls); [done| | |].
  - intros l' Hl'. rewrite lookup_insert. by case_decide.
  - by apply chain_insert_other.
  - apply Forall_forall. intros l' Hl'. cbn. unfold dev_string.
    rewrite lookup_insert_ne by congruence. by apply (proj1 (Forall_forall _ _) Hnames).
Qed.

Lemma net_step_wf s s' : net_wf s → net_step s s' → net_wf s'.
Proof.
  intros Hwf [c r s1 Hok Hrun|l d Hl]; [|by apply device_wf].
  destruct (call_wf c s Hwf Hok) as (r' & s2 & Hrun' & Hwf'). congruence.
Qed.

(** ** Sample states *)

(** Static storage: the two driver structures, zeroed, and one device of a
    caller. *)
Definition user_device : nova_net_device nova_ops :=
  NetDevice (cstr "eth0") (replicate 6 0%Z) 1500 0 NOVA_AF_UNSPEC None zero_stats None None.

Definition cold : net_state nova_ops :=
  NetState None (replicate 64 None) 1 0
    {[ lo_dev := zero_device; nic_dev := zero_device; 3 := user_device ]} ∅ ∅ ∅ 10 [].

(** The loopback device registered and one socket attached to it. *)
Definition ready : net_state nova_ops :=
  NetState (Some lo_dev) (<[1 := Some 10]> (replicate 64 None)) 2 1
    {[ lo_dev := set_flags 73 lo_device; nic_dev := zero_device ]}
    {[ 10 := Socket 2 2 17 0 0 None None (Some lo_dev) ]} ∅ ∅ 11 [].

Lemma cold_wf : net_wf cold.
Proof.
  split; [exists []; split; [done|constructor]|done|done| | |done].
  - intros i l [? _]%lookup_replicate. done.
  - intros i j l [? _]%lookup_replicate. done.
Qed.

Lemma ready_wf : net_wf ready.
Proof.
  assert (∀ i l, g_socket_table ready !! i = Some (Some l) → i = 1 ∧ l = 10) as Hone.
  { intros i l [(<- & [= <-] & _)|[_ [? _]%lookup_replicate]]%list_lookup_insert_Some; done. }
  split; [|done|done| | |].
  - exists [lo_dev]. split; [by split; [|eexists; split]|].
    constructor; [by eexists|constructor].
  - intros i l [-> ->]%Hone. split; [cbn; lia|]. eexists. split; [done|].
    split; [done|]. intros dl [= <-]. by eexists.
  - intros i j l [-> _]%Hone [-> _]%Hone. done.
  - intros l Hl. change (11 ≤ l) in Hl. split; [apply lookup_singleton_ne; lia|done].
Qed.

(** * Properties *)

(** C1. The network stack is safe: whatever calls of the socket API, of the
    registry, of nova_send and of the two driver initialisations are made, in
    any order and with arguments of their types, and whatever devices the
    callers allocate, the next call completes (every loop ends), without
    undefined behaviour (no dangling pointer, no double free, no access outside
    the socket table), in a state that is well formed again. *)
Theorem nova_net_safe (s s' : net_state nova_ops) (c : net_call) :
  net_wf s → rtc net_step s s' → call_ok s' c →
  ∃ r s'', exec_call c s' = Done (r, s'') ∧ net_wf s''.
Proof.
  intros Hwf Hsteps Hok. apply call_wf; [|done].
  exact (rtc_invariant net_step net_wf net_step_wf s s' Hsteps Hwf).
Qed.

Lemma nova_net_safe_witness :
  let s := set_netdevs (<[7 := user_device]> (netdevs cold)) cold in
  rtc net_step cold s ∧
  ∃ r s'', exec_call CallLoopbackInit s = Done (r, s'') ∧ net_wf s''.
Proof.
  pose proof (rtc_once _ _ (step_device cold 7 user_device eq_refl)) as H.
  split; [exact H|]. apply (nova_net_safe cold _ CallLoopbackInit cold_wf H). by eexists.
Defined.

(** C12. From an empty registry on, any sequence of nova_network_init,
    nova_netdev_register, nova_netdev_unregister, nova_netdev_find and
    nova_network_shutdown calls behaves as a list of devices with non-empty,
    pairwise distinct names, whatever the drivers' open functions do: a device
    without a name or with a name taken is refused, a new one goes to the
    front, unregistering removes exactly the device given, finding returns the
    device of that name or NULL. *)
Theorem nova_netdev_refines {O : Type} `{!NetDrivers O} `{!NetDriversOk O}
    (names : gmap loc (list Z)) (s : net_state O) (ops : list registry_op) :
  NetDev.holds names s [] → Forall (NetDev.op_ok names) ops →
  ∃ os (s' : net_state O) q, exec_trace NetDev.exec_op ops s = Done (os, s') ∧
    spec_trace (NetDev.spec_op names) ops [] = (os, q) ∧
    chain (netdevs s') (g_nova_netdev_registry s') q ∧ NoDup ((names !!.) <$> q).
Proof.
  intros Hh Hops.
  destruct (trace_refines NetDev.exec_op (NetDev.spec_op names) (NetDev.op_ok names)
    (NetDev.holds names) ops s [] Hh Hops) as (os & s' & q & Hr & Hs & Hh').
  exists os, s', q. split_and!; [done|done|by eapply holds_chain|by eapply holds_unique].
Qed.

Lemma nova_netdev_refines_witness :
  let names := {[ 3 := chars "eth0" ]} in
  let ops := [OpRegister (Some 3); OpRegister (Some 3); OpFind (Some (cstr "eth0"));
              OpUnregister (Some 3); OpFind (Some (cstr "eth0")); OpFind None] in
  ∃ os s' q, exec_trace NetDev.exec_op ops cold = Done (os, s') ∧
    spec_trace (NetDev.spec_op names) ops [] = (os, q) ∧
    chain (netdevs s') (g_nova_netdev_registry s') q ∧ NoDup ((names !!.) <$> q).
Proof.
  apply nova_netdev_refines.
  - split; [done| |by intros l ?%elem_of_nil|constructor].
    intros l n [<- <-]%lookup_singleton_Some. reflexivity.
  - repeat constructor; by eexists.
Defined.

(** C13. The socket API behaves as a table of descriptors: from any well-formed
    state, a sequence of calls returns what the specification says.  Descriptors
    are handed out in increasing order and never twice, each call acts on the
    socket of its descriptor alone, calls on a descriptor that is not open
    return -1, a failed allocation spends a descriptor, nova_recv fills the
    buffer with zeros, and an invalid domain or type is refused. *)
Theorem nova_socket_api_refines {O : Type} `{!NetDrivers O} (s : net_state O) (q : api)
    (ops : list api_op) :
  Sockets.holds s q → Forall Sockets.op_ok ops →
  ∃ os (s' : net_state O) q', exec_trace Sockets.exec_op ops s = Done (os, s') ∧
    spec_trace Sockets.spec_op ops q = (os, q') ∧ Sockets.holds s' q'.
Proof. intros Hh Hops. by apply (trace_refines _ _ _ _ ops s q). Qed.

Lemma nova_socket_api_refines_witness :
  ∃ q, Sockets.holds ready q ∧
  ∃ os s' q', exec_trace Sockets.exec_op [OpSocket 2 1 0; OpConnect 2; OpClose 1] ready =
      Done (os, s') ∧
    spec_trace Sockets.spec_op [OpSocket 2 1 0; OpConnect 2; OpClose 1] q = (os, q') ∧
    Sockets.holds s' q'.
Proof.
  destruct (holds_exists ready ready_wf) as [q Hq]. exists q. split; [exact Hq|].
  apply (nova_socket_api_refines ready q _ Hq). repeat constructor.
Defined.

(** C4. nova_send against any driver that keeps the interface's promises.  When
    the socket is open, the buffer is given and not empty, a device with a
    start_xmit function is attached (or found as lo) and both allocations
    succeed, the driver is called once, on a fresh packet that holds the
    buffer's bytes and names the device; its result 0 gives the length, any
    other -1.  In every case that returns -1 no packet and no data block is
    left behind or lost, and the state stays well formed. *)
Theorem nova_send_contract {O : Type} `{!NetDrivers O} `{!NetDriversOk O}
    (fd : Z) (buf : option (list Z)) (len : Z) (s : net_state O) (q : api) :
  Sockets.holds s q → send_args_ok buf len →
  ∃ r (s' : net_state O), nova_send fd buf len s = Done (r, s') ∧ net_wf s' ∧
    send_result s q fd buf len r s'.
Proof. apply nova_send_run. Qed.

Lemma nova_send_contract_witness :
  ∃ q, Sockets.holds ready q ∧
  ∃ r s', nova_send 1 (Some [1; 2; 3]%Z) 3 ready = Done (r, s') ∧ net_wf s' ∧
    send_result ready q 1 (Some [1; 2; 3]%Z) 3 r s'.
Proof.
  destruct (holds_exists ready ready_wf) as [q Hq]. exists q. split; [exact Hq|].
  apply (nova_send_contract 1 (Some [1; 2; 3]%Z) 3 ready q Hq). split; cbn; lia.
Defined.

(** C33. Sending over the loopback device: the call returns the length and
    counts the packet once as sent and twice as received (lo_start_xmit counts
    it and hands it to nova_netif_receive_skb, which counts it again), and the
    buffer with its data stays allocated: nobody frees it. *)
Theorem nova_send_loopback (fd : Z) (bytes : list Z) (len : Z) (s : net_state nova_ops)
    (q : api) (k : NetState.nova_socket) (dl : loc) (d : nova_net_device nova_ops) :
  Sockets.holds s q → entry q fd = Some k → dev (attached q k) = Some dl →
  netdevs s !! dl = Some d → ops d = Some lo_ops → a_calloc q = [] →
  (0 < len < 2 ^ 63)%Z → (len ≤ Z.of_nat (length bytes))%Z →
  ∃ s' b, nova_send fd (Some bytes) len s = Done (len, s') ∧
    netdevs s' = <[dl := set_stats
      (count_rx len (count_rx len (count_tx len (stats d)))) d]> (netdevs s) ∧
    skbs s' = <[brk s := b]> (skbs s) ∧ data b = Some (S (brk s)) ∧
    blocks s' = <[S (brk s) := take (Z.to_nat len) bytes]> (blocks s).
Proof.
  intros Hh Hk Hdev Hd Hops Hca Hlen Hbuf.
  destruct (nova_send_run fd (Some bytes) len s q Hh) as (r & s' & Hrun & _ & Hres);
    [split; cbn; lia|].
  unfold send_result, send_target in Hres. rewrite Hk in Hres.
  cbn [mbind option_bind] in Hres. rewrite Hdev in Hres. cbn [mbind option_bind] in Hres.
  rewrite Hd in Hres. cbn [mbind option_bind] in Hres. rewrite Hops, Hca in Hres.
  cbn [mbind option_bind op_start_xmit nova_drivers] in Hres.
  rewrite decide_False in Hres by (intros [?|?]; [lia|done]).
  destruct Hres as (s1 & r1 & s2 & Hf & Hsk & Hbl & Hnd & Hcase).
  set (b := SkBuff _ _ _ _ _ _ _ _ _) in Hsk.
  assert (packet s1 (brk s) (S (brk s)) dl b) as Hp.
  { split_and!; [by rewrite Hsk, lookup_insert_eq|done| |done].
    rewrite Hbl, lookup_insert_eq. by eexists. }
  rewrite <-Hnd in Hd. rewrite (lo_start_xmit_run _ _ _ _ _ _ Hp Hd) in Hf.
  injection Hf as <- <-. destruct Hcase as [(_ & -> & ->)|[? _]]; [|done].
  exists (set_skbs (<[brk s := set_error 0 b]> (skbs s1)) (set_netdevs (<[dl := set_stats
    (count_rx len (count_rx len (count_tx len (stats d)))) d]> (netdevs s1)) s1)),
    (set_error 0 b).
  split; [exact Hrun|]. cbn. rewrite Hsk, Hbl, Hnd. split_and!; try done.
  by rewrite insert_insert_eq.
Qed.

Lemma nova_send_loopback_witness :
  ∃ q k, Sockets.holds ready q ∧ entry q 1 = Some k ∧
  ∃ s' b, nova_send 1 (Some [7; 8]%Z) 2 ready = Done (2%Z, s') ∧
    netdevs s' = <[lo_dev := set_stats
      (count_rx 2 (count_rx 2 (count_tx 2 zero_stats))) (set_flags 73 lo_device)]>
      (netdevs ready) ∧
    skbs s' = <[11 := b]> (skbs ready) ∧ data b = Some 12 ∧
    blocks s' = <[12 := [7; 8]%Z]> (blocks ready).
Proof.
  destruct (holds_exists ready ready_wf) as [q Hq].
  destruct (slot_socket 1 10 ready q Hq eq_refl) as (k & Hk & _ & Hent).
  exists q, k. split; [exact Hq|]. split; [exact Hent|].
  injection Hk as <-.
  apply (nova_send_loopback 1 [7; 8]%Z 2 ready q _ lo_dev (set_flags 73 lo_device) Hq Hent);
    first [reflexivity|exact (holds_calloc _ _ Hq)|lia|cbn; lia].
Defined.

(** A packet queued on the stub NIC is counted once as sent and consumed:
    the buffer and its data are freed, and nothing else changes. *)
Theorem nova_dev_queue_xmit_nic (sl bl dl : loc) (b : nova_sk_buff)
    (d : nova_net_device nova_ops) (s : net_state nova_ops) :
  packet s sl bl dl b → netdevs s !! dl = Some d → ops d = Some nic_ops →
  nova_dev_queue_xmit (Some sl) s = Done (0%Z,
    set_blocks (delete bl (blocks s)) (set_skbs (delete sl (skbs s))
      (set_netdevs (<[dl := set_stats (count_tx (len b) (stats d)) d]> (netdevs s)) s))).
Proof.
  intros Hp Hd Hops. rewrite <-(nic_start_xmit_run dl sl bl b d s Hp Hd).
  apply (nova_dev_queue_xmit_run sl bl dl b d); [done|done|]. by rewrite Hops.
Qed.

Lemma nova_dev_queue_xmit_nic_witness :
  let b := SkBuff (Some 5) 2 0 0 (Some nic_dev) 0 0 0 0 in
  let s := set_netdevs {[ nic_dev := nic_device ]}
    (set_skbs {[ 4 := b ]} (set_blocks {[ 5 := [1; 2]%Z ]} cold)) in
  nova_dev_queue_xmit (Some 4) s = Done (0%Z,
    set_blocks (delete 5 (blocks s)) (set_skbs (delete 4 (skbs s))
      (set_netdevs (<[nic_dev := set_stats (count_tx 2 zero_stats) nic_device]>
        (netdevs s)) s))).
Proof.
  intros b s. apply (nova_dev_queue_xmit_nic 4 5 nic_dev b nic_device s);
    [split_and!; try reflexivity; by eexists|reflexivity|reflexivity].
Defined.

(** [n] rounds of opening a socket and closing it, from descriptor [fd] on. *)
Fixpoint rounds (n : nat) (fd : Z) : list api_op :=
  match n with
  | 0 => []
  | S n => OpSocket NOVA_AF_INET NOVA_SOCK_STREAM 0 :: OpClose fd :: rounds n (fd + 1)
  end.

(** What the rounds return: descriptor 1 and 0, 2 and 0, and so on. *)
Definition round_results : list api_observation :=
  (0%Z, None) :: mjoin ((λ i, [(Z.of_nat i, None); (0%Z, None)]) <$> seq 1 63).

Definition exhausting : list api_op :=
  OpNetworkInit :: rounds 63 1 ++ [OpSocket NOVA_AF_INET NOVA_SOCK_STREAM 0].

Lemma spec_exhausting q :
  a_calloc q = [] →
  spec_trace Sockets.spec_op exhausting q =
    (round_results ++ [((-1)%Z, None)], Api true 64 (replicate 64 None) None []).
Proof. destruct q as [qi qn qo ql qc]. cbn [a_calloc]. intros ->. vm_compute. reflexivity. Qed.

Lemma no_socket s q fd :
  Sockets.holds s q → a_open q = replicate 64 None → slot s fd = None.
Proof.
  intros Hh Hopen. destruct (slot s fd) as [l|] eqn:Hs; [|done].
  destruct (slot_socket _ _ _ _ Hh Hs) as (k & _ & _ & Hk). revert Hk.
  unfold entry. rewrite Hopen. case_decide; [|done].
  by destruct (replicate 64 None !! Z.to_nat fd) as [o|] eqn:E;
    [apply lookup_replicate in E as [-> _]|].
Qed.

(** C40. Descriptors are never reused: after nova_network_init, 63 sockets opened
    and closed one after the other get the descriptors 1 to 63 and exhaust the
    table.  No socket is open then, and yet the next nova_socket returns -1. *)
Theorem nova_socket_exhausted (s : net_state nova_ops) :
  net_wf s → calloc_results s = [] →
  ∃ s', exec_trace Sockets.exec_op exhausting s =
      Done (round_results ++ [((-1)%Z, None)], s') ∧ ∀ fd, slot s' fd = None.
Proof.
  intros Hwf Hca. destruct (holds_exists s Hwf) as [q Hq].
  destruct (trace_refines Sockets.exec_op Sockets.spec_op Sockets.op_ok Sockets.holds
    exhausting s q Hq) as (os & s' & q' & Hrun & Hspec & Hh'); [repeat constructor|].
  rewrite spec_exhausting in Hspec by (by rewrite (holds_calloc _ _ Hq)).
  injection Hspec as <- <-. exists s'. split; [done|].
  intros fd. by apply (no_socket _ _ _ Hh').
Qed.

Lemma nova_socket_exhausted_witness :
  ∃ s', exec_trace Sockets.exec_op exhausting cold =
      Done (round_results ++ [((-1)%Z, None)], s') ∧ ∀ fd, slot s' fd = None.
Proof. apply nova_socket_exhausted; [apply cold_wf|reflexivity]. Defined.

(** A socket made by a call that initialises the stack has no device. *)
Lemma forgotten_target domain type protocol fd buf len s q q' :
  spec_socket domain type protocol q = (fd, q') → a_initialized q = false →
  send_target s q' fd buf len = None.
Proof.
  unfold spec_socket, ensure_init. intros Hsp Hi. rewrite Hi in Hsp. revert Hsp.
  unfold send_target, entry.
  destruct (decide (bad_domain domain ∨ _));
    [intros [= <- <-]; by rewrite decide_False by (unfold fd_ok; lia)|].
  destruct (next_alloc (a_calloc (initial_api q)));
    intros [= <- <-]; [|by rewrite decide_False by (unfold fd_ok; lia)].
  cbn. by destruct buf.
Qed.

(** The implicit initialisation in nova_socket empties the registry: when
    the stack is not initialised, whatever devices were registered before, the
    first nova_socket call leaves none of them, no device is found afterwards,
    and the sockets it makes have no device, so that nova_send on them is
    refused. *)
Theorem nova_socket_forgets_devices (domain type protocol : Z) (bytes : list Z) (len : Z)
    (s : net_state nova_ops) :
  net_wf s → g_network_initialized s = 0%Z → (0 < len < 2 ^ 63)%Z →
  (len ≤ Z.of_nat (length bytes))%Z →
  ∃ fd s', nova_socket domain type protocol s = Done (fd, s') ∧
    g_nova_netdev_registry s' = None ∧
    ∃ s2, nova_send fd (Some bytes) len s' = Done ((-1)%Z, s2).
Proof.
  intros Hwf H0 Hlen Hbuf. destruct (holds_exists s Hwf) as [q Hq].
  destruct (nova_socket_run domain type protocol s q Hq)
    as (fd & s' & q' & Hrun & Hsp & Hh & Hreg).
  exists fd, s'. split; [exact Hrun|]. split; [by apply Hreg|].
  destruct (nova_send_run fd (Some bytes) len s' q' Hh) as (r & s2 & Hsend & _ & Hres);
    [split; cbn; lia|].
  exists s2. rewrite Hsend. unfold send_result in Hres.
  rewrite (forgotten_target domain type protocol fd _ len s' q q') in Hres;
    [by destruct Hres as [-> _]|done|].
  rewrite (holds_initialized _ _ Hq). apply bool_decide_eq_false_2; tauto.
Qed.

Lemma nova_socket_forgets_devices_witness :
  let s := set_registry (Some 3) cold in
  nova_netdev_find (Some (cstr "eth0")) s = Done (Some 3, s) ∧
  ∃ fd s', nova_socket 2 1 0 s = Done (fd, s') ∧ g_nova_netdev_registry s' = None ∧
    ∃ s2, nova_send fd (Some [1]%Z) 1 s' = Done ((-1)%Z, s2).
Proof.
  intros s. split; [vm_compute; reflexivity|].
  apply nova_socket_forgets_devices; [|reflexivity|lia|cbn; lia].
  apply (net_wf_devices cold (netdevs cold) (Some 3) [3] cold_wf); [done| |].
  - split; [done|]. eexists. split; reflexivity.
  - constructor; [by eexists|constructor].
Defined.
(** Initialising a driver again while its device is registered cuts the
    registry: nova_nic_stub_init and nova_loopback_init clear the device, its
    next pointer included, before the registration notices the duplicate and
    returns -1.  Exactly the devices behind it are lost, its counters are zero
    again. *)
Theorem nova_driver_reinit (s : net_state nova_ops) (ls1 ls2 : list loc) (nic : bool) :
  let l := if nic then nic_dev else lo_dev in
  let init := if nic then nova_nic_stub_init else nova_loopback_init in
  chain (netdevs s) (g_nova_netdev_registry s) (ls1 ++ l :: ls2) →
  names_ok s (ls1 ++ l :: ls2) →
  ∃ s', init s = Done ((-1)%Z, s') ∧
    chain (netdevs s') (g_nova_netdev_registry s') (ls1 ++ [l]) ∧
    stats <$> netdevs s' !! l = Some zero_stats.
Proof.
  intros l init Hc Hn.
  assert (is_Some (netdevs s !! l)) as Hl by (apply (chain_lookup _ _ _ l Hc); set_solver).
  assert (l ∉ ls1) as Hfresh.
  { pose proof (chain_NoDup _ _ _ Hc) as Hnd. apply NoDup_app in Hnd as (_ & Hnd & _).
    intros Hin. apply (Hnd _ Hin). constructor. }
  assert (∃ d n, init s = nova_netdev_register (Some l) (reset l d s) ∧ next d = None ∧
    c_string (dev_name d) = Some n ∧ stats d = zero_stats) as (d & n & -> & Hnext & Hname & Hst).
  { subst l init. destruct nic.
    - exists nic_device, (chars "nic0"). by rewrite nova_nic_stub_init_reset.
    - exists lo_device, (chars "lo"). by rewrite nova_loopback_init_reset. }
  destruct (reset_registry l d n s _ Hc Hn Hnext Hname) as [Hc' Hn'].
  rewrite cut_split in Hc', Hn' by done.
  assert (netdevs (reset l d s) !! l = Some d) as Hd by apply lookup_insert_eq.
  pose proof (nova_netdev_register_run l d n _ _ Hc' Hn' Hd Hname) as Hrun.
  rewrite decide_True in Hrun.
  - exists (reset l d s). split_and!; [done|done|]. by rewrite Hd, <-Hst.
  - right. unfold holder. destruct (list_find _ _) as [[]|] eqn:E; [by eexists|].
    apply list_find_None in E. apply Forall_app in E as [_ E].
    apply Forall_cons in E as [[] _]. unfold dev_string. by rewrite Hd.
Qed.

(** Loopback behind the stub NIC. *)
Definition two_drivers : net_state nova_ops :=
  set_registry (Some nic_dev) (set_netdevs
    {[ nic_dev := set_node_next (Some lo_dev) nic_device; lo_dev := lo_device ]} cold).

Lemma nova_driver_reinit_witness :
  nova_netdev_find (Some (cstr "lo")) two_drivers = Done (Some lo_dev, two_drivers) ∧
  ∃ s', nova_nic_stub_init two_drivers = Done ((-1)%Z, s') ∧
    chain (netdevs s') (g_nova_netdev_registry s') [nic_dev] ∧
    stats <$> netdevs s' !! nic_dev = Some zero_stats.
Proof.
  split; [vm_compute; reflexivity|].
  apply (nova_driver_reinit two_drivers [] [lo_dev] true).
  - split; [reflexivity|]. eexists. split; [reflexivity|].
    split; [reflexivity|]. eexists. split; reflexivity.
  - repeat constructor; by eexists.
Defined.

(** C32. nova_network_shutdown ends and takes the registry apart: every device
    that was registered is unlinked, nothing else of it and no other device is
    changed, and the stack is not initialised any more. *)
Theorem nova_network_shutdown_correct {O : Type} `{!NetDrivers O} (s : net_state O)
    (ls : list loc) :
  chain (netdevs s) (g_nova_netdev_registry s) ls →
  ∃ h, nova_network_shutdown s =
      Done (0%Z, set_initialized 0 (set_registry None (set_netdevs h s))) ∧
    (∀ l, l ∈ ls → h !! l = set_node_next None <$> netdevs s !! l) ∧
    (∀ l, l ∉ ls → h !! l = netdevs s !! l).
Proof. apply nova_network_shutdown_run. Qed.

Lemma nova_network_shutdown_correct_witness :
  ∃ h, nova_network_shutdown two_drivers =
      Done (0%Z, set_initialized 0 (set_registry None (set_netdevs h two_drivers))) ∧
    (∀ l, l ∈ [nic_dev; lo_dev] → h !! l = set_node_next None <$> netdevs two_drivers !! l) ∧
    (∀ l, l ∉ [nic_dev; lo_dev] → h !! l = netdevs two_drivers !! l).
Proof.
  apply (nova_network_shutdown_correct two_drivers [nic_dev; lo_dev]).
  split; [reflexivity|]. eexists. split; [reflexivity|].
  split; [reflexivity|]. eexists. split; reflexivity.
Defined.

(** Bringing the loopback device up: when no device of that name is
    registered, nova_loopback_init returns 0, the device heads the registry
    before the devices that were there, it is called lo, is up and running with
    an MTU of 65536 and zero counters, and nova_netdev_find returns it. *)
Theorem nova_loopback_init_correct (s : net_state nova_ops) (ls : list loc) :
  chain (netdevs s) (g_nova_netdev_registry s) ls → names_ok s ls →
  is_Some (netdevs s !! lo_dev) → lo_dev ∉ ls → holder s lo_name ls = None →
  ∃ s', nova_loopback_init s = Done (0%Z, s') ∧
    chain (netdevs s') (g_nova_netdev_registry s') (lo_dev :: ls) ∧
    netdevs s' !! lo_dev = Some (set_node_next (g_nova_netdev_registry s)
      (set_flags (Z.lor (Z.lor NOVA_IFF_UP NOVA_IFF_LOOPBACK) NOVA_IFF_RUNNING) lo_device)) ∧
    nova_netdev_find (Some (cstr "lo")) s' = Done (Some lo_dev, s').
Proof.
  intros Hc Hn Hlo Hnew Hfree. rewrite nova_loopback_init_reset by done.
  destruct (reset_registry lo_dev lo_device lo_name s ls) as [Hc' Hn']; [done..|].
  rewrite cut_absent in Hc', Hn' by done.
  rewrite (nova_netdev_register_links lo_dev lo_device lo_name _ ls)
    by (first [done|apply lookup_insert_eq]).
  rewrite decide_False.
  2: { intros [?|[x Hx]]; [done|]. revert Hx. unfold holder in *.
    rewrite (list_find_ext_in _ (λ l, dev_string (netdevs s) l = Some lo_name));
      [by rewrite Hfree|].
    intros l Hl. cbn. unfold dev_string. rewrite lookup_insert_ne by congruence. done. }
  set (s1 := linked _ _ _). set (d1 := set_node_next (g_nova_netdev_registry s) lo_device).
  assert (netdevs s1 !! lo_dev = Some d1) as Hd1 by apply lookup_insert_eq.
  cbn [ops lo_device mbind option_bind op_open nova_drivers]. unfold lo_open. run.
  bind (get_dev_run _ _ _ Hd1). bind (put_dev_run _ _ _ _ Hd1). run.
  eexists. split; [done|]. set (d2 := set_flags _ d1).
  assert (same_devs (<[lo_dev := d2]> (netdevs s1)) (netdevs s1)) as Hsame
    by (by apply (same_insert _ _ d1)).
  assert (chain (<[lo_dev := d2]> (netdevs s1)) (Some lo_dev) (lo_dev :: ls)) as Hchain.
  { rewrite Hsame. by apply (chain_push (netdevs (reset lo_dev lo_device s))). }
  split; [exact Hchain|]. split; [cbn; by rewrite lookup_insert_eq|].
  rewrite (nova_netdev_find_run _ lo_name _ (lo_dev :: ls)); [|exact Hchain| |done].
  - unfold holder. cbn [list_find]. rewrite decide_True; [done|].
    unfold dev_string. cbn. by rewrite lookup_insert_eq.
  - constructor; [unfold dev_string; cbn; rewrite lookup_insert_eq; by eexists|].
    apply Forall_forall. intros l Hl. unfold dev_string. cbn.
    rewrite !lookup_insert_ne by congruence. by apply (proj1 (Forall_forall _ _) Hn).
Qed.

Lemma nova_loopback_init_correct_witness :
  ∃ s', nova_loopback_init cold = Done (0%Z, s') ∧
    chain (netdevs s') (g_nova_netdev_registry s') [lo_dev] ∧
    netdevs s' !! lo_dev = Some (set_node_next None
      (set_flags (Z.lor (Z.lor NOVA_IFF_UP NOVA_IFF_LOOPBACK) NOVA_IFF_RUNNING) lo_device)) ∧
    nova_netdev_find (Some (cstr "lo")) s' = Done (Some lo_dev, s').
Proof.
  apply (nova_loopback_init_correct cold []);
    [reflexivity|constructor|by eexists|by intros ?%elem_of_nil|reflexivity].
Defined.
End Network.
