(* ===== verification/NetTyped.v ===== *)
(** * The network stack keeps its C types

    A state is typed when every object in it is a value of the type the header
    declares: the devices of struct nova_net_device, the sockets of struct
    nova_socket, the packets of struct nova_sk_buff, the data blocks of bytes,
    the statics of their declared types. *)

From S2P Require Import Prelude CString LinkedList Keeps CType Headers NetState NetDev Sockets Send Drivers Network.

Module NetTyped.
Import Sockets Send Drivers Network.

(** ** The objects as values *)

Definition stats_val (t : nova_net_stats) : cval :=
  VStruct [VInt (rx_bytes t); VInt (rx_packets t); VInt (rx_errors t); VInt (rx_dropped t);
           VInt (tx_bytes t); VInt (tx_packets t); VInt (tx_errors t); VInt (tx_dropped t)].

Definition device_val {O} (d : nova_net_device O) : cval :=
  VStruct [VArray (VInt <$> dev_name d); VArray (VInt <$> mac d); VInt (mtu d);
           VInt (dev_flags d); VInt (dev_family d); pointer (ops d); stats_val (stats d);
           pointer (dev_private_data d); pointer (next d)].

Definition socket_val (k : NetState.nova_socket) : cval :=
  VStruct [VInt (family k); VInt (type k); VInt (protocol k); VInt (state k); VInt (flags k);
           pointer (sock_ops k); pointer (private_data k); pointer (dev k)].

Definition skb_val (b : nova_sk_buff) : cval :=
  VStruct [pointer (data b); VInt (len b); VInt (headroom b); VInt (tailroom b);
           pointer (skb_dev b); VInt (hash b);
           VInt (skb_protocol b); VInt (skb_priority b); VInt (error b)].

Definition device_typed {O} (d : nova_net_device O) : Prop :=
  has_type struct_nova_net_device (device_val d).
Definition socket_typed (k : NetState.nova_socket) : Prop :=
  has_type struct_nova_socket (socket_val k).
Definition skb_typed (b : nova_sk_buff) : Prop := has_type struct_nova_sk_buff (skb_val b).
Definition stats_typed (t : nova_net_stats) : Prop :=
  has_type struct_nova_net_stats (stats_val t).

Record typed {O} (s : net_state O) : Prop := {
  ty_devices : map_Forall (λ _ d, device_typed d) (netdevs s);
  ty_sockets : map_Forall (λ _ k, socket_typed k) (sockets s);
  ty_skbs : map_Forall (λ _ b, skb_typed b) (skbs s);
  ty_blocks : map_Forall (λ _ l, bytes_ok l) (blocks s);
  ty_table : length (g_socket_table s) = NOVA_SOCKET_TABLE_SIZE;
  ty_next_fd : int_ok (g_next_socket_fd s);
  ty_initialized : int_ok (g_network_initialized s);
}.

(** ** Values and their parts *)

Lemma count_rx_typed n t : stats_typed t → stats_typed (count_rx n t).
Proof. intros (?&?&?&?&?&?&?&?&?). repeat (split; [by try apply u64_width|]). done. Qed.
Lemma count_tx_typed n t : stats_typed t → stats_typed (count_tx n t).
Proof. intros (?&?&?&?&?&?&?&?&?). repeat (split; [by try apply u64_width|]). done. Qed.

Section devices.
Context {O : Type}.
Implicit Types (d : nova_net_device O).

Lemma device_stats d : device_typed d → stats_typed (stats d).
Proof. by intros (?&?&?&?&?&?&?&_). Qed.
Lemma device_flags d : device_typed d → in_width 32 (dev_flags d).
Proof. by intros (?&?&?&?&_). Qed.
Lemma set_stats_typed t d : stats_typed t → device_typed d → device_typed (set_stats t d).
Proof. intros Ht (?&?&?&?&?&?&?&?&?&?). by repeat (split; [assumption|]). Qed.
Lemma set_flags_typed f d : in_width 32 f → device_typed d → device_typed (set_flags f d).
Proof. intros Ht (?&?&?&?&?&?&?&?&?&?). by repeat (split; [assumption|]). Qed.
Lemma set_next_typed p d : device_typed d → device_typed (set_node_next p d).
Proof. intros (?&?&?&?&?&?&?&?&?&?). repeat (split; [assumption|]). split; [apply pointer_typed|done]. Qed.
End devices.
#[export] Hint Resolve count_rx_typed count_tx_typed device_stats device_flags
  set_stats_typed set_flags_typed set_next_typed : typed.

Lemma set_state_typed z k : int_ok z → socket_typed k → socket_typed (set_state z k).
Proof. intros Hz (?&?&?&?&?&?&?&?&?). by repeat (split; [assumption|]). Qed.
Lemma set_dev_typed p k : socket_typed k → socket_typed (set_dev p k).
Proof. intros (?&?&?&?&?&?&?&?&?). repeat (split; [assumption|]). split; [apply pointer_typed|done]. Qed.
Lemma set_error_typed z b : int_ok z → skb_typed b → skb_typed (set_error z b).
Proof. intros Hz (?&?&?&?&?&?&?&?&?&?). by repeat (split; [assumption|]). Qed.
#[export] Hint Resolve set_state_typed set_dev_typed set_error_typed : typed.

(** ** Memory *)

Section memory.
Context {O : Type}.
Implicit Types (s : net_state O) (d : nova_net_device O).

Lemma typed_devices h s :
  map_Forall (λ _ d, device_typed d) h → typed s → typed (set_netdevs h s).
Proof. intros Hh []. by split. Qed.
Lemma typed_sockets h s :
  map_Forall (λ _ k, socket_typed k) h → typed s → typed (set_sockets h s).
Proof. intros Hh []. by split. Qed.
Lemma typed_skbs h s :
  map_Forall (λ _ b, skb_typed b) h → typed s → typed (set_skbs h s).
Proof. intros Hh []. by split. Qed.
Lemma typed_blocks h s :
  map_Forall (λ _ l, bytes_ok l) h → typed s → typed (set_blocks h s).
Proof. intros Hh []. by split. Qed.
Lemma typed_registry p s : typed s → typed (set_registry p s).
Proof. intros []. by split. Qed.
Lemma typed_brk l s : typed s → typed (set_brk l s).
Proof. intros []. by split. Qed.
Lemma typed_calloc r s : typed s → typed (set_calloc r s).
Proof. intros []. by split. Qed.
Lemma typed_table t s :
  length t = NOVA_SOCKET_TABLE_SIZE → typed s → typed (set_table t s).
Proof. intros Ht []. by split. Qed.
Lemma typed_next_fd z s : int_ok z → typed s → typed (set_next_fd z s).
Proof. intros Hz []. by split. Qed.
Lemma typed_initialized z s : int_ok z → typed s → typed (set_initialized z s).
Proof. intros Hz []. by split. Qed.

Lemma get_dev_typed l : keeps typed (get_dev (O:=O) l) device_typed.
Proof.
  eapply keeps_bind; [apply keeps_gets|]. intros ? (s & Hs & ->).
  apply keeps_the. intros d. apply (ty_devices s Hs).
Qed.
Lemma get_socket_typed l : keeps typed (get_socket (O:=O) l) socket_typed.
Proof.
  eapply keeps_bind; [apply keeps_gets|]. intros ? (s & Hs & ->).
  apply keeps_the. intros d. apply (ty_sockets s Hs).
Qed.
Lemma get_skb_typed l : keeps typed (get_skb (O:=O) l) skb_typed.
Proof.
  eapply keeps_bind; [apply keeps_gets|]. intros ? (s & Hs & ->).
  apply keeps_the. intros d. apply (ty_skbs s Hs).
Qed.

Lemma put_dev_typed l d : device_typed d → keeps typed (put_dev l d) (λ _, True).
Proof.
  intros Hd. eapply keeps_bind; [apply get_dev_typed|]. intros _ _. apply keeps_modify.
  intros s Hs. apply typed_devices; [|done]. apply map_Forall_insert_2; [done|apply Hs].
Qed.
Lemma put_socket_typed l k :
  socket_typed k → keeps typed (put_socket (O:=O) l k) (λ _, True).
Proof.
  intros Hd. eapply keeps_bind; [apply get_socket_typed|]. intros _ _. apply keeps_modify.
  intros s Hs. apply typed_sockets; [|done]. apply map_Forall_insert_2; [done|apply Hs].
Qed.
Lemma put_skb_typed l b : skb_typed b → keeps typed (put_skb (O:=O) l b) (λ _, True).
Proof.
  intros Hd. eapply keeps_bind; [apply get_skb_typed|]. intros _ _. apply keeps_modify.
  intros s Hs. apply typed_skbs; [|done]. apply map_Forall_insert_2; [done|apply Hs].
Qed.

Lemma calloc_typed (store : loc → net_state O → net_state O) :
  (∀ l s, typed s → typed (store l s)) → keeps typed (calloc store) (λ _, True).
Proof.
  intros Hst. eapply keeps_bind; [apply keeps_gets|]. intros ? (s & _ & ->).
  eapply keeps_bind; [apply keeps_modify; intros; by apply typed_calloc|]. intros _ _.
  destruct (match calloc_results s with [] => true | b :: _ => b end);
    [|by apply keeps_ret].
  eapply keeps_bind; [apply keeps_modify; intros; by apply typed_brk|]. intros _ _.
  eapply keeps_bind; [apply keeps_modify; auto|]. intros _ _. by apply keeps_ret.
Qed.

Lemma store_socket_typed k l s : socket_typed k → typed s → typed (store_socket k l s).
Proof. intros Hk Hs. apply typed_sockets, Hs. apply map_Forall_insert_2; [done|apply Hs]. Qed.
Lemma store_skb_typed b l s : skb_typed b → typed s → typed (store_skb b l s).
Proof. intros Hk Hs. apply typed_skbs, Hs. apply map_Forall_insert_2; [done|apply Hs]. Qed.
Lemma store_block_typed n l s : typed s → typed (store_block n l s).
Proof.
  intros Hs. apply typed_blocks, Hs. apply map_Forall_insert_2; [|apply Hs].
  by apply Forall_replicate.
Qed.

Lemma map_delete_typed {A} (P : A → Prop) (h : gmap loc A) l :
  map_Forall (λ _ x, P x) h → map_Forall (λ _ x, P x) (delete l h).
Proof. intros Hh. by apply map_Forall_delete. Qed.
End memory.
#[export] Hint Resolve get_dev_typed get_socket_typed get_skb_typed put_dev_typed
  put_socket_typed put_skb_typed store_socket_typed store_skb_typed store_block_typed
  typed_registry typed_table typed_next_fd typed_initialized : typed.

(** ** The calls of the stack *)

(** What drivers promise: their calls keep the types and answer an int. *)
Class NetDriversTyped (O : Type) `{!NetDrivers O} : Prop := {
  open_typed o f l : op_open o = Some f → keeps (typed (O:=O)) (f (Some l)) int_ok;
  start_xmit_typed o f dl sl :
    op_start_xmit o = Some f → keeps (typed (O:=O)) (f (Some dl) (Some sl)) int_ok;
}.


Section calls.
Context {O : Type} `{!NetDrivers O} `{!NetDriversTyped O}.
Implicit Types (s : net_state O).
Abbreviation keep_typed := (keeps (typed (O:=O))).

Lemma dev_open_typed d f l :
  ops d ≫= op_open = Some f → keep_typed (f (Some l)) int_ok.
Proof. intros (o & _ & Ho)%bind_Some. by eapply open_typed. Qed.
Lemma dev_xmit_typed d f dl sl :
  ops d ≫= op_start_xmit = Some f → keep_typed (f (Some dl) (Some sl)) int_ok.
Proof. intros (o & _ & Ho)%bind_Some. by eapply start_xmit_typed. Qed.

Lemma get_next_typed l : keep_typed (get_next l) (λ _, True).
Proof. unfold get_next. keep. Qed.

Lemma free_block_typed p : keep_typed (free_block p) (λ _, True).
Proof.
  unfold free_block. destruct p; keep. apply keeps_modify. intros s Hs.
  apply typed_blocks, Hs. by apply map_delete_typed, Hs.
Qed.
Lemma free_skb_struct_typed l : keep_typed (free_skb_struct l) (λ _, True).
Proof.
  unfold free_skb_struct. keep. apply keeps_modify. intros s Hs.
  apply typed_skbs, Hs. by apply map_delete_typed, Hs.
Qed.
Lemma free_socket_struct_typed l : keep_typed (free_socket_struct l) (λ _, True).
Proof.
  unfold free_socket_struct. keep. apply keeps_modify. intros s Hs.
  apply typed_sockets, Hs. by apply map_delete_typed, Hs.
Qed.
Hint Resolve get_next_typed free_block_typed free_skb_struct_typed free_socket_struct_typed
  : typed.

Lemma nova_free_skb_typed p : keep_typed (nova_free_skb p) (λ _, True).
Proof. unfold nova_free_skb. keep. Qed.

Lemma nova_alloc_skb_typed z : size_ok z → keep_typed (nova_alloc_skb z) (λ _, True).
Proof.
  intros Hz. unfold nova_alloc_skb.
  eapply keeps_bind; [apply calloc_typed; intros; by apply store_skb_typed|]. intros p _.
  destruct p as [sl|]; [|keep].
  eapply keeps_bind; [apply calloc_typed; intros; by apply store_block_typed|]. intros q _.
  destruct q as [bl|]; [|keep].
  eapply keeps_bind; [apply put_skb_typed; by split_and!|]. keep.
Qed.

Lemma nova_netif_receive_skb_typed p : keep_typed (nova_netif_receive_skb p) int_ok.
Proof. unfold nova_netif_receive_skb. keep. Qed.

Lemma nova_netdev_find_typed name : keep_typed (nova_netdev_find name) (λ _, True).
Proof.
  unfold nova_netdev_find. destruct name as [name|]; [|keep]. keep_state s Hs.
  eapply keeps_bind; [|keep].
  apply (keeps_walk _ (λ _, True) (λ _, True)); [eauto with typed|done|]. keep.
Qed.
Hint Resolve nova_free_skb_typed nova_alloc_skb_typed nova_netif_receive_skb_typed
  nova_netdev_find_typed dev_open_typed dev_xmit_typed : typed.

Lemma nova_netdev_register_typed p : keep_typed (nova_netdev_register p) int_ok.
Proof.
  unfold nova_netdev_register. destruct p as [l|]; [|keep].
  eapply keeps_bind; [apply get_dev_typed|]. intros d Hd.
  eapply keeps_bind; [apply keeps_the_any|]. intros c _. case_decide; [keep|].
  keep_state s Hs. eapply keeps_bind.
  { apply (keeps_walk _ (λ _, True) int_ok); [eauto with typed|done|]. keep. }
  intros [r|u] Hr; keep.
Qed.

Lemma unregister_step_typed l prev curr :
  keep_typed (unregister_step l prev curr)
    (λ r, match r with inl z => int_ok z | inr _ => True end).
Proof. unfold unregister_step. keep. Qed.

Lemma nova_netdev_unregister_typed p : keep_typed (nova_netdev_unregister p) int_ok.
Proof.
  unfold nova_netdev_unregister. keep_state s Hs. destruct p as [l|]; [|keep].
  eapply keeps_bind.
  { apply (keeps_walk _ (λ _, True) int_ok); [eauto with typed|done|].
    intros a l' _. apply unregister_step_typed. }
  intros [r|u] Hr; keep.
Qed.

Lemma nova_network_init_typed : keep_typed nova_network_init int_ok.
Proof. unfold nova_network_init. keep. Qed.

Lemma unlink_all_typed fuel p : keep_typed (unlink_all fuel p) (λ _, True).
Proof.
  revert p. induction fuel as [|fuel IH]; intros [l|]; cbn [unlink_all]; keep.
  apply keeps_no_fuel.
Qed.
Hint Resolve unlink_all_typed : typed.

Lemma nova_network_shutdown_typed : keep_typed nova_network_shutdown int_ok.
Proof. unfold nova_network_shutdown. keep. Qed.

Lemma nova_dev_queue_xmit_typed p : keep_typed (nova_dev_queue_xmit p) int_ok.
Proof. unfold nova_dev_queue_xmit. keep. Qed.
Hint Resolve nova_network_init_typed nova_dev_queue_xmit_typed : typed.

(** ** The socket API *)

Lemma nova_socket_lookup_typed fd : keep_typed (nova_socket_lookup fd) (λ _, True).
Proof. unfold nova_socket_lookup. keep. Qed.

Lemma put_table_typed fd p : keep_typed (put_table fd p) (λ _, True).
Proof.
  unfold put_table. keep_state s Hs.
  eapply keeps_bind; [apply (keeps_the _ _ (λ t, length t = NOVA_SOCKET_TABLE_SIZE))|keep].
  intros t Ht. case_decide; [done|]. unfold arr_set in Ht. case_decide; simplify_eq.
  rewrite length_insert. apply Hs.
Qed.

Lemma attach_typed l : keep_typed (attach l) (λ _, True).
Proof. unfold attach. keep. Qed.
Hint Resolve nova_socket_lookup_typed put_table_typed attach_typed : typed.

Lemma nova_socket_typed domain ty protocol :
  int_ok domain → int_ok ty → int_ok protocol →
  keep_typed (nova_socket domain ty protocol) int_ok.
Proof.
  intros Hd Ht Hp. unfold Sockets.nova_socket. keep_state s0 Hs0.
  eapply keeps_bind; [apply keeps_when; keep|]. intros _ _.
  do 2 (case_decide; [keep|]). keep_state s Hs. case_decide as Hfd; [keep|].
  assert (int_ok (g_next_socket_fd s) ∧ int_ok (g_next_socket_fd s + 1)) as [Hz Hz1].
  { pose proof (proj1 (int_ok_range _) (ty_next_fd s Hs)). change (Z.of_nat NOVA_SOCKET_TABLE_SIZE) with 64%Z in Hfd.
    split; apply int_ok_range; lia. }
  eapply keeps_bind; [apply keeps_modify; eauto with typed|]. intros _ _.
  eapply keeps_bind.
  { apply calloc_typed. intros l s' Hs'. apply store_socket_typed, Hs'. by vm_compute. }
  intros [l|] _; [|keep].
  eapply keeps_bind; [apply get_socket_typed|]. intros k (?&?&?&?&?&?&?&?&_).
  eapply keeps_bind; [apply put_socket_typed; by split_and!|]. keep.
Qed.

Lemma nova_connect_typed fd : keep_typed (nova_connect fd) int_ok.
Proof. unfold nova_connect. keep. Qed.
Lemma nova_listen_typed fd : keep_typed (nova_listen fd) int_ok.
Proof. unfold nova_listen. keep. Qed.
Lemma nova_shutdown_typed fd : keep_typed (nova_shutdown fd) int_ok.
Proof. unfold nova_shutdown. keep. Qed.
Lemma nova_close_typed fd : keep_typed (nova_close fd) int_ok.
Proof. unfold nova_close. keep. Qed.
Lemma nova_recv_typed fd buf n :
  keep_typed (nova_recv fd buf n) (λ r, ssize_ok r.1).
Proof. unfold nova_recv. keep. Qed.

Lemma fill_skb_typed sl buf n p :
  bytes_ok buf → size_ok n → keep_typed (fill_skb sl buf n p) (λ _, True).
Proof.
  intros Hbuf Hn. unfold fill_skb.
  eapply keeps_bind; [apply get_skb_typed|]. intros b Hb. keep_state s Hs.
  eapply keeps_bind; [apply keeps_the_any|]. intros bl _.
  eapply keeps_bind; [apply (keeps_the _ _ bytes_ok); by apply ty_blocks|]. intros old Hold.
  eapply keeps_bind; [apply (keeps_the _ _ bytes_ok); eauto using bytes_ok_memcpy|].
  intros new Hnew. eapply keeps_bind.
  { apply keeps_modify. intros s' Hs'. apply typed_blocks, Hs'.
    by apply map_Forall_insert_2, Hs'. }
  intros _ _. apply put_skb_typed. destruct Hb as (?&?&?&?&?&?&?&?&?&?).
  repeat (split; [first [assumption | apply pointer_typed]|]). done.
Qed.

Lemma nova_send_typed fd buf n :
  from_option bytes_ok True buf → size_ok n →
  keep_typed (nova_send fd buf n) ssize_ok.
Proof.
  intros Hbuf Hn. unfold nova_send. pose proof fill_skb_typed. keep.
Qed.
End calls.

(** ** The drivers of the repository *)

#[export] Hint Resolve nova_free_skb_typed nova_netif_receive_skb_typed : typed.

Lemma running_width z : in_width 32 z → in_width 32 (Z.lor z NOVA_IFF_RUNNING).
Proof. intros Hz. apply lor_width; [done|done|by vm_compute]. Qed.
Lemma lo_flags_width z :
  in_width 32 z → in_width 32 (Z.lor z (Z.lor NOVA_IFF_RUNNING NOVA_IFF_LOOPBACK)).
Proof. intros Hz. apply lor_width; [done|done|by vm_compute]. Qed.
Lemma stopped_width z : in_width 32 z → in_width 32 (Z.land z (u32 (Z.lnot NOVA_IFF_RUNNING))).
Proof. intros Hz. apply land_width; [done|done|apply u32_width]. Qed.
#[export] Hint Resolve running_width lo_flags_width stopped_width : typed.

#[export] Instance nova_drivers_typed : NetDriversTyped nova_ops.
Proof.
  split.
  - intros o f l [= <-]. destruct o; cbv beta match; [unfold lo_open|unfold nic_open]; keep.
  - intros o f dl sl [= <-]. destruct o; cbv beta match;
      [unfold lo_start_xmit|unfold nic_start_xmit]; keep.
Qed.

Lemma lo_stop_typed l : keeps typed (lo_stop (O:=nova_ops) (Some l)) int_ok.
Proof. unfold lo_stop. keep. Qed.
Lemma nic_stop_typed l : keeps typed (nic_stop (O:=nova_ops) (Some l)) int_ok.
Proof. unfold nic_stop. keep. Qed.

(** ** All calls *)

(** The arguments have the types of the prototypes. *)
Definition call_typed (c : net_call) : Prop :=
  match c with
  | CallApi op =>
      match op with
      | OpNetworkInit | OpNetworkShutdown => True
      | OpSocket domain type protocol => int_ok domain ∧ int_ok type ∧ int_ok protocol
      | OpRecv fd buf len => int_ok fd ∧ from_option bytes_ok True buf ∧ size_ok len
      | OpBind fd | OpConnect fd | OpListen fd | OpAccept fd | OpShutdown fd | OpGetsockopt fd
      | OpSetsockopt fd | OpClose fd => int_ok fd
      end
  | CallRegistry (OpFind name) => from_option bytes_ok True name
  | CallRegistry _ => True
  | CallSend fd buf len => int_ok fd ∧ from_option bytes_ok True buf ∧ size_ok len
  | CallLoopbackInit | CallNicStubInit => True
  end.

(** The type of the return code, which is 0 where a pointer is returned. *)
Definition code_type (c : net_call) : ctype :=
  match c with
  | CallApi (OpRecv _ _ _) | CallSend _ _ _ => ssize_t
  | _ => int_t
  end.

Lemma lookup_only fd (z z' : Z) :
  int_ok z → int_ok z' →
  keeps (typed (O:=nova_ops)) (sock ← nova_socket_lookup fd;
    match sock with None => mret z | Some _ => mret z' end) int_ok.
Proof. intros Hz Hz'. eapply keeps_bind; [apply nova_socket_lookup_typed|]. keep. Qed.

Lemma api_typed op :
  call_typed (CallApi op) →
  keeps (typed (O:=nova_ops)) (Sockets.exec_op op)
    (λ o, has_type (code_type (CallApi op)) (VInt o.1)).
Proof.
  destruct op as [| |domain type protocol|fd|fd|fd|fd|fd|fd|fd|fd buf len|fd];
    cbn [call_typed Sockets.exec_op code_type]; intros Hty;
    try (apply (keeps_reply _ _ _ int_ok)).
  - apply nova_network_init_typed.
  - apply nova_network_shutdown_typed.
  - destruct Hty as (? & ? & ?). by apply nova_socket_typed.
  - apply lookup_only; eauto with typed.
  - apply nova_connect_typed.
  - apply nova_listen_typed.
  - apply lookup_only; eauto with typed.
  - apply nova_shutdown_typed.
  - apply lookup_only; eauto with typed.
  - apply lookup_only; eauto with typed.
  - apply nova_recv_typed.
  - apply nova_close_typed.
Qed.

Lemma registry_typed op :
  keeps (typed (O:=nova_ops)) (NetDev.exec_op op) (λ o, int_ok o.1).
Proof.
  destruct op as [| |p|p|name]; cbn [NetDev.exec_op]; try (apply (keeps_reply _ _ _ int_ok)).
  - apply nova_network_init_typed.
  - apply nova_network_shutdown_typed.
  - apply nova_netdev_register_typed.
  - apply nova_netdev_unregister_typed.
  - pose proof (nova_netdev_find_typed (O:=nova_ops)). keep.
Qed.

Lemma reset_typed l d s : device_typed d → typed s → typed (reset l d s).
Proof. intros Hd Hs. apply typed_devices, Hs. by apply map_Forall_insert_2, Hs. Qed.

Lemma lo_device_typed : device_typed lo_device.
Proof. repeat (split; [by repeat constructor|]). by repeat split. Qed.
Lemma nic_device_typed : device_typed nic_device.
Proof. repeat (split; [by repeat constructor|]). by repeat split. Qed.

Lemma call_keeps c s r s' :
  typed s → call_ok s c → call_typed c → exec_call c s = Done (r, s') →
  typed s' ∧ has_type (code_type c) (VInt r).
Proof.
  intros Hs Hok Hty. destruct c as [op|op|fd buf len| |]; cbn [exec_call].
  - exact (keeps_first _ _ (λ z, has_type _ (VInt z)) (api_typed op Hty) s r s' Hs).
  - exact (keeps_first _ _ int_ok (registry_typed op) s r s' Hs).
  - destruct Hty as (_ & Hbuf & Hlen). by apply nova_send_typed.
  - rewrite nova_loopback_init_reset by done.
    apply nova_netdev_register_typed, reset_typed; [apply lo_device_typed|done].
  - rewrite nova_nic_stub_init_reset by done.
    apply nova_netdev_register_typed, reset_typed; [apply nic_device_typed|done].
Qed.

(** What the caller gets: a number, or the pointer of nova_netdev_find; and its
    type. *)
Definition exec_net (c : net_call) : M (net_state nova_ops) cval :=
  match c with
  | CallRegistry (OpFind name) => p ← nova_netdev_find name; mret (pointer p)
  | _ => r ← exec_call c; mret (VInt r)
  end.

Definition call_result (c : net_call) : ctype :=
  match c with
  | CallRegistry (OpFind _) => TPtr
  | CallApi (OpRecv _ _ _) | CallSend _ _ _ => ssize_t
  | _ => int_t
  end.

Lemma exec_net_typed c s r s' :
  exec_call c s = Done (r, s') → has_type (code_type c) (VInt r) →
  ∃ v, exec_net c s = Done (v, s') ∧ has_type (call_result c) v.
Proof.
  intros Hr Hty. destruct c as [op|[| |dev|dev|name]|fd buf len| |]; cbn [exec_net];
    try (exists (VInt r); split; [by bind Hr|exact Hty]).
  cbn [exec_call NetDev.exec_op] in Hr. rewrite bind_assoc in Hr.
  apply bind_Done_inv in Hr as (p & s1 & Hp & [= _ ->]).
  exists (pointer p). split; [by bind Hp|apply pointer_typed].
Qed.

(** The stack runs a call with arguments of their types, or a caller allocates
    a device of type struct nova_net_device. *)
Inductive typed_step (s : net_state nova_ops) : net_state nova_ops → Prop :=
  | typed_call c r s' :
      call_ok s c → call_typed c → exec_call c s = Done (r, s') → typed_step s s'
  | typed_device l d :
      netdevs s !! l = None → device_typed d →
      typed_step s (set_netdevs (<[l := d]> (netdevs s)) s).

Lemma typed_step_keeps s s' :
  net_wf s ∧ typed s → typed_step s s' → net_wf s' ∧ typed s'.
Proof.
  intros [Hwf Hs] [c r s1 Hok Hty Hrun|l d Hl Hd].
  - split; [by eapply net_step_wf, step_call|by eapply call_keeps].
  - split; [by apply device_wf|]. by apply (reset_typed l d).
Qed.

(** ** Sample state *)

(** The two static devices, zeroed. *)
Definition cold_statics : net_state nova_ops :=
  NetState None (replicate 64 None) 1 0 {[ lo_dev := zero_device; nic_dev := zero_device ]}
    ∅ ∅ ∅ 10 [].

Definition eth0 : nova_net_device nova_ops :=
  NetDevice (cstr "eth0" ++ replicate 11 0%Z) (replicate 6 0%Z) 1500 0 NOVA_AF_UNSPEC None
    zero_stats None None.

Lemma zero_device_typed : device_typed zero_device.
Proof. repeat (split; [by repeat constructor|]). by repeat split. Qed.
Lemma eth0_typed : device_typed eth0.
Proof. repeat (split; [by repeat constructor|]). by repeat split. Qed.

Lemma cold_statics_typed : typed cold_statics.
Proof.
  split; try done.
  apply map_Forall_insert_2; [apply zero_device_typed|].
  apply map_Forall_insert_2; [apply zero_device_typed|done].
Qed.

Lemma cold_statics_wf : net_wf cold_statics.
Proof.
  split; [exists []; split; [done|constructor]|done|done| | |done].
  - intros i l [? _]%lookup_replicate. done.
  - intros i j l [? _]%lookup_replicate. done.
Qed.

(** The constants of NetState.v are the enumerators of the header. *)
Lemma net_constants :
  constant <$> ["NOVA_AF_UNSPEC"; "NOVA_AF_INET"; "NOVA_AF_INET6"; "NOVA_AF_UNIX";
    "NOVA_SOCK_STREAM"; "NOVA_SOCK_DGRAM"; "NOVA_SOCK_RAW"; "NOVA_SOCK_SEQPACKET";
    "NOVA_IFF_UP"; "NOVA_IFF_LOOPBACK"; "NOVA_IFF_RUNNING"] =
  Some <$> [NOVA_AF_UNSPEC; NOVA_AF_INET; NOVA_AF_INET6; NOVA_AF_UNIX;
    NOVA_SOCK_STREAM; NOVA_SOCK_DGRAM; NOVA_SOCK_RAW; NOVA_SOCK_SEQPACKET;
    NOVA_IFF_UP; NOVA_IFF_LOOPBACK; NOVA_IFF_RUNNING].
Proof. by vm_compute. Qed.

(** * Properties *)

(** C10. The network stack is type safe.  From a well-formed state in which
    every device, socket, packet and data block is a value of its C type, and
    so are the statics, any calls with arguments of the types of the prototypes
    and any devices allocated by callers lead to a state from which the next
    call completes, in a typed state again, with a result of the call's return
    type: no counter, length, flag word, descriptor or byte of a packet ever
    leaves its width. *)
Theorem nova_net_typed (s s' : net_state nova_ops) (c : net_call) :
  net_wf s → typed s → rtc typed_step s s' → call_ok s' c → call_typed c →
  ∃ v s'', exec_net c s' = Done (v, s'') ∧ net_wf s'' ∧ typed s'' ∧
    has_type (call_result c) v.
Proof.
  intros Hwf Hs Hsteps Hok Hty.
  destruct (rtc_invariant typed_step _ typed_step_keeps s s' Hsteps (conj Hwf Hs)) as [Hwf' Hs'].
  destruct (call_wf c s' Hwf' Hok) as (r & s'' & Hrun & Hwf'').
  destruct (call_keeps c s' r s'' Hs' Hok Hty Hrun) as [Hs'' Hcode].
  destruct (exec_net_typed c s' r s'' Hrun Hcode) as (v & Hv & Hres). by exists v, s''.
Qed.

Lemma nova_net_typed_witness :
  let s := set_netdevs (<[7 := eth0]> (netdevs cold_statics)) cold_statics in
  rtc typed_step cold_statics s ∧
  ∃ v s'', exec_net (CallSend 1 (Some [65; 66]%Z) 2) s = Done (v, s'') ∧ net_wf s'' ∧
    typed s'' ∧ has_type ssize_t v.
Proof.
  pose proof (rtc_once _ _ (typed_device cold_statics 7 eth0 eq_refl eth0_typed)) as H.
  split; [exact H|].
  apply (nova_net_typed cold_statics _ (CallSend 1 (Some [65; 66]%Z) 2) cold_statics_wf
    cold_statics_typed H).
  - by split.
  - by repeat constructor.
Defined.
End NetTyped.
