(* ===== verification/NetMemory.v ===== *)
(** * The objects of the network stack in memory

    The statics of network_stack.c, loopback.c and nic_stub.c and everything
    their pointers lead to, as blocks of a memory (CHeap.v).  The addresses are
    those the linker and the allocator choose, any that are distinct. *)

From S2P Require Import Prelude CString LinkedList Bytes CType CMemory Simulation CObject CHeap.
From S2P Require Import Headers NetState NetDev Sockets Drivers NetTyped.

Module NetMemory.
Import Sockets Drivers NetTyped.

(** ** Places and their addresses *)

(** The functions the two tables of operations point to. *)
Inductive driver_function : Type :=
  | f_lo_open | f_lo_stop | f_lo_start_xmit | f_lo_get_stats
  | f_nic_open | f_nic_stop | f_nic_start_xmit | f_nic_get_stats.

Definition driver_functions : list driver_function :=
  [f_lo_open; f_lo_stop; f_lo_start_xmit; f_lo_get_stats;
   f_nic_open; f_nic_stop; f_nic_start_xmit; f_nic_get_stats].

#[export] Instance driver_function_eq : EqDecision driver_function.
Proof. solve_decision. Defined.

(** The statics, the code, and the objects: devices of the callers (the two
    drivers' among them) and what calloc makes. *)
Inductive place : Type :=
  | PRegistry | PTable | PNextFd | PInitialized
  | POps (o : nova_ops)
  | PFunction (f : driver_function)
  | PObject (l : loc).

#[export] Instance nova_ops_eq : EqDecision nova_ops.
Proof. solve_decision. Defined.
#[export] Instance place_eq : EqDecision place.
Proof. solve_decision. Defined.

(** Where things lie: apart, and not at NULL.  Only the objects in use have to
    fit into 64 bits. *)
Class NetSpace := {
  net_address : place → Z;
  net_address_inj :: Inj (=) (=) net_address;
  net_address_pos a : (0 < net_address a)%Z;
  net_address_static a : (∀ l, a ≠ PObject l) → in_width 64 (net_address a);
}.

Section objects.
Context {space : NetSpace}.
Implicit Types (s v : net_state nova_ops) (d : nova_net_device nova_ops).

(** A pointer to an object, to a table of operations. *)
Definition word (p : option loc) : Z :=
  match p with None => 0 | Some l => net_address (PObject l) end.
Definition ops_word (p : option nova_ops) : Z :=
  match p with None => 0 | Some o => net_address (POps o) end.
Definition function_word (f : driver_function) : Z := net_address (PFunction f).

(** ** The values of the objects *)

Definition pointer_t : ctype := words TPtr.
Definition table_t : ctype := words (TArray NOVA_SOCKET_TABLE_SIZE TPtr).
Definition device_t : ctype := words struct_nova_net_device.
Definition socket_t : ctype := words struct_nova_socket.
Definition skb_t : ctype := words struct_nova_sk_buff.
Definition ops_t : ctype := words struct_nova_net_device_ops.

Definition device_words d : cval :=
  VStruct [VArray (VInt <$> dev_name d); VArray (VInt <$> mac d); VInt (mtu d);
           VInt (dev_flags d); VInt (dev_family d); VInt (ops_word (ops d)); stats_val (stats d);
           VInt (word (dev_private_data d)); VInt (word (next d))].

Definition socket_words (k : NetState.nova_socket) : cval :=
  VStruct [VInt (family k); VInt (type k); VInt (protocol k); VInt (state k); VInt (flags k);
           VInt (word (sock_ops k)); VInt (word (private_data k)); VInt (word (dev k))].

Definition skb_words (b : nova_sk_buff) : cval :=
  VStruct [VInt (word (data b)); VInt (len b); VInt (headroom b); VInt (tailroom b);
           VInt (word (skb_dev b)); VInt (hash b);
           VInt (skb_protocol b); VInt (skb_priority b); VInt (error b)].

(** The static tables lo_ops and nic_ops. *)
Definition ops_words (o : nova_ops) : cval :=
  match o with
  | lo_ops => VStruct [VInt (function_word f_lo_open); VInt (function_word f_lo_stop);
      VInt (function_word f_lo_start_xmit); VInt 0; VInt (function_word f_lo_get_stats)]
  | nic_ops => VStruct [VInt (function_word f_nic_open); VInt (function_word f_nic_stop);
      VInt (function_word f_nic_start_xmit); VInt 0; VInt (function_word f_nic_get_stats)]
  end.

Definition block_t (n : nat) : ctype := TArray n uint8_t.

Definition device_cell d : cell := Cell false device_t (device_words d).
Definition socket_cell (k : NetState.nova_socket) : cell := Cell true socket_t (socket_words k).
Definition skb_cell (b : nova_sk_buff) : cell := Cell true skb_t (skb_words b).
Definition block_cell (l : list Z) : cell :=
  Cell true (block_t (length l)) (VArray (VInt <$> l)).

Definition object_cells s (l : loc) : list cell :=
  option_list (device_cell <$> netdevs s !! l) ++ option_list (socket_cell <$> sockets s !! l) ++
  option_list (skb_cell <$> skbs s !! l) ++ option_list (block_cell <$> blocks s !! l).

Definition net_stored s (a : place) : list cell :=
  match a with
  | PRegistry => [Cell false pointer_t (VInt (word (g_nova_netdev_registry s)))]
  | PTable => [Cell false table_t (VArray ((λ p, VInt (word p)) <$> g_socket_table s))]
  | PNextFd => [Cell false int_t (VInt (g_next_socket_fd s))]
  | PInitialized => [Cell false int_t (VInt (g_network_initialized s))]
  | POps o => [Cell false ops_t (ops_words o)]
  | PFunction _ => []
  | PObject l => object_cells s l
  end.

#[export] Instance net_objects : Objects (net_state nova_ops) place := {|
  address := net_address;
  stored := net_stored;
  fresh_place := PObject;
  next_place := brk;
  calloc_answers := calloc_results;
|}.

Lemma object_cells_elem s l c :
  c ∈ object_cells s l ↔
    (∃ d, netdevs s !! l = Some d ∧ c = device_cell d) ∨
    (∃ k, sockets s !! l = Some k ∧ c = socket_cell k) ∨
    (∃ b, skbs s !! l = Some b ∧ c = skb_cell b) ∨
    (∃ bs, blocks s !! l = Some bs ∧ c = block_cell bs).
Proof.
  unfold object_cells. rewrite !elem_of_app.
  destruct (netdevs s !! l), (sockets s !! l), (skbs s !! l), (blocks s !! l); cbn;
    rewrite ?list_elem_of_singleton, ?elem_of_nil; naive_solver.
Qed.

#[export] Instance net_objects_ok : ObjectsOk (net_state nova_ops) place.
Proof.
  split; [exact net_address_inj|exact net_address_pos|]. intros s a c Hc.
  destruct a as [| | | |o|f|l]; cbn in Hc.
  7: by apply object_cells_elem in Hc as [(d & _ & ->)|[(k & _ & ->)|[(b & _ & ->)|(bs & _ & ->)]]].
  all: try (apply list_elem_of_singleton in Hc as ->; by vm_compute).
  by apply elem_of_nil in Hc.
Qed.

Abbreviation rep := (represents (S:=net_state nova_ops) (P:=place)).
Abbreviation sim := (simulation rep (λ s : net_state nova_ops, s)).

(** ** Pointers *)

Lemma word_Some l : word (Some l) ≠ 0%Z.
Proof. cbn. pose proof (net_address_pos (PObject l)). lia. Qed.
Lemma word_null p : word p = 0%Z ↔ p = None.
Proof. destruct p as [l|]; [|done]. split; [by intros ?%word_Some|done]. Qed.
Lemma ops_word_null p : ops_word p = 0%Z ↔ p = None.
Proof. destruct p as [o|]; [|done]. cbn. pose proof (net_address_pos (POps o)). split; [lia|done]. Qed.
Lemma function_word_not_null f : function_word f ≠ 0%Z.
Proof. unfold function_word. pose proof (net_address_pos (PFunction f)). lia. Qed.
#[global] Instance word_inj : Inj (=) (=) word.
Proof.
  intros [l|] [l'|]; cbn; [intros [= ->]%(inj net_address); done|..|done];
    intros H; exfalso; by eapply word_Some.
Qed.
#[global] Instance place_object_inj : Inj (=) (=) PObject.
Proof. by intros l l' [= ->]. Qed.

(** The next [n] objects still fit. *)
Definition room (n : nat) s : Prop := ∀ l, l < n + brk s → in_width 64 (word (Some l)).

(** ** Assignments to one object *)

Definition dev_put (l : loc) d v : net_state nova_ops := set_netdevs (<[l := d]> (netdevs v)) v.
Definition socket_put (l : loc) (k : NetState.nova_socket) v : net_state nova_ops :=
  set_sockets (<[l := k]> (sockets v)) v.
Definition skb_put (l : loc) (b : nova_sk_buff) v : net_state nova_ops :=
  set_skbs (<[l := b]> (skbs v)) v.
Definition block_put (l : loc) (bs : list Z) v : net_state nova_ops :=
  set_blocks (<[l := bs]> (blocks v)) v.

Lemma dev_put_put l d d' v : dev_put l d' (dev_put l d v) = dev_put l d' v.
Proof. unfold dev_put, set_netdevs. cbn. by rewrite insert_insert_eq. Qed.
Lemma socket_put_put l k k' v : socket_put l k' (socket_put l k v) = socket_put l k' v.
Proof. unfold socket_put, set_sockets. cbn. by rewrite insert_insert_eq. Qed.
Lemma skb_put_put l b b' v : skb_put l b' (skb_put l b v) = skb_put l b' v.
Proof. unfold skb_put, set_skbs. cbn. by rewrite insert_insert_eq. Qed.

Lemma dev_put_lookup l d v : netdevs (dev_put l d v) !! l = Some d.
Proof. apply lookup_insert_eq. Qed.
Lemma socket_put_lookup l k v : sockets (socket_put l k v) !! l = Some k.
Proof. apply lookup_insert_eq. Qed.
Lemma skb_put_lookup l b v : skbs (skb_put l b v) !! l = Some b.
Proof. apply lookup_insert_eq. Qed.

Lemma object_cells_frame s v l :
  netdevs v !! l = netdevs s !! l → sockets v !! l = sockets s !! l →
  skbs v !! l = skbs s !! l → blocks v !! l = blocks s !! l → object_cells v l = object_cells s l.
Proof. unfold object_cells. by intros -> -> -> ->. Qed.

(** One object lies at the address: the one that is updated. *)
Lemma cells_alone s l c :
  object_cells s l = [c] →
  (∀ d, netdevs s !! l = Some d → sockets s !! l = None ∧ skbs s !! l = None ∧ blocks s !! l = None) ∧
  (∀ k, sockets s !! l = Some k → netdevs s !! l = None ∧ skbs s !! l = None ∧ blocks s !! l = None) ∧
  (∀ b, skbs s !! l = Some b → netdevs s !! l = None ∧ sockets s !! l = None ∧ blocks s !! l = None) ∧
  (∀ b, blocks s !! l = Some b → netdevs s !! l = None ∧ sockets s !! l = None ∧ skbs s !! l = None).
Proof.
  unfold object_cells.
  by destruct (netdevs s !! l), (sockets s !! l), (skbs s !! l), (blocks s !! l).
Qed.

Ltac alone Hat :=
  let H := fresh in intros H; cbn; pose proof (cells_alone _ _ _ H) as (?&?&?&?);
  match goal with E : ∀ x, _ = Some x → _ |- _ => destruct (E _ Hat) as (?&?&?) end;
  unfold object_cells; cbn;
  repeat match goal with E : _ !! _ = None |- _ => rewrite E; clear E end;
  rewrite ?lookup_insert_eq, ?lookup_delete_eq; cbn.
Ltac others :=
  let b := fresh "b" in let Hb := fresh "Hb" in intros b Hb; cbn in Hb; destruct b; try done; cbn;
  apply object_cells_frame; cbn; try done;
  first [apply lookup_insert_ne | apply lookup_delete_ne]; congruence.

Lemma dev_updated l d d' v : netdevs v !! l = Some d →
  updated v (PObject l) false device_t (device_words d) (device_words d') (dev_put l d' v).
Proof.
  intros Hl. split; [|by alone Hl|others|done|done].
  cbn. apply object_cells_elem. left. by exists d.
Qed.
Lemma socket_updated l k k' v : sockets v !! l = Some k →
  updated v (PObject l) true socket_t (socket_words k) (socket_words k') (socket_put l k' v).
Proof.
  intros Hl. split; [|by alone Hl|others|done|done].
  cbn. apply object_cells_elem. right. left. by exists k.
Qed.
Lemma skb_updated l b b' v : skbs v !! l = Some b →
  updated v (PObject l) true skb_t (skb_words b) (skb_words b') (skb_put l b' v).
Proof.
  intros Hl. split; [|by alone Hl|others|done|done].
  cbn. apply object_cells_elem. right. right. left. by exists b.
Qed.
Lemma block_updated l bs bs' v : blocks v !! l = Some bs → length bs' = length bs →
  updated v (PObject l) true (block_t (length bs)) (VArray (VInt <$> bs)) (VArray (VInt <$> bs'))
    (block_put l bs' v).
Proof.
  intros Hl Hlen. split; [|alone Hl; unfold block_cell; by rewrite Hlen|others|done|done].
  cbn. apply object_cells_elem. right. right. right. by exists bs.
Qed.

(** ** Assignments to the statics *)

Ltac static := split; [by left|done|by intros [] ?|done|done].

Lemma registry_updated p v :
  updated v PRegistry false pointer_t (VInt (word (g_nova_netdev_registry v))) (VInt (word p))
    (set_registry p v).
Proof. static. Qed.
Lemma table_updated t v :
  updated v PTable false table_t (VArray ((λ p, VInt (word p)) <$> g_socket_table v))
    (VArray ((λ p, VInt (word p)) <$> t)) (set_table t v).
Proof. static. Qed.
Lemma next_fd_updated z v :
  updated v PNextFd false int_t (VInt (g_next_socket_fd v)) (VInt z) (set_next_fd z v).
Proof. static. Qed.
Lemma initialized_updated z v :
  updated v PInitialized false int_t (VInt (g_network_initialized v)) (VInt z) (set_initialized z v).
Proof. static. Qed.

(** ** New objects, and objects given back *)

Lemma cells_none s l :
  object_cells s l = [] →
  netdevs s !! l = None ∧ sockets s !! l = None ∧ skbs s !! l = None ∧ blocks s !! l = None.
Proof.
  unfold object_cells.
  by destruct (netdevs s !! l), (sockets s !! l), (skbs s !! l), (blocks s !! l).
Qed.

(** The state in which calloc takes the next address. *)
Definition took s : net_state nova_ops :=
  set_brk (Datatypes.S (brk s)) (set_calloc (tail (calloc_results s)) s).

Ltac fresh_object :=
  split; [intros (?&?&?&?)%cells_none; cbn in *; unfold object_cells; cbn;
    repeat match goal with E : _ !! _ = None |- _ => rewrite E; clear E end;
    rewrite lookup_insert_eq|others|done|done].

Lemma socket_created k s :
  created s socket_t (socket_words k) (store_socket k (brk s) (took s)).
Proof. by fresh_object. Qed.
Lemma skb_created b s : created s skb_t (skb_words b) (store_skb b (brk s) (took s)).
Proof. by fresh_object. Qed.
Lemma block_created n s :
  created s (block_t n) (VArray (VInt <$> replicate n 0%Z)) (store_block n (brk s) (took s)).
Proof. fresh_object. cbn. unfold block_cell. by rewrite length_replicate. Qed.

Ltac gone Hat := split; [|intros c; by alone Hat|others|done|done].

Lemma socket_removed l k v : sockets v !! l = Some k →
  removed v (PObject l) (set_sockets (delete l (sockets v)) v).
Proof.
  intros Hl. gone Hl. eexists _, _. apply object_cells_elem. right. left. by exists k.
Qed.
Lemma skb_removed l b v : skbs v !! l = Some b →
  removed v (PObject l) (set_skbs (delete l (skbs v)) v).
Proof.
  intros Hl. gone Hl. eexists _, _. apply object_cells_elem. right. right. left. by exists b.
Qed.
Lemma block_removed l bs v : blocks v !! l = Some bs →
  removed v (PObject l) (set_blocks (delete l (blocks v)) v).
Proof.
  intros Hl. gone Hl. eexists _, _. apply object_cells_elem. right. right. right. by exists bs.
Qed.

(** ** Steps of the program on records *)

Section high.
Context {A B : Type} (v s : net_state nova_ops) (low : M memory A) (Q : A → B → net_state nova_ops → Prop).

Lemma sim_get_dev l k :
  (∀ d, netdevs s !! l = Some d → sim v s low (k d) Q) → sim v s low (get_dev l ≫= k) Q.
Proof.
  intros H m b s' Hr Hb. unfold get_dev in Hb. rewrite bind_assoc in Hb. run.
  apply bind_Done_inv in Hb as (? & ? & [= <- <-] & Hb).
  destruct (netdevs s !! l) as [d|] eqn:E; [by eapply H|done].
Qed.
Lemma sim_get_socket l k :
  (∀ x, sockets s !! l = Some x → sim v s low (k x) Q) → sim v s low (get_socket l ≫= k) Q.
Proof.
  intros H m b s' Hr Hb. unfold get_socket in Hb. rewrite bind_assoc in Hb.
  apply bind_Done_inv in Hb as (? & ? & [= <- <-] & Hb).
  destruct (sockets s !! l) as [d|] eqn:E; [by eapply H|done].
Qed.
Lemma sim_get_skb l k :
  (∀ x, skbs s !! l = Some x → sim v s low (k x) Q) → sim v s low (get_skb l ≫= k) Q.
Proof.
  intros H m b s' Hr Hb. unfold get_skb in Hb. rewrite bind_assoc in Hb.
  apply bind_Done_inv in Hb as (? & ? & [= <- <-] & Hb).
  destruct (skbs s !! l) as [d|] eqn:E; [by eapply H|done].
Qed.

Lemma sim_put_dev l d k : sim v (dev_put l d s) low (k tt) Q → sim v s low (put_dev l d ≫= k) Q.
Proof.
  intros H. unfold put_dev. apply sim_assoc_high, sim_get_dev. intros d0 _. by apply sim_modify.
Qed.
Lemma sim_put_socket l x k :
  sim v (socket_put l x s) low (k tt) Q → sim v s low (put_socket l x ≫= k) Q.
Proof.
  intros H. unfold put_socket. apply sim_assoc_high, sim_get_socket. intros d0 _.
  by apply sim_modify.
Qed.
Lemma sim_put_skb l x k : sim v (skb_put l x s) low (k tt) Q → sim v s low (put_skb l x ≫= k) Q.
Proof.
  intros H. unfold put_skb. apply sim_assoc_high, sim_get_skb. intros d0 _. by apply sim_modify.
Qed.
Lemma sim_gets {C} (f : net_state nova_ops → C) k :
  sim v s low (k (f s)) Q → sim v s low (gets f ≫= k) Q.
Proof. by apply sim_high. Qed.
End high.

(** ** Loads and stores *)

Section low.
Context {A B : Type} (v s : net_state nova_ops) (high : M (net_state nova_ops) B).
Context (Q : A → B → net_state nova_ops → Prop).
Implicit Types (p : list accessor).

Lemma sim_load_dev l d p u o z k :
  netdevs v !! l = Some d → locate device_t p = Some (u, o) →
  value_at device_t (device_words d) p = Some (VInt z) →
  (has_type u (VInt z) → sim v s (k z) high Q) →
  sim v s (load_at device_t (net_address (PObject l)) p ≫= k) high Q.
Proof.
  intros Hd Hp Hz H. 
  exact (sim_load_at v s (PObject l) false _ _ p u o z k high Q
    (upd_old _ _ _ _ _ _ _ (dev_updated l d d v Hd)) Hp Hz H).
Qed.
Lemma sim_load_socket l x p u o z k :
  sockets v !! l = Some x → locate socket_t p = Some (u, o) →
  value_at socket_t (socket_words x) p = Some (VInt z) →
  (has_type u (VInt z) → sim v s (k z) high Q) →
  sim v s (load_at socket_t (net_address (PObject l)) p ≫= k) high Q.
Proof.
  intros Hd Hp Hz H. 
  exact (sim_load_at v s (PObject l) true _ _ p u o z k high Q
    (upd_old _ _ _ _ _ _ _ (socket_updated l x x v Hd)) Hp Hz H).
Qed.
Lemma sim_load_skb l x p u o z k :
  skbs v !! l = Some x → locate skb_t p = Some (u, o) →
  value_at skb_t (skb_words x) p = Some (VInt z) →
  (has_type u (VInt z) → sim v s (k z) high Q) →
  sim v s (load_at skb_t (net_address (PObject l)) p ≫= k) high Q.
Proof.
  intros Hd Hp Hz H. 
  exact (sim_load_at v s (PObject l) true _ _ p u o z k high Q
    (upd_old _ _ _ _ _ _ _ (skb_updated l x x v Hd)) Hp Hz H).
Qed.
Lemma sim_load_ops g p u o z k :
  locate ops_t p = Some (u, o) → value_at ops_t (ops_words g) p = Some (VInt z) →
  sim v s (k z) high Q → sim v s (load_at ops_t (net_address (POps g)) p ≫= k) high Q.
Proof.
  intros Hp Hz H. 
  exact (sim_load_at v s (POps g) false _ _ p u o z k high Q (list_elem_of_here _ _) Hp Hz (λ _, H)).
Qed.
Lemma sim_load_registry k :
  (in_width 64 (word (g_nova_netdev_registry v)) →
    sim v s (k (word (g_nova_netdev_registry v))) high Q) →
  sim v s (load_at pointer_t (net_address PRegistry) [] ≫= k) high Q.
Proof.
  intros H. exact (sim_load_at v s PRegistry false _ _ [] _ _ _ k high Q (list_elem_of_here _ _) eq_refl eq_refl H).
Qed.
Lemma sim_load_next_fd k :
  (int_ok (g_next_socket_fd v) → sim v s (k (g_next_socket_fd v)) high Q) →
  sim v s (load_at int_t (net_address PNextFd) [] ≫= k) high Q.
Proof.
  intros H. exact (sim_load_at v s PNextFd false _ _ [] _ _ _ k high Q (list_elem_of_here _ _) eq_refl eq_refl H).
Qed.
Lemma sim_load_initialized k :
  sim v s (k (g_network_initialized v)) high Q →
  sim v s (load_at int_t (net_address PInitialized) [] ≫= k) high Q.
Proof.
  intros H.
  exact (sim_load_at v s PInitialized false _ _ [] _ _ _ k high Q (list_elem_of_here _ _) eq_refl eq_refl (λ _, H)).
Qed.

Lemma sim_store_dev l d d' p u o z k :
  netdevs v !! l = Some d → locate device_t p = Some (u, o) → numeric u = true →
  has_type u (VInt z) → assign device_t (device_words d) p (VInt z) = Some (device_words d') →
  sim (dev_put l d' v) s (k tt) high Q →
  sim v s (store_at device_t (net_address (PObject l)) p z ≫= k) high Q.
Proof.
  intros Hd Hp Hn Hz Ha H. 
  exact (sim_store_at v s (PObject l) false _ _ p u o z _ _ k high Q
    (dev_updated l d d' v Hd) Hp Hn Hz Ha H).
Qed.
Lemma sim_store_socket l x x' p u o z k :
  sockets v !! l = Some x → locate socket_t p = Some (u, o) → numeric u = true →
  has_type u (VInt z) → assign socket_t (socket_words x) p (VInt z) = Some (socket_words x') →
  sim (socket_put l x' v) s (k tt) high Q →
  sim v s (store_at socket_t (net_address (PObject l)) p z ≫= k) high Q.
Proof.
  intros Hd Hp Hn Hz Ha H. 
  exact (sim_store_at v s (PObject l) true _ _ p u o z _ _ k high Q
    (socket_updated l x x' v Hd) Hp Hn Hz Ha H).
Qed.
Lemma sim_store_skb l x x' p u o z k :
  skbs v !! l = Some x → locate skb_t p = Some (u, o) → numeric u = true →
  has_type u (VInt z) → assign skb_t (skb_words x) p (VInt z) = Some (skb_words x') →
  sim (skb_put l x' v) s (k tt) high Q →
  sim v s (store_at skb_t (net_address (PObject l)) p z ≫= k) high Q.
Proof.
  intros Hd Hp Hn Hz Ha H. 
  exact (sim_store_at v s (PObject l) true _ _ p u o z _ _ k high Q
    (skb_updated l x x' v Hd) Hp Hn Hz Ha H).
Qed.
Lemma sim_store_registry q k :
  in_width 64 (word q) → sim (set_registry q v) s (k tt) high Q →
  sim v s (store_at pointer_t (net_address PRegistry) [] (word q) ≫= k) high Q.
Proof.
  intros Hp H. exact (sim_store_at v s PRegistry false _ _ [] _ _ _ _ _ k high Q
    (registry_updated q v) eq_refl eq_refl Hp eq_refl H).
Qed.
Lemma sim_store_next_fd z k :
  int_ok z → sim (set_next_fd z v) s (k tt) high Q →
  sim v s (store_at int_t (net_address PNextFd) [] z ≫= k) high Q.
Proof.
  intros Hz H. exact (sim_store_at v s PNextFd false _ _ [] _ _ _ _ _ k high Q
    (next_fd_updated z v) eq_refl eq_refl Hz eq_refl H).
Qed.
Lemma sim_store_initialized z k :
  int_ok z → sim (set_initialized z v) s (k tt) high Q →
  sim v s (store_at int_t (net_address PInitialized) [] z ≫= k) high Q.
Proof.
  intros Hz H. exact (sim_store_at v s PInitialized false _ _ [] _ _ _ _ _ k high Q
    (initialized_updated z v) eq_refl eq_refl Hz eq_refl H).
Qed.

Lemma sim_free_object l v' k :
  removed v (PObject l) v' → sim v' s (k tt) high Q →
  sim v s (free_at (net_address (PObject l)) ≫= k) high Q.
Proof. intros Hr H. exact (sim_free v s (PObject l) v' k high Q Hr H). Qed.
End low.
End objects.
End NetMemory.
