(* ===== verification/NetBytes.v ===== *)
(** * The network stack on bytes (kernel/network/network_stack.c, loopback.c and
      nic_stub.c)

    Every function of the three files once more, statement by statement: each
    [p->x] is a load or a store at the address [p], at the offset that the header
    gives it, calls through a table of operations load the function's address
    from it.  The buffers of callers are passed by value. *)

From S2P Require Import Prelude CString Bytes CType CMemory CObject CHeap.
From S2P Require Import Headers NetState NetDev Sockets Drivers Network NetMemory.

Module NetBytes.
Import Sockets Drivers Network NetMemory.

Abbreviation mem := (M memory).

Section functions.
Context {space : NetSpace}.

Abbreviation registry_z := (net_address PRegistry).
Abbreviation table_z := (net_address PTable).
Abbreviation next_fd_z := (net_address PNextFd).
Abbreviation initialized_z := (net_address PInitialized).

Definition calloc_bytes (n : nat) : mem Z := calloc_at (λ n, net_address (PObject n)) n.

(** ** Packet buffers *)

Definition alloc_skb_bytes (len : Z) : mem Z :=
  skb ← calloc_bytes (size skb_t);
  if decide (skb = 0)%Z then mret 0%Z
  else
    block ← calloc_bytes (if decide (len = 0)%Z then 1 else Z.to_nat len);
    store_at skb_t skb [Member "data"] block;;
    data ← load_at skb_t skb [Member "data"];
    if decide (data = 0)%Z then free_at skb;; mret 0%Z
    else
      store_at skb_t skb [Member "len"] len;;
      store_at skb_t skb [Member "headroom"] 0;;
      store_at skb_t skb [Member "tailroom"] 0;;
      store_at skb_t skb [Member "dev"] 0;;
      store_at skb_t skb [Member "hash"] 0;;
      store_at skb_t skb [Member "protocol"] 0;;
      store_at skb_t skb [Member "priority"] 0;;
      store_at skb_t skb [Member "error"] 0;;
      mret skb.

Definition free_skb_bytes (skb : Z) : mem unit :=
  if decide (skb = 0)%Z then mret tt
  else
    data ← load_at skb_t skb [Member "data"];
    free_at data;;
    free_at skb.

(** [dev->stats.packets += 1; dev->stats.bytes += skb->len] *)
Definition count_bytes (packets bytes : string) (dev skb : Z) : mem unit :=
  n ← load_at device_t dev [Member "stats"; Member packets];
  store_at device_t dev [Member "stats"; Member packets] (u64 (n + 1));;
  n ← load_at device_t dev [Member "stats"; Member bytes];
  len ← load_at skb_t skb [Member "len"];
  store_at device_t dev [Member "stats"; Member bytes] (u64 (n + len)).

Definition netif_receive_skb_bytes (skb : Z) : mem Z :=
  if decide (skb = 0)%Z then mret (-1)%Z
  else
    dev ← load_at skb_t skb [Member "dev"];
    when (bool_decide (dev ≠ 0)%Z) (count_bytes "rx_packets" "rx_bytes" dev skb);;
    store_at skb_t skb [Member "error"] 0;;
    mret 0%Z.

(** ** The drivers *)

Definition lo_open_bytes (dev : Z) : mem Z :=
  f ← load_at device_t dev [Member "flags"];
  store_at device_t dev [Member "flags"] (Z.lor f (Z.lor NOVA_IFF_RUNNING NOVA_IFF_LOOPBACK));;
  mret 0%Z.

Definition nic_open_bytes (dev : Z) : mem Z :=
  f ← load_at device_t dev [Member "flags"];
  store_at device_t dev [Member "flags"] (Z.lor f NOVA_IFF_RUNNING);;
  mret 0%Z.

(** lo_stop and nic_stop have the same body. *)
Definition stop_bytes (dev : Z) : mem Z :=
  f ← load_at device_t dev [Member "flags"];
  store_at device_t dev [Member "flags"] (Z.land f (u32 (Z.lnot NOVA_IFF_RUNNING)));;
  mret 0%Z.

Definition lo_start_xmit_bytes (dev skb : Z) : mem Z :=
  if decide (skb = 0)%Z then mret (-1)%Z
  else
    count_bytes "tx_packets" "tx_bytes" dev skb;;
    count_bytes "rx_packets" "rx_bytes" dev skb;;
    netif_receive_skb_bytes skb;;
    mret 0%Z.

Definition nic_start_xmit_bytes (dev skb : Z) : mem Z :=
  if decide (dev = 0 ∨ skb = 0)%Z then mret (-1)%Z
  else
    count_bytes "tx_packets" "tx_bytes" dev skb;;
    free_skb_bytes skb;;
    mret 0%Z.

(** lo_get_stats and nic_get_stats have the same body: the bytes that are copied
    out, none without a buffer. *)
Definition get_stats_bytes (dev : Z) (out : bool) : mem (Z * option (list Z)) :=
  if decide (dev = 0%Z ∨ out = false) then mret ((-1)%Z, None)
  else ws ← load_bytes_at device_t dev [Member "stats"]; mret (0%Z, Some ws).

(** ** Calls through a pointer *)

Definition function_at (z : Z) : option driver_function :=
  snd <$> list_find (λ f, function_word f = z) driver_functions.

Definition call_open (f dev : Z) : mem Z :=
  g ← the (function_at f);
  match g with
  | f_lo_open => lo_open_bytes dev
  | f_nic_open => nic_open_bytes dev
  | f_lo_stop | f_nic_stop => stop_bytes dev
  | _ => undef
  end.

Definition call_start_xmit (f dev skb : Z) : mem Z :=
  g ← the (function_at f);
  match g with
  | f_lo_start_xmit => lo_start_xmit_bytes dev skb
  | f_nic_start_xmit => nic_start_xmit_bytes dev skb
  | _ => undef
  end.

(** ** The device registry *)

Definition next_bytes (dev : Z) : mem Z := load_at device_t dev [Member "next"].

Definition netdev_register_bytes (dev : Z) : mem Z :=
  if decide (dev = 0)%Z then mret (-1)%Z
  else
    c ← load_at device_t dev [Member "name"; Element 0];
    if decide (c = 0)%Z then mret (-1)%Z
    else
      fuel ← walk_fuel;
      curr ← load_at pointer_t registry_z [];
      found ← walk_at next_bytes fuel curr tt (λ _ curr,
        n ← load_bytes_at device_t curr [Member "name"];
        m ← load_bytes_at device_t dev [Member "name"];
        equal ← the (strcmp_eq n m);
        mret (if (equal : bool) then inl (-1)%Z else inr tt));
      match found with
      | inl r => mret r
      | inr _ =>
          head ← load_at pointer_t registry_z [];
          store_at device_t dev [Member "next"] head;;
          store_at pointer_t registry_z [] dev;;
          ops ← load_at device_t dev [Member "ops"];
          (if decide (ops = 0)%Z then mret tt
           else
             f ← load_at ops_t ops [Member "open"];
             if decide (f = 0)%Z then mret tt else call_open f dev;; mret tt);;
          mret 0%Z
      end.

Definition netdev_unregister_bytes (dev : Z) : mem Z :=
  fuel ← walk_fuel;
  curr ← load_at pointer_t registry_z [];
  if decide (dev = 0)%Z then mret (-1)%Z
  else
    found ← walk_at next_bytes fuel curr 0%Z (λ prev curr,
      if decide (curr = dev) then
        next ← next_bytes curr;
        (if decide (prev = 0)%Z then store_at pointer_t registry_z [] next
         else store_at device_t prev [Member "next"] next);;
        store_at device_t curr [Member "next"] 0;;
        mret (inl 0%Z)
      else mret (inr curr));
    mret (match found with inl r => r | inr _ => (-1)%Z end).

Definition netdev_find_bytes (name : option (list Z)) : mem Z :=
  match name with
  | None => mret 0%Z
  | Some name =>
      fuel ← walk_fuel;
      dev ← load_at pointer_t registry_z [];
      found ← walk_at next_bytes fuel dev tt (λ _ dev,
        n ← load_bytes_at device_t dev [Member "name"];
        equal ← the (strcmp_eq n name);
        mret (if (equal : bool) then inl dev else inr tt));
      mret (match found with inl dev => dev | inr _ => 0%Z end)
  end.

Definition network_init_bytes : mem Z :=
  clear_at table_t table_z;;
  store_at int_t next_fd_z [] 1;;
  store_at int_t initialized_z [] 1;;
  store_at pointer_t registry_z [] 0;;
  mret 0%Z.

Fixpoint unlink_all_bytes (fuel : nat) (dev : Z) : mem unit :=
  if decide (dev = 0)%Z then mret tt
  else
    match fuel with
    | O => no_fuel
    | S fuel =>
        next ← next_bytes dev;
        store_at device_t dev [Member "next"] 0;;
        unlink_all_bytes fuel next
    end.

Definition network_shutdown_bytes : mem Z :=
  fuel ← walk_fuel;
  dev ← load_at pointer_t registry_z [];
  unlink_all_bytes fuel dev;;
  store_at pointer_t registry_z [] 0;;
  store_at int_t initialized_z [] 0;;
  mret 0%Z.

Definition dev_queue_xmit_bytes (skb : Z) : mem Z :=
  if decide (skb = 0)%Z then mret (-1)%Z
  else
    dev ← load_at skb_t skb [Member "dev"];
    if decide (dev = 0)%Z then mret (-1)%Z
    else
      ops ← load_at device_t dev [Member "ops"];
      if decide (ops = 0)%Z then mret (-1)%Z
      else
        f ← load_at ops_t ops [Member "start_xmit"];
        if decide (f = 0)%Z then mret (-1)%Z
        else call_start_xmit f dev skb.

(** ** Initialising the drivers *)

(** memset, strncpy of the name, mtu and flags. *)
Definition loopback_init_bytes : mem Z :=
  let dev := net_address (PObject lo_dev) in
  clear_at device_t dev;;
  ws ← the (strncpy_bytes (cstr "lo") 15);
  store_bytes_at device_t dev [Member "name"] ws;;
  store_at device_t dev [Member "mtu"] 65536;;
  store_at device_t dev [Member "flags"] (Z.lor NOVA_IFF_LOOPBACK NOVA_IFF_UP);;
  store_at device_t dev [Member "ops"] (net_address (POps lo_ops));;
  netdev_register_bytes dev.

Definition nic_stub_init_bytes : mem Z :=
  let dev := net_address (PObject nic_dev) in
  clear_at device_t dev;;
  ws ← the (strncpy_bytes (cstr "nic0") 15);
  store_bytes_at device_t dev [Member "name"] ws;;
  store_at device_t dev [Member "mtu"] 1500;;
  store_at device_t dev [Member "flags"] (Z.lor NOVA_IFF_UP NOVA_IFF_RUNNING);;
  store_at device_t dev [Member "mac"; Element 0] 0x02;;
  store_at device_t dev [Member "mac"; Element 1] 0x00;;
  store_at device_t dev [Member "mac"; Element 2] 0x00;;
  store_at device_t dev [Member "mac"; Element 3] 0x00;;
  store_at device_t dev [Member "mac"; Element 4] 0x00;;
  store_at device_t dev [Member "mac"; Element 5] 0x01;;
  store_at device_t dev [Member "ops"] (net_address (POps nic_ops));;
  netdev_register_bytes dev.

(** ** The socket API *)

Definition socket_lookup_bytes (sockfd : Z) : mem Z :=
  if decide (sockfd <= 0 ∨ sockfd >= Z.of_nat NOVA_SOCKET_TABLE_SIZE)%Z then mret 0%Z
  else load_at table_t table_z [Element (Z.to_nat sockfd)].

(** [sock->dev = nova_netdev_find("lo")] when it is NULL. *)
Definition attach_bytes (sock : Z) : mem unit :=
  dev ← load_at socket_t sock [Member "dev"];
  if decide (dev = 0)%Z then
    found ← netdev_find_bytes (Some (cstr "lo"));
    store_at socket_t sock [Member "dev"] found
  else mret tt.

Definition socket_bytes (domain type protocol : Z) : mem Z :=
  b ← load_at int_t initialized_z [];
  when (bool_decide (b = 0)%Z) (network_init_bytes;; mret tt);;
  if decide (domain ≠ NOVA_AF_UNSPEC ∧ domain ≠ NOVA_AF_INET ∧
             domain ≠ NOVA_AF_INET6 ∧ domain ≠ NOVA_AF_UNIX) then mret (-1)%Z
  else if decide (type ≠ NOVA_SOCK_STREAM ∧ type ≠ NOVA_SOCK_DGRAM ∧
                  type ≠ NOVA_SOCK_RAW ∧ type ≠ NOVA_SOCK_SEQPACKET) then mret (-1)%Z
  else
    n ← load_at int_t next_fd_z [];
    if decide (n >= Z.of_nat NOVA_SOCKET_TABLE_SIZE)%Z then mret (-1)%Z
    else
      fd ← load_at int_t next_fd_z [];
      store_at int_t next_fd_z [] (fd + 1);;
      sock ← calloc_bytes (size socket_t);
      if decide (sock = 0)%Z then mret (-1)%Z
      else
        store_at socket_t sock [Member "family"] domain;;
        store_at socket_t sock [Member "type"] type;;
        store_at socket_t sock [Member "protocol"] protocol;;
        store_at socket_t sock [Member "state"] 0;;
        store_at socket_t sock [Member "flags"] 0;;
        store_at socket_t sock [Member "ops"] 0;;
        store_at socket_t sock [Member "private_data"] 0;;
        found ← netdev_find_bytes (Some (cstr "lo"));
        store_at socket_t sock [Member "dev"] found;;
        (if decide (fd < 0)%Z then undef
         else store_at table_t table_z [Element (Z.to_nat fd)] sock);;
        mret fd.

(** nova_bind, nova_accept, nova_getsockopt and nova_setsockopt only look the
    socket up. *)
Definition lookup_only_bytes (r : Z) (sockfd : Z) : mem Z :=
  sock ← socket_lookup_bytes sockfd;
  if decide (sock = 0)%Z then mret (-1)%Z else mret r.

Definition connect_bytes (sockfd : Z) : mem Z :=
  sock ← socket_lookup_bytes sockfd;
  if decide (sock = 0)%Z then mret (-1)%Z
  else
    store_at socket_t sock [Member "state"] 1;;
    attach_bytes sock;;
    mret 0%Z.

(** nova_listen and nova_shutdown. *)
Definition set_socket_state_bytes (z : Z) (sockfd : Z) : mem Z :=
  sock ← socket_lookup_bytes sockfd;
  if decide (sock = 0)%Z then mret (-1)%Z
  else store_at socket_t sock [Member "state"] z;; mret 0%Z.

Definition send_bytes (sockfd : Z) (buf : option (list Z)) (len : Z) : mem Z :=
  sock ← socket_lookup_bytes sockfd;
  match buf with
  | Some buf =>
      if decide (sock = 0 ∨ len = 0)%Z then mret (-1)%Z
      else
        attach_bytes sock;;
        dev ← load_at socket_t sock [Member "dev"];
        if decide (dev = 0)%Z then mret (-1)%Z
        else
          ops ← load_at device_t dev [Member "ops"];
          if decide (ops = 0)%Z then mret (-1)%Z
          else
            f ← load_at ops_t ops [Member "start_xmit"];
            if decide (f = 0)%Z then mret (-1)%Z
            else
              skb ← alloc_skb_bytes len;
              if decide (skb = 0)%Z then mret (-1)%Z
              else
                data ← load_at skb_t skb [Member "data"];
                memcpy_at data buf (Z.to_nat len);;
                store_at skb_t skb [Member "len"] len;;
                dev ← load_at socket_t sock [Member "dev"];
                store_at skb_t skb [Member "dev"] dev;;
                r ← dev_queue_xmit_bytes skb;
                if decide (r ≠ 0)%Z then free_skb_bytes skb;; mret (-1)%Z
                else mret (i64 len)
  | None => mret (-1)%Z
  end.

(** The result and the caller's buffer after the call. *)
Definition recv_bytes (sockfd : Z) (buf : option (list Z)) (len : Z)
    : mem (Z * option (list Z)) :=
  sock ← socket_lookup_bytes sockfd;
  match buf with
  | Some bytes =>
      if decide (sock = 0 ∨ len = 0)%Z then mret ((-1)%Z, buf)
      else
        bytes ← the (memcpy bytes (replicate (Z.to_nat len) 0%Z) (Z.to_nat len));
        mret (i64 len, Some bytes)
  | None => mret ((-1)%Z, buf)
  end.

Definition close_bytes (sockfd : Z) : mem Z :=
  sock ← socket_lookup_bytes sockfd;
  if decide (sock = 0)%Z then mret (-1)%Z
  else
    p ← load_at socket_t sock [Member "private_data"];
    free_at p;;
    free_at sock;;
    store_at table_t table_z [Element (Z.to_nat sockfd)] 0;;
    mret 0%Z.

(** ** All calls *)

(** The result, a pointer as the number it is; after nova_recv the buffer. *)
Definition call_bytes (c : net_call) : mem (Z * option (list Z)) :=
  let plain (m : mem Z) := r ← m; mret (r, None) in
  match c with
  | CallApi op =>
      match op with
      | Sockets.OpNetworkInit => plain network_init_bytes
      | Sockets.OpNetworkShutdown => plain network_shutdown_bytes
      | OpSocket domain type protocol => plain (socket_bytes domain type protocol)
      | OpBind fd | OpGetsockopt fd | OpSetsockopt fd => plain (lookup_only_bytes 0 fd)
      | OpAccept fd => plain (lookup_only_bytes (-1) fd)
      | OpConnect fd => plain (connect_bytes fd)
      | OpListen fd => plain (set_socket_state_bytes 2 fd)
      | OpShutdown fd => plain (set_socket_state_bytes 0 fd)
      | OpRecv fd buf len => recv_bytes fd buf len
      | OpClose fd => plain (close_bytes fd)
      end
  | CallRegistry op =>
      match op with
      | NetDev.OpInit => plain network_init_bytes
      | NetDev.OpShutdown => plain network_shutdown_bytes
      | NetDev.OpRegister dev => plain (netdev_register_bytes (word dev))
      | NetDev.OpUnregister dev => plain (netdev_unregister_bytes (word dev))
      | NetDev.OpFind name => plain (netdev_find_bytes name)
      end
  | CallSend fd buf len => plain (send_bytes fd buf len)
  | CallLoopbackInit => plain loopback_init_bytes
  | CallNicStubInit => plain nic_stub_init_bytes
  end.

(** The same of the functions on records. *)
Definition call_words (c : net_call) : M (net_state nova_ops) (Z * option (list Z)) :=
  match c with
  | CallApi op => Sockets.exec_op op
  | CallRegistry (NetDev.OpFind name) => p ← nova_netdev_find name; mret (word p, None)
  | CallRegistry op => o ← NetDev.exec_op op; mret (o.1, None)
  | CallSend fd buf len => r ← nova_send fd buf len; mret (r, None)
  | CallLoopbackInit => r ← nova_loopback_init; mret (r, None)
  | CallNicStubInit => r ← nova_nic_stub_init; mret (r, None)
  end.
End functions.
End NetBytes.
