(* ===== verification/NetSim.v ===== *)
(** * The network stack on bytes does what it does on records

    Each function of NetBytes.v simulates the function of the same name on
    records: as long as the memory holds the record, both give the same result,
    a pointer as the number it is, and the memory holds the new record. *)

From S2P Require Import Prelude CString LinkedList Bytes CType CMemory Simulation CObject CHeap.
From S2P Require Import Headers NetState NetDev Sockets Send Drivers Network NetTyped NetMemory NetBytes.

Module NetSim.
Import Sockets Send Drivers Network NetTyped NetMemory NetBytes.

Section simulation.
Context {space : NetSpace}.
Implicit Types (s v : net_state nova_ops) (d : nova_net_device nova_ops) (l : loc).

Abbreviation rep := (represents (S:=net_state nova_ops) (P:=place)).
Abbreviation sim := (simulation rep (λ s : net_state nova_ops, s)).

(** The same result up to [V], and at most [n] objects more. *)
Definition agrees {A B} (n : nat) (V : A → B → Prop) s (low : M memory A)
    (high : M (net_state nova_ops) B) : Prop :=
  sim s s low high (λ a b s', V a b ∧ brk s' ≤ n + brk s).

(** A pointer that is known: to an object that fits. *)
Definition points (z : Z) (p : option loc) : Prop := z = word p ∧ in_width 64 z.

(** ** Tactics *)

Lemma word_Some_eq l : word (Some l) = net_address (PObject l).
Proof. done. Qed.

Ltac assoc := repeat
  lazymatch goal with
  | |- simulation _ _ _ _ (mbind _ (mbind _ _)) _ _ => apply sim_assoc_low
  | |- simulation _ _ _ _ _ (mbind _ (mbind _ _)) _ => apply sim_assoc_high
  end.
Ltac known := first
  [ eassumption | apply dev_put_lookup | apply socket_put_lookup | apply skb_put_lookup ].
Ltac load_dev := assoc; eapply sim_load_dev; [known|done|done|intros ?].
Ltac load_skb := assoc; eapply sim_load_skb; [known|done|done|intros ?].
Ltac load_socket := assoc; eapply sim_load_socket; [known|done|done|intros ?].
Ltac typed :=
  lazymatch goal with
  | |- has_type _ (VInt (u64 _)) => apply u64_width
  | |- has_type _ (VInt (net_address (POps _))) => by apply net_address_static
  | |- has_type _ (VInt (Z.lor _ (Z.lor _ _))) => apply lo_flags_width; assumption
  | |- has_type _ (VInt (Z.lor _ _)) => first [apply running_width; assumption | by vm_compute]
  | |- has_type _ (VInt (Z.land _ _)) => apply stopped_width; assumption
  | |- _ => first [assumption | by vm_compute]
  end.
Ltac store_dev d' := assoc; eapply (sim_store_dev _ _ _ _ _ _ d');
  [known|done|done|typed|done|rewrite ?dev_put_put].
Ltac store_skb b' := assoc; eapply (sim_store_skb _ _ _ _ _ _ b');
  [known|done|done|typed|done|rewrite ?skb_put_put].
Ltac store_socket k' := assoc; eapply (sim_store_socket _ _ _ _ _ _ k');
  [known|done|done|typed|done|rewrite ?socket_put_put].
Ltac finish := apply sim_done; [done|split; [done|cbn in *; lia]].

(** A test for NULL. *)
Ltac null p :=
  destruct p as [?|]; [rewrite decide_False by apply word_Some|rewrite decide_True by done].

(** ** Packet buffers *)

(** The counters of a device, two loads and two stores. *)
Lemma count_tx_sim {A B} v s l d sl b (k : unit → M memory A) (high : M (net_state nova_ops) B) Q :
  netdevs v !! l = Some d → skbs v !! sl = Some b →
  sim (dev_put l (set_stats (count_tx (len b) (stats d)) d) v) s (k tt) high Q →
  sim v s (count_bytes "tx_packets" "tx_bytes" (word (Some l)) (word (Some sl)) ≫= k) high Q.
Proof.
  intros Hd Hb H. unfold count_bytes. rewrite !word_Some_eq. load_dev. 
  store_dev (set_stats (Stats (rx_bytes (stats d)) (rx_packets (stats d)) (rx_errors (stats d))
    (rx_dropped (stats d)) (tx_bytes (stats d)) (u64 (tx_packets (stats d) + 1))
    (tx_errors (stats d)) (tx_dropped (stats d))) d).
  load_dev. load_skb. store_dev (set_stats (count_tx (len b) (stats d)) d). exact H.
Qed.

Lemma count_rx_sim {A B} v s l d sl b (k : unit → M memory A) (high : M (net_state nova_ops) B) Q :
  netdevs v !! l = Some d → skbs v !! sl = Some b →
  sim (dev_put l (set_stats (count_rx (len b) (stats d)) d) v) s (k tt) high Q →
  sim v s (count_bytes "rx_packets" "rx_bytes" (word (Some l)) (word (Some sl)) ≫= k) high Q.
Proof.
  intros Hd Hb H. unfold count_bytes. rewrite !word_Some_eq. load_dev.
  store_dev (set_stats (Stats (rx_bytes (stats d)) (u64 (rx_packets (stats d) + 1))
    (rx_errors (stats d)) (rx_dropped (stats d)) (tx_bytes (stats d)) (tx_packets (stats d))
    (tx_errors (stats d)) (tx_dropped (stats d))) d).
  load_dev. load_skb. store_dev (set_stats (count_rx (len b) (stats d)) d). exact H.
Qed.

(** calloc on both sides. *)
Lemma sim_calloc {A B} s n T w store (kl : Z → M memory A) (kh : option loc → M (net_state nova_ops) B) Q :
  n = size T → created s T w (store (brk s) (took s)) → reads T (replicate (size T) 0%Z) w →
  (sim (store (brk s) (took s)) (store (brk s) (took s)) (kl (word (Some (brk s))))
    (kh (Some (brk s))) Q) →
  (sim (set_calloc (tail (calloc_results s)) s) (set_calloc (tail (calloc_results s)) s)
    (kl 0%Z) (kh None) Q) →
  sim s s (calloc_bytes n ≫= kl) (calloc store ≫= kh) Q.
Proof.
  intros -> Hc Hz Hsome Hnone.
  refine (sim_calloc_at s s T w _ (set_calloc (tail (calloc_results s)) s) kl _ Q Hc
    place_object_inj Hz _ _ _ _); [done..|].
  change (match calloc_answers s with [] => true | b :: _ => b end)
    with (next_alloc (calloc_results s)).
  destruct (next_alloc (calloc_results s)) eqn:E.
  - by eapply sim_high; [by apply calloc_run|].
  - by eapply sim_high; [by apply calloc_fails|].
Qed.

Lemma free_block_sim {A B} s p (kl : unit → M memory A) (kh : unit → M (net_state nova_ops) B) Q :
  (∀ s', sockets s' = sockets s → skbs s' = skbs s → g_socket_table s' = g_socket_table s →
    brk s' = brk s → sim s' s' (kl tt) (kh tt) Q) →
  sim s s (free_at (word p) ≫= kl) (free_block p ≫= kh) Q.
Proof.
  intros H. destruct p as [l|]; cbn [free_block]; [|by apply H].
  apply sim_assoc_high, sim_gets, sim_assoc_high, sim_the. intros bs Hbs. apply sim_modify.
  eapply sim_free_object; [by eapply block_removed|]. by apply H.
Qed.

Lemma free_skb_sim p s : agrees 0 eq s (free_skb_bytes (word p)) (nova_free_skb p).
Proof.
  unfold free_skb_bytes, nova_free_skb. null p; [|finish]. apply sim_tail.
  assoc. apply sim_get_skb. intros b Hb. load_skb. assoc.
  apply free_block_sim. intros s1 _ Hs Ht Hbrk. unfold free_skb_struct.
  assoc. apply sim_get_skb. intros b' Hb'. apply sim_modify.
  eapply sim_free_object; [by eapply skb_removed|]. finish.
Qed.

Lemma netif_receive_skb_sim p s :
  agrees 0 eq s (netif_receive_skb_bytes (word p)) (nova_netif_receive_skb p).
Proof.
  unfold netif_receive_skb_bytes, nova_netif_receive_skb. null p; [|finish].
  apply sim_get_skb. intros b Hb. load_skb.
  destruct (skb_dev b) as [dl|].
  - rewrite bool_decide_eq_true_2 by apply word_Some. cbn [when]. assoc.
    apply sim_get_dev. intros d Hd. apply sim_put_dev. eapply count_rx_sim; [done|done|].
    apply sim_get_skb. intros b' Hb'. apply sim_put_skb.
    store_skb (set_error 0 b'). finish.
  - rewrite bool_decide_eq_false_2 by (intros E; done). cbn [when]. 
    apply sim_get_skb. intros b' Hb'. apply sim_put_skb.
    store_skb (set_error 0 b'). finish.
Qed.

(** ** The drivers *)

Lemma lo_open_sim l s : agrees 0 eq s (lo_open_bytes (word (Some l))) (lo_open (Some l)).
Proof.
  unfold lo_open_bytes, lo_open. cbn [the]. apply sim_get_dev. intros d Hd. load_dev.
  apply sim_put_dev.
  store_dev (set_flags (Z.lor (dev_flags d) (Z.lor NOVA_IFF_RUNNING NOVA_IFF_LOOPBACK)) d). finish.
Qed.
Lemma nic_open_sim l s : agrees 0 eq s (nic_open_bytes (word (Some l))) (nic_open (Some l)).
Proof.
  unfold nic_open_bytes, nic_open. cbn [the]. apply sim_get_dev. intros d Hd. load_dev.
  apply sim_put_dev.
  store_dev (set_flags (Z.lor (dev_flags d) NOVA_IFF_RUNNING) d). finish.
Qed.
Lemma lo_stop_sim l s : agrees 0 eq s (stop_bytes (word (Some l))) (lo_stop (Some l)).
Proof.
  unfold stop_bytes, lo_stop. cbn [the]. apply sim_get_dev. intros d Hd. load_dev.
  apply sim_put_dev.
  store_dev (set_flags (Z.land (dev_flags d) (u32 (Z.lnot NOVA_IFF_RUNNING))) d). finish.
Qed.
Lemma nic_stop_sim l s : agrees 0 eq s (stop_bytes (word (Some l))) (nic_stop (Some l)).
Proof. exact (lo_stop_sim l s). Qed.

Lemma lo_start_xmit_sim l p s :
  agrees 0 eq s (lo_start_xmit_bytes (word (Some l)) (word p)) (lo_start_xmit (Some l) p).
Proof.
  unfold lo_start_xmit_bytes, lo_start_xmit. null p; [|finish]. cbn [the].
  apply sim_get_skb. intros b Hb. apply sim_get_dev. intros d Hd. apply sim_put_dev.
  eapply count_tx_sim; [done|done|]. apply sim_get_dev. intros d' Hd'. apply sim_put_dev.
  eapply count_rx_sim; [done|done|].
  eapply sim_bind; [apply (netif_receive_skb_sim (Some _))|]. intros a r s' [-> Hs]. finish.
Qed.

Lemma nic_start_xmit_sim l p s :
  agrees 0 eq s (nic_start_xmit_bytes (word (Some l)) (word p)) (nic_start_xmit (Some l) p).
Proof.
  unfold nic_start_xmit_bytes, nic_start_xmit. destruct p as [sl|].
  - rewrite decide_False by (intros [?%word_Some|?%word_Some]; done).
    apply sim_get_dev. intros d Hd. apply sim_get_skb. intros b Hb. apply sim_put_dev.
    eapply count_tx_sim; [done|done|].
    eapply sim_bind; [apply (free_skb_sim (Some sl))|]. intros a r s' [-> Hs]. finish.
  - rewrite decide_True by (by right). finish.
Qed.

(** ** Calls through a pointer *)

Lemma function_at_word f : function_at (function_word f) = Some f.
Proof.
  unfold function_at, driver_functions, function_word.
  destruct f; cbn; repeat (first [rewrite decide_True by done
    | rewrite decide_False by (by intros [=]%(inj net_address))]); done.
Qed.

(** What the tables of operations hold. *)
Definition open_function (o : nova_ops) : driver_function :=
  match o with lo_ops => f_lo_open | nic_ops => f_nic_open end.
Definition xmit_function (o : nova_ops) : driver_function :=
  match o with lo_ops => f_lo_start_xmit | nic_ops => f_nic_start_xmit end.

Lemma call_open_sim o f l s :
  op_open o = Some f →
  agrees 0 eq s (call_open (function_word (open_function o)) (word (Some l))) (f (Some l)).
Proof.
  intros [= <-]. unfold call_open. rewrite function_at_word. cbn [the].
  destruct o; [apply lo_open_sim|apply nic_open_sim].
Qed.

Lemma call_start_xmit_sim o f l p s :
  op_start_xmit o = Some f →
  agrees 0 eq s (call_start_xmit (function_word (xmit_function o)) (word (Some l)) (word p))
    (f (Some l) p).
Proof.
  intros [= <-]. unfold call_start_xmit. rewrite function_at_word. cbn [the].
  destruct o; [apply lo_start_xmit_sim|apply nic_start_xmit_sim].
Qed.

(** ** The device registry *)

Lemma walk_fuel_sim {A B} s (k : nat → M memory A) (high : M (net_state nova_ops) B) Q :
  (∀ fuel, registry_fuel s ≤ fuel → sim s s (k fuel) high Q) →
  sim s s (walk_fuel ≫= k) high Q.
Proof.
  intros H m b s' Hr Hb. unfold walk_fuel. run. apply H; [|done|done].
  unfold registry_fuel. apply le_n_S.
  rewrite <-(length_map_to_list (netdevs s)), <-(length_fmap fst), <-(length_fmap PObject).
  eapply rep_size; [exact Hr|apply NoDup_fmap_2; [apply _|apply NoDup_fst_map_to_list]|].
  intros a (l & -> & Hl)%list_elem_of_fmap.
  apply list_elem_of_fmap in Hl as ([l' d] & -> & Hd%elem_of_map_to_list). cbn in *.
  unfold object_cells. by rewrite Hd.
Qed.

(** The loops of the registry leave the state as it is while they go on. *)
Lemma registry_walk_sim {A A' R R'} s (Ra : A → A' → Prop) (Rr : R → R' → net_state nova_ops → Prop)
    bl bh fl p a a' :
  let step (x : R + A) (y : R' + A') s' := match x, y with
    | inl r, inl r' => Rr r r' s' | inr a, inr a' => Ra a a' ∧ s' = s | _, _ => False end in
  (∀ a a' l, in_width 64 (word (Some l)) → Ra a a' → sim s s (bl a (word (Some l))) (bh a' l) step) →
  registry_fuel s ≤ fl → in_width 64 (word p) → Ra a a' →
  sim s s (walk_at next_bytes fl (word p) a bl) (walk get_next (registry_fuel s) p a' bh) step.
Proof.
  intros step Hbody Hf Hp Ha.
  eapply (sim_walk word (λ p, in_width 64 (word p)) (λ s', s' = s)); try done; [apply word_Some|..].
  - intros l s1 ->. unfold next_bytes, get_next. apply sim_get_dev. intros d Hd. apply sim_tail.
    load_dev. by apply sim_done.
  - intros b b' l s1 -> Hl Hb. by apply Hbody.
Qed.

Lemma name_load_sim {A B} v s l d (k : list Z → M memory A) (high : M (net_state nova_ops) B) Q :
  netdevs v !! l = Some d → sim v s (k (dev_name d)) high Q →
  sim v s (load_bytes_at device_t (word (Some l)) [Member "name"] ≫= k) high Q.
Proof.
  intros Hd H.
  refine (sim_load_bytes_at v s (PObject l) false device_t (device_words d) [Member "name"]
    (TArray 16 uint8_t) 0 (VArray (VInt <$> dev_name d)) k high Q
    (upd_old _ _ _ _ _ _ _ (dev_updated l d d v Hd)) _ _ _); [done|done|].
  by intros ws [-> _]%reads_byte_array_inv.
Qed.

Lemma netdev_find_sim name s :
  agrees 0 points s (netdev_find_bytes name) (nova_netdev_find name).
Proof.
  unfold netdev_find_bytes, nova_netdev_find. destruct name as [name|]; [|finish].
  apply sim_gets, walk_fuel_sim. intros fuel Hf. assoc. apply sim_load_registry. intros Hw.
  eapply sim_bind.
  - apply (registry_walk_sim s (λ _ _, True) (λ z l s', z = word (Some l) ∧ in_width 64 z ∧ s' = s)); try done.
    intros _ _ l Hl _. apply sim_get_dev. intros d Hd. eapply name_load_sim; [done|].
    apply sim_the. intros equal He.
    eapply sim_low; [intros bs _; exact (the_Some _ _ _ He)|].
    destruct equal; by apply sim_done.
  - intros [z|[]] [l|[]] s'; try done; [intros (-> & Hz & ->)|intros [_ ->]].
    + apply sim_done; [done|]. split; [done|cbn; lia].
    + apply sim_done; [done|]. split; [by split|cbn; lia].
Qed.

Lemma name_char_value d c :
  dev_name d !! 0 = Some c →
  value_at device_t (device_words d) [Member "name"; Element 0] = Some (VInt c).
Proof.
  intros Hc. rewrite (value_at_cons _ _ _ _ 0 (TArray 16 uint8_t) 0) by done.
  cbn [device_words parts lookup list_lookup mbind option_bind].
  rewrite (value_at_cons _ _ _ _ 0 uint8_t 0) by done. cbn [parts].
  by rewrite list_lookup_fmap, Hc.
Qed.

Lemma netdev_register_sim p s :
  in_width 64 (word p) → agrees 0 eq s (netdev_register_bytes (word p)) (nova_netdev_register p).
Proof.
  intros Hp. unfold netdev_register_bytes, nova_netdev_register. destruct p as [l|];
    [rewrite decide_False by apply word_Some|finish].
  apply sim_get_dev. intros d Hd. apply sim_the. intros c Hc.
  eapply sim_load_dev; [exact Hd|done|by apply name_char_value|intros _].
  case_decide; [finish|]. apply sim_gets, walk_fuel_sim. intros fuel Hf.
  apply sim_load_registry. intros Hw. eapply sim_bind.
  - apply (registry_walk_sim s (λ _ _, True) (λ z r s', z = r ∧ s' = s)); try done.
    intros _ _ l' Hl' _. apply sim_get_dev. intros d' Hd'. apply sim_get_dev. intros d1 Hd1.
    eapply name_load_sim; [done|]. eapply name_load_sim; [done|].
    apply sim_the. intros equal He.
    eapply sim_low; [intros bs _; exact (the_Some _ _ _ He)|].
    destruct equal; by apply sim_done.
  - intros [z|[]] [r|[]] s'; try done; [intros [-> ->]; finish|intros [_ ->]].
    apply sim_get_dev. intros d' Hd'. apply sim_load_registry. intros _.
    apply sim_put_dev. store_dev (set_node_next (g_nova_netdev_registry s) d').
    apply sim_modify. apply (sim_store_registry _ _ _ _ (Some l)); [done|].
    apply sim_get_dev. intros d2 Hd2. load_dev.
    destruct (ops d2) as [o|] eqn:Ho; cbn [ops_word mbind option_bind].
    + rewrite decide_False by (pose proof (net_address_pos (POps o)); lia). assoc.
      destruct (op_open o) as [f|] eqn:Hf'; [|done].
      eapply (sim_load_ops _ _ _ _ _ _ _ _ (function_word (open_function o)));
        [done|by destruct o|].
      rewrite decide_False by apply function_word_not_null. assoc.
      eapply sim_bind; [by apply call_open_sim|]. intros a b s3 [-> Hs3]. cbn. finish.
    + rewrite decide_True by done. finish.
Qed.

Lemma netdev_unregister_sim p s :
  in_width 64 (word p) →
  agrees 0 eq s (netdev_unregister_bytes (word p)) (nova_netdev_unregister p).
Proof.
  intros Hp. unfold netdev_unregister_bytes, nova_netdev_unregister.
  apply sim_gets, walk_fuel_sim. intros fuel Hf. apply sim_load_registry. intros Hw.
  destruct p as [l|]; [rewrite decide_False by apply word_Some|finish].
  eapply sim_bind.
  - apply (registry_walk_sim s (λ z p, z = word p) (λ z r s', z = r ∧ brk s' = brk s)); try done.
    intros z q l' Hl' ->. unfold unregister_step.
    destruct (decide (l' = l)) as [->|Hne].
    + rewrite decide_True by done. apply sim_get_dev. intros c Hc. unfold next_bytes. load_dev.
      destruct q as [p|].
      * rewrite decide_False by apply word_Some. assoc. apply sim_get_dev. intros d' Hd'.
        apply sim_put_dev. store_dev (set_node_next (next c) d').
        apply sim_get_dev. intros c' Hc'. apply sim_put_dev.
        store_dev (set_node_next None c'). by apply sim_done.
      * rewrite decide_True by done. apply sim_modify.
        apply (sim_store_registry _ _ _ _ (next c)); [done|].
        apply sim_get_dev. intros c' Hc'. apply sim_put_dev.
        store_dev (set_node_next None c'). by apply sim_done.
    + rewrite decide_False by (intros [= ->]%(inj word); done). by apply sim_done.
  - intros [z|z] [r|q] s'; try done; [intros [-> Hb]; finish|intros [_ ->]; finish].
Qed.

(** ** Initialisation, shutdown, transmission *)

Lemma table_zero_words n :
  reads (TArray n (TUInt 8)) (replicate (n * 8) 0%Z) (VArray ((λ p, VInt (word p)) <$> replicate n None)).
Proof.
  change (n * 8) with (size (TArray n (TUInt 8))). rewrite fmap_replicate.
  apply reads_zero; [done| |].
  - split; [by rewrite length_replicate|]. by apply Forall_replicate.
  - cbn. apply forallb_forall. intros w Hw%list_elem_of_In%elem_of_replicate. by destruct Hw as [-> _].
Qed.

Lemma network_init_sim s : agrees 0 eq s network_init_bytes nova_network_init.
Proof.
  unfold network_init_bytes, nova_network_init, clear_at. apply sim_modify.
  refine (sim_store_bytes_at s _ PTable false _ _ [] table_t 0 _ _ _ _ _ _ _
    (table_updated (replicate NOVA_SOCKET_TABLE_SIZE None) s) eq_refl _ eq_refl _);
    [exact (table_zero_words NOVA_SOCKET_TABLE_SIZE)|].
  apply sim_modify, sim_store_next_fd; [done|]. apply sim_modify, sim_store_initialized; [done|].
  apply sim_modify, (sim_store_registry _ _ _ _ None); [done|]. finish.
Qed.

Lemma unlink_all_sim fl fh p s :
  fh ≤ fl → agrees 0 eq s (unlink_all_bytes fl (word p)) (unlink_all fh p).
Proof.
  revert fl p s. induction fh as [|fh IH]; intros fl p s Hf.
  - destruct p as [l|]; [by intros ????|]. destruct fl; cbn [unlink_all_bytes unlink_all];
      rewrite decide_True by done; finish.
  - destruct fl as [|fl]; [lia|]. cbn [unlink_all_bytes unlink_all]. null p; [|finish].
    apply sim_get_dev. intros d Hd. unfold next_bytes. load_dev. apply sim_put_dev.
    store_dev (set_node_next None d). refine (IH fl (next d) (dev_put _ _ _) _). lia.
Qed.

Lemma network_shutdown_sim s : agrees 0 eq s network_shutdown_bytes nova_network_shutdown.
Proof.
  unfold network_shutdown_bytes, nova_network_shutdown.
  apply sim_gets, walk_fuel_sim. intros fuel Hf. apply sim_load_registry. intros Hw.
  eapply sim_bind; [by apply unlink_all_sim|]. intros a b s1 [-> Hb].
  apply sim_modify, (sim_store_registry _ _ _ _ None); [done|].
  apply sim_modify, sim_store_initialized; [done|]. finish.
Qed.

Lemma dev_queue_xmit_sim p s :
  agrees 0 eq s (dev_queue_xmit_bytes (word p)) (nova_dev_queue_xmit p).
Proof.
  unfold dev_queue_xmit_bytes, nova_dev_queue_xmit. destruct p as [sl|];
    [rewrite decide_False by apply word_Some|finish].
  apply sim_get_skb. intros b Hb. load_skb. null (skb_dev b); [|finish].
  apply sim_get_dev. intros d Hd. load_dev.
  destruct (ops d) as [o|]; cbn [ops_word mbind option_bind]; [|rewrite decide_True by done; finish].
  rewrite decide_False by (pose proof (net_address_pos (POps o)); lia).
  destruct (op_start_xmit o) as [f|] eqn:Hf'; [|done].
  eapply (sim_load_ops _ _ _ _ _ _ _ _ (function_word (xmit_function o)));
    [done|by destruct o|].
  rewrite decide_False by apply function_word_not_null.
  exact (call_start_xmit_sim o f _ (Some sl) s Hf').
Qed.

(** ** Allocating a packet *)

Lemma room_less n s s' : room n s → brk s' ≤ brk s → room n s'.
Proof. intros Hr Hb l Hl. apply Hr. lia. Qed.

Lemma room_le n n' s : n' ≤ n → room n s → room n' s.
Proof. intros Hn Hr l Hl. apply Hr. lia. Qed.

Lemma zero_skb_reads : reads skb_t (replicate (size skb_t) 0%Z) (skb_words zero_skb).
Proof. by apply reads_zero. Qed.
Lemma zero_socket_reads : reads socket_t (replicate (size socket_t) 0%Z) (socket_words zero_socket).
Proof. by apply reads_zero. Qed.
Lemma zero_device_reads : reads device_t (replicate (size device_t) 0%Z) (device_words zero_device).
Proof. apply reads_zero; [done| |done]. repeat (split; [by repeat constructor|]). by repeat split. Qed.
Lemma zero_block_reads n :
  reads (block_t n) (replicate (size (block_t n)) 0%Z) (VArray (VInt <$> replicate n 0%Z)).
Proof.
  change (size (block_t n)) with (n * 1). rewrite Nat.mul_1_r.
  apply reads_byte_array; [apply length_replicate|apply bytes_ok_zeros].
Qed.

Lemma alloc_skb_sim len s :
  room 2 s → size_ok len → agrees 2 points s (alloc_skb_bytes len) (nova_alloc_skb len).
Proof.
  intros Hroom Hlen. unfold alloc_skb_bytes, nova_alloc_skb.
  eapply sim_calloc; [done|apply skb_created|apply zero_skb_reads| |].
  2: { rewrite decide_True by done. apply sim_done; [done|]. split; [by split|cbn; lia]. }
  rewrite decide_False by apply word_Some. set (sl := brk s). set (s1 := store_skb zero_skb sl (took s)).
  assert (in_width 64 (word (Some sl))) as Hsl by (apply Hroom; unfold sl; lia).
  assert (in_width 64 (word (Some (brk s1)))) as Hbl by (apply Hroom; cbn; lia).
  set (n := if decide (len = 0)%Z then 1 else Z.to_nat len).
  eapply sim_calloc; [|apply (block_created n)|apply zero_block_reads| |].
  { cbn. by rewrite Nat.mul_1_r. }
  - assert (skbs (store_block n (brk s1) (took s1)) !! sl = Some zero_skb) as Hz by apply lookup_insert_eq.
    apply sim_put_skb. store_skb (SkBuff (Some (brk s1)) 0 0 0 None 0 0 0 0). load_skb.
    rewrite decide_False by apply word_Some.
    do 8 store_skb (SkBuff (Some (brk s1)) len 0 0 None 0 0 0 0).
    apply sim_done; [done|]. split; [by split|cbn; lia].
  - set (s2 := set_calloc _ s1). assert (skbs s2 !! sl = Some zero_skb) as Hz by apply lookup_insert_eq.
    store_skb zero_skb. load_skb. rewrite decide_True by done. unfold free_skb_struct.
    assoc. apply sim_get_skb. intros b Hb. apply sim_modify.
    eapply sim_free_object; [eapply skb_removed, skb_put_lookup|].
    apply sim_done; [|split; [by split|cbn; lia]].
    unfold skb_put, set_skbs. cbn. by rewrite delete_insert_eq.
Qed.

(** ** The socket API *)

Lemma attach_sim l s : agrees 0 eq s (attach_bytes (word (Some l))) (attach l).
Proof.
  unfold attach_bytes, attach. apply sim_get_socket. intros k Hk. load_socket.
  destruct (dev k) as [dl|].
  - rewrite decide_False by apply word_Some. finish.
  - rewrite decide_True by done. eapply sim_bind; [apply netdev_find_sim|].
    intros z p s1 [[-> Hp] Hb]. apply sim_tail. assoc. apply sim_get_socket. intros k1 Hk1. cbv beta. assoc.
    apply sim_put_socket. store_socket (set_dev p k1). finish.
Qed.

Lemma table_value v i p :
  g_socket_table v !! i = Some p →
  value_at table_t (VArray ((λ p, VInt (word p)) <$> g_socket_table v)) [Element i] =
    if decide (i < NOVA_SOCKET_TABLE_SIZE) then Some (VInt (word p)) else None.
Proof.
  intros Hp. cbn. case_decide; [|done]. cbn. by rewrite list_lookup_fmap, Hp.
Qed.

Lemma socket_lookup_sim fd s : agrees 0 points s (socket_lookup_bytes fd) (nova_socket_lookup fd).
Proof.
  unfold socket_lookup_bytes, nova_socket_lookup.
  case_decide as Hfd; [apply sim_done; [done|]; split; [by split|cbn; lia]|].
  apply sim_tail, sim_assoc_high, sim_gets, sim_the. intros p Hp.
  assert (Z.to_nat fd < NOVA_SOCKET_TABLE_SIZE) as Hi by (unfold NOVA_SOCKET_TABLE_SIZE in *; lia).
  refine (sim_load_at s s PTable false _ _ [Element (Z.to_nat fd)] (TUInt 8) (Z.to_nat fd * 8 + 0) _ _ _ _
    (list_elem_of_here _ _) _ _ _).
  - cbn. by rewrite decide_True.
  - rewrite (table_value _ _ _ Hp). by rewrite decide_True.
  - intros Hw. apply sim_done; [done|]. split; [by split|cbn; lia].
Qed.

Lemma lookup_only_sim z fd s :
  agrees 0 eq s (lookup_only_bytes z fd)
    (sock ← nova_socket_lookup fd; match sock with None => mret (-1)%Z | Some _ => mret z end).
Proof.
  unfold lookup_only_bytes. eapply sim_bind; [apply socket_lookup_sim|].
  intros a p s1 [[-> _] Hb]. null p; finish.
Qed.

(** The calls that set the state of the socket. *)
Lemma socket_state_sim z fd s :
  int_ok z →
  agrees 0 eq s (set_socket_state_bytes z fd)
    (sock ← nova_socket_lookup fd;
     match sock with
     | None => mret (-1)%Z
     | Some l => k ← get_socket l; put_socket l (set_state z k);; mret 0%Z
     end).
Proof.
  intros Hz. unfold set_socket_state_bytes. eapply sim_bind; [apply socket_lookup_sim|].
  intros a p s1 [[-> _] Hb]. null p; [|finish].
  apply sim_get_socket. intros k Hk. apply sim_put_socket. store_socket (set_state z k). finish.
Qed.

Lemma connect_sim fd s : agrees 0 eq s (connect_bytes fd) (nova_connect fd).
Proof.
  unfold connect_bytes, nova_connect. eapply sim_bind; [apply socket_lookup_sim|].
  intros a p s1 [[-> _] Hb]. null p; [|finish].
  apply sim_get_socket. intros k Hk. apply sim_put_socket. store_socket (set_state 1 k).
  eapply sim_bind; [apply attach_sim|]. intros ? ? s2 [-> Hb2]. finish.
Qed.

Lemma recv_sim fd buf len s : agrees 0 eq s (recv_bytes fd buf len) (nova_recv fd buf len).
Proof.
  unfold recv_bytes, nova_recv. eapply sim_bind; [apply socket_lookup_sim|].
  intros a p s1 [[-> _] Hb]. destruct buf as [bytes|]; [|destruct p; finish].
  destruct p as [l|]; [|rewrite decide_True by (by left); finish].
  destruct (decide (len = 0%Z)) as [->|Hl]; [rewrite decide_True by (by right); finish|].
  rewrite decide_False by (intros [?%word_Some|?]; done). apply sim_the. intros new Hnew.
  eapply sim_low; [intros bs _; exact (the_Some _ _ _ Hnew)|]. finish.
Qed.

(** A store in the table. *)
Lemma table_store_sim {A B} v s i p t (k : unit → M memory A) (high : M (net_state nova_ops) B) Q :
  arr_set (g_socket_table v) i p = Some t → in_width 64 (word p) →
  sim (set_table t v) s (k tt) high Q →
  sim v s (store_at table_t (net_address PTable) [Element i] (word p) ≫= k) high Q.
Proof.
  intros Ht Hp H. eapply (sim_cell_typed v s PTable); [by left|]. intros [Hlen _].
  rewrite length_fmap in Hlen. unfold arr_set in Ht. case_decide as Hi; [|done]. injection Ht as <-.
  destruct (lookup_lt_is_Some_2 _ _ Hi) as [q Hq]. rewrite Hlen in Hi.
  refine (sim_store_at v s PTable false _ _ [Element i] (TUInt 8) (i * 8 + 0) _ _ _ k high Q
    (table_updated _ v) _ eq_refl Hp _ H).
  - cbn. by rewrite decide_True.
  - cbn. rewrite decide_True by done. cbn. rewrite list_lookup_fmap, Hq. cbn.
    by rewrite list_fmap_insert.
Qed.

Lemma put_table_sim {A B} s fd p (kl : unit → M memory A) (kh : unit → M (net_state nova_ops) B) Q :
  in_width 64 (word p) →
  (∀ t, (0 ≤ fd)%Z → sim (set_table t s) (set_table t s) (kl tt) (kh tt) Q) →
  sim s s (store_at table_t (net_address PTable) [Element (Z.to_nat fd)] (word p) ≫= kl)
    (put_table fd p ≫= kh) Q.
Proof.
  intros Hp H. unfold put_table. assoc. apply sim_gets. assoc. apply sim_the. intros t Ht.
  case_decide; [done|]. apply sim_modify. eapply table_store_sim; [done|done|]. apply H. lia.
Qed.

Lemma close_sim fd s : agrees 0 eq s (close_bytes fd) (nova_close fd).
Proof.
  unfold close_bytes, nova_close. eapply sim_bind; [apply socket_lookup_sim|].
  intros a p s1 [[-> _] Hb]. null p; [|finish].
  apply sim_get_socket. intros k Hk. load_socket. apply free_block_sim.
  intros s2 Hs _ Ht Hb2. unfold free_socket_struct. assoc. apply sim_get_socket. intros k' Hk'.
  apply sim_modify. eapply sim_free_object; [by eapply socket_removed|].
  apply (put_table_sim _ fd None); [done|]. intros t Hfd. finish.
Qed.

Lemma socket_sim domain type protocol s :
  int_ok domain → int_ok type → int_ok protocol → room 1 s →
  agrees 1 eq s (socket_bytes domain type protocol) (nova_socket domain type protocol).
Proof.
  intros Hd Hty Hp Hroom. unfold socket_bytes, nova_socket. apply sim_gets, sim_load_initialized.
  eapply sim_bind.
  { instantiate (1 := λ _ _ s', brk s' ≤ brk s). unfold when.
    destruct (bool_decide _); [|by apply sim_done].
    eapply sim_bind; [apply network_init_sim|]. intros a b s1 [_ Hb]. by apply sim_done. }
  intros ? ? s1 Hb1. cbv beta in Hb1.
  case_decide as Hdom; [rewrite (decide_True (P:=domain ≠ _ ∧ _)) by done; finish|].
  rewrite (decide_False (P:=domain ≠ _ ∧ _)) by done.
  case_decide as Htyp; [rewrite (decide_True (P:=type ≠ _ ∧ _)) by done; finish|].
  rewrite (decide_False (P:=type ≠ _ ∧ _)) by done.
  apply sim_load_next_fd. intros Hfd. apply sim_gets. case_decide as Hfull; [finish|].
  apply sim_load_next_fd. intros _. set (fd := g_next_socket_fd s1) in *. apply sim_modify.
  apply sim_store_next_fd.
  { pose proof (proj1 (int_ok_range _) Hfd). apply int_ok_range.
    unfold NOVA_SOCKET_TABLE_SIZE in Hfull. lia. }
  set (s2 := set_next_fd (fd + 1) s1).
  eapply sim_calloc; [done|apply socket_created|apply zero_socket_reads| |].
  2: { rewrite decide_True by done. finish. }
  rewrite decide_False by apply word_Some. set (sl := brk s2). set (s3 := store_socket _ _ _).
  assert (in_width 64 (word (Some sl))) as Hsl by (apply Hroom; unfold sl; cbn; lia).
  assert (sockets s3 !! sl = Some zero_socket) as Hz by apply lookup_insert_eq.
  assoc. apply sim_get_socket. intros k Hk. rewrite Hz in Hk. injection Hk as <-.
  apply sim_put_socket.
  store_socket (Socket domain 0 0 0 0 None None None).
  store_socket (Socket domain type 0 0 0 None None None).
  do 5 store_socket (Socket domain type protocol 0 0 None None None).
  eapply sim_bind; [apply netdev_find_sim|]. intros z p s4 [[-> Hpw] Hb4].
  apply sim_get_socket. intros k Hk. apply sim_put_socket. store_socket (set_dev p k).
  unfold put_table. assoc. apply sim_gets. assoc. apply sim_the. intros t Ht.
  case_decide; [done|]. apply sim_modify. 
  eapply (table_store_sim _ _ _ (Some sl)); [exact Ht|exact Hsl|]. finish.
Qed.

(** ** Sending *)

Lemma memcpy_sim {A B} v s l old ws n new (k : unit → M memory A) (high : M (net_state nova_ops) B) Q :
  blocks v !! l = Some old → memcpy old ws n = Some new → bytes_ok ws →
  sim (block_put l new v) s (k tt) high Q →
  sim v s (memcpy_at (word (Some l)) ws n ≫= k) high Q.
Proof.
  intros Hl Hm Hws H. pose proof (length_memcpy _ _ _ _ Hm) as Hlen.
  refine (sim_at_block v s (PObject l) _ _ _ _ _ _ k high Q _ (block_updated l old new v Hl Hlen) H).
  intros bs Hr. pose proof (reads_bytes _ _ _ Hr) as Hold.
  apply reads_byte_array_inv in Hr as [-> _].
  exists new. split; [run; by bind (the_Some _ _ _ Hm)|].
  rewrite <-Hlen. apply reads_byte_array; [done|]. exact (bytes_ok_memcpy _ _ _ _ Hold Hws Hm).
Qed.

Lemma net_send_sim fd buf len s :
  room 2 s → size_ok len → from_option bytes_ok True buf →
  agrees 2 eq s (send_bytes fd buf len) (nova_send fd buf len).
Proof.
  intros Hroom Hlen Hbuf. unfold send_bytes, nova_send.
  eapply sim_bind; [apply socket_lookup_sim|]. intros a p s1 [[-> _] Hb1].
  destruct buf as [buf|]; [|destruct p; finish].
  destruct p as [l|]; [|rewrite decide_True by (by left); finish].
  destruct (decide (len = 0%Z)) as [->|Hl]; [rewrite decide_True by (by right); finish|].
  rewrite decide_False by (intros [?%word_Some|?]; done).
  eapply sim_bind; [apply attach_sim|]. intros ? ? s2 [-> Hb2].
  apply sim_get_socket. intros k Hk. load_socket. null (dev k); [|finish].
  apply sim_get_dev. intros d Hd. load_dev.
  destruct (ops d) as [o|]; cbn [ops_word mbind option_bind]; [|rewrite decide_True by done; finish].
  rewrite decide_False by (pose proof (net_address_pos (POps o)); lia).
  destruct (op_start_xmit o) as [f|] eqn:Hf'; [|done].
  eapply (sim_load_ops _ _ _ _ _ _ _ _ (function_word (xmit_function o))); [done|by destruct o|].
  rewrite decide_False by apply function_word_not_null.
  eapply sim_bind; [apply alloc_skb_sim; [eapply room_less; [exact Hroom|lia]|done]|].
  intros z p s3 [[-> Hpw] Hb3]. destruct p as [sl|]; [|rewrite decide_True by done; finish].
  rewrite decide_False by apply word_Some.
  apply sim_get_socket. intros k1 Hk1. unfold fill_skb. assoc. apply sim_get_skb. intros sk Hsk.
  load_skb. assoc. apply sim_gets. assoc. apply sim_the. intros bl Hbl. rewrite Hbl.
  assoc. apply sim_the. intros old Hold. assoc. apply sim_the. intros new Hnew.
  eapply memcpy_sim; [exact Hold|exact Hnew|done|]. assoc. apply sim_modify. assoc. apply sim_put_skb.
  assert (skbs (block_put bl new s3) !! sl = Some sk) as Hb' by exact Hsk.
  store_skb (SkBuff (data sk) len (headroom sk) (tailroom sk) (skb_dev sk) (hash sk)
    (skb_protocol sk) (skb_priority sk) (error sk)).
  assert (sockets (block_put bl new s3) !! l = Some k1) as Hk1' by exact Hk1.
  eapply sim_load_socket; [exact Hk1'|done|done|intros Hdev].
  store_skb (SkBuff (data sk) len (headroom sk) (tailroom sk) (dev k1) (hash sk)
    (skb_protocol sk) (skb_priority sk) (error sk)). rewrite Hbl.
  eapply sim_bind; [apply (dev_queue_xmit_sim (Some sl))|]. intros r ? s4 [-> Hb4].
  case_decide; [|finish].
  eapply sim_bind; [apply (free_skb_sim (Some sl))|]. intros ? ? s5 [_ Hb5]. finish.
Qed.

(** ** Initialising the drivers *)

Lemma clear_device_sim {A B} s l (k : unit → M memory A) (kh : unit → M (net_state nova_ops) B) Q :
  sim (dev_put l zero_device s) (dev_put l zero_device s) (k tt) (kh tt) Q →
  sim s s (clear_at device_t (net_address (PObject l)) ≫= k) (put_dev l zero_device ≫= kh) Q.
Proof.
  intros H. unfold put_dev. assoc. apply sim_get_dev. intros d Hd. apply sim_modify.
  exact (sim_store_bytes_at s _ (PObject l) false _ _ [] device_t 0 _ _ _ _ k _ Q
    (dev_updated l d zero_device s Hd) eq_refl zero_device_reads eq_refl H).
Qed.

(** The name, copied into the zeroed device. *)
Lemma name_store_sim {A B} v s l d ws name (k : unit → M memory A) (high : M (net_state nova_ops) B) Q :
  netdevs v !! l = Some d → length ws ≤ 16 → bytes_ok ws →
  name = ws ++ drop (length ws) (dev_name d) →
  sim (dev_put l (NetDevice name (mac d) (mtu d) (dev_flags d) (dev_family d) (ops d) (stats d)
    (dev_private_data d) (next d)) v) s (k tt) high Q →
  sim v s (store_bytes_at device_t (net_address (PObject l)) [Member "name"] ws ≫= k) high Q.
Proof.
  intros Hd Hl Hws -> H. set (d' := NetDevice _ _ _ _ _ _ _ _ _) in H.
  exact (sim_store_prefix_at v s (PObject l) false _ _ [Member "name"] 16 0 ws (dev_name d) _ _ k high Q
    (dev_updated l d d' v Hd) eq_refl eq_refl Hl Hws eq_refl H).
Qed.

Lemma loopback_init_sim s :
  in_width 64 (word (Some lo_dev)) → agrees 0 eq s loopback_init_bytes nova_loopback_init.
Proof.
  intros Hw. unfold loopback_init_bytes, nova_loopback_init. cbv zeta. apply clear_device_sim.
  apply sim_get_dev. intros d Hd. rewrite dev_put_lookup in Hd. injection Hd as <-.
  set (ws := chars "lo" ++ replicate 13 0%Z).
  apply sim_the. intros name Hname. apply sim_put_dev.
  eapply sim_low; [intros bs _; exact (the_Some _ ws _ eq_refl)|].
  eapply (name_store_sim _ _ _ zero_device ws name); [apply dev_put_lookup|cbn; lia|by repeat constructor
    |by injection Hname as <-|]. rewrite dev_put_put.
  store_dev (NetDevice name (mac zero_device) 65536 (dev_flags zero_device) (dev_family zero_device)
    (ops zero_device) (stats zero_device) (dev_private_data zero_device) (next zero_device)).
  store_dev (NetDevice name (mac zero_device) 65536 (Z.lor NOVA_IFF_LOOPBACK NOVA_IFF_UP)
    (dev_family zero_device) (ops zero_device) (stats zero_device) (dev_private_data zero_device)
    (next zero_device)).
  store_dev (NetDevice name (mac zero_device) 65536 (Z.lor NOVA_IFF_LOOPBACK NOVA_IFF_UP)
    (dev_family zero_device) (Some lo_ops) (stats zero_device) (dev_private_data zero_device)
    (next zero_device)).
  exact (netdev_register_sim (Some lo_dev) (dev_put lo_dev _ s) Hw).
Qed.

Lemma nic_stub_init_sim s :
  in_width 64 (word (Some nic_dev)) → agrees 0 eq s nic_stub_init_bytes nova_nic_stub_init.
Proof.
  intros Hw. unfold nic_stub_init_bytes, nova_nic_stub_init. cbv zeta. apply clear_device_sim.
  apply sim_get_dev. intros d Hd. rewrite dev_put_lookup in Hd. injection Hd as <-.
  set (ws := chars "nic0" ++ replicate 11 0%Z).
  apply sim_the. intros name Hname. apply sim_put_dev.
  eapply sim_low; [intros bs _; exact (the_Some _ ws _ eq_refl)|].
  eapply (name_store_sim _ _ _ zero_device ws name); [apply dev_put_lookup|cbn; lia|by repeat constructor
    |by injection Hname as <-|]. rewrite dev_put_put.
  pose (step m z f o := NetDevice name m z f NOVA_AF_UNSPEC o zero_stats None None
    : nova_net_device nova_ops).
  store_dev (step (replicate 6 0%Z) 1500%Z 0%Z None).
  store_dev (step (replicate 6 0%Z) 1500%Z 65%Z None).
  do 5 store_dev (step [2; 0; 0; 0; 0; 0]%Z 1500%Z 65%Z None).
  store_dev (step [2; 0; 0; 0; 0; 1]%Z 1500%Z 65%Z None).
  store_dev (step [2; 0; 0; 0; 0; 1]%Z 1500%Z 65%Z (Some nic_ops)).
  exact (netdev_register_sim (Some nic_dev) (dev_put nic_dev _ s) Hw).
Qed.

(** ** What the drivers copy out *)

(** The bytes of the statistics, as the record. *)
Lemma get_stats_sim p (out : option nova_net_stats) s :
  agrees 0 (λ a b, a.1 = b.1 ∧
      match a.2, b.2 with
      | Some ws, Some t => reads struct_nova_net_stats ws (stats_val t)
      | None, t => t = out
      | _, _ => False
      end) s
    (get_stats_bytes (word p) (bool_decide (is_Some out))) (lo_get_stats p out).
Proof.
  unfold get_stats_bytes, lo_get_stats. destruct p as [l|].
  - destruct out as [t|]; [|rewrite decide_True by (by right); finish].
    rewrite decide_False by (intros [?%word_Some|?]; done).
    apply sim_get_dev. intros d Hd.
    refine (sim_load_bytes_at s s (PObject l) false device_t (device_words d) [Member "stats"]
      struct_nova_net_stats 48 (stats_val (stats d)) _ _ _
      (upd_old _ _ _ _ _ _ _ (dev_updated l d d s Hd)) eq_refl eq_refl _).
    intros ws Hws. apply sim_done; [done|]. split; [by split|cbn; lia].
  - rewrite decide_True by (by left). finish.
Qed.

(** ** All calls *)

(** The pointers among the arguments fit into a word. *)
Definition call_fits (c : net_call) : Prop :=
  match c with
  | CallRegistry (NetDev.OpRegister p) | CallRegistry (NetDev.OpUnregister p) =>
      in_width 64 (word p)
  | CallLoopbackInit => in_width 64 (word (Some lo_dev))
  | CallNicStubInit => in_width 64 (word (Some nic_dev))
  | _ => True
  end.

Lemma agrees_reply {A B} n V (f : A → Z * option (list Z)) (g : B → Z * option (list Z)) s
    (low : M memory A) (high : M (net_state nova_ops) B) :
  agrees n V s low high → n ≤ 2 → (∀ a b, V a b → f a = g b) →
  agrees 2 eq s (a ← low; mret (f a)) (b ← high; mret (g b)).
Proof.
  intros H Hn Hf. eapply sim_bind; [exact H|]. intros a b s1 [HV Hb].
  apply sim_done; [done|]. rewrite (Hf _ _ HV). split; [done|lia].
Qed.

(** A result passed on through another. *)
Lemma agrees_pass {A B B'} n V (f : A → Z * option (list Z)) (g : B → B')
    (g' : B' → Z * option (list Z)) s (low : M memory A) (high : M (net_state nova_ops) B) :
  agrees n V s low high → n ≤ 2 → (∀ a b, V a b → f a = g' (g b)) →
  agrees 2 eq s (a ← low; mret (f a)) (o ← (b ← high; mret (g b)); mret (g' o)).
Proof.
  intros H Hn Hf. apply sim_assoc_high. eapply sim_bind; [exact H|]. intros a b s1 [HV Hb].
  eapply sim_high; [done|]. apply sim_done; [done|]. rewrite (Hf _ _ HV). split; [done|lia].
Qed.

Lemma call_sim c s :
  call_typed c → call_fits c → room 2 s → agrees 2 eq s (call_bytes c) (call_words c).
Proof.
  intros Hty Hfit Hroom.
  assert (∀ a b : Z, a = b → (a, @None (list Z)) = (b, None)) as Heq by (by intros ?? ->).
  destruct c as [op|op|fd buf len| |]; cbn [call_bytes call_words call_typed call_fits] in *.
  - destruct op as [| |domain type protocol|fd|fd|fd|fd|fd|fd|fd|fd buf len|fd];
      cbn [Sockets.exec_op].
    11: { eapply sim_weaken; [apply recv_sim|]. intros a b s1 [-> Hb]. split; [done|lia]. }
    all: eapply agrees_reply; [|..|exact Heq].
    all: try first [apply network_init_sim|apply network_shutdown_sim|apply lookup_only_sim
      |apply connect_sim|by apply socket_state_sim|apply close_sim|lia].
    { destruct Hty as (? & ? & ?). apply socket_sim; [done..|].
      eapply room_le, Hroom. lia. }
    lia.
  - destruct op as [| |p|p|name]; cbn [NetDev.exec_op];
      [eapply agrees_pass; [| |exact Heq]..|eapply agrees_reply; [apply netdev_find_sim|lia|]].
    all: try first [apply network_init_sim|apply network_shutdown_sim
      |by apply netdev_register_sim|by apply netdev_unregister_sim|lia].
    by intros a b [-> _].
  - destruct Hty as (_ & Hbuf & Hlen).
    by eapply agrees_reply; [apply net_send_sim|lia|exact Heq].
  - by eapply agrees_reply; [apply loopback_init_sim|lia|exact Heq].
  - by eapply agrees_reply; [apply nic_stub_init_sim|lia|exact Heq].
Qed.

(** Each call is legal in the state in which it is made. *)
Fixpoint legal (calls : list net_call) s : Prop :=
  match calls with
  | [] => True
  | c :: calls =>
      (call_ok s c ∧ call_typed c ∧ call_fits c) ∧
      ∀ o s', call_words c s = Done (o, s') → legal calls s'
  end.

(** The result as the callers of Network.v see it: the code is the same. *)
Lemma call_words_run c r s s' :
  exec_call c s = Done (r, s') → ∃ o, call_words c s = Done (o, s').
Proof.
  destruct c as [op|[| |p|p|name]|fd buf len| |]; cbn [exec_call call_words]; intros H;
    try (by eexists; bind H).
  - apply bind_Done_inv in H as (o & s1 & H & [= _ ->]). by exists o.
  - apply bind_Done_inv in H as (o & s1 & H & [= _ ->]). eexists. by bind H.
  - apply bind_Done_inv in H as (o & s1 & H & [= _ ->]). eexists. by bind H.
  - apply bind_Done_inv in H as (o & s1 & H & [= _ ->]). eexists. by bind H.
  - apply bind_Done_inv in H as (o & s1 & H & [= _ ->]). eexists. by bind H.
  - apply bind_Done_inv in H as (o & s1 & H & [= _ ->]).
    apply bind_Done_inv in H as (p & s2 & H & [= _ ->]). eexists. by bind H.
Qed.
End simulation.

(** ** A machine to run it on *)

Definition function_index (f : driver_function) : Z :=
  match f with
  | f_lo_open => 0 | f_lo_stop => 1 | f_lo_start_xmit => 2 | f_lo_get_stats => 3
  | f_nic_open => 4 | f_nic_stop => 5 | f_nic_start_xmit => 6 | f_nic_get_stats => 7
  end.

(** The statics in one page, the code in another, a page for each object. *)
Definition flat_address (a : place) : Z :=
  match a with
  | PRegistry => 4096 | PNextFd => 4104 | PInitialized => 4108
  | POps lo_ops => 4112 | POps nic_ops => 4152 | PTable => 4352
  | PFunction f => 8192 + 16 * function_index f
  | PObject l => 65536 + 4096 * Z.of_nat l
  end.

Lemma function_index_bounds f : (0 ≤ function_index f < 8)%Z.
Proof. by destruct f. Qed.
Lemma function_index_inj : Inj (=) (=) function_index.
Proof. by intros [] []. Qed.

#[export, refine] Instance flat : NetSpace := {| net_address := flat_address |}.
Proof.
  - intros a b. pose proof function_index_bounds as Hf.
    destruct a as [| | | |[]|f|l], b as [| | | |[]|g|l']; cbn; intros E; try done;
      try (pose proof (Hf f)); try (pose proof (Hf g)); try (exfalso; lia).
    + f_equal. apply function_index_inj. lia.
    + f_equal. lia.
  - intros [| | | |[]|f|l]; cbn; try lia. pose proof (function_index_bounds f). lia.
  - intros [| | | |[]|f|l] Ha; try done; [|by destruct (Ha l)].
    pose proof (function_index_bounds f). unfold in_width. cbn. lia.
Defined.

Lemma flat_room n (s : net_state nova_ops) : (Z.of_nat (n + brk s) ≤ 2 ^ 40)%Z → room n s.
Proof. intros Hn l Hl. unfold in_width. cbn [word net_address flat flat_address]. lia. Qed.

(** The memory as the loader leaves it, and a device of a caller. *)
Definition start : net_state nova_ops := set_netdevs (<[3 := eth0]> (netdevs cold_statics)) cold_statics.
Definition start_places : list place :=
  [PRegistry; PTable; PNextFd; PInitialized; POps lo_ops; POps nic_ops;
   PObject lo_dev; PObject nic_dev; PObject 3].

Lemma start_wf : net_wf start.
Proof. apply device_wf; [apply cold_statics_wf|done]. Qed.

Lemma start_represents : represents (memory_of start start_places) start.
Proof.
  apply memory_of_represents.
  - by apply (bool_decide_unpack _).
  - intros a Ha. destruct a as [| | | |[]|f|l]; try done; try (exfalso; apply Ha; set_solver).
    cbn. unfold object_cells. cbn. rewrite !lookup_insert_ne; [done|..]; intros <-; apply Ha; set_solver.
  - intros a Ha. repeat (apply elem_of_cons in Ha as [->|Ha]); [..|by apply elem_of_nil in Ha];
      (eexists; split; [reflexivity|]); cbn [cell_type cell_val].
    + by vm_compute.
    + split; [done|]. by apply Forall_fmap, Forall_replicate.
    + by vm_compute.
    + by vm_compute.
    + by vm_compute.
    + by vm_compute.
    + apply (reads_has_type device_t _ _ eq_refl zero_device_reads).
    + apply (reads_has_type device_t _ _ eq_refl zero_device_reads).
    + repeat (split; [by repeat constructor|]). by repeat split.
  - intros n Hn. cbn in Hn. cbn. unfold object_cells. cbn. rewrite !lookup_insert_ne; [done|..]; unfold lo_dev, nic_dev; lia.
Qed.

(** A session: both drivers, the caller's device, a socket, a packet. *)
Definition session : list net_call :=
  [CallRegistry NetDev.OpInit; CallLoopbackInit; CallNicStubInit; CallRegistry (NetDev.OpRegister (Some 3));
   CallApi (OpSocket 2 1 0); CallSend 1 (Some [7; 8; 9]%Z) 3;
   CallApi (OpRecv 1 (Some [1; 2]%Z) 2); CallRegistry (NetDev.OpUnregister (Some 3));
   CallRegistry (NetDev.OpFind (Some (cstr "nic0"))); CallApi (OpClose 1)].

Lemma session_legal : legal session start.
Proof.
  repeat (split; [split_and!; cbn; try done; try (by eexists); try (by vm_compute); try (repeat constructor; by vm_compute)|
    intros o s' H; vm_compute in H; injection H as <- <-]).
  exact I.
Qed.

(** What its calls return; nova_netdev_find the address of nic_dev. *)
Example session_results :
  result_of (exec_trace call_bytes session (memory_of start start_places)) =
    Some [(0, None); (0, None); (0, None); (0, None); (1, None); (3, None); (2, Some [0; 0]);
          (0, None); (65536 + 4096 * 2, None); (0, None)]%Z.
Proof. by vm_compute. Qed.
(** * Properties *)

(** C2. The network stack works on memory as it does on records.  Take any
    memory in which the statics, the devices, the sockets, the packets and the
    data blocks of a well-formed state lie, each at an address of its own that
    the linker or the allocator chose, in the layout of the header, with pointers
    as the 64-bit addresses of what they point to and the driver tables holding
    the addresses of the drivers' functions.  Then every sequence of legal calls
    (network initialisation and shutdown, registering, unregistering and finding
    devices, the socket API, nova_send, both driver initialisations), executed
    load by load and store by store, with memset, strncpy, memcpy, calloc and
    free, and with calls through function pointers, completes without touching a
    byte outside the objects, following NULL or a freed pointer, or freeing what
    calloc did not give; it returns the same results as the functions on
    records, a pointer as its address, and leaves a memory that holds the
    well-formed state those end in.  Only the addresses of at most two new
    objects per call have to fit into 64 bits. *)
Theorem nova_net_on_bytes {space : NetSpace} (m : memory) (s : net_state nova_ops)
    (calls : list net_call) :
  represents m s → net_wf s → legal calls s → room (2 * length calls) s →
  ∃ os m' s', exec_trace call_bytes calls m = Done (os, m') ∧
    exec_trace call_words calls s = Done (os, s') ∧ represents m' s' ∧ net_wf s'.
Proof.
  revert m s. induction calls as [|c calls IH]; intros m s Hr Hwf Hleg Hroom.
  { by exists [], m, s. }
  destruct Hleg as [(Hok & Hty & Hfit) Hleg].
  destruct (call_wf c s Hwf Hok) as (r & s1 & Hrun & Hwf1).
  destruct (call_words_run c r s s1 Hrun) as [o Ho].
  assert (room 2 s) as Hroom2 by (eapply room_le, Hroom; cbn; lia).
  destruct (call_sim c s Hty Hfit Hroom2 m o s1 Hr Ho) as (o' & m1 & Hlow & Hr1 & -> & Hb).
  destruct (IH m1 s1 Hr1 Hwf1 (Hleg _ _ Ho)) as (os & m' & s' & Hl & Hh & Hr' & Hwf').
  { intros l Hl. apply Hroom. cbn. lia. }
  exists (o :: os), m', s'. cbn [exec_trace]. bind Hlow. bind Ho. bind Hl. by bind Hh.
Qed.

Lemma nova_net_on_bytes_witness :
  ∃ os m' s', exec_trace call_bytes session (memory_of start start_places) = Done (os, m') ∧
    exec_trace call_words session start = Done (os, s') ∧ represents m' s' ∧ net_wf s'.
Proof.
  apply nova_net_on_bytes; [exact start_represents|exact start_wf|exact session_legal|].
  by apply flat_room.
Defined.
End NetSim.
