(* ===== verification/SpinLock.v ===== *)
(** * The registry spinlock under concurrency (lock_registry, unlock_registry
      of kernel/io/io_stack.c)

    IoRegistry.v runs one call at a time.  Here any number of threads run the
    lock's two functions interleaved: [__sync_lock_test_and_set] is one atomic
    step, and so is [__sync_lock_release]. *)

From S2P Require Import Prelude.

Module SpinLock.

(** Where a thread is: outside, in the loop of lock_registry, or between
    lock_registry and unlock_registry. *)
Inductive place : Type := Outside | Spinning | Inside.

Record lock_state : Type := LockState {
  g_registry_lock : Z;
  threads : list place;
}.

(** The value stored, and the place after the test of the value read. *)
Definition test_and_set (old : Z) : Z * place :=
  (1%Z, if decide (old ≠ 0)%Z then Spinning else Inside).

Inductive lock_step (s : lock_state) : lock_state → Prop :=
  | step_call i :
      threads s !! i = Some Outside →
      lock_step s (LockState (g_registry_lock s) (<[i := Spinning]> (threads s)))
  | step_test_and_set i :
      threads s !! i = Some Spinning →
      lock_step s (LockState (test_and_set (g_registry_lock s)).1
        (<[i := (test_and_set (g_registry_lock s)).2]> (threads s)))
  | step_release i :
      threads s !! i = Some Inside →
      lock_step s (LockState 0 (<[i := Outside]> (threads s))).

(** [n] threads before any call. *)
Definition unlocked (n : nat) : lock_state := LockState 0 (replicate n Outside).

(** The lock is 0 or 1; it is 1 exactly while somebody is inside, alone. *)
Record lock_inv (s : lock_state) : Prop := {
  inv_free : g_registry_lock s = 0%Z → ∀ i, threads s !! i ≠ Some Inside;
  inv_held : g_registry_lock s ≠ 0%Z → ∃ i, threads s !! i = Some Inside;
  inv_alone : ∀ i j, threads s !! i = Some Inside → threads s !! j = Some Inside → i = j;
}.

Lemma unlocked_inv n : lock_inv (unlocked n).
Proof.
  assert (∀ i, threads (unlocked n) !! i ≠ Some Inside) as Hno
    by (intros i [? _]%lookup_replicate; done).
  split; [done|done|]. intros i j Hi. by destruct (Hno i).
Qed.

(** A thread that stays out of the critical section moves. *)
Lemma move_inv s i a b :
  lock_inv s → threads s !! i = Some a → a ≠ Inside → b ≠ Inside →
  lock_inv (LockState (g_registry_lock s) (<[i := b]> (threads s))).
Proof.
  intros [Hf Hh Ha] Hi Hai Hbi.
  assert (∀ j, <[i := b]> (threads s) !! j = Some Inside ↔ threads s !! j = Some Inside) as Hsame.
  { intros j. destruct (decide (i = j)) as [<-|Hne]; [|by rewrite list_lookup_insert_ne].
    rewrite list_lookup_insert_eq by (by eapply lookup_lt_Some). rewrite Hi. naive_solver. }
  split; cbn.
  - intros H0 j. rewrite Hsame. by apply Hf.
  - intros H0. destruct (Hh H0) as [j Hj]. exists j. by rewrite Hsame.
  - intros j k. rewrite !Hsame. apply Ha.
Qed.

Lemma lock_step_inv s s' : lock_inv s → lock_step s s' → lock_inv s'.
Proof.
  intros Hinv [i Hi|i Hi|i Hi]; [by eapply move_inv| |].
  - unfold test_and_set. cbn [fst snd]. destruct (decide (g_registry_lock s ≠ 0%Z)) as [Hne|He].
    + pose proof (move_inv s i Spinning Spinning Hinv Hi) as [Hf Hh Ha]; [done|done|].
      split; cbn in *; [done|by intros _; apply Hh|done].
    + assert (g_registry_lock s = 0%Z) as H0 by lia. destruct Hinv as [Hf _ _].
      pose proof (lookup_lt_Some _ _ _ Hi) as Hlt. split; cbn; [done| |].
      * intros _. exists i. by rewrite list_lookup_insert_eq.
      * intros j k [(-> & _)|[_ Hj]]%list_lookup_insert_Some; [|by destruct (Hf H0 j)].
        intros [(-> & _)|[_ Hk]]%list_lookup_insert_Some; [done|by destruct (Hf H0 k)].
  - destruct Hinv as [_ _ Ha]. assert (∀ j, <[i := Outside]> (threads s) !! j ≠ Some Inside) as Hno.
    { intros j [(_ & [=] & _)|[Hne Hj]]%list_lookup_insert_Some. by apply Hne, Ha. }
    split; cbn; [done|done|]. intros j k Hj. by destruct (Hno j).
Qed.

(** The registry lock excludes: whatever the interleaving of any number of
    threads, at most one is between lock_registry and unlock_registry; the lock
    is never held by nobody, so a spinning thread enters at its next step
    whenever no thread is inside. *)
Theorem lock_registry_excludes (n : nat) (s : lock_state) :
  rtc lock_step (unlocked n) s →
  (∀ i j, threads s !! i = Some Inside → threads s !! j = Some Inside → i = j) ∧
  (∀ i, threads s !! i = Some Spinning → (∀ j, threads s !! j ≠ Some Inside) →
     lock_step s (LockState 1 (<[i := Inside]> (threads s)))).
Proof.
  intros Hs. destruct (rtc_invariant _ _ lock_step_inv _ _ Hs (unlocked_inv n)) as [Hf Hh Ha].
  split; [exact Ha|]. intros i Hi Hno.
  destruct (decide (g_registry_lock s = 0%Z)) as [H0|H0].
  - pose proof (step_test_and_set s i Hi) as Hstep. by rewrite H0 in Hstep.
  - destruct (Hh H0) as [j Hj]. by destruct (Hno j).
Qed.

Lemma lock_registry_excludes_witness :
  let s := LockState 1 [Inside; Spinning] in
  rtc lock_step (unlocked 2) s ∧
  (∀ i j, threads s !! i = Some Inside → threads s !! j = Some Inside → i = j) ∧
  (∀ i, threads s !! i = Some Spinning → (∀ j, threads s !! j ≠ Some Inside) →
     lock_step s (LockState 1 (<[i := Inside]> (threads s)))).
Proof.
  assert (rtc lock_step (unlocked 2) (LockState 1 [Inside; Spinning])) as H.
  { eapply rtc_l; [exact (step_call (unlocked 2) 0 eq_refl)|].
    eapply rtc_l; [exact (step_call (LockState 0 [Spinning; Outside]) 1 eq_refl)|].
    exact (rtc_once _ _ (step_test_and_set (LockState 0 [Spinning; Spinning]) 0 eq_refl)). }
  split; [exact H|]. exact (lock_registry_excludes 2 _ H).
Defined.
End SpinLock.
