(* ===== verification/IoRegistry.v ===== *)
(** * The device registry of the I/O stack
      (kernel/io/io_stack.h and the first part of io_stack.c)

    A linked list of caller-owned devices with back pointers, guarded by a
    spinlock.  Its operations refine a list of devices as long as no device is
    registered while it is in the list.  The registry does not check that: what
    a second registration leads to is shown too.

    io_stack.c assigns a field [prev] that struct nova_device does not declare;
    it is modelled as a pointer field like [next]. *)

From S2P Require Import Prelude CString LinkedList.

Module IoRegistry.

(** enum nova_io_type, nova_io_status and nova_device_type: only their values
    are compared or stored. *)
Definition NOVA_IO_READ : Z := 1.
Definition NOVA_IO_WRITE : Z := 2.
Definition NOVA_IO_PENDING : Z := 0.
Definition NOVA_IO_SUCCESS : Z := 1.
Definition NOVA_IO_ERROR : Z := -1.
Definition NOVA_IO_CANCELLED : Z := -2.
Definition NOVA_DEVICE_BLOCK : Z := 1.
Definition NOVA_DEVICE_CHAR : Z := 2.

(** What the pointer in the union of a device may lead to: a table of one of the
    five kinds, named after the members of the union.  Only tables of block
    devices are called, and [O] says what lies in them. *)
Inductive ops_table (O : Type) : Type :=
  | char_ops
  | block_ops (table : O)
  | net_ops
  | fb_ops
  | input_ops.
Arguments char_ops {O}.
Arguments block_ops {O} table.
Arguments net_ops {O}.
Arguments fb_ops {O}.
Arguments input_ops {O}.

(** [dev_ops]: the union of pointers to operation tables, NULL or a table.
    [from_malloc] is not a member: it says where the object lies, in a block of
    its own from malloc or calloc, which free may take, or elsewhere (a static
    or local variable, a part of a larger structure), where it may not. *)
Record nova_device (O : Type) : Type := Device {
  name : list Z;
  path : list Z;
  dev_type : Z;
  major : Z;
  minor : Z;
  ref_count : Z;
  dev_flags : Z;
  private_data : option loc;
  dev_ops : option (ops_table O);
  next : option loc;
  prev : option loc;
  parent : option loc;
  from_malloc : bool;
}.
Arguments Device {O}.
Arguments name {O}.
Arguments path {O}.
Arguments dev_type {O}.
Arguments major {O}.
Arguments minor {O}.
Arguments ref_count {O}.
Arguments dev_flags {O}.
Arguments private_data {O}.
Arguments dev_ops {O}.
Arguments next {O}.
Arguments prev {O}.
Arguments parent {O}.
Arguments from_malloc {O}.

(** The callback, its context and the completion are addresses no code here
    follows. *)
Record nova_io_request : Type := Request {
  req_type : Z;
  status : Z;
  req_device : option loc;
  offset : Z;
  buffer : option loc;
  req_length : Z;
  req_flags : Z;
  timeout_ms : Z;
  callback : option loc;
  callback_ctx : option loc;
  completion : option loc;
  error_code : Z;
}.

Record nova_io_completion_port : Type := Port {
  queue : option loc;
  max_events : Z;
  port_timeout_ms : Z;
}.

(** The statics of io_stack.c and the heaps its pointers reach: devices, wherever
    they lie, and the requests and ports that calloc made; [io_callocs]: whether the allocations to come succeed. *)
Record io_state (O : Type) : Type := IoState {
  g_device_registry : option loc;
  g_next_major : Z;
  g_io_initialized : Z;
  g_registry_lock : Z;
  devices : gmap loc (nova_device O);
  requests : gmap loc nova_io_request;
  ports : gmap loc nova_io_completion_port;
  io_brk : loc;
  io_callocs : list bool;
}.
Arguments IoState {O}.
Arguments g_device_registry {O}.
Arguments g_next_major {O}.
Arguments g_io_initialized {O}.
Arguments g_registry_lock {O}.
Arguments devices {O}.
Arguments requests {O}.
Arguments ports {O}.
Arguments io_brk {O}.
Arguments io_callocs {O}.

#[export] Instance device_linked {O} : Linked (nova_device O) := {|
  node_next := next;
  set_node_next p d := Device (name d) (path d) (dev_type d) (major d) (minor d)
    (ref_count d) (dev_flags d) (private_data d) (dev_ops d) p (prev d) (parent d) (from_malloc d);
  node_next_set p d := eq_refl;
|}.

Section registry.
Context {O : Type}.
Implicit Types (s : io_state O) (d : nova_device O).

Definition set_prev (p : option loc) d : nova_device O :=
  Device (name d) (path d) (dev_type d) (major d) (minor d)
    (ref_count d) (dev_flags d) (private_data d) (dev_ops d) (next d) p (parent d) (from_malloc d).
Definition set_major (z : Z) d : nova_device O :=
  Device (name d) (path d) (dev_type d) z (minor d)
    (ref_count d) (dev_flags d) (private_data d) (dev_ops d) (next d) (prev d) (parent d) (from_malloc d).

Definition set_registry (p : option loc) s : io_state O :=
  IoState p (g_next_major s) (g_io_initialized s) (g_registry_lock s) (devices s)
    (requests s) (ports s) (io_brk s) (io_callocs s).
Definition set_next_major (z : Z) s : io_state O :=
  IoState (g_device_registry s) z (g_io_initialized s) (g_registry_lock s) (devices s)
    (requests s) (ports s) (io_brk s) (io_callocs s).
Definition set_initialized (z : Z) s : io_state O :=
  IoState (g_device_registry s) (g_next_major s) z (g_registry_lock s) (devices s)
    (requests s) (ports s) (io_brk s) (io_callocs s).
Definition set_lock (z : Z) s : io_state O :=
  IoState (g_device_registry s) (g_next_major s) (g_io_initialized s) z (devices s)
    (requests s) (ports s) (io_brk s) (io_callocs s).
Definition set_devices (h : gmap loc (nova_device O)) s : io_state O :=
  IoState (g_device_registry s) (g_next_major s) (g_io_initialized s) (g_registry_lock s) h
    (requests s) (ports s) (io_brk s) (io_callocs s).

Definition get_device (l : loc) : M (io_state O) (nova_device O) :=
  s ← gets (λ s, s); the (devices s !! l).
Definition put_device (l : loc) d : M (io_state O) unit :=
  get_device l;; modify (λ s, set_devices (<[l := d]> (devices s)) s).
(** free: of a live object that malloc or calloc returned. *)
Definition free_device (l : loc) : M (io_state O) unit :=
  d ← get_device l;
  if from_malloc d then modify (λ s, set_devices (delete l (devices s)) s) else undef.
Definition get_next (l : loc) : M (io_state O) (option loc) :=
  d ← get_device l; mret (next d).

(** ** The lock *)

(** __sync_lock_test_and_set: the old value. *)
Definition test_and_set : M (io_state O) Z :=
  s ← gets (λ s, s); modify (set_lock 1);; mret (g_registry_lock s).

(** The spin loop.  Within one call of the registry nobody else runs: a lock
    that is taken stays taken. *)
Fixpoint spin (fuel : nat) : M (io_state O) unit :=
  match fuel with
  | 0 => no_fuel
  | S fuel => old ← test_and_set; if decide (old = 0)%Z then mret tt else spin fuel
  end.

Definition lock_registry : M (io_state O) unit := spin 1.
Definition unlock_registry : M (io_state O) unit := modify (set_lock 0).

(** ** The operations *)

Definition registry_fuel s : nat := S (size (devices s)).

Definition nova_io_init : M (io_state O) Z :=
  s ← gets (λ s, s);
  if decide (g_io_initialized s ≠ 0)%Z then mret 0%Z
  else
    modify (set_registry None);;
    modify (set_next_major 1);;
    modify (set_initialized 1);;
    mret 0%Z.

(** [next = dev->next; free(dev); dev = next;] until NULL. *)
Fixpoint free_all (fuel : nat) (dev : option loc) : M (io_state O) unit :=
  match dev with
  | None => mret tt
  | Some l =>
      match fuel with
      | 0 => no_fuel
      | S fuel => d ← get_device l; free_device l;; free_all fuel (next d)
      end
  end.

Definition nova_io_shutdown : M (io_state O) Z :=
  s ← gets (λ s, s);
  if decide (g_io_initialized s = 0)%Z then mret 0%Z
  else
    lock_registry;;
    free_all (registry_fuel s) (g_device_registry s);;
    modify (set_registry None);;
    unlock_registry;;
    modify (set_initialized 0);;
    mret 0%Z.

(** [if (dev->major == 0) dev->major = g_next_major++;] *)
Definition number_device (l : loc) d : M (io_state O) unit :=
  if decide (major d = 0)%Z then
    s ← gets (λ s, s);
    put_device l (set_major (g_next_major s) d);;
    modify (set_next_major (u32 (g_next_major s + 1)))
  else mret tt.

Definition nova_device_register (dev : option loc) : M (io_state O) Z :=
  match dev with
  | None => mret (-1)%Z
  | Some l =>
      d ← get_device l;
      c ← the (name d !! 0);
      if decide (c = 0)%Z then mret (-1)%Z
      else
        lock_registry;;
        d ← get_device l;
        number_device l d;;
        d ← get_device l;
        s ← gets (λ s, s);
        put_device l (set_node_next (g_device_registry s) d);;
        match g_device_registry s with
        | None => mret tt
        | Some h => d ← get_device h; put_device h (set_prev (Some l) d)
        end;;
        modify (set_registry (Some l));;
        unlock_registry;;
        mret 0%Z
  end.

(** [if (prev != NULL) prev->next = next; else g_device_registry = next;] *)
Definition unlink_next (prv nxt : option loc) : M (io_state O) unit :=
  match prv with
  | Some p => d ← get_device p; put_device p (set_node_next nxt d)
  | None => modify (set_registry nxt)
  end.

(** [if (next != NULL) next->prev = prev;] *)
Definition unlink_prev (nxt prv : option loc) : M (io_state O) unit :=
  match nxt with
  | None => mret tt
  | Some n => d ← get_device n; put_device n (set_prev prv d)
  end.

(** The body of the loop of nova_device_unregister. *)
Definition unregister_step (l : loc) (prv : option loc) (curr : loc)
    : M (io_state O) (Z + option loc) :=
  if decide (curr = l) then
    c ← get_device curr;
    unlink_next prv (next c);;
    c ← get_device curr;
    unlink_prev (next c) prv;;
    unlock_registry;;
    mret (inl 0%Z)
  else mret (inr (Some curr)).

Definition nova_device_unregister (dev : option loc) : M (io_state O) Z :=
  match dev with
  | None => mret (-1)%Z
  | Some l =>
      lock_registry;;
      s ← gets (λ s, s);
      found ← walk get_next (registry_fuel s) (g_device_registry s) None (unregister_step l);
      match found with
      | inl r => mret r
      | inr _ => unlock_registry;; mret (-1)%Z
      end
  end.

(** The loop the two searches share: return the first device [test] accepts. *)
Definition search_step (test : nova_device O → option bool) (_ : unit) (l : loc)
    : M (io_state O) (loc + unit) :=
  d ← get_device l;
  hit ← the (test d);
  if (hit : bool) then unlock_registry;; mret (inl l) else mret (inr tt).

Definition search (test : nova_device O → option bool) : M (io_state O) (option loc) :=
  lock_registry;;
  s ← gets (λ s, s);
  found ← walk get_next (registry_fuel s) (g_device_registry s) tt (search_step test);
  match found with
  | inl l => mret (Some l)
  | inr _ => unlock_registry;; mret None
  end.

Definition nova_device_find (p : option (list Z)) : M (io_state O) (option loc) :=
  match p with
  | None => mret None
  | Some p => search (λ d, strcmp_eq (path d) p)
  end.

Definition nova_device_get_by_major_minor (mj mn : Z) : M (io_state O) (option loc) :=
  search (λ d, Some (bool_decide (major d = mj ∧ minor d = mn))).
End registry.

(** ** Steps *)

Section steps.
Context {O : Type}.
Implicit Types (s : io_state O) (d : nova_device O) (h : gmap loc (nova_device O)).

Lemma get_device_run l d s : devices s !! l = Some d → get_device l s = Done (d, s).
Proof. intros H. unfold get_device. run. by apply the_Some. Qed.

Lemma put_device_run l d d' s :
  devices s !! l = Some d →
  put_device l d' s = Done (tt, set_devices (<[l := d']> (devices s)) s).
Proof. intros H. unfold put_device. by bind (get_device_run _ _ _ H). Qed.

Lemma io_get_next_run l d s : devices s !! l = Some d → get_next l s = Done (node_next d, s).
Proof. intros H. unfold get_next. by bind (get_device_run _ _ _ H). Qed.

Lemma lock_registry_run s : g_registry_lock s = 0%Z → lock_registry s = Done (tt, set_lock 1 s).
Proof.
  intros H. unfold lock_registry. cbn [spin]. unfold test_and_set. run.
  by rewrite H, decide_True.
Qed.

(** A lock that is held is never acquired. *)
Lemma spin_held fuel s : g_registry_lock s = 1%Z → spin fuel s = NoFuel.
Proof.
  revert s. induction fuel as [|fuel IH]; intros s H; [done|].
  cbn [spin]. unfold test_and_set. run. rewrite H, decide_False by done. by apply IH.
Qed.

Lemma io_registry_fuel_enough s p ls : chain (devices s) p ls → length ls < registry_fuel s.
Proof. intros H%chain_size. unfold registry_fuel. lia. Qed.

(** ** Back pointers *)

(** The devices of [ls], which follow [a], point back to the one before. *)
Fixpoint back_ok h (a : loc) (ls : list loc) : Prop :=
  match ls with
  | [] => True
  | b :: ls => prev <$> h !! b = Some (Some a) ∧ back_ok h b ls
  end.

Definition backs h (ls : list loc) : Prop :=
  match ls with [] => True | a :: ls => back_ok h a ls end.

Lemma back_ok_frame h h' a ls :
  (∀ l, l ∈ ls → prev <$> h' !! l = prev <$> h !! l) → back_ok h a ls → back_ok h' a ls.
Proof.
  revert a. induction ls as [|b ls IH]; intros a Hf; [done|].
  intros [Hb Hls]. split; [rewrite Hf; [done|by constructor]|].
  apply IH; [|done]. intros l Hl. apply Hf. by constructor.
Qed.

Lemma back_ok_app h a ls1 b ls2 :
  back_ok h a (ls1 ++ b :: ls2) ↔
  back_ok h a ls1 ∧ prev <$> h !! b = Some (last (a :: ls1)) ∧ back_ok h b ls2.
Proof.
  revert a. induction ls1 as [|c ls1 IH]; intros a; cbn [app back_ok]; [cbn; tauto|].
  rewrite IH. change (last (a :: c :: ls1)) with (last (c :: ls1)). tauto.
Qed.

(** A device overwritten with one that has the same back pointer. *)
Lemma prev_insert_same h l d d' l' :
  h !! l = Some d → prev d' = prev d → prev <$> <[l := d']> h !! l' = prev <$> h !! l'.
Proof.
  intros Hl Hp. rewrite lookup_insert. destruct (decide (l = l')) as [<-|]; [|done].
  by rewrite Hl; cbn; rewrite Hp.
Qed.

(** ** What the registry can see of a device *)

Record dev_view : Type := DevView {
  v_first : option Z;
  v_path : option (list Z);
  v_major : Z;
  v_minor : Z;
  v_malloc : bool;
}.

Definition view d : dev_view := DevView (name d !! 0) (c_string (path d)) (major d) (minor d) (from_malloc d).

Lemma view_insert h l d d' :
  h !! l = Some d → view d' = view d → view <$> <[l := d']> h = view <$> h.
Proof.
  intros Hl Hv. rewrite fmap_insert, Hv. apply insert_id. by rewrite lookup_fmap, Hl.
Qed.

(** ** The specification: a list of devices and the majors given out *)

Record registry : Type := Reg {
  started : bool;
  next_major : Z;
  reg : list loc;
  devs : gmap loc dev_view;
}.

Definition spec_major (v : dev_view) (q : registry) : dev_view :=
  if decide (v_major v = 0)%Z
  then DevView (v_first v) (v_path v) (next_major q) (v_minor v) (v_malloc v) else v.

Definition spec_register (l : loc) (v : dev_view) (q : registry) : Z * registry :=
  if decide (v_first v = Some 0%Z) then ((-1)%Z, q)
  else (0%Z, Reg (started q)
    (if decide (v_major v = 0)%Z then u32 (next_major q + 1) else next_major q)
    (l :: reg q) (<[l := spec_major v q]> (devs q))).

Definition spec_search (P : dev_view → bool) (q : registry) : option loc :=
  snd <$> list_find (λ l, (P <$> devs q !! l) = Some true) (reg q).

Inductive io_op : Type :=
  | OpInit | OpShutdown
  | OpRegister (dev : option loc)
  | OpUnregister (dev : option loc)
  | OpFind (path : option (list Z))
  | OpGet (major minor : Z).

(** The return code and the device found. *)
Abbreviation observation := (Z * option loc)%type.

Definition exec_op (op : io_op) : M (io_state O) observation :=
  match op with
  | OpInit => r ← nova_io_init; mret (r, None)
  | OpShutdown => r ← nova_io_shutdown; mret (r, None)
  | OpRegister dev => r ← nova_device_register dev; mret (r, None)
  | OpUnregister dev => r ← nova_device_unregister dev; mret (r, None)
  | OpFind p => l ← nova_device_find p; mret (0%Z, l)
  | OpGet mj mn => l ← nova_device_get_by_major_minor mj mn; mret (0%Z, l)
  end.

Definition has_path (p : list Z) (v : dev_view) : bool :=
  bool_decide (v_path v = c_string p).
Definition has_numbers (mj mn : Z) (v : dev_view) : bool :=
  bool_decide (v_major v = mj ∧ v_minor v = mn).

Definition spec_op (op : io_op) (q : registry) : observation * registry :=
  match op with
  | OpInit => ((0%Z, None), if started q then q else Reg true 1 [] (devs q))
  | OpShutdown =>
      ((0%Z, None), if started q
        then Reg false (next_major q) [] (foldr delete (devs q) (reg q)) else q)
  | OpRegister None | OpUnregister None => (((-1)%Z, None), q)
  | OpRegister (Some l) =>
      match devs q !! l with
      | Some v => let '(r, q) := spec_register l v q in ((r, None), q)
      | None => (((-1)%Z, None), q)
      end
  | OpUnregister (Some l) =>
      if decide (l ∈ reg q)
      then ((0%Z, None), Reg (started q) (next_major q) (filter (λ l', l' ≠ l) (reg q)) (devs q))
      else (((-1)%Z, None), q)
  | OpFind None => ((0%Z, None), q)
  | OpFind (Some p) => ((0%Z, spec_search (has_path p) q), q)
  | OpGet mj mn => ((0%Z, spec_search (has_numbers mj mn) q), q)
  end.

(** All registered devices lie in blocks of their own. *)
Definition all_malloc (q : registry) : Prop :=
  Forall (λ l, v_malloc <$> devs q !! l = Some true) (reg q).

#[export] Instance all_malloc_dec q : Decision (all_malloc q).
Proof. unfold all_malloc. apply _. Defined.

(** The callers' part: a device to register exists, with a terminated path, and
    is not in the list; when the stack is shut down, the devices in the list are
    ones that free may take. *)
Definition op_ok (q : registry) (op : io_op) : Prop :=
  match op with
  | OpShutdown => started q = true → all_malloc q
  | OpRegister (Some l) => (l ∉ reg q) ∧
      ∃ v, devs q !! l = Some v ∧ is_Some (v_first v) ∧ is_Some (v_path v)
  | OpFind (Some p) => is_Some (c_string p)
  | _ => True
  end.

Fixpoint trace_ok (ops : list io_op) (q : registry) : Prop :=
  match ops with
  | [] => True
  | op :: ops => op_ok q op ∧ trace_ok ops (spec_op op q).2
  end.

Record holds s (q : registry) : Prop := {
  holds_started : started q = bool_decide (g_io_initialized s ≠ 0%Z);
  holds_major : next_major q = g_next_major s;
  holds_chain : chain (devices s) (g_device_registry s) (reg q);
  holds_backs : backs (devices s) (reg q);
  holds_devs : devs q = (view <$> devices s);
  holds_paths : ∀ l, l ∈ reg q → ∃ v, devs q !! l = Some v ∧ is_Some (v_path v);
  holds_lock : g_registry_lock s = 0%Z;
}.

(** ** Searching *)

Lemma search_run (test : nova_device O → option bool) (P : dev_view → bool) s q :
  holds s q →
  (∀ l d, l ∈ reg q → devices s !! l = Some d → test d = Some (P (view d))) →
  search test s = Done (spec_search P q, s).
Proof.
  intros Hh Ht. unfold search. bind (lock_registry_run s (holds_lock _ _ Hh)). run.
  pose proof (holds_chain _ _ Hh) as Hc. set (s1 := set_lock 1 s).
  assert (∀ l, l ∈ reg q → ∃ d, devices s1 !! l = Some d ∧ devs q !! l = Some (view d) ∧
    test d = Some (P (view d))) as Hdev.
  { intros l Hl. destruct (chain_lookup _ _ _ _ Hc Hl) as [d Hd]. exists d.
    split; [done|]. rewrite (holds_devs _ _ Hh), lookup_fmap, Hd. split; [done|by apply (Ht l)]. }
  assert (walk get_next (registry_fuel s1) (g_device_registry s1) tt (search_step test) s1 =
    match list_find (λ l, (P <$> devs q !! l) = Some true) (reg q) with
    | Some (_, l) => search_step test tt l s1
    | None => Done (inr tt, s1)
    end) as Hw.
  { apply (walk_first devices get_next io_get_next_run); [exact Hc|
      by eapply io_registry_fuel_enough| |]; intros l Hl HP;
      destruct (Hdev l Hl) as (d & Hd & Hv & Htd); unfold search_step;
      bind (get_device_run _ _ _ Hd); bind (the_Some _ _ _ Htd);
      rewrite Hv in HP; cbn in HP.
    - destruct (P (view d)); [done|]. done.
    - injection HP as ->. run. by eexists _, _. }
  unfold spec_search. destruct (list_find _ (reg q)) as [[i l]|] eqn:Hf.
  - apply list_find_Some in Hf as (Hl & HP & _). apply list_elem_of_lookup_2 in Hl.
    destruct (Hdev l Hl) as (d & Hd & Hv & Htd). rewrite Hv in HP. injection HP as HP.
    bind by (rewrite Hw; unfold search_step; bind (get_device_run _ _ _ Hd);
      bind (the_Some _ _ _ Htd); rewrite HP; done).
    destruct Hh. destruct s. cbn in *. by subst.
  - bind Hw. unfold unlock_registry. run. destruct Hh. destruct s. cbn in *. by subst.
Qed.

(** ** Registering *)

Lemma holds_device s q l v :
  holds s q → devs q !! l = Some v → ∃ d, devices s !! l = Some d ∧ v = view d.
Proof.
  intros Hh Hv. rewrite (holds_devs _ _ Hh), lookup_fmap in Hv.
  apply fmap_Some in Hv as (d & Hd & ->). by exists d.
Qed.

(** The next major number goes to a device without one. *)
Definition numbered d s : nova_device O :=
  if decide (major d = 0)%Z then set_major (g_next_major s) d else d.
Definition next_number d s : Z :=
  if decide (major d = 0)%Z then u32 (g_next_major s + 1) else g_next_major s.

Lemma number_device_run l d s :
  devices s !! l = Some d →
  number_device l d s = Done (tt, set_next_major (next_number d s)
    (set_devices (<[l := numbered d s]> (devices s)) s)).
Proof.
  intros Hd. unfold number_device, numbered, next_number. case_decide; run.
  - by bind (put_device_run _ _ _ _ Hd).
  - rewrite insert_id by done. by destruct s.
Qed.

(** Linking a device that is not in the list: heap [h] before, [h'] after. *)
Lemma link_backs h l hd ls d dh :
  l ∉ hd :: ls → chain h (Some hd) (hd :: ls) → backs h (hd :: ls) →
  backs (<[hd := set_prev (Some l) dh]> (<[l := set_node_next (Some hd) d]> h)) (l :: hd :: ls).
Proof.
  intros Hl Hc Hb. apply not_elem_of_cons in Hl as [Hlh Hl].
  pose proof (chain_NoDup _ _ _ Hc) as [Hhd _]%NoDup_cons. split.
  - by rewrite lookup_insert_eq.
  - apply (back_ok_frame h); [|exact Hb]. intros l' Hl'.
    by rewrite !lookup_insert_ne by congruence.
Qed.

(** The state after a registration. *)
Definition registered (l : loc) d s : io_state O :=
  let linked := <[l := set_node_next (g_device_registry s) (numbered d s)]> (devices s) in
  let h := match g_device_registry s with
           | None => linked
           | Some hd => match linked !! hd with
                        | Some dh => <[hd := set_prev (Some l) dh]> linked
                        | None => linked
                        end
           end in
  set_registry (Some l) (set_next_major (next_number d s) (set_devices h s)).

Lemma nova_device_register_run l d c s :
  devices s !! l = Some d → name d !! 0 = Some c → c ≠ 0%Z → g_registry_lock s = 0%Z →
  (∀ hd, g_device_registry s = Some hd → is_Some (devices s !! hd)) →
  nova_device_register (Some l) s = Done (0%Z, registered l d s).
Proof.
  intros Hd Hc Hne Hlock Hhd. unfold nova_device_register.
  bind (get_device_run _ _ _ Hd). bind (the_Some _ _ _ Hc). rewrite decide_False by done.
  bind (lock_registry_run s Hlock). set (s1 := set_lock 1 s).
  assert (devices s1 !! l = Some d) as Hd1 by done.
  bind (get_device_run _ _ _ Hd1). bind (number_device_run _ _ _ Hd1).
  set (s2 := set_next_major _ _).
  assert (devices s2 !! l = Some (numbered d s)) as Hd2 by apply lookup_insert_eq.
  bind (get_device_run _ _ _ Hd2). run. bind (put_device_run _ _ _ _ Hd2).
  change (g_device_registry s2) with (g_device_registry s). unfold registered.
  destruct (g_device_registry s) as [hd|] eqn:Hreg.
  - set (linked := <[l := _]> (devices s)).
    replace (set_devices _ s2) with (set_devices linked s2)
      by (unfold s2, set_devices; cbn; by rewrite insert_insert_eq).
    destruct (linked !! hd) as [dh|] eqn:Hdh.
    + run. bind (get_device_run hd dh (set_devices linked s2) Hdh).
      bind (put_device_run hd dh (set_prev (Some l) dh) (set_devices linked s2) Hdh).
      unfold unlock_registry. run. by destruct s; cbn in *; subst.
    + exfalso. destruct (Hhd hd eq_refl) as [dh Hdh']. unfold linked in Hdh.
      rewrite lookup_insert in Hdh. by case_decide; simplify_eq.
  - unfold unlock_registry. run. unfold s2, s1, set_devices. cbn.
    rewrite insert_insert_eq. destruct s; cbn in *; by subst.
Qed.

Lemma view_numbered d s q :
  holds s q → view (numbered d s) = spec_major (view d) q.
Proof.
  intros Hh. unfold numbered, spec_major. cbn. rewrite (holds_major _ _ Hh).
  by case_decide.
Qed.

(** Chain, back pointers and views after linking [l] in front. *)
Lemma registered_heap l d s ls :
  chain (devices s) (g_device_registry s) ls → backs (devices s) ls → l ∉ ls →
  devices s !! l = Some d →
  chain (devices (registered l d s)) (Some l) (l :: ls) ∧
  backs (devices (registered l d s)) (l :: ls) ∧
  view <$> devices (registered l d s) = <[l := view (numbered d s)]> (view <$> devices s).
Proof.
  intros Hc Hb Hl Hd. unfold registered. cbn [devices set_registry set_next_major set_devices].
  pose proof (chain_push _ _ _ l (numbered d s) Hl Hc) as Hpush.
  set (linked := <[l := _]> (devices s)) in *.
  assert (view <$> linked = <[l := view (numbered d s)]> (view <$> devices s)) as Hv
    by (unfold linked; by rewrite fmap_insert).
  destruct ls as [|hd ls].
  - cbn in Hc. rewrite Hc. done.
  - pose proof Hc as [Hreg (dh & Hdh & _)]. rewrite Hreg.
    assert (linked !! hd = Some dh) as Hdh'
      by (unfold linked; rewrite lookup_insert_ne; [done|intros ->; apply Hl; constructor]).
    rewrite Hdh'. split_and!.
    + eapply chain_insert_same; [exact Hdh'|done|exact Hpush].
    + rewrite Hreg in Hc. unfold linked. rewrite Hreg. by apply link_backs.
    + rewrite <-Hv. by apply (view_insert _ _ dh).
Qed.

Lemma io_register_refines l s q :
  holds s q → op_ok q (OpRegister (Some l)) →
  ∃ o s' q', exec_op (OpRegister (Some l)) s = Done (o, s') ∧
    spec_op (OpRegister (Some l)) q = (o, q') ∧ holds s' q'.
Proof.
  intros Hh (Hl & v & Hv & [c Hc] & Hp). destruct (holds_device _ _ _ _ Hh Hv) as (d & Hd & ->).
  cbn [exec_op spec_op]. rewrite Hv. unfold spec_register. cbn [v_first view] in *.
  destruct (decide (c = 0%Z)) as [->|Hne].
  { rewrite decide_True by done. unfold nova_device_register. run.
    bind (get_device_run _ _ _ Hd). bind (the_Some _ _ _ Hc). rewrite decide_True by done.
    run. by eexists _, _, _. }
  rewrite decide_False by congruence. pose proof Hh as [Hst Hmj Hch Hb Hdv Hpa Hlk].
  bind by (apply (nova_device_register_run l d c); [done|done|done|done|];
    intros hd Hreg; rewrite Hreg in Hch; by eapply chain_head). run.
  destruct (registered_heap l d s (reg q) Hch Hb Hl Hd) as (Hch' & Hb' & Hv').
  eexists _, _, _. split; [done|]. split; [done|]. split; cbn [started next_major reg devs];
    [done| |exact Hch'|exact Hb'| | |exact Hlk].
  - unfold registered, next_number. cbn. by rewrite Hmj.
  - rewrite Hv', <-(view_numbered d s q Hh), Hdv. done.
  - intros l' [->|Hl']%elem_of_cons.
    + rewrite lookup_insert_eq. eexists. split; [done|]. unfold spec_major.
      destruct (decide (v_major (view d) = 0%Z)); exact Hp.
    + rewrite lookup_insert_ne by congruence. by apply Hpa.
Qed.

(** ** Unregistering *)

Lemma unlink_next_run ls1 l ls2 d s :
  chain (devices s) (g_device_registry s) (ls1 ++ l :: ls2) → devices s !! l = Some d →
  ∃ p h, unlink_next (last ls1) (next d) s = Done (tt, set_registry p (set_devices h s)) ∧
    chain h p (ls1 ++ ls2) ∧ h !! l = Some d ∧ view <$> h = view <$> devices s ∧
    (∀ l', prev <$> h !! l' = prev <$> devices s !! l').
Proof.
  intros Hc Hd. destruct (last ls1) as [p|] eqn:Hlast; cbn [unlink_next].
  - apply last_Some in Hlast as [ls ->]. rewrite <-app_assoc in Hc. cbn in Hc.
    pose proof (chain_NoDup _ _ _ Hc) as Hnd.
    destruct (chain_lookup _ _ _ p Hc) as [dp Hdp]; [set_solver|].
    assert (p ≠ l) as Hpl by (apply NoDup_app in Hnd as (_ & _ & [Hnd _]%NoDup_cons);
      intros ->; apply Hnd; constructor).
    bind (get_device_run _ _ _ Hdp). rewrite (put_device_run _ _ _ _ Hdp).
    exists (g_device_registry s), (<[p := set_node_next (next d) dp]> (devices s)).
    split; [by destruct s|]. split_and!.
    + rewrite <-app_assoc. cbn.
      pose proof (chain_unlink _ _ _ _ _ _ _ _ Hc Hdp Hd) as Hu. exact Hu.
    + by rewrite lookup_insert_ne.
    + by apply (view_insert _ _ dp).
    + intros l'. by apply (prev_insert_same _ _ dp).
  - apply last_None in Hlast as ->. cbn in Hc. destruct Hc as [Hreg (d' & Hd' & Hc)].
    rewrite Hd in Hd'. injection Hd' as <-. run.
    exists (next d), (devices s). split; [by destruct s|]. by split_and!.
Qed.

Lemma unlink_backs h ls1 l n ls2 dn :
  NoDup (ls1 ++ l :: n :: ls2) → backs h (ls1 ++ l :: n :: ls2) → h !! n = Some dn →
  backs (<[n := set_prev (last ls1) dn]> h) (ls1 ++ n :: ls2).
Proof.
  intros Hnd Hb Hn. apply NoDup_app in Hnd as (_ & Hdis & Hnd).
  apply NoDup_cons in Hnd as [_ Hnd]. apply NoDup_cons in Hnd as [Hn2 _].
  assert (∀ a ls, n ∉ ls → back_ok h a ls →
    back_ok (<[n := set_prev (last ls1) dn]> h) a ls) as Hframe.
  { intros a ls Hin. apply back_ok_frame. intros l' Hl'.
    by rewrite lookup_insert_ne by congruence. }
  destruct ls1 as [|a ls1]; cbn [app backs] in *.
  - destruct Hb as [_ Hb]. by apply Hframe.
  - apply back_ok_app in Hb as (Hb1 & _ & [_ Hb2]). apply back_ok_app.
    split; [|split]; [|by rewrite lookup_insert_eq|by apply Hframe].
    apply Hframe; [|done]. intros Hin. apply (Hdis n); [by constructor|].
    do 2 constructor.
Qed.

Lemma backs_drop_last h ls1 l : backs h (ls1 ++ [l]) → backs h ls1.
Proof. destruct ls1 as [|a ls1]; [done|]. cbn. by intros [? _]%back_ok_app. Qed.

Lemma backs_frame h h' ls :
  (∀ l, prev <$> h' !! l = prev <$> h !! l) → backs h ls → backs h' ls.
Proof. destruct ls as [|a ls]; [done|]. intros Hf. by apply back_ok_frame. Qed.

Lemma io_unregister_step_run ls1 l ls2 s :
  chain (devices s) (g_device_registry s) (ls1 ++ l :: ls2) →
  backs (devices s) (ls1 ++ l :: ls2) →
  ∃ p h, unregister_step l (last ls1) l s =
      Done (inl 0%Z, set_lock 0 (set_registry p (set_devices h s))) ∧
    chain h p (ls1 ++ ls2) ∧ backs h (ls1 ++ ls2) ∧ view <$> h = view <$> devices s.
Proof.
  intros Hc Hb. pose proof (chain_NoDup _ _ _ Hc) as Hnd.
  destruct (chain_lookup _ _ _ l Hc) as [d Hd]; [set_solver|].
  destruct (unlink_next_run _ _ _ _ _ Hc Hd) as (p & h & Hrun & Hc' & Hd' & Hv & Hprev).
  unfold unregister_step. rewrite decide_True by done. bind (get_device_run _ _ _ Hd).
  bind Hrun. set (s1 := set_registry _ _).
  assert (devices s1 !! l = Some d) as Hd1 by done. bind (get_device_run _ _ _ Hd1).
  apply (backs_frame (devices s) h) in Hb; [|done].
  destruct (chain_app _ _ _ _ Hc) as [q Hq]. destruct Hq as [-> (d2 & Hd2 & Hnext)].
  rewrite Hd in Hd2. injection Hd2 as <-. change (node_next d) with (next d) in Hnext.
  destruct ls2 as [|n ls2].
  - cbn in Hnext. rewrite Hnext. cbn [unlink_prev]. run. exists p, h.
    split; [done|]. split; [done|]. split; [|done]. rewrite app_nil_r in *.
    by eapply backs_drop_last.
  - destruct Hnext as [Hn _]. rewrite Hn. cbn [unlink_prev].
    destruct (chain_lookup _ _ _ n Hc') as [dn Hdn]; [set_solver|].
    run. bind (get_device_run n dn s1 Hdn). bind (put_device_run n dn _ s1 Hdn). run.
    exists p, (<[n := set_prev (last ls1) dn]> h). split; [done|]. split_and!.
    + by eapply chain_insert_same.
    + by eapply unlink_backs.
    + rewrite <-Hv. by apply (view_insert _ _ dn).
Qed.

Lemma io_unregister_refines l s q :
  holds s q →
  ∃ o s' q', exec_op (OpUnregister (Some l)) s = Done (o, s') ∧
    spec_op (OpUnregister (Some l)) q = (o, q') ∧ holds s' q'.
Proof.
  intros Hh. pose proof Hh as [Hst Hmj Hc Hb Hdv Hpa Hlk]. cbn [exec_op spec_op].
  unfold nova_device_unregister. bind (lock_registry_run s Hlk). run. set (s1 := set_lock 1 s).
  destruct (decide (l ∈ reg q)) as [Hl|Hl].
  - destruct (list_elem_of_split _ _ Hl) as (ls1 & ls2 & Heq). rewrite Heq in Hc, Hb.
    pose proof (chain_NoDup _ _ _ Hc) as Hnd.
    destruct (io_unregister_step_run ls1 l ls2 s1 Hc Hb) as (p & h & Hstep & Hc' & Hb' & Hv).
    destruct (walk_until devices get_next io_get_next_run (λ _, Some)
      (registry_fuel s1) (g_device_registry s1) None (unregister_step l) s1 ls1 l ls2 Hc)
      as [fuel Hw].
    + by eapply io_registry_fuel_enough.
    + intros a l' Hl'. unfold unregister_step. rewrite decide_False; [done|].
      apply NoDup_app in Hnd as (_ & Hnd & _). intros ->. apply (Hnd _ Hl'). constructor.
    + bind by (rewrite Hw, foldl_last;
        replace (match last ls1 with Some l => Some l | None => None end) with (last ls1)
          by (by destruct (last ls1)); bind Hstep; done).
      eexists _, _, _. split; [done|]. split; [done|].
      rewrite Heq, filter_remove by done. split; cbn; try done; [by rewrite Hv|].
      intros l' Hl'. apply Hpa. rewrite Heq. set_solver.
  - change (chain (devices s1) (g_device_registry s1) (reg q)) in Hc.
    bind by (apply (walk_through devices get_next io_get_next_run (λ _, Some) _ _ _ _ _ (reg q) Hc);
      [by eapply io_registry_fuel_enough|];
      intros a l' Hl'; unfold unregister_step; rewrite decide_False by congruence; done).
    unfold unlock_registry. run. eexists _, _, q. split; [done|]. split; [done|].
    destruct s; cbn in *; by subst.
Qed.

Lemma nova_device_unregister_empty l s :
  g_device_registry s = None → g_registry_lock s = 0%Z →
  nova_device_unregister (Some l) s = Done ((-1)%Z, set_lock 0 s).
Proof.
  intros Hr Hlk. unfold nova_device_unregister. bind (lock_registry_run s Hlk).
  run. cbn [g_device_registry set_lock]. rewrite Hr. unfold unlock_registry. by run.
Qed.

(** ** Shutting down *)

(** A live device from malloc is freed; what lies elsewhere is not. *)
Lemma free_device_run l d s :
  devices s !! l = Some d →
  free_device l s =
    if from_malloc d then Done (tt, set_devices (delete l (devices s)) s) else Undef.
Proof.
  intros Hd. unfold free_device. bind (get_device_run _ _ _ Hd). by destruct (from_malloc d).
Qed.

Definition in_malloc s (l : loc) : Prop := from_malloc <$> devices s !! l = Some true.

(** The devices behind a freed one are as they were. *)
Lemma behind_freed l s (ls : list loc) :
  l ∉ ls → let s' := set_devices (delete l (devices s)) s in
  ∀ l', l' ∈ ls → devices s' !! l' = devices s !! l'.
Proof. intros Hl s' l' Hl'. cbn. rewrite lookup_delete_ne; [done|congruence]. Qed.

Lemma free_all_run fuel p s ls :
  chain (devices s) p ls → Forall (in_malloc s) ls → length ls ≤ fuel →
  free_all fuel p s = Done (tt, set_devices (foldr delete (devices s) ls) s).
Proof.
  revert p s ls. induction fuel as [|fuel IH]; intros p s ls Hc Hm Hf.
  { destruct ls; [|cbn in Hf; lia]. cbn in Hc. subst p. by destruct s. }
  destruct ls as [|l ls]; [cbn in Hc; subst p; by destruct s|].
  pose proof (chain_NoDup _ _ _ Hc) as [Hl Hnd]%NoDup_cons. apply Forall_cons in Hm as [Hlm Hm].
  destruct Hc as [-> (d & Hd & Hc)]. cbn [free_all]. bind (get_device_run _ _ _ Hd).
  unfold in_malloc in Hlm. rewrite Hd in Hlm. injection Hlm as Hlm.
  pose proof (free_device_run _ _ _ Hd) as Hfree. rewrite Hlm in Hfree. bind Hfree.
  pose proof (behind_freed l s ls Hl) as Hsame. cbv zeta in Hsame.
  rewrite (IH (next d) _ ls); [| | |cbn in Hf; lia].
  - cbn [devices set_devices foldr]. f_equal. f_equal. unfold set_devices. cbn. f_equal.
    clear. induction ls as [|l' ls IHls]; [done|]. cbn. by rewrite IHls, delete_delete.
  - eapply chain_frame; [|exact Hc]. intros l' Hl'. by rewrite Hsame.
  - rewrite Forall_forall in *. intros l' Hl'. unfold in_malloc. rewrite Hsame by done. by apply Hm.
Qed.

(** The first device in the list that free may not take stops the loop. *)
Lemma free_all_stuck fuel p s (ls : list loc) :
  chain (devices s) p ls → ¬ Forall (in_malloc s) ls → length ls ≤ fuel →
  free_all fuel p s = Undef.
Proof.
  revert p s ls. induction fuel as [|fuel IH]; intros p s ls Hc Hm Hf.
  { destruct ls; [|cbn in Hf; lia]. destruct Hm. constructor. }
  destruct ls as [|l ls]; [by destruct Hm|].
  pose proof (chain_NoDup _ _ _ Hc) as [Hl Hnd]%NoDup_cons.
  destruct Hc as [-> (d & Hd & Hc)]. cbn [free_all]. bind (get_device_run _ _ _ Hd).
  pose proof (free_device_run _ _ _ Hd) as Hfree. destruct (from_malloc d) eqn:Hlm;
    [|by apply bind_Undef].
  bind Hfree. pose proof (behind_freed l s ls Hl) as Hsame. cbv zeta in Hsame.
  apply (IH _ _ ls); [| |cbn in Hf; lia].
  - eapply chain_frame; [|exact Hc]. intros l' Hl'. by rewrite Hsame.
  - intros Hm'. apply Hm. constructor; [unfold in_malloc; by rewrite Hd; cbn; rewrite Hlm|].
    rewrite Forall_forall in *. intros l' Hl'. specialize (Hm' l' Hl').
    unfold in_malloc in *. by rewrite Hsame in Hm'.
Qed.

Lemma lookup_foldr_delete {A} (h : gmap loc A) (ls : list loc) l :
  foldr delete h ls !! l = if decide (l ∈ ls) then None else h !! l.
Proof.
  induction ls as [|l' ls IH]; cbn [foldr].
  { rewrite decide_False; [done|]. apply not_elem_of_nil. }
  destruct (decide (l' = l)) as [<-|Hne].
  - rewrite lookup_delete_eq, decide_True; [done|by left].
  - rewrite lookup_delete_ne by done. rewrite IH. apply decide_ext. rewrite elem_of_cons. naive_solver.
Qed.

Lemma fmap_foldr_delete {A B} (f : A → B) (h : gmap loc A) (ls : list loc) :
  f <$> foldr delete h ls = foldr delete (f <$> h) ls.
Proof. induction ls as [|l ls IH]; [done|]. cbn. by rewrite fmap_delete, IH. Qed.

Lemma all_malloc_holds s q : holds s q → all_malloc q ↔ Forall (in_malloc s) (reg q).
Proof.
  intros Hh. unfold all_malloc, in_malloc. rewrite !Forall_forall.
  assert (∀ l, v_malloc <$> devs q !! l = from_malloc <$> devices s !! l) as He.
  { intros l. rewrite (holds_devs _ _ Hh), lookup_fmap. by destruct (devices s !! l). }
  split; intros H l Hl; [rewrite <-He|rewrite He]; by apply H.
Qed.

Lemma nova_io_shutdown_run s q :
  holds s q → started q = true → all_malloc q →
  nova_io_shutdown s = Done (0%Z, set_initialized 0 (set_registry None
    (set_devices (foldr delete (devices s) (reg q)) s))).
Proof.
  intros Hh Hs Hm%(all_malloc_holds s q Hh). pose proof Hh as [Hst Hmj Hc Hb Hdv Hpa Hlk].
  rewrite Hs in Hst. symmetry in Hst.
  apply bool_decide_eq_true in Hst. unfold nova_io_shutdown. run.
  rewrite decide_False by done. bind (lock_registry_run s Hlk).
  bind by (apply (free_all_run _ _ (set_lock 1 s) (reg q) Hc Hm);
    apply Nat.lt_le_incl; by eapply io_registry_fuel_enough).
  unfold unlock_registry. run. destruct s; cbn in *; by subst.
Qed.

Lemma nova_io_shutdown_stuck s q :
  holds s q → started q = true → ¬ all_malloc q → nova_io_shutdown s = Undef.
Proof.
  intros Hh Hs Hm. rewrite (all_malloc_holds s q Hh) in Hm.
  pose proof Hh as [Hst Hmj Hc Hb Hdv Hpa Hlk]. rewrite Hs in Hst. symmetry in Hst.
  apply bool_decide_eq_true in Hst. unfold nova_io_shutdown. run.
  rewrite decide_False by done. bind (lock_registry_run s Hlk).
  apply bind_Undef, (free_all_stuck _ _ (set_lock 1 s) (reg q) Hc Hm).
  apply Nat.lt_le_incl. by eapply io_registry_fuel_enough.
Qed.

(** ** The refinement *)

Lemma op_refines op s q :
  holds s q → op_ok q op →
  ∃ o s' q', exec_op op s = Done (o, s') ∧ spec_op op q = (o, q') ∧ holds s' q'.
Proof.
  intros Hh Hop. pose proof Hh as [Hst Hmj Hc Hb Hdv Hpa Hlk].
  destruct op as [| |[l|]|[l|]|[p|]|mj mn]; cbn [exec_op spec_op];
    try (by apply io_register_refines); try (by apply io_unregister_refines);
    try (by eexists _, _, _).
  - unfold nova_io_init. run. rewrite Hst.
    destruct (decide (g_io_initialized s = 0%Z)) as [H0|H0].
    + rewrite decide_False, bool_decide_eq_false_2 by tauto. run. eexists _, _, _.
      split; [done|]. split; [done|]. split; try done. by intros l ?%elem_of_nil.
    + rewrite decide_True, bool_decide_eq_true_2 by done. run. by eexists _, _, _.
  - destruct (started q) eqn:Hs.
    + bind (nova_io_shutdown_run s q Hh Hs (Hop Hs)). run. eexists _, _, _. split; [done|].
      split; [done|]. split; try done; [|by intros l ?%elem_of_nil].
      cbn. by rewrite fmap_foldr_delete, Hdv.
    + unfold nova_io_shutdown. run. symmetry in Hst. apply bool_decide_eq_false in Hst.
      rewrite decide_True by (by destruct (decide (g_io_initialized s = 0%Z))).
      run. by eexists _, _, _.
  - destruct Hop as [n Hn]. cbn [nova_device_find].
    bind by (apply (search_run _ (has_path p) s q Hh); intros l d Hl Hd;
      destruct (Hpa l Hl) as (v & Hv & [m Hm]); destruct (holds_device _ _ _ _ Hh Hv)
        as (d' & Hd' & ->); rewrite Hd in Hd'; injection Hd' as <-;
      rewrite (strcmp_eq_Some _ _ _ _ Hm Hn); unfold has_path; rewrite Hn; cbn in *;
      rewrite Hm; f_equal; apply bool_decide_ext; naive_solver).
    run. by eexists _, _, _.
  - unfold nova_device_get_by_major_minor.
    bind by (by apply (search_run _ (has_numbers mj mn) s q Hh)).
    run. by eexists _, _, _.
Qed.

Lemma trace_op_refines ops s q :
  holds s q → trace_ok ops q →
  ∃ os s' q', exec_trace exec_op ops s = Done (os, s') ∧ spec_trace spec_op ops q = (os, q') ∧
    holds s' q'.
Proof.
  revert s q. induction ops as [|op ops IH]; intros s q Hh; [by intros _; eexists _, _, _|].
  intros [Hop Hops]. destruct (op_refines op s q Hh Hop) as (o & s1 & q1 & Hr & Hs & Hh1).
  rewrite Hs in Hops. destruct (IH s1 q1 Hh1 Hops) as (os & s' & q' & Hrs & Hss & Hh').
  exists (o :: os), s', q'. cbn [exec_trace spec_trace]. rewrite Hs, Hss.
  split; [|done]. bind Hr. by bind Hrs.
Qed.
End steps.

(** ** A sample state *)

(** Two devices of callers, a disk and a console, and nothing registered; the
    console is a static variable. *)
Definition disk : nova_device unit :=
  Device (cstr "disk") (cstr "/dev/disk0") NOVA_DEVICE_BLOCK 0 0 0 0 None
    (Some (block_ops tt)) None None None true.
Definition console : nova_device unit :=
  Device (cstr "console") (cstr "/dev/console") NOVA_DEVICE_CHAR 5 1 0 0 None None
    None None None false.
Definition cold : io_state unit :=
  IoState None 1 1 0 {[ 1 := disk; 2 := console ]} ∅ ∅ 10 [].
Definition cold_registry : registry :=
  Reg true 1 [] {[ 1 := view disk; 2 := view console ]}.

Lemma cold_holds : holds cold cold_registry.
Proof.
  split; try done. intros l Hl. by apply elem_of_nil in Hl.
Qed.

(** One of them registered. *)
Definition after_register (l : loc) : io_state unit :=
  match exec_op (OpRegister (Some l)) cold with Done (_, s) => s | _ => cold end.

Lemma after_register_holds l :
  op_ok cold_registry (OpRegister (Some l)) →
  holds (after_register l) (spec_op (OpRegister (Some l)) cold_registry).2.
Proof.
  intros Hok. destruct (op_refines _ cold cold_registry cold_holds Hok) as (o & s' & q' & Hr & Hs & Hq).
  unfold after_register. by rewrite Hr, Hs.
Qed.

(** * Properties *)

(** C5. The registry of the I/O stack behaves as a list of devices, as long as
    callers register no device that is in the list, and shut the stack down only
    while every device in the list came from malloc: any sequence of init,
    shutdown, register, unregister, find and get_by_major_minor returns what
    the specification says and ends with the lock released on every path.  A
    device registered without a major number gets the next one, shutdown frees
    exactly the devices in the list, and the back pointers agree with the
    list. *)
Theorem nova_io_registry_refines {O : Type} (ops : list io_op) (s : io_state O)
    (q : registry) :
  holds s q → trace_ok ops q →
  ∃ os s' q', exec_trace exec_op ops s = Done (os, s') ∧
    spec_trace spec_op ops q = (os, q') ∧ holds s' q'.
Proof. apply trace_op_refines. Qed.

Lemma nova_io_registry_refines_witness :
  let ops := [OpRegister (Some 1); OpRegister (Some 2); OpFind (Some (cstr "/dev/disk0"));
              OpGet 1 0; OpUnregister (Some 2); OpFind (Some (cstr "/dev/console"));
              OpShutdown; OpInit] in
  ∃ os s' q', exec_trace exec_op ops cold = Done (os, s') ∧
    spec_trace spec_op ops cold_registry = (os, q') ∧ holds s' q'.
Proof.
  apply nova_io_registry_refines; [apply cold_holds|]. cbn [trace_ok op_ok].
  split_and!; try done; try by eexists.
  - by intros ?%elem_of_nil.
  - change (2 ∉ [1]). set_solver.
  - intros _. apply (bool_decide_unpack _). by vm_compute.
Defined.

(** C34. Shutting the stack down.  nova_io_shutdown frees the devices in the
    list, which it did not allocate: it is undefined as soon as one of them does
    not come from malloc.  Otherwise it returns 0, exactly the devices in the
    list are gone and all others are as they were, the list is empty, the lock
    is free and the stack is not initialised; a second call changes nothing, and
    unregistering a device that was freed answers -1 without touching it. *)
Theorem nova_io_shutdown_frees {O : Type} (s : io_state O) (q : registry) :
  holds s q → started q = true →
  (¬ all_malloc q → nova_io_shutdown s = Undef) ∧
  (all_malloc q → ∃ s', nova_io_shutdown s = Done (0%Z, s') ∧
    (∀ l, devices s' !! l = if decide (l ∈ reg q) then None else devices s !! l) ∧
    g_device_registry s' = None ∧ g_registry_lock s' = 0%Z ∧ g_io_initialized s' = 0%Z ∧
    requests s' = requests s ∧ ports s' = ports s ∧
    nova_io_shutdown s' = Done (0%Z, s') ∧
    ∀ l, nova_device_unregister (Some l) s' = Done ((-1)%Z, s')).
Proof.
  intros Hh Hs. split; [by apply nova_io_shutdown_stuck|]. intros Hm.
  eexists. split; [by apply (nova_io_shutdown_run s q)|].
  split; [intros l; apply lookup_foldr_delete|]. pose proof (holds_lock _ _ Hh) as Hlk.
  do 6 (split; [done|]). intros l.
  rewrite nova_device_unregister_empty by done. destruct s. cbn in *. by subst.
Qed.

Lemma nova_io_shutdown_frees_witness :
  (∃ s', nova_io_shutdown (after_register 1) = Done (0%Z, s') ∧ devices s' !! 1 = None) ∧
  nova_io_shutdown (after_register 2) = Undef.
Proof.
  split.
  - destruct (nova_io_shutdown_frees (after_register 1) _
      (after_register_holds 1 ltac:(split; [by intros ?%elem_of_nil|eexists; split_and!; by eexists]))
      eq_refl) as [_ H].
    destruct H as (s' & Hrun & Hdev & _); [apply (bool_decide_unpack _); by vm_compute|].
    exists s'. split; [exact Hrun|]. by rewrite Hdev.
  - apply (nova_io_shutdown_frees (after_register 2) _
      (after_register_holds 2 ltac:(split; [by intros ?%elem_of_nil|eexists; split_and!; by eexists]))
      eq_refl).
    intros [H _]%Forall_cons. by vm_compute in H.
Defined.

(** C35. A second registration is not refused: registering the device at the
    head again returns 0 and makes the device its own successor.  The devices
    behind it are lost, a search for any path but its own does not end and
    keeps the lock (whatever the number of steps allowed), and nova_io_shutdown
    is undefined: it reads the device after freeing it, or frees one that did
    not come from malloc. *)
Theorem nova_device_double_register {O : Type} (l : loc) (d : nova_device O) (c : Z)
    (m : list Z) (s : io_state O) :
  devices s !! l = Some d → name d !! 0 = Some c → c ≠ 0%Z → c_string (path d) = Some m →
  g_registry_lock s = 0%Z → g_device_registry s = Some l → g_io_initialized s ≠ 0%Z →
  ∃ s', nova_device_register (Some l) s = Done (0%Z, s') ∧
    next <$> devices s' !! l = Some (Some l) ∧
    (∀ p n fuel, c_string p = Some n → n ≠ m →
       nova_device_find (Some p) s' = NoFuel ∧
       walk get_next fuel (g_device_registry s') tt (search_step (λ d, strcmp_eq (path d) p))
         (set_lock 1 s') = NoFuel) ∧
    nova_io_shutdown s' = Undef.
Proof.
  intros Hd Hc Hne Hm Hlk Hreg Hi. exists (registered l d s).
  split; [apply (nova_device_register_run l d c); try done; intros hd Heq; simplify_eq; by eexists|].
  assert (∃ d', devices (registered l d s) !! l = Some d' ∧ next d' = Some l ∧
    path d' = path d) as (d' & Hd' & Hnext & Hpath).
  { unfold registered. rewrite Hreg. cbn [devices set_registry set_next_major set_devices].
    rewrite lookup_insert_eq, lookup_insert_eq. eexists. split; [done|].
    split; [done|]. cbn. unfold numbered. by case_decide. }
  split; [by rewrite Hd'; cbn; rewrite Hnext|]. split.
  - intros p n fuel Hn Hnm.
    assert (∀ fuel, walk get_next fuel (g_device_registry (registered l d s)) tt
      (search_step (λ d, strcmp_eq (path d) p)) (set_lock 1 (registered l d s)) = NoFuel) as Hloop.
    { intros f. apply (walk_self_diverges devices get_next io_get_next_run f l d' tt);
        [exact Hd'|exact Hnext|]. intros []. exists tt. unfold search_step.
      bind (get_device_run l d' (set_lock 1 (registered l d s)) Hd'). rewrite Hpath.
      bind (the_Some _ _ _ (strcmp_eq_Some _ _ _ _ Hm Hn)).
      by rewrite bool_decide_eq_false_2. }
    split; [|apply Hloop]. cbn [nova_device_find]. unfold search.
    bind (lock_registry_run (registered l d s) Hlk). run. by apply bind_NoFuel.
  - unfold nova_io_shutdown. run. rewrite decide_False by done.
    bind (lock_registry_run (registered l d s) Hlk).
    assert (size (devices (registered l d s)) ≠ 0) as Hsize
      by (intros E%map_size_empty_inv; by rewrite E in Hd').
    unfold registry_fuel. destruct (size (devices (registered l d s))) as [|fuel]; [done|].
    apply bind_Undef. cbn [free_all g_device_registry registered set_registry].
    bind (get_device_run l d' (set_lock 1 (registered l d s)) Hd').
    pose proof (free_device_run l d' (set_lock 1 (registered l d s)) Hd') as Hfree.
    destruct (from_malloc d'); [|by apply bind_Undef]. bind Hfree.
    rewrite Hnext. cbn [free_all]. apply bind_Undef. unfold get_device. run.
    cbn [devices set_devices]. by rewrite lookup_delete_eq.
Qed.

Lemma nova_device_double_register_witness :
  let s := set_registry (Some 1) cold in
  ∃ s', nova_device_register (Some 1) s = Done (0%Z, s') ∧
    next <$> devices s' !! 1 = Some (Some 1) ∧
    (∀ p n fuel, c_string p = Some n → n ≠ chars "/dev/disk0" →
       nova_device_find (Some p) s' = NoFuel ∧
       walk get_next fuel (g_device_registry s') tt (search_step (λ d, strcmp_eq (path d) p))
         (set_lock 1 s') = NoFuel) ∧
    nova_io_shutdown s' = Undef.
Proof.
  by apply (nova_device_double_register 1 disk 100 (chars "/dev/disk0")).
Defined.
End IoRegistry.
