(* ===== verification/IoRequest.v ===== *)
(** * I/O requests, block transfers and completion ports
      (the second part of kernel/io/io_stack.c)

    A request is calloc'ed, handed to the driver of a block device and freed.
    The driver is a parameter: the class [BlockOps] of operation tables and the
    promises of [BlockOpsOk].  INFINITE, which the sources use and do not
    define, is a parameter too. *)

From S2P Require Import Prelude CString LinkedList CType Headers IoRegistry.

Module IoRequest.
Import IoRegistry.

(** struct nova_block_ops: of its functions only submit_io is called. *)
Class BlockOps (O : Type) := {
  op_submit_io : O → option (loc → loc → M (io_state O) Z);
}.

(** The type of a table. *)
Definition table_type {O} (t : ops_table O) : ctype :=
  match t with
  | char_ops => struct_nova_char_ops
  | block_ops _ => struct_nova_block_ops
  | net_ops => struct_nova_net_ops
  | fb_ops => struct_nova_fb_ops
  | input_ops => struct_nova_input_ops
  end.

(** The member [x] of a struct nova_block_ops, loaded from whatever table the
    pointer of the union leads to, lies within it. *)
Definition within_table {O} (t : ops_table O) (x : string) : bool :=
  match offset_of struct_nova_block_ops x with
  | Some (u, o) => bool_decide (o + size u ≤ size (table_type t))
  | None => false
  end.

Section requests.
Context {O : Type} `{!BlockOps O}.
Implicit Types (s : io_state O).

(** [dev->block_ops && dev->block_ops->submit_io] and the call: the function, or
    none.  A table of another kind has no such function to call. *)
Definition submit_io_of (d : nova_device O) : option (option (loc → loc → M (io_state O) Z)) :=
  match dev_ops d with
  | None => Some None
  | Some (block_ops table) => Some (op_submit_io table)
  | Some _ => None
  end.

Definition set_requests (h : gmap loc nova_io_request) s : io_state O :=
  IoState (g_device_registry s) (g_next_major s) (g_io_initialized s) (g_registry_lock s)
    (devices s) h (ports s) (io_brk s) (io_callocs s).
Definition set_ports (h : gmap loc nova_io_completion_port) s : io_state O :=
  IoState (g_device_registry s) (g_next_major s) (g_io_initialized s) (g_registry_lock s)
    (devices s) (requests s) h (io_brk s) (io_callocs s).
Definition set_brk (l : loc) s : io_state O :=
  IoState (g_device_registry s) (g_next_major s) (g_io_initialized s) (g_registry_lock s)
    (devices s) (requests s) (ports s) l (io_callocs s).
Definition set_callocs (r : list bool) s : io_state O :=
  IoState (g_device_registry s) (g_next_major s) (g_io_initialized s) (g_registry_lock s)
    (devices s) (requests s) (ports s) (io_brk s) r.

Definition get_request (l : loc) : M (io_state O) nova_io_request :=
  s ← gets (λ s, s); the (requests s !! l).
Definition put_request (l : loc) (r : nova_io_request) : M (io_state O) unit :=
  get_request l;; modify (λ s, set_requests (<[l := r]> (requests s)) s).

(** calloc: NULL, or a fresh address at which [store] puts the zeroed object. *)
Definition calloc (store : loc → io_state O → io_state O) : M (io_state O) (option loc) :=
  s ← gets (λ s, s);
  let ok := match io_callocs s with [] => true | b :: _ => b end in
  modify (set_callocs (tail (io_callocs s)));;
  if ok then
    modify (set_brk (S (io_brk s)));;
    modify (store (io_brk s));;
    mret (Some (io_brk s))
  else mret None.

Definition zero_request : nova_io_request :=
  Request 0 0 None 0 None 0 0 0 None None None 0.

Definition set_status (z e : Z) (r : nova_io_request) : nova_io_request :=
  Request (req_type r) z (req_device r) (offset r) (buffer r) (req_length r) (req_flags r)
    (timeout_ms r) (callback r) (callback_ctx r) (completion r) e.

Definition nova_io_request_alloc : M (io_state O) (option loc) :=
  p ← calloc (λ l s, set_requests (<[l := zero_request]> (requests s)) s);
  match p with
  | None => mret None
  | Some l =>
      r ← get_request l;
      put_request l (Request (req_type r) NOVA_IO_PENDING (req_device r) (offset r) (buffer r)
        (req_length r) 0 5000 (callback r) (callback_ctx r) (completion r) (error_code r));;
      mret (Some l)
  end.

Definition nova_io_request_free (req : option loc) : M (io_state O) unit :=
  match req with
  | None => mret tt
  | Some l => get_request l;; modify (λ s, set_requests (delete l (requests s)) s)
  end.

(** The statements behind the switch. *)
Definition submit_fails (l : loc) : M (io_state O) Z :=
  r ← get_request l;
  put_request l (set_status NOVA_IO_ERROR (-1) r);;
  mret (-1)%Z.

Definition nova_io_submit (req : option loc) : M (io_state O) Z :=
  match req with
  | None => mret (-1)%Z
  | Some l =>
      r ← get_request l;
      match req_device r, buffer r with
      | Some dl, Some _ =>
          d ← get_device dl;
          if decide (dev_type d = NOVA_DEVICE_BLOCK) then
            f ← the (submit_io_of d);
            match f with
            | Some submit_io => submit_io dl l
            | None => submit_fails l
            end
          else submit_fails l
      | _, _ => mret (-1)%Z
      end
  end.

(** A placeholder in the source as well. *)
Definition nova_io_wait (req : option loc) (timeout : Z) : M (io_state O) Z := mret 0%Z.

Definition nova_io_cancel (req : option loc) : M (io_state O) Z :=
  match req with
  | None => mret (-1)%Z
  | Some l =>
      r ← get_request l;
      if decide (status r ≠ NOVA_IO_PENDING) then mret (-1)%Z
      else put_request l (set_status NOVA_IO_CANCELLED (error_code r) r);; mret 0%Z
  end.

(** [count * 512], an unsigned 32-bit product. *)
Definition sector_bytes (count : Z) : Z := u32 (count * 512).

(** What nova_block_read_sectors and nova_block_write_sectors do from the
    submission on. *)
Definition submit_and_wait (req : loc) : M (io_state O) Z :=
  result ← nova_io_submit (Some req);
  result ← (if decide (result = 0)%Z then
    r ← get_request req;
    nova_io_wait (Some req) (timeout_ms r);;
    r ← get_request req;
    mret (if decide (status r = NOVA_IO_SUCCESS) then 0%Z else error_code r)
  else mret result);
  nova_io_request_free (Some req);;
  mret result.

(** The length is computed by a conditional on the device's get_geometry whose
    branches are the same: what is left of it is the load from the table, whatever
    kind of device it is. *)
Definition nova_block_read_sectors (dev : option loc) (sector : Z) (buf : option loc)
    (count : Z) : M (io_state O) Z :=
  match dev, buf with
  | Some dl, Some _ =>
      if decide (count = 0)%Z then mret (-1)%Z
      else
        req ← nova_io_request_alloc;
        match req with
        | None => mret (-1)%Z
        | Some l =>
            d ← get_device dl;
            table ← the (dev_ops d);
            (if within_table table "get_geometry" then mret tt else undef);;
            r ← get_request l;
            put_request l (Request NOVA_IO_READ (status r) dev sector buf (sector_bytes count)
              (req_flags r) (timeout_ms r) (callback r) (callback_ctx r) (completion r)
              (error_code r));;
            submit_and_wait l
        end
  | _, _ => mret (-1)%Z
  end.

Definition nova_block_write_sectors (dev : option loc) (sector : Z) (buf : option loc)
    (count : Z) : M (io_state O) Z :=
  match dev, buf with
  | Some _, Some _ =>
      if decide (count = 0)%Z then mret (-1)%Z
      else
        req ← nova_io_request_alloc;
        match req with
        | None => mret (-1)%Z
        | Some l =>
            r ← get_request l;
            put_request l (Request NOVA_IO_WRITE (status r) dev sector buf (sector_bytes count)
              (req_flags r) (timeout_ms r) (callback r) (callback_ctx r) (completion r)
              (error_code r));;
            submit_and_wait l
        end
  | _, _ => mret (-1)%Z
  end.

(** ** Completion ports *)

Definition nova_io_completion_port_create (INFINITE max : Z) : M (io_state O) (option loc) :=
  p ← calloc (λ l s, set_ports (<[l := Port None 0 0]> (ports s)) s);
  match p with
  | None => mret None
  | Some l =>
      s ← gets (λ s, s);
      port ← the (ports s !! l);
      modify (set_ports (<[l := Port (queue port) max INFINITE]> (ports s)));;
      mret (Some l)
  end.

Definition nova_io_completion_port_destroy (port : option loc) : M (io_state O) Z :=
  match port with
  | None => mret (-1)%Z
  | Some l =>
      s ← gets (λ s, s);
      the (ports s !! l);;
      modify (set_ports (delete l (ports s)));;
      mret 0%Z
  end.

Definition nova_io_completion_port_associate (port dev : option loc) (key : Z)
    : M (io_state O) Z := mret 0%Z.

Definition nova_io_completion_port_get_event (port : option loc) (timeout : Z)
    : M (io_state O) Z := mret (-1)%Z.
End requests.

(** What is relied on of a driver: submit_io returns, leaves the request
    allocated, and changes besides it at most devices. *)
Class BlockOpsOk (O : Type) `{!BlockOps O} : Prop :=
  submit_io_ok o f dl l r (s : io_state O) :
    op_submit_io o = Some f → is_Some (devices s !! dl) → requests s !! l = Some r →
    ∃ z r' h, f dl l s = Done (z, set_requests (<[l := r']> (requests s)) (set_devices h s)).

(** ** Steps *)

Section steps.
Context {O : Type} `{!BlockOps O}.
Implicit Types (s : io_state O).

Lemma get_request_run l r s : requests s !! l = Some r → get_request l s = Done (r, s).
Proof. intros H. unfold get_request. run. by apply the_Some. Qed.

Lemma put_request_run l r r' s :
  requests s !! l = Some r →
  put_request l r' s = Done (tt, set_requests (<[l := r']> (requests s)) s).
Proof. intros H. unfold put_request. by bind (get_request_run _ _ _ H). Qed.

Definition next_alloc (r : list bool) : bool := match r with [] => true | b :: _ => b end.

Definition fresh_request : nova_io_request :=
  Request 0 NOVA_IO_PENDING None 0 None 0 0 5000 None None None 0.

(** The state after a successful allocation of request [r]. *)
Definition allocated (r : nova_io_request) s : io_state O :=
  set_requests (<[io_brk s := r]> (requests s))
    (set_brk (S (io_brk s)) (set_callocs (tail (io_callocs s)) s)).

Lemma nova_io_request_alloc_run s :
  next_alloc (io_callocs s) = true →
  nova_io_request_alloc s = Done (Some (io_brk s), allocated fresh_request s).
Proof.
  intros Ha. unfold nova_io_request_alloc, calloc, next_alloc in *. run.
  destruct (io_callocs s) as [|[] cs] eqn:Hcs; [|run|done];
    run; bind by (apply get_request_run, lookup_insert_eq);
    bind by (eapply put_request_run, lookup_insert_eq); run;
    unfold allocated, set_requests; cbn; by rewrite insert_insert_eq, Hcs.
Qed.

Lemma nova_io_submit_block l r dl d (f : loc → loc → M (io_state O) Z) s :
  requests s !! l = Some r → req_device r = Some dl → is_Some (buffer r) →
  devices s !! dl = Some d → dev_type d = NOVA_DEVICE_BLOCK →
  submit_io_of d = Some (Some f) → nova_io_submit (Some l) s = f dl l s.
Proof.
  intros Hr Hdev [b Hb] Hd Ht Hf. unfold nova_io_submit. bind (get_request_run _ _ _ Hr).
  rewrite Hdev, Hb. bind (get_device_run _ _ _ Hd). rewrite decide_True by done.
  by bind (the_Some _ _ _ Hf).
Qed.

(** The result of a transfer from the driver's answer and the request. *)
Definition transfer_result (z : Z) (r : nova_io_request) : Z :=
  if decide (z = 0)%Z
  then (if decide (status r = NOVA_IO_SUCCESS) then 0%Z else error_code r) else z.

Lemma submit_and_wait_run l z r s1 s :
  nova_io_submit (Some l) s = Done (z, s1) → requests s1 !! l = Some r →
  submit_and_wait l s = Done (transfer_result z r, set_requests (delete l (requests s1)) s1).
Proof.
  intros Hsub Hr. unfold submit_and_wait, transfer_result, nova_io_request_free, nova_io_wait.
  bind Hsub. destruct (decide (z = 0%Z)); run.
  - bind (get_request_run _ _ _ Hr). run. bind (get_request_run _ _ _ Hr). run.
    by bind (get_request_run _ _ _ Hr).
  - by bind (get_request_run _ _ _ Hr).
Qed.

(** The two transfers. *)
Definition transfer (write : bool) : option loc → Z → option loc → Z → M (io_state O) Z :=
  if write then nova_block_write_sectors else nova_block_read_sectors.

Definition transfer_request (write : bool) (dl bl : loc) (sector count : Z) : nova_io_request :=
  Request (if write then NOVA_IO_WRITE else NOVA_IO_READ) NOVA_IO_PENDING (Some dl) sector
    (Some bl) (sector_bytes count) 0 5000 None None None 0.

(** What a read needs of the device: a table that reaches to get_geometry. *)
Definition readable (d : nova_device O) : Prop :=
  ∃ t, dev_ops d = Some t ∧ within_table t "get_geometry" = true.

Lemma block_readable d f : submit_io_of d = Some (Some f) → readable d.
Proof.
  unfold submit_io_of. destruct (dev_ops d) as [[|o| | |]|] eqn:Hd; try done. intros _.
  exists (block_ops o). split; [exact Hd|by vm_compute].
Qed.

Lemma submit_io_of_table d f :
  submit_io_of d = Some (Some f) → ∃ o, dev_ops d = Some (block_ops o) ∧ op_submit_io o = Some f.
Proof.
  unfold submit_io_of. destruct (dev_ops d) as [[|o| | |]|]; try done. intros [= H]. by exists o.
Qed.

(** The only tables that end before it are those of input devices. *)
Lemma within_get_geometry (t : ops_table O) :
  within_table t "get_geometry" = match t with input_ops => false | _ => true end.
Proof. by destruct t; vm_compute. Qed.

Lemma transfer_run write dl bl sector count d s :
  devices s !! dl = Some d → (write = false → readable d) → count ≠ 0%Z →
  next_alloc (io_callocs s) = true →
  transfer write (Some dl) sector (Some bl) count s =
    submit_and_wait (io_brk s) (allocated (transfer_request write dl bl sector count) s).
Proof.
  intros Hd Ho Hc Ha. destruct write; cbn [transfer];
    [unfold nova_block_write_sectors|unfold nova_block_read_sectors];
    rewrite decide_False by done; bind (nova_io_request_alloc_run s Ha).
  2: destruct (Ho eq_refl) as (t & Ht & Hw); bind by (apply get_device_run; exact Hd);
    bind (the_Some _ _ _ Ht); rewrite Hw; run.
  all: bind by (apply get_request_run, lookup_insert_eq);
    bind by (eapply put_request_run, lookup_insert_eq);
    unfold allocated, set_requests; cbn; by rewrite insert_insert_eq.
Qed.
End steps.

(** * Properties *)

(** C20. A block transfer (nova_block_read_sectors, nova_block_write_sectors)
    through any driver that keeps its promises: the driver gets one fresh
    pending request with the direction, device, sector, buffer and the length
    [sector_bytes count]; the result is the driver's when that is not 0, else
    0 if it marked the request successful and the error code otherwise.  The
    request is freed in every case, and no other request is touched. *)
Theorem nova_block_transfer {O : Type} `{!BlockOps O} `{!BlockOpsOk O} (write : bool)
    (dl bl : loc) (sector count : Z) (d : nova_device O)
    (f : loc → loc → M (io_state O) Z) (s : io_state O) :
  devices s !! dl = Some d → dev_type d = NOVA_DEVICE_BLOCK →
  submit_io_of d = Some (Some f) → count ≠ 0%Z → next_alloc (io_callocs s) = true →
  requests s !! io_brk s = None →
  ∃ z r (s1 s' : io_state O),
    f dl (io_brk s) (allocated (transfer_request write dl bl sector count) s) = Done (z, s1) ∧
    requests s1 !! io_brk s = Some r ∧
    transfer write (Some dl) sector (Some bl) count s = Done (transfer_result z r, s') ∧
    requests s' = requests s.
Proof.
  intros Hd Ht Hf Hc Ha Hfresh. destruct (submit_io_of_table d f Hf) as (o & Ho & Hsub).
  rewrite (transfer_run write dl bl sector count d)
    by (done || (intros _; by eapply block_readable)).
  set (s0 := allocated _ s).
  assert (requests s0 !! io_brk s = Some (transfer_request write dl bl sector count)) as Hr
    by apply lookup_insert_eq.
  destruct (submit_io_ok o f dl (io_brk s) _ s0 Hsub ltac:(by eexists) Hr)
    as (z & r & h & Hrun).
  set (s1 := set_requests _ _) in Hrun.
  assert (requests s1 !! io_brk s = Some r) as Hr1 by apply lookup_insert_eq.
  exists z, r, s1. eexists. split; [exact Hrun|]. split; [exact Hr1|]. split.
  - apply submit_and_wait_run; [|exact Hr1]. rewrite <-Hrun.
    by eapply (nova_io_submit_block _ _ _ d); [exact Hr|done|by eexists|..].
  - cbn. rewrite insert_insert_eq. by apply delete_insert_id.
Qed.

(** A driver that completes at once, one that queues the request, and a
    character device without operations. *)
Inductive disk_ops : Type := ram_disk | queued_disk.

Definition complete_io (dl l : loc) : M (io_state disk_ops) Z :=
  r ← get_request l; put_request l (set_status NOVA_IO_SUCCESS 0 r);; mret 0%Z.
Definition queue_io (dl l : loc) : M (io_state disk_ops) Z := get_request l;; mret 0%Z.

#[export] Instance disk_block_ops : BlockOps disk_ops := {|
  op_submit_io o := Some (match o with ram_disk => complete_io | queued_disk => queue_io end);
|}.

#[export] Instance disk_block_ops_ok : BlockOpsOk disk_ops.
Proof.
  intros o f dl l r s [= <-] _ Hr. destruct o; cbv beta match.
  - unfold complete_io. bind (get_request_run _ _ _ Hr). bind (put_request_run _ _ _ _ Hr).
    eexists _, _, (devices s). by destruct s.
  - unfold queue_io. bind (get_request_run _ _ _ Hr). exists 0%Z, r, (devices s).
    rewrite insert_id by done. by destruct s.
Qed.

Definition disk_of (o : disk_ops) : nova_device disk_ops :=
  Device (cstr "disk") (cstr "/dev/disk0") NOVA_DEVICE_BLOCK 1 0 0 0 None
    (Some (block_ops o)) None None None true.
Definition with_disk (o : disk_ops) : io_state disk_ops :=
  IoState (Some 1) 2 1 0 {[ 1 := disk_of o ]} ∅ ∅ 10 [].

Lemma nova_block_transfer_witness :
  ∃ z r (s1 s' : io_state disk_ops),
    complete_io 1 10 (allocated (transfer_request false 1 5 100 8) (with_disk ram_disk)) =
      Done (z, s1) ∧
    requests s1 !! 10 = Some r ∧
    transfer false (Some 1) 100 (Some 5) 8 (with_disk ram_disk) =
      Done (transfer_result z r, s') ∧
    requests s' = ∅.
Proof.
  by apply (nova_block_transfer false 1 5 100 8 (disk_of ram_disk) complete_io
    (with_disk ram_disk)).
Defined.

(** C36. A transfer that the driver only queues is reported as done: when
    submit_io returns 0 and leaves the request pending with no error, the wait
    is a placeholder, so the call returns 0, and the request the driver still
    holds has been freed. *)
Theorem nova_block_pending_reported_done {O : Type} `{!BlockOps O} `{!BlockOpsOk O}
    (write : bool) (dl bl : loc) (sector count : Z) (d : nova_device O)
    (f : loc → loc → M (io_state O) Z) (s s1 : io_state O) :
  devices s !! dl = Some d → dev_type d = NOVA_DEVICE_BLOCK →
  submit_io_of d = Some (Some f) → count ≠ 0%Z → next_alloc (io_callocs s) = true →
  requests s !! io_brk s = None →
  f dl (io_brk s) (allocated (transfer_request write dl bl sector count) s) = Done (0%Z, s1) →
  requests s1 !! io_brk s = Some (transfer_request write dl bl sector count) →
  ∃ s', transfer write (Some dl) sector (Some bl) count s = Done (0%Z, s') ∧
    requests s' !! io_brk s = None.
Proof.
  intros Hd Ht Hf Hc Ha Hfresh Hrun Hpend.
  rewrite (transfer_run write dl bl sector count d); [|done| |done|done].
  - exists (set_requests (delete (io_brk s) (requests s1)) s1). split; [|apply lookup_delete_eq].
    rewrite (submit_and_wait_run _ 0 _ s1 _) by
      (first [exact Hpend|rewrite <-Hrun; eapply (nova_io_submit_block _ _ _ d);
        [apply lookup_insert_eq|done|by eexists|done..]]).
    done.
  - intros _. by eapply block_readable.
Qed.

Lemma nova_block_pending_reported_done_witness :
  ∃ s', transfer true (Some 1) 100 (Some 5) 8 (with_disk queued_disk) = Done (0%Z, s') ∧
    requests s' !! 10 = None.
Proof.
  by apply (nova_block_pending_reported_done true 1 5 100 8 (disk_of queued_disk) queue_io
    (with_disk queued_disk)
    (allocated (transfer_request true 1 5 100 8) (with_disk queued_disk))).
Defined.

(** The submit function of the device's driver, if it is a block device that has
    one. *)
Definition handler {O : Type} `{!BlockOps O} (s : io_state O) (dl : loc)
    : option (option (loc → loc → M (io_state O) Z)) :=
  d ← devices s !! dl;
  if decide (dev_type d = NOVA_DEVICE_BLOCK) then submit_io_of d else Some None.

Lemma submit_fails_run {O : Type} (l : loc) (r : nova_io_request) (s : io_state O) :
  requests s !! l = Some r →
  submit_fails l s =
    Done ((-1)%Z, set_requests (<[l := set_status NOVA_IO_ERROR (-1) r]> (requests s)) s).
Proof.
  intros Hr. unfold submit_fails. bind (get_request_run _ _ _ Hr).
  by bind (put_request_run _ _ _ _ Hr).
Qed.

(** What a submission comes to, once the request has a device and a buffer. *)
Lemma submit_run {O : Type} `{!BlockOps O} (l dl : loc) (r : nova_io_request) (s : io_state O) :
  requests s !! l = Some r → req_device r = Some dl → is_Some (buffer r) →
  nova_io_submit (Some l) s =
    match handler s dl with
    | Some (Some f) => f dl l s
    | Some None => submit_fails l s
    | None => Undef
    end.
Proof.
  intros Hr Hdl [b Hb]. unfold nova_io_submit, handler. bind (get_request_run _ _ _ Hr).
  rewrite Hdl, Hb. destruct (devices s !! dl) as [d|] eqn:Hd;
    [|apply bind_Undef; unfold get_device; run; by rewrite Hd].
  bind (get_device_run _ _ _ Hd). cbn [mbind option_bind]. case_decide; [|done].
  destruct (submit_io_of d) as [f|] eqn:Hf; [|by apply bind_Undef].
  bind (the_Some _ _ _ eq_refl). by destruct f.
Qed.

Lemma refused_run {O : Type} `{!BlockOps O} (l dl : loc) (r : nova_io_request) (s : io_state O) :
  requests s !! l = Some r → req_device r = Some dl → is_Some (buffer r) →
  handler s dl = Some None →
  nova_io_submit (Some l) s =
    Done ((-1)%Z, set_requests (<[l := set_status NOVA_IO_ERROR (-1) r]> (requests s)) s).
Proof.
  intros Hr Hdl Hb Hh. rewrite (submit_run l dl r s Hr Hdl Hb), Hh. by apply submit_fails_run.
Qed.

(** C28. The life of a request.  nova_io_submit refuses a request without device
    or buffer and leaves it as it is, passes one for a block device with a
    submit function to that function, and marks every other one as failed; it is
    undefined when the device is gone, or is a block device whose table is one
    of another kind.
    nova_io_cancel cancels a pending request and no other: a failed or
    cancelled request cannot be cancelled again. *)
Theorem nova_io_request_life {O : Type} `{!BlockOps O} (l : loc) (r : nova_io_request)
    (s : io_state O) :
  requests s !! l = Some r →
  let failed := set_requests (<[l := set_status NOVA_IO_ERROR (-1) r]> (requests s)) s in
  nova_io_submit (Some l) s =
    match req_device r, buffer r with
    | Some dl, Some _ =>
        match handler s dl with
        | Some (Some f) => f dl l s
        | Some None => Done ((-1)%Z, failed)
        | None => Undef
        end
    | _, _ => Done ((-1)%Z, s)
    end ∧
  nova_io_cancel (Some l) failed = Done ((-1)%Z, failed) ∧
  ∃ s', nova_io_cancel (Some l) s =
      Done (if decide (status r = NOVA_IO_PENDING) then 0%Z else (-1)%Z, s') ∧
    requests s' = (if decide (status r = NOVA_IO_PENDING)
      then <[l := set_status NOVA_IO_CANCELLED (error_code r) r]> (requests s)
      else requests s) ∧
    nova_io_cancel (Some l) s' = Done ((-1)%Z, s').
Proof.
  intros Hr failed. split_and!.
  - destruct (req_device r) as [dl|] eqn:Hdl, (buffer r) as [b|] eqn:Hb;
      try (unfold nova_io_submit; bind (get_request_run _ _ _ Hr); by rewrite Hdl, ?Hb).
    rewrite (submit_run l dl r s Hr Hdl) by (by eexists). by rewrite (submit_fails_run l r s Hr).
  - unfold nova_io_cancel. bind by (apply get_request_run, lookup_insert_eq).
    by rewrite decide_True.
  - unfold nova_io_cancel. bind (get_request_run _ _ _ Hr).
    destruct (decide (status r = NOVA_IO_PENDING)) as [Hp|Hp].
    + rewrite decide_False by tauto. bind (put_request_run _ _ _ _ Hr). run.
      eexists. split; [done|]. split; [done|].
      bind by (apply get_request_run, lookup_insert_eq). by rewrite decide_True.
    + rewrite decide_True by done. eexists. split; [done|]. split; [done|].
      bind (get_request_run _ _ _ Hr). by rewrite decide_True.
Qed.

Lemma nova_io_request_life_witness :
  let r := transfer_request false 1 5 100 8 in
  let s := allocated r (with_disk ram_disk) in
  nova_io_submit (Some 10) s = complete_io 1 10 s ∧
  ∃ s', nova_io_cancel (Some 10) s = Done (0%Z, s') ∧
    nova_io_cancel (Some 10) s' = Done ((-1)%Z, s').
Proof.
  intros r s. destruct (nova_io_request_life 10 r s) as (Hsub & _ & s' & Hc & _ & Hc2).
  - apply lookup_insert_eq.
  - split; [exact Hsub|]. exists s'. split; [exact Hc|exact Hc2].
Defined.

(** The table of a device reaches to get_geometry. *)
Definition has_geometry {O : Type} (d : nova_device O) : bool :=
  match dev_ops d with None | Some input_ops => false | Some _ => true end.

Lemma has_geometry_readable {O : Type} (d : nova_device O) :
  has_geometry d = true ↔ readable d.
Proof.
  unfold has_geometry, readable. split.
  - intros H. destruct (dev_ops d) as [t|]; [|done]. exists t. split; [done|].
    rewrite within_get_geometry. by destruct t.
  - intros (t & -> & Ht). rewrite within_get_geometry in Ht. by destruct t.
Qed.

(** A read of a device without such a table gets as far as the load. *)
Lemma unreadable_run {O : Type} `{!BlockOps O} (dl bl : loc) (sector count : Z)
    (d : nova_device O) (s : io_state O) :
  devices s !! dl = Some d → has_geometry d = false → count ≠ 0%Z →
  next_alloc (io_callocs s) = true →
  nova_block_read_sectors (Some dl) sector (Some bl) count s = Undef.
Proof.
  intros Hd Hg Hc Ha. unfold nova_block_read_sectors. rewrite decide_False by done.
  bind (nova_io_request_alloc_run s Ha). bind by (apply get_device_run; exact Hd).
  unfold has_geometry in Hg. destruct (dev_ops d) as [t|]; [|by apply bind_Undef].
  bind (the_Some _ _ _ eq_refl). rewrite within_get_geometry. by destruct t.
Qed.

(** C29. Transfers that no driver takes: the device is not a block device, or has
    no table or no submit function in it.  nova_block_write_sectors answers -1;
    so does nova_block_read_sectors when the device has a table other than that
    of an input device, and otherwise the read is undefined: it loads
    get_geometry, 32 bytes into a table that is missing or has 32 bytes in all.
    The request that was made is gone, and nothing else has changed. *)
Theorem nova_block_transfer_refused {O : Type} `{!BlockOps O} (write : bool) (dl bl : loc)
    (sector count : Z) (d : nova_device O) (s : io_state O) :
  devices s !! dl = Some d → handler s dl = Some None → count ≠ 0%Z →
  next_alloc (io_callocs s) = true → requests s !! io_brk s = None →
  transfer write (Some dl) sector (Some bl) count s =
    if write || has_geometry d
    then Done ((-1)%Z, set_brk (S (io_brk s)) (set_callocs (tail (io_callocs s)) s))
    else Undef.
Proof.
  intros Hd Hh Hc Ha Hfresh.
  destruct (write || has_geometry d) eqn:Hg; cycle 1.
  { apply orb_false_iff in Hg as [-> Hg]. by apply (unreadable_run _ _ _ _ d). }
  rewrite (transfer_run write dl bl sector count d); [|done| |done..].
  2: { intros ->. by apply has_geometry_readable. }
  set (r := transfer_request _ _ _ _ _). set (s0 := allocated r s).
  assert (requests s0 !! io_brk s = Some r) as Hr by apply lookup_insert_eq.
  rewrite (submit_and_wait_run (io_brk s) (-1) (set_status NOVA_IO_ERROR (-1) r)
    (set_requests (<[io_brk s := set_status NOVA_IO_ERROR (-1) r]> (requests s0)) s0));
    [|by apply (refused_run _ dl); [|done|by eexists|]|apply lookup_insert_eq].
  unfold transfer_result. rewrite decide_False by done. f_equal. f_equal.
  unfold s0, allocated, set_requests. cbn. by rewrite insert_insert_eq, delete_insert_id.
Qed.

Definition keyboard : nova_device disk_ops :=
  Device (cstr "kbd") (cstr "/dev/input0") 5 2 0 0 0 None (Some input_ops) None None None false.
Definition with_keyboard : io_state disk_ops :=
  IoState (Some 1) 2 1 0 {[ 1 := keyboard ]} ∅ ∅ 10 [].

Lemma nova_block_transfer_refused_witness :
  transfer true (Some 1) 0 (Some 5) 1 with_keyboard = Done ((-1)%Z, set_brk 11 with_keyboard) ∧
  transfer false (Some 1) 0 (Some 5) 1 with_keyboard = Undef.
Proof.
  split; exact (nova_block_transfer_refused _ 1 5 0 1 keyboard with_keyboard
    eq_refl eq_refl ltac:(done) eq_refl eq_refl).
Defined.

(** The length of a block transfer is 32 bits wide: it is 512 bytes a
    sector up to 8388607 sectors, and wraps from 8388608 on, where a request
    of a multiple of that many sectors has length 0. *)
Theorem sector_bytes_wraps (count : Z) :
  in_width 32 count →
  (sector_bytes count = (count * 512)%Z ↔ (count < 8388608)%Z) ∧
  (sector_bytes count = 0%Z ↔ (8388608 | count)%Z) ∧
  in_width 32 (sector_bytes count).
Proof.
  unfold sector_bytes, u32, wrap, in_width. change (2 ^ 32)%Z with (8388608 * 512)%Z.
  intros Hc. rewrite Z.mul_mod_distr_r by lia.
  pose proof (Z.mod_pos_bound count 8388608). split_and!; [| |lia|lia].
  - split; intros H1.
    + assert (count mod 8388608 = count)%Z as <- by lia. lia.
    + by rewrite Z.mod_small by lia.
  - rewrite <-Z.mod_divide by lia. lia.
Qed.

Lemma sector_bytes_wraps_witness :
  sector_bytes 8388608 = 0%Z ∧ in_width 32 (sector_bytes 8388608).
Proof.
  destruct (sector_bytes_wraps 8388608) as (_ & [_ H0] & Hr); [unfold in_width; lia|].
  split; [apply H0; by exists 1%Z|exact Hr].
Defined.

(** Addresses not handed out yet hold no port. *)
Definition ports_fresh {O : Type} (s : io_state O) : Prop :=
  ∀ l, io_brk s ≤ l → ports s !! l = None.

(** The life of a completion port.  Creating one yields NULL, when the
    allocation fails, or a new port with the maximum and the timeout set and no
    queue; the ports there were, the devices and the requests stay as they are.
    Associating a device answers 0 and asking for an event answers -1, both
    without effect, so no event is ever delivered.  Destroying the port
    restores the ports there were; destroying it again is a double free. *)
Theorem nova_io_completion_port_life {O : Type} (INFINITE max key timeout : Z)
    (dev : option loc) (s : io_state O) :
  ports_fresh s →
  ∃ p s', nova_io_completion_port_create INFINITE max s = Done (p, s') ∧
    devices s' = devices s ∧ requests s' = requests s ∧ ports_fresh s' ∧
    match p with
    | None => head (io_callocs s) = Some false ∧ ports s' = ports s
    | Some l =>
        ports s !! l = None ∧ ports s' = <[l := Port None max INFINITE]> (ports s) ∧
        nova_io_completion_port_associate p dev key s' = Done (0%Z, s') ∧
        nova_io_completion_port_get_event p timeout s' = Done ((-1)%Z, s') ∧
        ∃ s'', nova_io_completion_port_destroy p s' = Done (0%Z, s'') ∧
          ports s'' = ports s ∧ nova_io_completion_port_destroy p s'' = Undef
    end.
Proof.
  intros Hf. unfold nova_io_completion_port_create, calloc. run.
  destruct (match io_callocs s with [] => true | b :: _ => b end) eqn:Hok.
  - run. bind by (apply the_Some, lookup_insert_eq). run.
    eexists (Some (io_brk s)), _. split; [done|]. cbn. rewrite insert_insert_eq.
    split_and!; try done; [|by apply Hf|].
    { intros l Hl. cbn in *. rewrite lookup_insert_ne by lia. apply Hf. lia. }
    unfold nova_io_completion_port_destroy. run.
    bind by (apply the_Some, lookup_insert_eq). run. eexists. split; [done|]. cbn.
    rewrite delete_insert_id by (by apply Hf). split; [done|]. run. cbn.
    by rewrite (Hf (io_brk s)).
  - eexists None, _. split; [done|]. split_and!; try done.
    by destruct (io_callocs s) as [|[] ?].
Qed.

Lemma nova_io_completion_port_life_witness :
  ∃ s', nova_io_completion_port_create 0xFFFFFFFF 16 (with_disk ram_disk) = Done (Some 10, s') ∧
    ports s' = {[ 10 := Port None 16 0xFFFFFFFF ]}.
Proof.
  destruct (nova_io_completion_port_life 0xFFFFFFFF 16 0 0 None (with_disk ram_disk))
    as (p & s' & Hrun & _ & _ & _ & Hp).
  - by intros l _.
  - injection Hrun as <- <-. eexists. split; [reflexivity|]. apply Hp.
Defined.
End IoRequest.
