(* ===== verification/IoSystem.v ===== *)
(** * The I/O stack as a whole (kernel/io/io_stack.c)

    The registry, the requests, the block transfers and the completion ports
    work on one state.  This file puts their calls together: the transition
    system of all calls and of what callers may do to devices and requests of
    their own, with a driver that keeps the promises of [BlockOpsSafe].  Every
    call completes, keeps the registry a list, and keeps every object a value of
    its C type. *)

From S2P Require Import Prelude CString LinkedList Keeps CType Headers IoRegistry IoRequest.

Module IoSystem.
Import IoRegistry IoRequest.

(** ** The objects as values *)

(** The member of the union that a table was stored through; NULL through any. *)
Definition union_member {O} (t : option (ops_table O)) : string :=
  match t with
  | None | Some (block_ops _) => "block_ops" | Some char_ops => "char_ops"
  | Some net_ops => "net_ops" | Some fb_ops => "fb_ops" | Some input_ops => "input_ops"
  end.

(** The field [prev], which struct nova_device does not declare, is left out. *)
Definition device_val {O} (d : nova_device O) : cval :=
  VStruct [VArray (VInt <$> name d); VArray (VInt <$> path d); VInt (dev_type d);
           VInt (major d); VInt (minor d); VInt (ref_count d); VInt (dev_flags d);
           pointer (private_data d); VUnion (union_member (dev_ops d)) (pointer (dev_ops d));
           pointer (next d);
           pointer (parent d)].

Definition request_val (r : nova_io_request) : cval :=
  VStruct [VInt (req_type r); VInt (status r); pointer (req_device r); VInt (offset r);
           pointer (buffer r); VInt (req_length r); VInt (req_flags r); VInt (timeout_ms r);
           pointer (callback r); pointer (callback_ctx r); pointer (completion r);
           VInt (error_code r)].

Definition port_val (p : nova_io_completion_port) : cval :=
  VStruct [pointer (queue p); VInt (max_events p); VInt (port_timeout_ms p)].

Definition device_typed {O} (d : nova_device O) : Prop :=
  has_type struct_nova_device (device_val d).
Definition request_typed (r : nova_io_request) : Prop :=
  has_type struct_nova_io_request (request_val r).
Definition port_typed (p : nova_io_completion_port) : Prop :=
  has_type struct_nova_io_completion_port (port_val p).

(** Every object has its type, and no request or port is at an address still to
    be handed out. *)
Record io_sound {O} (s : io_state O) : Prop := {
  so_devices : map_Forall (λ _ d, device_typed d) (devices s);
  so_requests : map_Forall (λ _ r, request_typed r) (requests s);
  so_ports : map_Forall (λ _ p, port_typed p) (ports s);
  so_next_major : in_width 32 (g_next_major s);
  so_initialized : int_ok (g_io_initialized s);
  so_lock : int_ok (g_registry_lock s);
  so_fresh_requests : ∀ l, io_brk s ≤ l → requests s !! l = None;
  so_fresh_ports : ports_fresh s;
}.

(** ** The driver *)

(** What the registry relies on in a device. *)
Definition links {O} (d : nova_device O) : option loc * option loc * dev_view :=
  (next d, prev d, view d).

(** submit_io returns an int, leaves the request allocated, and changes devices
    at most where the registry does not look; types are kept. *)
Class BlockOpsSafe (O : Type) `{!BlockOps O} : Prop :=
  submit_io_safe o f dl l r (s : io_state O) :
    op_submit_io o = Some f → is_Some (devices s !! dl) → requests s !! l = Some r →
    ∃ z r' h, f dl l s = Done (z, set_requests (<[l := r']> (requests s)) (set_devices h s)) ∧
      int_ok z ∧ (request_typed r → request_typed r') ∧
      links <$> h = links <$> devices s ∧
      (map_Forall (λ _ d, device_typed d) (devices s) → map_Forall (λ _ d, device_typed d) h).

(** ** All calls *)

Inductive io_call : Type :=
  | CallRegistry (op : io_op)
  | CallAlloc
  | CallFree (req : option loc)
  | CallSubmit (req : option loc)
  | CallWait (req : option loc) (timeout : Z)
  | CallCancel (req : option loc)
  | CallTransfer (write : bool) (dev : option loc) (sector : Z) (buf : option loc) (count : Z)
  | CallPortCreate (max : Z)
  | CallPortDestroy (port : option loc)
  | CallPortAssociate (port dev : option loc) (key : Z)
  | CallPortEvent (port : option loc) (timeout : Z).

Section calls.
Context {O : Type} `{!BlockOps O}.
Variable INFINITE : Z.
Implicit Types (s : io_state O).

(** The return code; 0 where a pointer is returned. *)
Definition exec_call (c : io_call) : M (io_state O) Z :=
  match c with
  | CallRegistry op => o ← exec_op op; mret o.1
  | CallAlloc => nova_io_request_alloc;; mret 0%Z
  | CallFree req => nova_io_request_free req;; mret 0%Z
  | CallSubmit req => nova_io_submit req
  | CallWait req timeout => nova_io_wait req timeout
  | CallCancel req => nova_io_cancel req
  | CallTransfer write dev sector buf count => transfer write dev sector buf count
  | CallPortCreate max => nova_io_completion_port_create INFINITE max;; mret 0%Z
  | CallPortDestroy port => nova_io_completion_port_destroy port
  | CallPortAssociate port dev key => nova_io_completion_port_associate port dev key
  | CallPortEvent port timeout => nova_io_completion_port_get_event port timeout
  end.

(** A device that io_stack.c may hand a request to: if it is a block device, the
    table in its union is NULL or one for block devices. *)
Definition device_ok (d : nova_device O) : Prop :=
  dev_type d = NOVA_DEVICE_BLOCK → is_Some (submit_io_of d).

(** The callers' part, beyond the types: pointers are NULL or point to live
    objects; a device is not registered while it is in the list; when the stack
    is shut down, the devices in the list came from malloc; a request that is
    submitted names a live device; a block device has a table for block devices
    or none; a device that is read from has a table that reaches to
    get_geometry. *)
Definition call_ok s (c : io_call) : Prop :=
  match c with
  | CallRegistry op => ∀ q, holds s q → op_ok q op
  | CallFree (Some l) | CallCancel (Some l) => is_Some (requests s !! l)
  | CallSubmit (Some l) =>
      ∃ r, requests s !! l = Some r ∧
        ∀ dl, req_device r = Some dl → ∃ d, devices s !! dl = Some d ∧ device_ok d
  | CallTransfer write dev sector buf count =>
      in_width 64 sector ∧ in_width 32 count ∧
      ∀ dl, dev = Some dl → ∃ d, devices s !! dl = Some d ∧ device_ok d ∧ (write = false → readable d)
  | CallPortCreate max => in_width 32 max
  | CallPortDestroy (Some l) => is_Some (ports s !! l)
  | _ => True
  end.

(** The stack runs a call; a caller makes, fills in or discards a device of its
    own that is not in the list, or fills in a request it has allocated. *)
Inductive io_step s : io_state O → Prop :=
  | step_call c r s' : call_ok s c → exec_call c s = Done (r, s') → io_step s s'
  | step_device l o :
      (∀ q, holds s q → l ∉ reg q) → from_option device_typed True o →
      io_step s (set_devices (partial_alter (λ _, o) l (devices s)) s)
  | step_request l r :
      is_Some (requests s !! l) → request_typed r →
      io_step s (set_requests (<[l := r]> (requests s)) s).

Definition io_wf s : Prop := io_sound s ∧ ∃ q, holds s q.
End calls.

(** ** What the registry does not see *)

Section frames.
Context {O : Type}.
Implicit Types (s : io_state O) (d : nova_device O) (h : gmap loc (nova_device O)).

Lemma links_lookup h h' l d :
  links <$> h' = links <$> h → h !! l = Some d →
  ∃ d', h' !! l = Some d' ∧ links d' = links d.
Proof.
  intros Heq Hl. assert ((links <$> h') !! l = Some (links d)) as H
    by (by rewrite Heq, lookup_fmap, Hl).
  rewrite lookup_fmap in H. by apply fmap_Some in H as (d' & ? & ?); exists d'.
Qed.

Lemma links_field {A} (f : option loc * option loc * dev_view → A) h h' l :
  links <$> h' = links <$> h → f ∘ links <$> h' !! l = f ∘ links <$> h !! l.
Proof.
  intros Heq. apply (f_equal (λ m, m !! l)) in Heq. rewrite !lookup_fmap in Heq.
  destruct (h' !! l), (h !! l); cbn in *; congruence.
Qed.

Lemma holds_links s q h :
  holds s q → links <$> h = links <$> devices s → holds (set_devices h s) q.
Proof.
  intros [Hst Hmj Hc Hb Hdv Hpa Hlk] Heq. split; try done; cbn.
  - eapply chain_frame; [|exact Hc]. intros l _. by apply (links_field (λ x, x.1.1)).
  - destruct (reg q) as [|a ls]; [done|]. eapply back_ok_frame; [|exact Hb].
    intros l _. by apply (links_field (λ x, x.1.2)).
  - rewrite Hdv. apply map_eq. intros l. rewrite !lookup_fmap. symmetry.
    by apply (links_field (λ x, x.2)).
Qed.

Lemma holds_requests s q m : holds s q → holds (set_requests m s) q.
Proof. intros []. by split. Qed.
Lemma holds_ports s q m : holds s q → holds (set_ports m s) q.
Proof. intros []. by split. Qed.
Lemma holds_brk s q l : holds s q → holds (IoRequest.set_brk l s) q.
Proof. intros []. by split. Qed.
Lemma holds_callocs s q r : holds s q → holds (set_callocs r s) q.
Proof. intros []. by split. Qed.

(** What happens to a device outside the list. *)
Lemma holds_device_alter s q l o :
  holds s q → l ∉ reg q →
  holds (set_devices (partial_alter (λ _, o) l (devices s)) s)
    (Reg (started q) (next_major q) (reg q) (partial_alter (λ _, view <$> o) l (devs q))).
Proof.
  intros [Hst Hmj Hc Hb Hdv Hpa Hlk] Hl.
  assert (∀ l', l' ∈ reg q → l ≠ l') as Hne by (by intros l' Hl' <-).
  split; try done; cbn.
  - eapply chain_frame; [|exact Hc]. intros l' Hl'.
    by rewrite lookup_partial_alter_ne by (by apply Hne).
  - destruct (reg q) as [|a ls]; [done|]. eapply back_ok_frame; [|exact Hb].
    intros l' Hl'. rewrite lookup_partial_alter_ne; [done|]. apply Hne. by constructor.
  - rewrite Hdv. apply map_eq. intros l'. rewrite lookup_fmap.
    destruct (decide (l = l')) as [<-|]; [by rewrite !lookup_partial_alter_eq|].
    by rewrite !lookup_partial_alter_ne, lookup_fmap by done.
  - intros l' Hl'. rewrite lookup_partial_alter_ne by (by apply Hne). by apply Hpa.
Qed.
End frames.
#[export] Hint Resolve holds_requests holds_ports holds_brk holds_callocs : typed.

(** ** Soundness is kept *)

Section sound.
Context {O : Type}.
Implicit Types (s : io_state O) (d : nova_device O).
Abbreviation keep_sound := (keeps (io_sound (O:=O))).

Lemma sound_devices h s :
  map_Forall (λ _ d, device_typed d) h → io_sound s → io_sound (set_devices h s).
Proof. intros Hh []. by split. Qed.
Lemma sound_registry p s : io_sound s → io_sound (set_registry p s).
Proof. intros []. by split. Qed.
Lemma sound_next_major z s : in_width 32 z → io_sound s → io_sound (set_next_major z s).
Proof. intros Hz []. by split. Qed.
Lemma sound_initialized z s : int_ok z → io_sound s → io_sound (set_initialized z s).
Proof. intros Hz []. by split. Qed.
Lemma sound_lock z s : int_ok z → io_sound s → io_sound (set_lock z s).
Proof. intros Hz []. by split. Qed.
Lemma sound_callocs r s : io_sound s → io_sound (set_callocs r s).
Proof. intros []. by split. Qed.

Lemma sound_request_set l r s :
  request_typed r → is_Some (requests s !! l) → io_sound s →
  io_sound (set_requests (<[l := r]> (requests s)) s).
Proof.
  intros Hr [r0 Hl] []. split; try done; cbn.
  - by apply map_Forall_insert_2.
  - intros l' Hl'. rewrite lookup_insert_ne; [by eauto|]. intros ->.
    rewrite so_fresh_requests0 in Hl by done. done.
Qed.
Lemma sound_request_delete l s : io_sound s → io_sound (set_requests (delete l (requests s)) s).
Proof.
  intros []. split; try done; cbn; [by apply map_Forall_delete|].
  intros l' Hl'. apply lookup_delete_None. by right; eauto.
Qed.
Lemma sound_port_set l p s :
  port_typed p → is_Some (ports s !! l) → io_sound s →
  io_sound (set_ports (<[l := p]> (ports s)) s).
Proof.
  intros Hp [p0 Hl] []. split; try done; cbn.
  - by apply map_Forall_insert_2.
  - intros l' Hl'. cbn. rewrite lookup_insert_ne; [by apply so_fresh_ports0|]. intros ->.
    rewrite so_fresh_ports0 in Hl by done. done.
Qed.
Lemma sound_port_delete l s : io_sound s → io_sound (set_ports (delete l (ports s)) s).
Proof.
  intros []. split; try done; cbn; [by apply map_Forall_delete|].
  intros l' Hl'. cbn. apply lookup_delete_None. by right; apply so_fresh_ports0.
Qed.

(** A fresh object. *)
Lemma sound_request_new r s :
  request_typed r → io_sound s →
  io_sound (set_requests (<[io_brk s := r]> (requests s)) (set_brk (S (io_brk s)) s)).
Proof.
  intros Hr []. split; try done; cbn.
  - by apply map_Forall_insert_2.
  - intros l Hl. rewrite lookup_insert_ne by lia. apply so_fresh_requests0. lia.
  - intros l Hl. cbn in *. apply so_fresh_ports0. lia.
Qed.
Lemma sound_port_new p s :
  port_typed p → io_sound s →
  io_sound (set_ports (<[io_brk s := p]> (ports s)) (set_brk (S (io_brk s)) s)).
Proof.
  intros Hr []. split; try done; cbn.
  - by apply map_Forall_insert_2.
  - intros l Hl. apply so_fresh_requests0. lia.
  - intros l Hl. cbn in *. rewrite lookup_insert_ne by lia. apply so_fresh_ports0. lia.
Qed.
Hint Resolve sound_registry sound_next_major sound_initialized sound_lock : typed.

(** ** The registry *)

Lemma get_device_sound l : keep_sound (get_device l) device_typed.
Proof.
  unfold get_device. keep_state s Hs. apply keeps_the. intros d. apply (so_devices s Hs).
Qed.
Hint Resolve get_device_sound : typed.

Lemma put_device_sound l d : device_typed d → keep_sound (put_device l d) (λ _, True).
Proof.
  intros Hd. unfold put_device. keep. apply keeps_modify. intros s Hs.
  apply sound_devices, Hs. by apply map_Forall_insert_2, Hs.
Qed.
Lemma free_device_sound l : keep_sound (free_device l) (λ _, True).
Proof.
  unfold free_device. keep; [|apply keeps_undef]. apply keeps_modify. intros s Hs.
  apply sound_devices, Hs. by apply map_Forall_delete, Hs.
Qed.
Lemma io_get_next_sound l : keep_sound (get_next l) (λ _, True).
Proof. unfold get_next. keep. Qed.
Hint Resolve put_device_sound free_device_sound io_get_next_sound : typed.

Lemma io_set_next_typed p d : device_typed d → device_typed (set_node_next p d).
Proof.
  intros (?&?&?&?&?&?&?&?&?&?&?&?).
  by repeat (split; [first [assumption | apply pointer_typed]|]).
Qed.
Lemma io_set_prev_typed p d : device_typed d → device_typed (set_prev p d).
Proof. done. Qed.
Lemma io_set_major_typed z d : in_width 32 z → device_typed d → device_typed (set_major z d).
Proof. intros Hz (?&?&?&?&?&?&?&?&?&?&?&?). by repeat (split; [assumption|]). Qed.
Hint Resolve io_set_next_typed io_set_prev_typed io_set_major_typed : typed.

Lemma lock_registry_sound : keep_sound lock_registry (λ _, True).
Proof. unfold lock_registry. cbn [spin]. unfold test_and_set. keep. apply keeps_no_fuel. Qed.
Lemma unlock_registry_sound : keep_sound unlock_registry (λ _, True).
Proof. unfold unlock_registry. keep. Qed.
Hint Resolve lock_registry_sound unlock_registry_sound : typed.

Lemma nova_io_init_sound : keep_sound nova_io_init int_ok.
Proof. unfold nova_io_init. keep. Qed.

Lemma free_all_sound fuel p : keep_sound (free_all fuel p) (λ _, True).
Proof.
  revert p. induction fuel as [|fuel IH]; intros [l|]; cbn [free_all]; keep.
  apply keeps_no_fuel.
Qed.
Hint Resolve free_all_sound : typed.

Lemma nova_io_shutdown_sound : keep_sound nova_io_shutdown int_ok.
Proof. unfold nova_io_shutdown. keep. Qed.

Lemma number_device_sound l d : device_typed d → keep_sound (number_device l d) (λ _, True).
Proof.
  intros Hd. unfold number_device. case_decide; [|keep]. keep_state s Hs.
  pose proof (so_next_major s Hs). keep.
Qed.
Hint Resolve number_device_sound : typed.

Lemma nova_device_register_sound p : keep_sound (nova_device_register p) int_ok.
Proof. unfold nova_device_register. keep. Qed.

Lemma unlink_next_sound p q : keep_sound (unlink_next p q) (λ _, True).
Proof. unfold unlink_next. keep. Qed.
Lemma unlink_prev_sound p q : keep_sound (unlink_prev p q) (λ _, True).
Proof. unfold unlink_prev. keep. Qed.
Hint Resolve unlink_next_sound unlink_prev_sound : typed.

Lemma nova_device_unregister_sound p : keep_sound (nova_device_unregister p) int_ok.
Proof.
  unfold nova_device_unregister. destruct p as [l|]; [|keep].
  eapply keeps_bind; [apply lock_registry_sound|]. intros _ _. keep_state s Hs.
  eapply keeps_bind.
  { apply (keeps_walk _ (λ _, True) int_ok); [apply io_get_next_sound|done|].
    intros a l' _. unfold unregister_step. keep. }
  intros [r|u] Hr; keep.
Qed.

Lemma search_sound test : keep_sound (search test) (λ _, True).
Proof.
  unfold search. eapply keeps_bind; [apply lock_registry_sound|]. intros _ _.
  keep_state s Hs. eapply keeps_bind.
  { apply (keeps_walk _ (λ _, True) (λ _, True)); [apply io_get_next_sound|done|].
    intros a l' _. unfold search_step. keep. }
  intros [r|u] Hr; keep.
Qed.

Lemma registry_op_sound op : keep_sound (exec_op op) (λ o, int_ok o.1).
Proof.
  pose proof search_sound as Hsearch.
  destruct op as [| |p|p|[p|]|mj mn]; cbn [exec_op]; try (apply (keeps_reply _ _ _ int_ok)).
  - apply nova_io_init_sound.
  - apply nova_io_shutdown_sound.
  - apply nova_device_register_sound.
  - apply nova_device_unregister_sound.
  - unfold nova_device_find. keep.
  - unfold nova_device_find. keep.
  - unfold nova_device_get_by_major_minor. keep.
Qed.
End sound.

(** ** Every call completes *)

Section complete.
Context {O : Type} `{!BlockOps O} `{!BlockOpsSafe O}.
Variable INFINITE : Z.
Hypothesis INFINITE_width : in_width 32 INFINITE.
Implicit Types (s : io_state O).

(** Call [m] completes from [s] in a well-formed state, with an int. *)
Definition completes (m : M (io_state O) Z) s : Prop :=
  ∃ z s', m s = Done (z, s') ∧ io_wf s' ∧ int_ok z.

Lemma answers z m s : io_wf s → int_ok z → m s = Done (z, s) → completes m s.
Proof. intros Hwf Hz Hm. by exists z, s. Qed.

Lemma wf_request s l r :
  request_typed r → is_Some (requests s !! l) → io_wf s →
  io_wf (set_requests (<[l := r]> (requests s)) s).
Proof.
  intros Hr Hl [Hs [q Hq]]. split; [by apply sound_request_set|].
  exists q. by apply holds_requests.
Qed.

Lemma wf_request_delete s l : io_wf s → io_wf (set_requests (delete l (requests s)) s).
Proof.
  intros [Hs [q Hq]]. split; [by apply sound_request_delete|].
  exists q. by apply holds_requests.
Qed.

Lemma wf_callocs s r : io_wf s → io_wf (set_callocs r s).
Proof. intros [Hs [q Hq]]. split; [by apply sound_callocs|]. exists q. by apply holds_callocs. Qed.

Lemma wf_allocated s r : request_typed r → io_wf s → io_wf (allocated r s).
Proof.
  intros Hr [Hs [q Hq]]. split.
  - apply (sound_request_new r (set_callocs (tail (io_callocs s)) s) Hr). by apply sound_callocs.
  - exists q. by apply holds_requests, holds_brk, holds_callocs.
Qed.

Lemma request_of s l r : io_wf s → requests s !! l = Some r → request_typed r.
Proof. intros [Hs _]. apply (so_requests s Hs). Qed.

Lemma set_status_typed z e r :
  int_ok z → int_ok e → request_typed r → request_typed (set_status z e r).
Proof.
  intros Hz He (?&?&?&?&?&?&?&?&?&?&?&?&?). by repeat (split; [assumption|]).
Qed.

Lemma request_error r : request_typed r → int_ok (error_code r).
Proof. by intros (?&?&?&?&?&?&?&?&?&?&?&?&?). Qed.

(** *** The registry *)

Lemma registry_completes op s :
  io_wf s → call_ok s (CallRegistry op) → completes (o ← exec_op op; mret o.1) s.
Proof.
  intros [Hs [q Hq]] Hok. destruct (op_refines op s q Hq (Hok q Hq)) as (o & s' & q' & Hr & _ & Hq').
  destruct (registry_op_sound op s o s' Hs Hr) as [Hs' Hz].
  exists o.1, s'. split; [by bind Hr|]. split; [|done]. split; [done|by exists q'].
Qed.

(** *** Requests *)

Lemma nova_io_request_alloc_wf s :
  io_wf s → ∃ p s', nova_io_request_alloc s = Done (p, s') ∧ io_wf s'.
Proof.
  intros Hwf. destruct (next_alloc (io_callocs s)) eqn:Ha.
  - eexists _, _. split; [by apply nova_io_request_alloc_run|]. apply wf_allocated; [|done].
    by vm_compute.
  - exists None, (set_callocs (tail (io_callocs s)) s). split; [|by apply wf_callocs].
    unfold nova_io_request_alloc, calloc, next_alloc in *. run.
    by destruct (io_callocs s) as [|[] ?].
Qed.

Lemma nova_io_request_free_wf l s :
  io_wf s → is_Some (requests s !! l) →
  ∃ s', nova_io_request_free (Some l) s = Done (tt, s') ∧ io_wf s'.
Proof.
  intros Hwf [r Hr]. unfold nova_io_request_free. bind (get_request_run _ _ _ Hr).
  eexists. split; [done|]. by apply wf_request_delete.
Qed.

Lemma submit_fails_wf l r s :
  io_wf s → requests s !! l = Some r →
  ∃ s', submit_fails l s = Done ((-1)%Z, s') ∧ io_wf s' ∧ is_Some (requests s' !! l).
Proof.
  intros Hwf Hr. unfold submit_fails. bind (get_request_run _ _ _ Hr).
  bind (put_request_run _ _ _ _ Hr). eexists. split; [done|]. split.
  - apply wf_request; [|by eexists|done]. apply set_status_typed; [done..|].
    by eapply request_of.
  - eexists. apply lookup_insert_eq.
Qed.

(** A submission leaves the request allocated. *)
Lemma nova_io_submit_wf l r s :
  io_wf s → requests s !! l = Some r →
  (∀ dl, req_device r = Some dl → ∃ d, devices s !! dl = Some d ∧ device_ok d) →
  ∃ z s', nova_io_submit (Some l) s = Done (z, s') ∧ io_wf s' ∧ int_ok z ∧
    is_Some (requests s' !! l).
Proof.
  intros Hwf Hr Hdev. pose proof (submit_fails_wf l r s Hwf Hr) as (sf & Hf & Hwff & Hlf).
  unfold nova_io_submit. bind (get_request_run _ _ _ Hr).
  destruct (req_device r) as [dl|] eqn:Hdl; [|by exists (-1)%Z, s].
  destruct (buffer r); [|by exists (-1)%Z, s].
  destruct (Hdev dl eq_refl) as (d & Hd & Hok). bind (get_device_run _ _ _ Hd).
  case_decide as Ht; [|by exists (-1)%Z, sf].
  destruct (Hok Ht) as [f Hop]. bind (the_Some _ _ _ Hop).
  destruct f as [f|]; [|by exists (-1)%Z, sf].
  apply submit_io_of_table in Hop as (o & _ & Ho).
  destruct (submit_io_safe o f dl l r s Ho ltac:(by eexists) Hr)
    as (z & r' & h & Hrun & Hz & Hr' & Hlinks & Hh).
  exists z. eexists. split; [exact Hrun|]. destruct Hwf as [Hs [q Hq]]. split_and!; [|done|].
  - split; [|exists q; by apply holds_requests, holds_links].
    apply (sound_request_set l r' (set_devices h s)); [|by eexists|].
    + apply Hr', (so_requests s Hs l r Hr).
    + apply sound_devices, Hs. apply Hh, Hs.
  - eexists. apply lookup_insert_eq.
Qed.

Lemma nova_io_cancel_completes l s :
  io_wf s → is_Some (requests s !! l) → completes (nova_io_cancel (Some l)) s.
Proof.
  intros Hwf [r Hr]. unfold completes, nova_io_cancel. bind (get_request_run _ _ _ Hr).
  case_decide; [by exists (-1)%Z, s|]. bind (put_request_run _ _ _ _ Hr).
  eexists 0%Z, _. split; [done|]. split; [|done].
  apply wf_request; [|by eexists|done]. pose proof (request_of s l r Hwf Hr).
  apply set_status_typed; [done|by apply request_error|done].
Qed.

(** *** Transfers *)

Lemma submit_and_wait_completes l r s :
  io_wf s → requests s !! l = Some r →
  (∀ dl, req_device r = Some dl → ∃ d, devices s !! dl = Some d ∧ device_ok d) →
  completes (submit_and_wait l) s.
Proof.
  intros Hwf Hr Hdev.
  destruct (nova_io_submit_wf l r s Hwf Hr Hdev) as (z & s1 & Hsub & Hwf1 & Hz & [r1 Hr1]).
  eexists _, _. split; [by apply (submit_and_wait_run l z r1 s1)|].
  split; [by apply wf_request_delete|]. unfold transfer_result.
  repeat case_decide; [done| |done]. by apply request_error, (request_of s1 l).
Qed.

Lemma transfer_request_typed write dl bl sector count :
  in_width 64 sector → in_width 32 count →
  request_typed (transfer_request write dl bl sector count).
Proof.
  intros Hsec Hc. pose proof (u32_width (count * 512)) as [Hlo Hhi].
  split; [by destruct write|]. split; [done|]. split; [done|]. split; [done|]. split; [done|].
  split; [|by repeat split]. split; [done|]. etransitivity; [exact Hhi|]. done.
Qed.

Lemma transfer_completes write dev sector buf count s :
  io_wf s → call_ok s (CallTransfer write dev sector buf count) →
  completes (transfer write dev sector buf count) s.
Proof.
  intros Hwf (Hsec & Hcount & Hdev).
  assert (∀ p, dev = None ∨ buf = None ∨ count = 0%Z →
    transfer write dev sector buf count p = Done ((-1)%Z, p)) as Hrefuse.
  { intros p Hno. destruct write, dev, buf; cbn; try done; (rewrite decide_True; [done|]); naive_solver. }
  destruct dev as [dl|]; [|by eapply answers; [| |apply Hrefuse; auto]].
  destruct buf as [bl|]; [|by eapply answers; [| |apply Hrefuse; auto]].
  destruct (decide (count = 0)%Z) as [H0|H0]; [by eapply answers; [| |apply Hrefuse; auto]|].
  destruct (Hdev dl eq_refl) as (d & Hd & Hok & Hops).
  destruct (next_alloc (io_callocs s)) eqn:Ha.
  - unfold completes. rewrite (transfer_run write dl bl sector count d) by done.
    eapply submit_and_wait_completes; [|apply lookup_insert_eq|].
    + by apply wf_allocated; [apply transfer_request_typed|].
    + intros dl' [= <-]. by exists d.
  - exists (-1)%Z, (set_callocs (tail (io_callocs s)) s).
    split; [|split; [by apply wf_callocs|done]].
    destruct write; cbn [transfer];
      [unfold nova_block_write_sectors|unfold nova_block_read_sectors];
      rewrite decide_False by done; unfold nova_io_request_alloc, calloc, next_alloc in *; run;
      by destruct (io_callocs s) as [|[] ?].
Qed.

(** *** Completion ports *)

Lemma nova_io_completion_port_create_wf max s :
  in_width 32 max → io_wf s →
  ∃ p s', nova_io_completion_port_create INFINITE max s = Done (p, s') ∧ io_wf s'.
Proof.
  intros Hmax Hwf. unfold nova_io_completion_port_create, calloc. run.
  pose proof (wf_callocs s (tail (io_callocs s)) Hwf) as [Hs [q Hq]].
  destruct (match io_callocs s with [] => true | b :: _ => b end);
    [|eexists None, _; split; [done|by apply wf_callocs]].
  run. bind by (apply the_Some, lookup_insert_eq). run. eexists _, _. split; [done|].
  assert (port_typed (Port None max INFINITE)) as Hp by by split_and!.
  split; [|exists q; by apply holds_ports, holds_ports, holds_brk].
  change (io_sound (set_ports (<[io_brk s := Port None max INFINITE]>
    (<[io_brk s := Port None 0 0]> (ports s)))
    (set_brk (S (io_brk s)) (set_callocs (tail (io_callocs s)) s)))).
  rewrite insert_insert_eq.
  by apply (sound_port_new _ (set_callocs (tail (io_callocs s)) s)).
Qed.

Lemma nova_io_completion_port_destroy_completes l s :
  io_wf s → is_Some (ports s !! l) → completes (nova_io_completion_port_destroy (Some l)) s.
Proof.
  intros [Hs [q Hq]] [p Hp]. unfold completes, nova_io_completion_port_destroy. run.
  bind (the_Some _ _ _ Hp). run. eexists _, _. split; [done|]. split; [|done].
  split; [by apply sound_port_delete|]. exists q. by apply holds_ports.
Qed.

(** *** All calls and steps *)

Lemma then_zero {A} (m : M (io_state O) A) s :
  (∃ a s', m s = Done (a, s') ∧ io_wf s') → completes (m;; mret 0%Z) s.
Proof. intros (a & s' & Hm & Hwf). exists 0%Z, s'. split; [by bind Hm|done]. Qed.

Lemma io_call_completes c s :
  io_wf s → call_ok s c → completes (exec_call INFINITE c) s.
Proof using BlockOpsSafe0 INFINITE_width.
  intros Hwf Hok.
  destruct c as [op| |[l|]|[l|]|req t|[l|]|write dev sector buf count|max|[l|]|p dev key|p t];
    cbn [exec_call]; try (by eexists _, s; split; [reflexivity|]).
  - by apply registry_completes.
  - by apply then_zero, nova_io_request_alloc_wf.
  - destruct (nova_io_request_free_wf l s Hwf Hok) as (s' & Hr & Hwf').
    apply then_zero. by exists tt, s'.
  - destruct Hok as (r & Hr & Hdev).
    destruct (nova_io_submit_wf l r s Hwf Hr Hdev) as (z & s' & ? & ? & ? & _). by exists z, s'.
  - by apply nova_io_cancel_completes.
  - by apply transfer_completes.
  - by apply then_zero, nova_io_completion_port_create_wf.
  - by apply nova_io_completion_port_destroy_completes.
Qed.

Lemma io_step_wf s s' : io_wf s → io_step INFINITE s s' → io_wf s'.
Proof using BlockOpsSafe0 INFINITE_width.
  intros Hwf [c r s1 Hok Hrun|l o Hl Ho|l r Hl Hr].
  - destruct (io_call_completes c s Hwf Hok) as (z & s2 & Hrun' & Hwf' & _). congruence.
  - destruct Hwf as [Hs [q Hq]]. split; [|eexists; by apply holds_device_alter, Hl].
    apply sound_devices, Hs. intros l' d.
    destruct (decide (l = l')) as [<-|]; [by rewrite lookup_partial_alter_eq; intros ->|].
    rewrite lookup_partial_alter_ne by done. apply (so_devices s Hs).
  - by apply wf_request.
Qed.
End complete.

(** ** A sample state *)

#[export] Instance disk_ops_safe : BlockOpsSafe disk_ops.
Proof.
  intros o f dl l r s [= <-] _ Hr. destruct o; cbv beta match.
  - unfold complete_io. bind (get_request_run _ _ _ Hr). bind (put_request_run _ _ _ _ Hr).
    exists 0%Z, (set_status NOVA_IO_SUCCESS 0 r), (devices s). split; [by destruct s|].
    split; [done|]. split; [|done]. by apply set_status_typed.
  - unfold queue_io. bind (get_request_run _ _ _ Hr). exists 0%Z, r, (devices s).
    rewrite insert_id by done. by destruct s.
Qed.

Definition ram0 : nova_device disk_ops :=
  Device (cstr "disk" ++ replicate 59 0%Z) (cstr "/dev/disk0" ++ replicate 117 0%Z)
    NOVA_DEVICE_BLOCK 0 0 0 0 None (Some (block_ops ram_disk)) None None None true.

Definition power_on : io_state disk_ops :=
  IoState None 1 0 0 ∅ ∅ ∅ 10 [].

Lemma ram0_typed : device_typed ram0.
Proof.
  do 8 (split; [by repeat constructor|]). split; [|by repeat split]. by right; left.
Qed.

Lemma power_on_wf : io_wf power_on.
Proof.
  split; [by split|]. exists (Reg false 1 [] ∅). split; try done. by intros l ?%elem_of_nil.
Qed.

(** * Properties *)

(** C9. The I/O stack is safe and type safe for callers that keep their part
    ([call_ok]).  They pass NULL or pointers to live objects; they do not register
    a device while it is in the list; they shut the stack down only while every
    device in the list came from malloc; they submit requests for live devices; a
    block device of theirs has a table for block devices or none; and they read
    sectors only of devices whose table reaches to get_geometry.  Then, whatever
    calls of the registry, of the request functions, of the block transfers and
    of the completion ports have been made, in any order, whatever devices outside
    the list callers have made, filled in or discarded and whatever they have
    written into requests, with any block driver that answers an int and leaves
    the list alone: the next call completes without undefined behaviour, returns
    an int, and leaves the lock free, the registry a list and every device,
    request and port a value of its C type.  The
    conditions are needed: without them a call can be undefined, as
    nova_device_double_register, nova_io_shutdown_frees, nova_io_request_life and
    nova_block_transfer_refused show. *)
Theorem nova_io_safe {O : Type} `{!BlockOps O} `{!BlockOpsSafe O} (INFINITE : Z)
    (s s' : io_state O) (c : io_call) :
  in_width 32 INFINITE → io_wf s → rtc (io_step INFINITE) s s' → call_ok s' c →
  ∃ z s'', exec_call INFINITE c s' = Done (z, s'') ∧ io_wf s'' ∧ int_ok z ∧
    g_registry_lock s'' = 0%Z.
Proof.
  intros Hinf Hwf Hsteps Hok.
  pose proof (rtc_invariant _ _ (io_step_wf INFINITE Hinf) _ _ Hsteps Hwf) as Hwf'.
  destruct (io_call_completes INFINITE Hinf c s' Hwf' Hok) as (z & s'' & Hrun & Hwf'' & Hz).
  exists z, s''. split_and!; [done|done|done|]. destruct Hwf'' as [_ [q Hq]]. by eapply holds_lock.
Qed.

Lemma nova_io_safe_witness :
  let s := set_devices (partial_alter (λ _, Some ram0) 1 (devices power_on)) power_on in
  rtc (io_step 0xFFFFFFFF) power_on s ∧
  ∃ z s'', exec_call 0xFFFFFFFF (CallTransfer false (Some 1) 7 (Some 5) 8) s = Done (z, s'') ∧
    io_wf s'' ∧ int_ok z ∧ g_registry_lock s'' = 0%Z.
Proof.
  assert (∀ q, holds power_on q → 1 ∉ reg q) as Hnew.
  { intros q Hq. pose proof (holds_chain _ _ Hq) as Hc.
    destruct (reg q); [by intros ?%elem_of_nil|by destruct Hc]. }
  pose proof (rtc_once _ _ (step_device 0xFFFFFFFF power_on 1 (Some ram0) Hnew ram0_typed)) as H.
  split; [exact H|].
  apply (nova_io_safe 0xFFFFFFFF power_on _ (CallTransfer false (Some 1) 7 (Some 5) 8));
    [done|exact power_on_wf|exact H|].
  split; [done|]. split; [done|]. intros dl [= <-]. exists ram0. split; [reflexivity|]. split; [by intros _; eexists|].
  intros _. by eexists; split.
Defined.
End IoSystem.
