(* ===== verification/Concurrent.v ===== *)
(** * Threads that share a state under one spin lock

    Calls of a component whose operations take a lock are run by any number of
    threads, interleaved at single memory accesses.  A critical section is a
    program over atomic accesses; the machine below runs one access of one
    thread at a time.  The theorems say that such an execution is equivalent to
    running the calls one after the other in the order in which they took the
    lock, and that it can always be finished. *)

From S2P Require Import Prelude.

(** ** Programs over atomic accesses *)

Inductive prog (S A : Type) : Type :=
  | Ret (a : A)
  | Act {B : Type} (m : M S B) (k : B → prog S A).
Arguments Ret {S A} a.
Arguments Act {S A B} m k.

#[export] Instance prog_ret {S : Type} : MRet (prog S) := λ A a, Ret a.
#[export] Instance prog_bind {S : Type} : MBind (prog S) := λ A B k,
  fix go p := match p with Ret a => k a | Act m k' => Act m (λ b, go (k' b)) end.

(** One access. *)
Definition access {S A} (m : M S A) : prog S A := Act m Ret.

(** A program run without interruption. *)
Fixpoint exec {S A} (p : prog S A) : M S A :=
  match p with Ret a => mret a | Act m k => b ← m; exec (k b) end.

(** The next access of a program, if it has not ended. *)
Definition next_access {S A} (p : prog S A) : option (M S (prog S A)) :=
  match p with Ret _ => None | Act m k => Some (b ← m; mret (k b)) end.

(** Every access of a program has property [P]. *)
Fixpoint accesses {S A} (P : ∀ B, M S B → Prop) (p : prog S A) : Prop :=
  match p with Ret _ => True | Act m k => P _ m ∧ ∀ b, accesses P (k b) end.

Section prog.
Context {S : Type}.

Lemma exec_bind {A B} (p : prog S A) (k : A → prog S B) s :
  exec (p ≫= k) s = (exec p ≫= λ a, exec (k a)) s.
Proof.
  revert s. induction p as [a|B' m k' IH]; intros s; [done|].
  change (exec (Act m k' ≫= k) s) with ((m ≫= λ b, exec (k' b ≫= k)) s). cbn [exec].
  rewrite bind_assoc. unfold mbind at 1 3, M_bind. destruct (m s) as [[b s']| |]; [|done..].
  apply IH.
Qed.

Lemma exec_access {A} (m : M S A) s : exec (access m) s = m s.
Proof. cbn. unfold mbind, M_bind. by destruct (m s) as [[]| |]. Qed.

Lemma accesses_bind {A B} P (p : prog S A) (k : A → prog S B) :
  accesses P p → (∀ a, accesses P (k a)) → accesses P (p ≫= k).
Proof.
  induction p as [a|B' m k' IH]; intros Hp Hk; [apply Hk|].
  destruct Hp as [Hm Hp]. split; [done|]. intros b. by apply IH.
Qed.

Lemma accesses_access {A} (P : ∀ B, M S B → Prop) (m : M S A) : P _ m → accesses P (access m).
Proof. intros Hm. by split. Qed.

Lemma next_access_exec {A} (p : prog S A) m s a s1 :
  next_access p = Some m → exec p s = Done (a, s1) →
  ∃ p' s', m s = Done (p', s') ∧ exec p' s' = Done (a, s1).
Proof.
  destruct p as [|B m' k]; [done|]. intros [= <-] (b & s' & Hm & Hk)%bind_Done_inv.
  exists (k b), s'. split; [|done]. by bind Hm.
Qed.

Lemma next_access_accesses {A} P (p : prog S A) m s p' s' :
  next_access p = Some m → accesses P p → m s = Done (p', s') →
  accesses P p' ∧ ∃ B (m0 : M S B) b, P B m0 ∧ m0 s = Done (b, s').
Proof.
  destruct p as [|B m' k]; [done|]. intros [= <-] [Hm Hk] (b & s1 & Hr & Hd)%bind_Done_inv.
  injection Hd as <- <-. split; [apply Hk|]. by exists B, m', b.
Qed.
End prog.

(** ** The interface of a locked component *)

(** [lock] and [set_lock]: the lock variable; [guard]: the tests a call makes
    before it takes the lock, answering [Some] when they end the call; [crit]:
    what it does between taking and releasing the lock. *)
Class Locked (S Op Obs : Type) := {
  lock : S → Z;
  set_lock : Z → S → S;
  guard : Op → M S (option Obs);
  crit : Op → prog S Obs;
}.

(** What the component promises: one call at a time, it refines [spec]; the
    part [frame] of the state decides the guards, and no access under the lock
    changes it or the lock.  [ready q ops]: the callers may make the calls [ops]
    in any order from [q] on. *)
Class LockedOk (S Op Obs : Type) `{!Locked S Op Obs} {Sp F : Type}
    (spec : Op → Sp → Obs * Sp) (holds : S → Sp → Prop) (frame : S → F)
    (ready : Sp → list Op → Prop) : Prop := {
  lock_set z s : lock (set_lock z s) = z;
  set_lock_lock s : set_lock (lock s) s = s;
  set_lock_set y z s : set_lock z (set_lock y s) = set_lock z s;
  frame_set z s : frame (set_lock z s) = frame s;
  holds_free s q : holds s q → lock s = 0%Z;
  ready_perm q ops ops' : ops ≡ₚ ops' → ready q ops → ready q ops';
  ready_next q op ops : ready q (op :: ops) → ready (spec op q).2 ops;
  guard_frame op s s' g :
    frame s = frame s' → guard op s = Done (g, s) → guard op s' = Done (g, s');
  guard_ok op ops s q :
    holds s q → ready q (op :: ops) →
    ∃ g, guard op s = Done (g, s) ∧ ∀ o, g = Some o → spec op q = (o, q);
  crit_ok op ops s q :
    holds s q → ready q (op :: ops) → guard op s = Done (None, s) →
    ∃ o s' q', exec (crit op) (set_lock 1 s) = Done (o, s') ∧ spec op q = (o, q') ∧
      holds (set_lock 0 s') q';
  crit_keeps op :
    accesses (λ B m, ∀ s b s', m s = Done (b, s') → lock s' = lock s ∧ frame s' = frame s)
      (crit op);
}.

(** ** The machine *)

Section machine.
Context {S Op Obs : Type} `{!Locked S Op Obs}.

(** Where a thread is: between calls, in the loop of the lock for a call, or
    inside the critical section with the rest of it to run. *)
Inductive place : Type := Idle | Spinning (op : Op) | Inside (op : Op) (p : prog S Obs).

Record thread : Type := Thread {
  script : list Op;
  at_place : place;
  results : list (Op * Obs);
}.

(** [order]: the calls with their threads, in the order in which they took the
    lock (a call that its guard ends, in the order of that test). *)
Record config : Type := Config {
  mem : S;
  threads : list thread;
  order : list (nat * Op);
}.

Definition boot (s : S) (scripts : list (list Op)) : config :=
  Config s ((λ ops, Thread ops Idle []) <$> scripts) [].

Inductive step (c : config) : config → Prop :=
  | step_refuse i op ops rs o s :
      threads c !! i = Some (Thread (op :: ops) Idle rs) →
      guard op (mem c) = Done (Some o, s) →
      step c (Config s (<[i := Thread ops Idle (rs ++ [(op, o)])]> (threads c))
        (order c ++ [(i, op)]))
  | step_call i op ops rs s :
      threads c !! i = Some (Thread (op :: ops) Idle rs) →
      guard op (mem c) = Done (None, s) →
      step c (Config s (<[i := Thread ops (Spinning op) rs]> (threads c)) (order c))
  | step_spin i op ops rs :
      threads c !! i = Some (Thread ops (Spinning op) rs) → lock (mem c) ≠ 0%Z →
      step c (Config (set_lock 1 (mem c)) (threads c) (order c))
  | step_enter i op ops rs :
      threads c !! i = Some (Thread ops (Spinning op) rs) → lock (mem c) = 0%Z →
      step c (Config (set_lock 1 (mem c))
        (<[i := Thread ops (Inside op (crit op)) rs]> (threads c)) (order c ++ [(i, op)]))
  | step_access i op p ops rs m p' s :
      threads c !! i = Some (Thread ops (Inside op p) rs) → next_access p = Some m →
      m (mem c) = Done (p', s) →
      step c (Config s (<[i := Thread ops (Inside op p') rs]> (threads c)) (order c))
  | step_leave i op o ops rs :
      threads c !! i = Some (Thread ops (Inside op (Ret o)) rs) →
      step c (Config (set_lock 0 (mem c))
        (<[i := Thread ops Idle (rs ++ [(op, o)])]> (threads c)) (order c)).

(** A thread whose next access is undefined or does not end. *)
Definition faulty (c : config) : Prop :=
  ∃ i t, threads c !! i = Some t ∧
    match at_place t with
    | Idle => ∃ op ops, script t = op :: ops ∧ ∀ r, guard op (mem c) ≠ Done r
    | Spinning _ => False
    | Inside _ p => ∃ m, next_access p = Some m ∧ ∀ r, m (mem c) ≠ Done r
    end.

(** The calls a thread has still to order. *)
Definition pending (t : thread) : list Op :=
  match at_place t with Spinning op => [op] | _ => [] end ++ script t.

Definition finished (c : config) : Prop :=
  ∀ i t, threads c !! i = Some t → at_place t = Idle ∧ script t = [].
End machine.
Arguments place : clear implicits.
Arguments thread : clear implicits.
Arguments config : clear implicits.

(** ** The order of the calls explains an execution *)

(** The calls of thread [i] in the order, with the answers [obs] to the calls of
    the whole order. *)
Definition done_by {Op Obs} (i : nat) (order : list (nat * Op)) (obs : list Obs) : list (Op * Obs) :=
  snd <$> filter (λ x, x.1 = i) (zip_with (λ c o, (c.1, (c.2, o))) order obs).

Lemma done_by_snoc {Op Obs} i j (order : list (nat * Op)) (obs : list Obs) op o :
  length order = length obs →
  done_by i (order ++ [(j, op)]) (obs ++ [o]) =
    done_by i order obs ++ (if decide (j = i) then [(op, o)] else []).
Proof.
  intros Hl. unfold done_by. rewrite zip_with_app by done.
  rewrite filter_app, fmap_app. f_equal. cbn [zip_with fst snd].
  destruct (decide (j = i)) as [->|Hne].
  - by rewrite filter_cons_True.
  - by rewrite filter_cons_False.
Qed.

Section spec_order.
Context {Op Obs Sp : Type} (spec : Op → Sp → Obs * Sp).

Lemma spec_trace_length ops q : length (spec_trace spec ops q).1 = length ops.
Proof.
  revert q. induction ops as [|op ops IH]; intros q; [done|]. cbn [spec_trace].
  destruct (spec op q) as [o q1]. specialize (IH q1).
  destruct (spec_trace spec ops q1). cbn in *. by rewrite IH.
Qed.

Lemma spec_trace_snoc ops op q os q1 o q2 :
  spec_trace spec ops q = (os, q1) → spec op q1 = (o, q2) →
  spec_trace spec (ops ++ [op]) q = (os ++ [o], q2).
Proof.
  revert q os. induction ops as [|x ops IH]; intros q os; cbn [app spec_trace].
  { intros [= <- <-] ->. done. }
  destruct (spec x q) as [y qx]. destruct (spec_trace spec ops qx) as [os' q'] eqn:E.
  intros [= <- <-] Ho. by rewrite (IH _ _ E Ho).
Qed.
End spec_order.

Section atomicity.
Context {S Op Obs : Type} `{!Locked S Op Obs} {Sp F : Type}.
Context (spec : Op → Sp → Obs * Sp) (holds : S → Sp → Prop) (frame : S → F)
  (ready : Sp → list Op → Prop) `{!LockedOk S Op Obs spec holds frame ready}.
Context (q0 : Sp) (scripts : list (list Op)).
Implicit Types (s : S) (t : thread S Op Obs) (c : config S Op Obs).

Definition keeps {B} (m : M S B) : Prop :=
  ∀ s b s', m s = Done (b, s') → lock s' = lock s ∧ frame s' = frame s.

Definition inside t : Prop := match at_place t with Inside _ _ => True | _ => False end.

(** What is true of a thread that the order has given the calls [past]. *)
Definition thread_ok s (q : Sp) (past : list (Op * Obs)) t : Prop :=
  match at_place t with
  | Idle => past = results t
  | Spinning op => past = results t ∧ guard op s = Done (None, s)
  | Inside op p => lock s = 1%Z ∧ accesses (@keeps) p ∧
      ∃ o s1, exec p s = Done (o, s1) ∧ holds (set_lock 0 s1) q ∧
        past = results t ++ [(op, o)]
  end.

Definition waiting (ts : list (thread S Op Obs)) : list Op := mjoin (pending <$> ts).

Record inv c (obs : list Obs) (q : Sp) : Prop := {
  inv_trace : spec_trace spec (order c).*2 q0 = (obs, q);
  inv_ready : ready q (waiting (threads c));
  inv_threads : ∀ i t, threads c !! i = Some t →
    thread_ok (mem c) q (done_by i (order c) obs) t;
  inv_scripts : ∀ i, scripts !! i =
    (λ t, (done_by i (order c) obs).*1 ++ pending t) <$> threads c !! i;
  inv_alone : ∀ i j t u, threads c !! i = Some t → threads c !! j = Some u →
    inside t → inside u → i = j;
  inv_free : (∀ i t, threads c !! i = Some t → ¬ inside t) → holds (mem c) q;
  inv_frame : ∃ s0, holds s0 q ∧ frame s0 = frame (mem c);
}.

Lemma waiting_take ts i t t' op :
  ts !! i = Some t → pending t = op :: pending t' →
  waiting ts ≡ₚ op :: waiting (<[i := t']> ts).
Proof.
  intros Hi Hp. rewrite <-(take_drop_middle ts i t Hi) at 1.
  rewrite insert_take_drop by (by eapply lookup_lt_Some). unfold waiting.
  rewrite !fmap_app, !join_app, !fmap_cons. cbn [mjoin list_join]. rewrite Hp.
  symmetry. apply Permutation_middle.
Qed.

Lemma waiting_same ts i t t' :
  ts !! i = Some t → pending t' = pending t → waiting (<[i := t']> ts) = waiting ts.
Proof.
  intros Hi Hp. unfold waiting. f_equal. rewrite list_fmap_insert, Hp.
  apply list_insert_id. by rewrite list_lookup_fmap, Hi.
Qed.

Lemma guard_none c obs q i t op ops :
  inv c obs q → threads c !! i = Some t → pending t = op :: ops →
  ∃ g, guard op (mem c) = Done (g, mem c) ∧ ∀ o, g = Some o → spec op q = (o, q).
Proof.
  intros Hc Hi Hp. destruct (inv_frame _ _ _ Hc) as (s0 & Hs0 & Hf).
  destruct (guard_ok (spec:=spec) op (waiting (<[i := Thread ops Idle []]> (threads c))) s0 q Hs0)
    as (g & Hg & Ho).
  { eapply ready_perm; [|exact (inv_ready _ _ _ Hc)]. by eapply waiting_take. }
  exists g. split; [|done]. by eapply guard_frame.
Qed.

#[export] Instance inside_dec t : Decision (inside t).
Proof. unfold inside. destruct (at_place t); apply _. Defined.

Lemma thread_ok_frame s s' q q' past t :
  thread_ok s q past t → ¬ inside t → frame s = frame s' → thread_ok s' q' past t.
Proof.
  unfold thread_ok, inside. destruct (at_place t); intros Ht Hin Hf; [done| |tauto].
  destruct Ht as [Hp Hg]. split; [done|]. by eapply guard_frame.
Qed.

(** What a step of thread [i] must establish: [new] is the call it orders, if
    it orders one. *)
Lemma inv_update c obs q i t t' s' q' (new : list (Op * Obs)) order' obs' :
  inv c obs q → threads c !! i = Some t →
  order' = order c ++ ((λ x, (i, x.1)) <$> new) → obs' = obs ++ new.*2 →
  match new with [] => q' = q | [(op, o)] => spec op q = (o, q') | _ => False end →
  thread_ok s' q' (done_by i (order c) obs ++ new) t' →
  pending t = new.*1 ++ pending t' →
  frame s' = frame (mem c) →
  (∀ j u, j ≠ i → threads c !! j = Some u → inside u → s' = mem c ∧ q' = q ∧ ¬ inside t') →
  (¬ inside t' → (∀ j u, j ≠ i → threads c !! j = Some u → ¬ inside u) → holds s' q') →
  (∃ s0, holds s0 q' ∧ frame s0 = frame s') →
  inv (Config s' (<[i := t']> (threads c)) order') obs' q'.
Proof.
  intros [Htr Hrd Hth Hsc Hal Hfr Hbase] Hi -> -> Hnew Ht' Hp Hf Hothers Hfree Hbase'.
  assert (length (order c) = length obs) as Hlen.
  { pose proof (spec_trace_length spec (order c).*2 q0) as Hl. rewrite Htr in Hl. cbn in Hl.
    by rewrite Hl, length_fmap. }
  assert (∀ j, done_by j (order c ++ ((λ x, (i, x.1)) <$> new)) (obs ++ new.*2) =
    done_by j (order c) obs ++ (if decide (i = j) then new else [])) as Hdone.
  { intros j. destruct new as [|[op o] [|]]; [| |done]; cbn [fmap list_fmap fst snd].
    - by rewrite !app_nil_r; case_decide; rewrite app_nil_r.
    - by rewrite done_by_snoc. }
  assert (i < length (threads c)) as Hlt by (by eapply lookup_lt_Some).
  split; cbn [mem threads order]; [| | | | | |done].
  - destruct new as [|[op o] [|]]; [| |done]; cbn [fmap list_fmap fst snd].
    + by rewrite !app_nil_r, Hnew.
    + rewrite fmap_app. cbn [fmap list_fmap snd]. by eapply spec_trace_snoc.
  - destruct new as [|[op o] [|]]; [| |done]; cbn [fmap list_fmap fst app] in Hp.
    + rewrite (waiting_same _ _ _ _ Hi) by done. by rewrite Hnew.
    + eapply (ready_perm (spec:=spec)) in Hrd; [|by eapply waiting_take].
      apply (ready_next (spec:=spec)) in Hrd. by rewrite Hnew in Hrd.
  - intros j u. rewrite Hdone. destruct (decide (i = j)) as [<-|Hne].
    + rewrite list_lookup_insert_eq by done. by intros [= <-].
    + rewrite list_lookup_insert_ne by done. intros Hj. rewrite app_nil_r.
      destruct (decide (inside u)) as [Hin|Hout].
      * destruct (Hothers j u) as (-> & -> & _); [congruence|done..|]. by apply Hth.
      * eapply thread_ok_frame; [by apply Hth|done|by rewrite Hf].
  - intros j. rewrite Hdone, Hsc. destruct (decide (i = j)) as [<-|Hne].
    + rewrite list_lookup_insert_eq, Hi by done. cbn [fmap option_fmap option_map].
      by rewrite Hp, fmap_app, app_assoc.
    + by rewrite list_lookup_insert_ne, app_nil_r by done.
  - intros j k u v. rewrite !list_lookup_insert_Some.
    intros [(<- & <- & _)|[Hj Hu]] [(<- & <- & _)|[Hk Hv]] Hin1 Hin2; [done| | |by eapply Hal].
    + by destruct (Hothers k v) as (_ & _ & []); [congruence|..].
    + by destruct (Hothers j u) as (_ & _ & []); [congruence|..].
  - intros Hno. apply Hfree.
    + apply (Hno i). by apply list_lookup_insert_eq.
    + intros j u Hne Hj. apply (Hno j). by rewrite list_lookup_insert_ne.
Qed.

Lemma exec_keeps {A} (p : prog S A) s a s' :
  accesses (@keeps) p → exec p s = Done (a, s') → lock s' = lock s ∧ frame s' = frame s.
Proof.
  revert s. induction p as [x|B m k IH]; intros s Hp; [by intros [= _ <-]|].
  destruct Hp as [Hm Hk]. intros (b & s1 & Hb & Hr)%bind_Done_inv.
  destruct (Hm _ _ _ Hb) as [<- <-]. by apply (IH b).
Qed.

(** Whoever is inside holds the lock; otherwise it is free. *)
Lemma inside_lock c obs q i t :
  inv c obs q → threads c !! i = Some t → inside t → lock (mem c) = 1%Z.
Proof.
  intros Hc Hi Hin. pose proof (inv_threads _ _ _ Hc i t Hi) as Ht.
  unfold inside, thread_ok in *. destruct (at_place t); [done..|tauto].
Qed.

Lemma lock_free c obs q :
  inv c obs q → lock (mem c) = 0%Z → ∀ i t, threads c !! i = Some t → ¬ inside t.
Proof.
  intros Hc H0 i t Hi Hin. pose proof (inside_lock c obs q i t Hc Hi Hin). congruence.
Qed.

Lemma lock_taken c obs q :
  inv c obs q → lock (mem c) ≠ 0%Z → ∃ i t, threads c !! i = Some t ∧ inside t.
Proof.
  intros Hc Hne. destruct (decide (Exists inside (threads c))) as [Hin|Hno].
  - apply Exists_exists in Hin as (t & [i Hi]%list_elem_of_lookup & Ht). by exists i, t.
  - destruct Hne. eapply holds_free, (inv_free _ _ _ Hc). intros i t Hi Ht.
    apply Hno, Exists_exists. exists t. split; [by eapply list_elem_of_lookup_2|done].
Qed.

(** A test of the taken lock changes nothing. *)
Lemma spin_same c obs q :
  inv c obs q → lock (mem c) ≠ 0%Z → Config (set_lock 1 (mem c)) (threads c) (order c) = c.
Proof.
  intros Hc H0. destruct (lock_taken _ _ _ Hc H0) as (j & t & Hj & Ht).
  destruct c as [s ts o]. cbn in *. f_equal.
  rewrite <-(inside_lock _ _ _ _ _ Hc Hj Ht). by eapply set_lock_lock.
Qed.

(** ** Every step keeps the invariant *)

Lemma refuse_inv c obs q i op ops rs o :
  inv c obs q → threads c !! i = Some (Thread (op :: ops) Idle rs) →
  guard op (mem c) = Done (Some o, mem c) →
  inv (Config (mem c) (<[i := Thread ops Idle (rs ++ [(op, o)])]> (threads c))
    (order c ++ [(i, op)])) (obs ++ [o]) q.
Proof.
  intros Hc Hi Hg. destruct (guard_none _ _ _ _ _ op ops Hc Hi) as (g & Hg' & Ho); [done|].
  rewrite Hg in Hg'. injection Hg' as <-. specialize (Ho o eq_refl).
  eapply (inv_update _ _ _ _ _ _ _ _ [(op, o)] _ _ Hc Hi); try done.
  - by rewrite (inv_threads _ _ _ Hc i _ Hi).
  - by intros j u _ _ _; split_and!; [done|done|intros []].
  - intros _ Hno. apply (inv_free _ _ _ Hc). intros j t Hj. destruct (decide (j = i)) as [->|]; [|eauto].
    rewrite Hi in Hj. injection Hj as <-. tauto.
  - apply (inv_frame _ _ _ Hc).
Qed.

Lemma call_inv c obs q i op ops rs :
  inv c obs q → threads c !! i = Some (Thread (op :: ops) Idle rs) →
  guard op (mem c) = Done (None, mem c) →
  inv (Config (mem c) (<[i := Thread ops (Spinning op) rs]> (threads c)) (order c)) obs q.
Proof.
  intros Hc Hi Hg.
  eapply (inv_update _ _ _ _ _ _ _ _ [] _ _ Hc Hi); rewrite ?app_nil_r; try done.
  - split; [by rewrite (inv_threads _ _ _ Hc i _ Hi)|done].
  - by intros j u _ _ _; split_and!; [done|done|intros []].
  - intros _ Hno. apply (inv_free _ _ _ Hc). intros j t Hj. destruct (decide (j = i)) as [->|]; [|eauto].
    rewrite Hi in Hj. injection Hj as <-. tauto.
  - apply (inv_frame _ _ _ Hc).
Qed.

Lemma enter_inv c obs q i op ops rs :
  inv c obs q → threads c !! i = Some (Thread ops (Spinning op) rs) → lock (mem c) = 0%Z →
  ∃ o q', inv (Config (set_lock 1 (mem c))
    (<[i := Thread ops (Inside op (crit op)) rs]> (threads c)) (order c ++ [(i, op)]))
    (obs ++ [o]) q'.
Proof.
  intros Hc Hi H0. pose proof (lock_free _ _ _ Hc H0) as Hout.
  destruct (inv_threads _ _ _ Hc i _ Hi) as [Hp Hg]. cbn in Hp.
  destruct (crit_ok (spec:=spec) op (waiting (<[i := Thread ops Idle []]> (threads c)))
    (mem c) q (inv_free _ _ _ Hc Hout)) as (o & s1 & q' & Hr & Ho & Hs1); [|done|].
  { eapply ready_perm; [|exact (inv_ready _ _ _ Hc)]. by eapply waiting_take. }
  exists o, q'. pose proof (crit_keeps (spec:=spec) op) as Hk.
  destruct (exec_keeps _ _ _ _ Hk Hr) as [_ Hf].
  eapply (inv_update _ _ _ _ _ _ _ _ [(op, o)] _ _ Hc Hi); try done.
  - split; [by eapply lock_set|]. split; [done|]. exists o, s1. by rewrite Hp.
  - by erewrite frame_set.
  - intros j u _ Hj Hin. by destruct (Hout j u Hj).
  - exists (set_lock 0 s1). split; [done|]. by erewrite frame_set.
Qed.

Lemma access_inv c obs q i op p ops rs m p' s :
  inv c obs q → threads c !! i = Some (Thread ops (Inside op p) rs) → next_access p = Some m →
  m (mem c) = Done (p', s) →
  inv (Config s (<[i := Thread ops (Inside op p') rs]> (threads c)) (order c)) obs q.
Proof.
  intros Hc Hi Hm Hr.
  destruct (inv_threads _ _ _ Hc i _ Hi) as (Hl & Hk & o & s1 & Hx & Hh & Hp). cbn in Hp.
  destruct (next_access_exec _ _ _ _ _ Hm Hx) as (p2 & s2 & Hr2 & Hx2).
  rewrite Hr in Hr2. injection Hr2 as <- <-.
  destruct (next_access_accesses _ _ _ _ _ _ Hm Hk Hr) as (Hk' & B & m0 & b & Hm0 & Hb).
  destruct (Hm0 _ _ _ Hb) as [Hl' Hf].
  eapply (inv_update _ _ _ _ _ _ _ _ [] _ _ Hc Hi); rewrite ?app_nil_r; try done.
  - split; [congruence|]. split; [done|]. by exists o, s1.
  - intros j u Hne Hj Hin. by destruct Hne; eapply (inv_alone _ _ _ Hc).
  - destruct (inv_frame _ _ _ Hc) as (s0 & Hs0 & Hf0). exists s0. split; [done|congruence].
Qed.

Lemma leave_inv c obs q i op o ops rs :
  inv c obs q → threads c !! i = Some (Thread ops (Inside op (Ret o)) rs) →
  inv (Config (set_lock 0 (mem c))
    (<[i := Thread ops Idle (rs ++ [(op, o)])]> (threads c)) (order c)) obs q.
Proof.
  intros Hc Hi.
  destruct (inv_threads _ _ _ Hc i _ Hi) as (Hl & Hk & o' & s1 & Hx & Hh & Hp). cbn in Hp.
  injection Hx as <- <-.
  eapply (inv_update _ _ _ _ _ _ _ _ [] _ _ Hc Hi); rewrite ?app_nil_r; try done.
  - by erewrite frame_set.
  - intros j u Hne Hj Hin. by destruct Hne; eapply (inv_alone _ _ _ Hc).
  - by exists (set_lock 0 (mem c)).
Qed.

Lemma step_inv c c' obs q : inv c obs q → step c c' → ∃ obs' q', inv c' obs' q'.
Proof.
  intros Hc Hstep. destruct Hstep as [i op ops rs o s Hi Hg|i op ops rs s Hi Hg|i op ops rs Hi H0|
    i op ops rs Hi H0|i op p ops rs m p' s Hi Hm Hr|i op o ops rs Hi].
  - destruct (guard_none _ _ _ _ _ op ops Hc Hi) as (g & Hg' & _); [done|].
    rewrite Hg in Hg'. injection Hg' as <- ->. by eexists _, _; apply refuse_inv.
  - destruct (guard_none _ _ _ _ _ op ops Hc Hi) as (g & Hg' & _); [done|].
    rewrite Hg in Hg'. injection Hg' as <- ->. by eexists _, _; apply call_inv.
  - exists obs, q. by rewrite (spin_same _ _ _ Hc H0).
  - destruct (enter_inv _ _ _ _ _ _ _ Hc Hi H0) as (o & q' & Hc'). by eexists _, _.
  - by eexists _, _; eapply access_inv.
  - by eexists _, _; apply leave_inv.
Qed.

Lemma steps_inv c c' obs q : inv c obs q → rtc step c c' → ∃ obs' q', inv c' obs' q'.
Proof.
  intros Hc Hsteps. revert obs q Hc. induction Hsteps as [|c c1 c' Hs _ IH]; intros obs q Hc.
  { by eexists _, _. }
  destruct (step_inv _ _ _ _ Hc Hs) as (obs1 & q1 & Hc1). by eapply IH.
Qed.

Lemma boot_inv s : holds s q0 → ready q0 (mjoin scripts) → inv (boot s scripts) [] q0.
Proof.
  intros Hs Hr. split; cbn [boot mem threads order]; [done| | | | |done|by exists s].
  - unfold waiting. rewrite <-list_fmap_compose. by erewrite list_fmap_id.
  - intros i t (ops & -> & _)%list_lookup_fmap_Some. done.
  - intros i. rewrite list_lookup_fmap. by destruct (scripts !! i).
  - intros i j t u (ops & -> & _)%list_lookup_fmap_Some _ [].
Qed.

Lemma inv_not_faulty c obs q : inv c obs q → ¬ faulty c.
Proof.
  intros Hc (i & [ops pl rs] & Hi & Hf). cbn [at_place script] in Hf.
  pose proof (inv_threads _ _ _ Hc i _ Hi) as Ht. destruct pl as [|op|op p]; [|done|].
  - destruct Hf as (op & ops' & -> & Hf).
    destruct (guard_none _ _ _ _ _ op ops' Hc Hi) as (g & Hg & _); [done|]. by apply Hf in Hg.
  - destruct Hf as (m & Hm & Hf). destruct Ht as (_ & _ & o & s1 & Hx & _).
    destruct (next_access_exec _ _ _ _ _ Hm Hx) as (p' & s' & Hr & _). by apply Hf in Hr.
Qed.

(** The calls of all threads, in the order of the lock, explain the state and
    every answer given. *)
Theorem interleaving_atomic s c :
  holds s q0 → ready q0 (mjoin scripts) → rtc step (boot s scripts) c →
  ¬ faulty c ∧
  ∃ obs q, spec_trace spec (order c).*2 q0 = (obs, q) ∧
    (lock (mem c) = 0%Z → holds (mem c) q) ∧
    ∀ i t, threads c !! i = Some t →
      results t `prefix_of` done_by i (order c) obs ∧
      (¬ inside t → results t = done_by i (order c) obs) ∧
      scripts !! i = Some ((done_by i (order c) obs).*1 ++ pending t).
Proof.
  intros Hs Hr Hsteps. destruct (steps_inv _ _ _ _ (boot_inv s Hs Hr) Hsteps) as (obs & q & Hc).
  split; [by eapply inv_not_faulty|]. exists obs, q. split; [apply (inv_trace _ _ _ Hc)|].
  split; [intros H0; by apply (inv_free _ _ _ Hc), (lock_free _ _ _ Hc)|].
  intros i t Hi. pose proof (inv_threads _ _ _ Hc i t Hi) as Ht.
  rewrite (inv_scripts _ _ _ Hc i), Hi. split_and!; [| |done]; unfold thread_ok, inside in *.
  - destruct (at_place t); [by rewrite Ht|by destruct Ht as [-> _]|].
    destruct Ht as (_ & _ & o & s1 & _ & _ & ->). by eexists.
  - intros Hn. destruct (at_place t); [done|by destruct Ht as [-> _]|tauto].
Qed.

(** ** Nothing can block *)

Lemma run_inside c obs q i op p ops rs :
  inv c obs q → threads c !! i = Some (Thread ops (Inside op p) rs) →
  ∃ c' rs', rtc step c c' ∧ threads c' = <[i := Thread ops Idle rs']> (threads c).
Proof.
  revert c. induction p as [o|B m k IH]; intros c Hc Hi.
  { eexists _, _. split; [by eapply rtc_once, step_leave|done]. }
  destruct (inv_threads _ _ _ Hc i _ Hi) as (_ & _ & o & s1 & Hx & _).
  destruct (next_access_exec (Act m k) (b ← m; mret (k b)) _ _ _ eq_refl Hx) as (p' & s' & Hr & Hx').
  assert (∃ b, p' = k b) as [b ->].
  { apply bind_Done_inv in Hr as (b & s2 & _ & [= <- _]). by exists b. }
  pose proof (step_access c i op (Act m k) ops rs _ _ _ Hi eq_refl Hr) as Hstep.
  pose proof (access_inv _ _ _ _ _ (Act m k) _ _ _ _ _ Hc Hi eq_refl Hr) as Hc'.
  destruct (IH b _ Hc') as (c' & rs' & Hsteps & Ht).
  { by apply list_lookup_insert_eq; eapply lookup_lt_Some. }
  exists c', rs'. split; [by eapply rtc_l|]. rewrite Ht. cbn [threads].
  by rewrite list_insert_insert_eq.
Qed.

Definition quiet c : Prop := ∀ i t, threads c !! i = Some t → ¬ inside t.

Lemma quiet_update c c' i ops rs t :
  quiet c → threads c !! i = Some t → threads c' = <[i := Thread ops Idle rs]> (threads c) → quiet c'.
Proof.
  intros Hq Hi Ht j u. rewrite Ht. intros [(<- & <- & _)|[_ Hj]]%list_lookup_insert_Some; [intros []|].
  by eapply Hq.
Qed.

(** A thread in the loop of the lock gets its call done. *)
Lemma run_spinning c obs q i op ops rs :
  inv c obs q → quiet c → threads c !! i = Some (Thread ops (Spinning op) rs) →
  ∃ c', rtc step c c' ∧ quiet c' ∧ waiting (threads c) ≡ₚ op :: waiting (threads c').
Proof.
  intros Hc Hq Hi. assert (lock (mem c) = 0%Z) as H0
    by (eapply holds_free; exact (inv_free _ _ _ Hc Hq)).
  destruct (enter_inv _ _ _ _ _ _ _ Hc Hi H0) as (o & q' & Hc1).
  pose proof (lookup_lt_Some _ _ _ Hi) as Hlt.
  destruct (run_inside _ _ _ i op (crit op) ops rs Hc1) as (c' & rs' & Hsteps & Ht).
  { by apply list_lookup_insert_eq. }
  cbn [threads] in Ht. rewrite list_insert_insert_eq in Ht. exists c'. split.
  { eapply rtc_l; [by eapply step_enter|done]. }
  split; [by eapply quiet_update|]. rewrite Ht. by eapply waiting_take.
Qed.

Lemma finish_quiet n c obs q :
  length (waiting (threads c)) = n → inv c obs q → quiet c →
  ∃ c', rtc step c c' ∧ finished c'.
Proof.
  revert c obs q. induction n as [n IH] using lt_wf_ind. intros c obs q Hn Hc Hq.
  destruct (decide (Forall (λ t, pending t = []) (threads c))) as [Hall|Hsome].
  { exists c. split; [done|]. intros i t Hi. rewrite Forall_lookup in Hall.
    specialize (Hall i t Hi). specialize (Hq i t Hi). unfold pending, inside in *.
    by destruct (at_place t). }
  apply not_Forall_Exists, Exists_exists in Hsome; [|apply _].
  destruct Hsome as (t & [i Hi]%list_elem_of_lookup & Hp).
  assert (∀ c1 c' op, rtc step c c1 → quiet c' → rtc step c1 c' →
    waiting (threads c) ≡ₚ op :: waiting (threads c') → ∃ c', rtc step c c' ∧ finished c') as Hgo.
  { intros c1 c' op Hs1 Hq' Hs' Hw. apply Permutation_length in Hw. cbn in Hw.
    pose proof (transitivity Hs1 Hs') as Hs. destruct (steps_inv _ _ _ _ Hc Hs) as (obs' & q' & Hc').
    destruct (IH (length (waiting (threads c'))) ltac:(lia) c' obs' q' eq_refl Hc' Hq')
      as (c2 & Hs2 & Hf). exists c2. split; [by etransitivity|done]. }
  destruct t as [[|op ops] [|op'|op' p] rs]; try (by destruct (Hq i _ Hi)); try (by destruct Hp).
  - destruct (run_spinning _ _ _ _ _ _ _ Hc Hq Hi) as (c' & Hs & Hq' & Hw). by eapply (Hgo c c').
  - destruct (guard_none _ _ _ _ _ op ops Hc Hi) as ([o|] & Hg & _); [done| |].
    + pose proof (step_refuse c i op ops rs o _ Hi Hg) as Hs. eapply (Hgo c); [done| |by apply rtc_once|].
      * by eapply quiet_update.
      * by eapply waiting_take.
    + pose proof (step_call c i op ops rs _ Hi Hg) as Hs. pose proof (call_inv _ _ _ _ _ _ _ Hc Hi Hg) as Hc1.
      assert (<[i:=Thread ops (Spinning op) rs]> (threads c) !! i = Some (Thread ops (Spinning op) rs)) as Hi1
        by (by apply list_lookup_insert_eq; eapply lookup_lt_Some).
      destruct (run_spinning _ _ _ i op ops rs Hc1) as (c' & Hs' & Hq' & Hw); [|done|].
      { intros j u [(<- & <- & _)|[_ Hj]]%list_lookup_insert_Some; [intros []|by eapply Hq]. }
      cbn [threads] in Hw. erewrite waiting_same in Hw by done.
      by eapply (Hgo _ c'); [apply rtc_once; exact Hs|..].
  - destruct (run_spinning _ _ _ _ _ _ _ Hc Hq Hi) as (c' & Hs & Hq' & Hw). by eapply (Hgo c c').
Qed.

(** From every reachable configuration the threads can finish their scripts:
    no schedule leads into a deadlock. *)
Theorem interleaving_finishes s c :
  holds s q0 → ready q0 (mjoin scripts) → rtc step (boot s scripts) c →
  ∃ c', rtc step c c' ∧ finished c'.
Proof.
  intros Hs Hr Hsteps. destruct (steps_inv _ _ _ _ (boot_inv s Hs Hr) Hsteps) as (obs & q & Hc).
  destruct (decide (Exists inside (threads c))) as [Hin|Hno].
  - apply Exists_exists in Hin as (t & [i Hi]%list_elem_of_lookup & Ht).
    destruct t as [ops [|op|op p] rs]; try done.
    destruct (run_inside _ _ _ _ _ _ _ _ Hc Hi) as (c1 & rs' & Hs1 & Ht1).
    destruct (steps_inv _ _ _ _ Hc Hs1) as (obs1 & q1 & Hc1).
    destruct (finish_quiet _ c1 obs1 q1 eq_refl Hc1) as (c2 & Hs2 & Hf).
    { intros j u. rewrite Ht1. intros [(<- & <- & _)|[Hne Hj]]%list_lookup_insert_Some; [intros []|].
      intros Hu. by destruct Hne; eapply (inv_alone _ _ _ Hc). }
    exists c2. split; [by etransitivity|done].
  - apply (finish_quiet _ c obs q eq_refl Hc). intros i t Hi Ht.
    apply Hno, Exists_exists. exists t. split; [by eapply list_elem_of_lookup_2|done].
Qed.

(** When all have finished, the state is one of the specification and every
    call has its answer. *)
Lemma interleaving_settled s c :
  holds s q0 → ready q0 (mjoin scripts) → rtc step (boot s scripts) c → finished c →
  ∃ q, holds (mem c) q ∧
    ∀ i t, threads c !! i = Some t → scripts !! i = Some (results t).*1.
Proof.
  intros Hs Hr Hsteps Hfin. destruct (steps_inv _ _ _ _ (boot_inv s Hs Hr) Hsteps) as (obs & q & Hc).
  exists q. split.
  - apply (inv_free _ _ _ Hc). intros i t Hi. apply Hfin in Hi as [Hp _].
    unfold inside. rewrite Hp. by intros [].
  - intros i t Hi. rewrite (inv_scripts _ _ _ Hc i), Hi. cbn [fmap option_fmap option_map].
    pose proof (inv_threads _ _ _ Hc i t Hi) as Ht. apply Hfin in Hi as [Hp Hsc].
    unfold thread_ok, pending in *. rewrite Hp in Ht |- *. cbn [app].
    by rewrite Ht, Hsc, app_nil_r.
Qed.
End atomicity.
