(* ===== verification/Fair.v ===== *)
(** * Schedules

    The machine of Concurrent.v, run by a scheduler: a function that says which
    thread has the n-th turn.  A turn is the next step of the thread, or nothing
    when it has finished.  Every execution of the machine comes from turns, and
    a scheduler that forgets no thread brings every call to its end. *)

From S2P Require Import Prelude Concurrent.

Section turns.
Context {S Op Obs : Type} `{!Locked S Op Obs}.
Implicit Types (s : S) (t : thread S Op Obs) (c : config S Op Obs).

Definition turn (i : nat) (c : config S Op Obs) : config S Op Obs :=
  match threads c !! i with
  | None => c
  | Some (Thread ops pl rs) =>
      match pl with
      | Idle =>
          match ops with
          | [] => c
          | op :: ops =>
              match guard op (mem c) with
              | Done (Some o, s) =>
                  Config s (<[i := Thread ops Idle (rs ++ [(op, o)])]> (threads c))
                    (order c ++ [(i, op)])
              | Done (None, s) =>
                  Config s (<[i := Thread ops (Spinning op) rs]> (threads c)) (order c)
              | _ => c
              end
          end
      | Spinning op =>
          if decide (lock (mem c) = 0)%Z then
            Config (set_lock 1 (mem c))
              (<[i := Thread ops (Inside op (crit op)) rs]> (threads c)) (order c ++ [(i, op)])
          else Config (set_lock 1 (mem c)) (threads c) (order c)
      | Inside op (Ret o) =>
          Config (set_lock 0 (mem c))
            (<[i := Thread ops Idle (rs ++ [(op, o)])]> (threads c)) (order c)
      | Inside op (Act m k) =>
          match m (mem c) with
          | Done (b, s) => Config s (<[i := Thread ops (Inside op (k b)) rs]> (threads c)) (order c)
          | _ => c
          end
      end
  end.

(** The first [n] turns that [σ] gives. *)
Fixpoint run (σ : nat → nat) (n : nat) (c : config S Op Obs) : config S Op Obs :=
  match n with
  | 0 => c
  | Datatypes.S n => run (λ k, σ (Datatypes.S k)) n (turn (σ 0) c)
  end.

(** Each of the threads below [n] has a turn again and again. *)
Definition fair (n : nat) (σ : nat → nat) : Prop :=
  ∀ i, i < n → ∀ k, ∃ k', k ≤ k' ∧ σ k' = i.

(** ** Turns are the steps of the machine *)

Lemma turn_step i c : turn i c = c ∨ step c (turn i c).
Proof.
  unfold turn. destruct (threads c !! i) as [[ops pl rs]|] eqn:Hi; [|by left].
  destruct pl as [|op|op [o|B m k]].
  - destruct ops as [|op ops]; [by left|].
    destruct (guard op (mem c)) as [[[o|] s]| |] eqn:Hg; [right|right|by left..].
    + by eapply (step_refuse c i).
    + by eapply (step_call c i).
  - right. case_decide; [by eapply (step_enter c i)|by eapply (step_spin c i)].
  - right. by eapply (step_leave c i).
  - destruct (m (mem c)) as [[b s]| |] eqn:Hm; [right|by left..].
    eapply (step_access c i); [done|done|]. by bind Hm.
Qed.

Lemma step_turn c c' : step c c' → ∃ i, turn i c = c'.
Proof.
  intros [i op ops rs o s Hi Hg|i op ops rs s Hi Hg|i op ops rs Hi H0|
    i op ops rs Hi H0|i op p ops rs m p' s Hi Hm Hr|i op o ops rs Hi];
    exists i; unfold turn; rewrite Hi; [by rewrite Hg..| | | |done].
  - by rewrite decide_False.
  - by rewrite decide_True.
  - destruct p as [|B m' k]; [done|]. injection Hm as <-.
    by apply bind_Done_inv in Hr as (b & s1 & -> & [= <- <-]).
Qed.

Lemma run_add σ n m c : run σ (n + m) c = run (λ k, σ (n + k)) m (run σ n c).
Proof. revert σ c. induction n as [|n IH]; intros σ c; [done|]. apply (IH (λ k, σ (Datatypes.S k))). Qed.

Lemma run_steps σ n c : rtc step c (run σ n c).
Proof.
  revert σ c. induction n as [|n IH]; intros σ c; [done|]. cbn [run].
  destruct (turn_step (σ 0) c) as [->|Hs]; [apply IH|]. eapply rtc_l; [done|apply IH].
Qed.

Lemma turn_length i c : length (threads (turn i c)) = length (threads c).
Proof.
  unfold turn. destruct (threads c !! i) as [[ops [|op|op [o|B m k]] rs]|]; try done.
  - destruct ops as [|op ops]; [done|].
    destruct (guard op (mem c)) as [[[o|] s]| |]; cbn [threads]; by rewrite ?length_insert.
  - by case_decide; cbn [threads]; rewrite ?length_insert.
  - cbn [threads]. by rewrite length_insert.
  - destruct (m (mem c)) as [[b s]| |]; cbn [threads]; by rewrite ?length_insert.
Qed.

Lemma run_length σ n c : length (threads (run σ n c)) = length (threads c).
Proof.
  revert σ c. induction n as [|n IH]; intros σ c; [done|]. cbn [run]. by rewrite IH, turn_length.
Qed.

(** An execution of the machine is a sequence of turns. *)
Lemma steps_run c c' : rtc step c c' → ∃ σ n, run σ n c = c'.
Proof.
  induction 1 as [c|c c1 c' Hs _ (σ & n & <-)]; [by exists (λ _, 0), 0|].
  destruct (step_turn _ _ Hs) as [i <-].
  by exists (λ k, match k with 0 => i | Datatypes.S k => σ k end), (Datatypes.S n).
Qed.

Lemma fair_later n σ k : fair n σ → fair n (λ j, σ (k + j)).
Proof.
  intros Hσ i Hi j. destruct (Hσ i Hi (k + j)) as (k' & Hle & Hk').
  exists (k' - k). split; [lia|]. rewrite <-Hk'. f_equal. lia.
Qed.

Lemma turn_finished i c : finished c → turn i c = c.
Proof.
  intros Hf. unfold turn. destruct (threads c !! i) as [[ops pl rs]|] eqn:Hi; [|done].
  by destruct (Hf _ _ Hi) as [[= ->] [= ->]].
Qed.

Lemma run_finished σ n c : finished c → run σ n c = c.
Proof.
  intros Hf. revert σ. induction n as [|n IH]; intros σ; [done|]. cbn [run].
  by rewrite turn_finished.
Qed.

(** ** How much is left to do *)

Definition weight (t : thread S Op Obs) : nat :=
  3 * length (script t) + match at_place t with Idle => 0 | Spinning _ => 2 | Inside _ _ => 1 end.
Definition left_over (c : config S Op Obs) : nat := sum_list_with weight (threads c).

Lemma left_over_update s o c i t t' :
  threads c !! i = Some t → weight t' < weight t →
  left_over (Config s (<[i := t']> (threads c)) o) < left_over c.
Proof.
  intros Hi Hlt. unfold left_over. cbn [threads].
  rewrite <-(take_drop_middle (threads c) i t Hi) at 2.
  rewrite insert_take_drop by (by eapply lookup_lt_Some).
  rewrite !sum_list_with_app. cbn [sum_list_with]. lia.
Qed.
End turns.


(** ** A fair scheduler finishes every call *)

Section fairness.
Context {S Op Obs : Type} `{!Locked S Op Obs} {Sp F : Type}.
Context (spec : Op → Sp → Obs * Sp) (holds : S → Sp → Prop) (frame : S → F)
  (ready : Sp → list Op → Prop) `{!LockedOk S Op Obs spec holds frame ready}.
Context (q0 : Sp) (scripts : list (list Op)).
Implicit Types (s : S) (t : thread S Op Obs) (c : config S Op Obs).

#[local] Abbreviation reach := (λ c, ∃ obs q, inv spec holds frame ready q0 scripts c obs q).

Lemma turn_reach i c : reach c → reach (turn i c).
Proof.
  intros (obs & q & Hc). destruct (turn_step i c) as [->|Hs]; [by exists obs, q|].
  by eapply step_inv.
Qed.

(** A turn changes nothing, brings the end nearer, or is an access. *)
Lemma turn_cases i c :
  reach c →
  turn i c = c ∨ left_over (turn i c) < left_over c ∨
  ∃ t, threads c !! i = Some t ∧ inside t.
Proof.
  intros (obs & q & Hc). unfold turn. destruct (threads c !! i) as [[ops pl rs]|] eqn:Hi; [|by left].
  destruct pl as [|op|op p]; [..|by right; right; eexists].
  - destruct ops as [|op ops]; [by left|].
    destruct (guard op (mem c)) as [[[o|] s]| |]; try (by left); right; left;
      (eapply left_over_update; [done|cbn; lia]).
  - case_decide as H0.
    + right; left. eapply left_over_update; [done|cbn; lia].
    + left. by eapply spin_same.
Qed.

(** A thread that is inside, or that has calls left while nobody is. *)
Definition helpful i c : Prop :=
  ∃ t, threads c !! i = Some t ∧ (inside t ∨ pending t ≠ [] ∧ quiet c).

Lemma helpful_alone i j c t :
  reach c → helpful i c → threads c !! j = Some t → inside t → i = j.
Proof.
  intros (obs & q & Hc) (u & Hi & [Hu|[_ Hq]]) Hj Ht; [by eapply (inv_alone _ _ _ _ _ _ _ _ _ Hc)|].
  by destruct (Hq j t Hj).
Qed.

(** Until it has a turn, either the end comes nearer or nothing happens. *)
Lemma wait_turn i σ k c :
  reach c → helpful i c → σ k = i →
  ∃ n, left_over (run σ n c) < left_over c ∨ run σ n c = c ∧ σ n = i.
Proof.
  intros Hc Hh. revert σ. induction k as [|k IH]; intros σ Hk; [by exists 0; right|].
  destruct (decide (σ 0 = i)) as [H0|H0]; [by exists 0; right|].
  destruct (turn_cases (σ 0) c Hc) as [Ht|[Ht|(t & Hj & Ht)]].
  - destruct (IH (λ n, σ (Datatypes.S n)) Hk) as (n & Hn). exists (Datatypes.S n).
    cbn [run]. by rewrite Ht.
  - by exists 1; left.
  - destruct H0. symmetry. exact (helpful_alone _ _ _ t Hc Hh Hj Ht).
Qed.

Lemma inside_turn i c p ops op rs :
  reach c → threads c !! i = Some (Thread ops (Inside op p) rs) →
  match p with
  | Ret _ => left_over (turn i c) < left_over c
  | Act _ k => ∃ b s, turn i c = Config s (<[i := Thread ops (Inside op (k b)) rs]> (threads c)) (order c)
  end.
Proof.
  intros (obs & q & Hc) Hi. destruct p as [o|B m k]; unfold turn; rewrite Hi.
  - eapply left_over_update; [done|cbn; lia].
  - destruct (inv_threads _ _ _ _ _ _ _ _ _ Hc i _ Hi) as (_ & _ & o & s1 & Hx & _).
    apply bind_Done_inv in Hx as (b & s & -> & _). by exists b, s.
Qed.

(** Whoever is inside leaves. *)
Lemma inside_ends p i op ops rs c σ :
  reach c → fair (length (threads c)) σ → threads c !! i = Some (Thread ops (Inside op p) rs) →
  ∃ n, left_over (run σ n c) < left_over c.
Proof.
  revert c σ. induction p as [o|B m k IH]; intros c σ Hc Hσ Hi;
    pose proof (inside_turn _ _ _ _ _ _ Hc Hi) as Ht; cbn in Ht;
    destruct (Hσ i (lookup_lt_Some _ _ _ Hi) 0) as (j & _ & Hj);
    destruct (wait_turn i σ j c Hc) as (n & [Hn|[Hn Hi']]); eauto;
    try (eexists; split; [done|by left]).
  - exists (n + 1). rewrite run_add, Hn. cbn [run]. by rewrite Nat.add_0_r, Hi'.
  - destruct Ht as (b & s & Ht). pose proof (turn_reach i c Hc) as Hc'. rewrite Ht in Hc'.
    assert (left_over (turn i c) = left_over c) as Hl.
    { rewrite Ht. unfold left_over. cbn [threads]. rewrite <-(take_drop_middle (threads c) i _ Hi) at 2.
      rewrite insert_take_drop by (by eapply lookup_lt_Some). by rewrite !sum_list_with_app. }
    destruct (IH b _ (λ k, σ (n + 1 + k)) Hc') as (n' & Hn').
    + cbn [threads]. rewrite length_insert. by apply fair_later.
    + by apply list_lookup_insert_eq; eapply lookup_lt_Some.
    + exists (n + 1 + n'). rewrite run_add, run_add, Hn. cbn [run].
      by rewrite Nat.add_0_r, Hi', Ht, <-Hl, Ht.
Qed.

(** The turn of a thread with calls left, while nobody is inside. *)
Lemma quiet_turn i c t :
  reach c → quiet c → threads c !! i = Some t → pending t ≠ [] →
  left_over (turn i c) < left_over c.
Proof.
  intros (obs & q & Hc) Hq Hi Hp. destruct t as [ops [|op|op p] rs]; unfold turn; rewrite Hi.
  - destruct ops as [|op ops]; [done|].
    destruct (guard_none _ _ _ _ _ _ _ _ _ _ _ op ops Hc Hi) as ([o|] & -> & _); [done|..];
      (eapply left_over_update; [done|cbn; lia]).
  - rewrite decide_True by (eapply holds_free; exact (inv_free _ _ _ _ _ _ _ _ _ Hc Hq)).
    eapply left_over_update; [done|cbn; lia].
  - by destruct (Hq _ _ Hi).
Qed.

Lemma fair_progress c σ :
  reach c → fair (length (threads c)) σ →
  finished c ∨ ∃ n, left_over (run σ n c) < left_over c.
Proof.
  intros Hc Hσ. destruct (decide (Exists inside (threads c))) as [Hin|Hno].
  { apply Exists_exists in Hin as ([ops [|op|op p] rs] & [i Hi]%list_elem_of_lookup & Ht); try done.
    right. by eapply inside_ends. }
  assert (quiet c) as Hq.
  { intros i t Hi Ht. apply Hno, Exists_exists. exists t. split; [by eapply list_elem_of_lookup_2|done]. }
  destruct (decide (Forall (λ t, pending t = []) (threads c))) as [Hall|Hsome].
  { left. intros i t Hi. rewrite Forall_lookup in Hall.
    specialize (Hall i t Hi). specialize (Hq i t Hi). unfold pending, inside in *.
    by destruct (at_place t). }
  right. apply not_Forall_Exists, Exists_exists in Hsome; [|apply _].
  destruct Hsome as (t & [i Hi]%list_elem_of_lookup & Hp).
  destruct (Hσ i (lookup_lt_Some _ _ _ Hi) 0) as (j & _ & Hj).
  destruct (wait_turn i σ j c Hc) as (n & [Hn|[Hn Hi']]); [by exists t; auto|done|by eauto|].
  exists (n + 1). rewrite run_add, Hn. cbn [run]. rewrite Nat.add_0_r, Hi'. by eapply quiet_turn.
Qed.

Lemma run_reach σ n c : reach c → reach (run σ n c).
Proof. intros (obs & q & Hc). eapply steps_inv; [|exact Hc|apply run_steps]. done. Qed.

Lemma fair_ends c σ :
  reach c → fair (length (threads c)) σ → ∃ N, finished (run σ N c).
Proof.
  remember (left_over c) as n eqn:Hn. revert c σ Hn. induction n as [n IH] using lt_wf_ind.
  intros c σ -> Hc Hσ. destruct (fair_progress c σ Hc Hσ) as [Hf|(n & Hn)]; [by exists 0|].
  destruct (IH _ Hn (run σ n c) (λ k, σ (n + k))) as (N & HN); [done|by apply run_reach| |].
  { rewrite run_length. by apply fair_later. }
  exists (n + N). by rewrite run_add.
Qed.

(** Under every fair scheduler all calls end: from some turn on nothing changes
    any more, the order of the calls explains the state, and every thread has
    the specification's answer to each call of its script. *)
Theorem fair_finishes s σ :
  holds s q0 → ready q0 (mjoin scripts) → fair (length scripts) σ →
  ∃ N c obs q, (∀ n, N ≤ n → run σ n (boot s scripts) = c) ∧ finished c ∧
    spec_trace spec (order c).*2 q0 = (obs, q) ∧ holds (mem c) q ∧
    ∀ i t, threads c !! i = Some t →
      results t = done_by i (order c) obs ∧ scripts !! i = Some (results t).*1.
Proof.
  intros Hs Hr Hσ. destruct (fair_ends (boot s scripts) σ) as (N & HN).
  { exists [], q0. by apply boot_inv. }
  { cbn [boot threads]. by rewrite length_fmap. }
  pose proof (run_steps σ N (boot s scripts)) as Hsteps.
  set (c := run σ N (boot s scripts)) in *.
  destruct (interleaving_atomic spec holds frame ready q0 scripts s c Hs Hr Hsteps)
    as (_ & obs & q & Htr & Hfree & Hall).
  destruct (interleaving_settled spec holds frame ready q0 scripts s c Hs Hr Hsteps HN)
    as (q' & Hq' & Hscripts).
  exists N, c, obs, q. split_and!; [|done|done|by eapply Hfree, holds_free|].
  - intros n Hle. replace n with (N + (n - N)) by lia. by rewrite run_add, run_finished.
  - intros i t Hi. split; [|by apply Hscripts]. destruct (Hall i t Hi) as (_ & Hres & _).
    apply Hres. apply HN in Hi as [Hp _]. unfold inside. rewrite Hp. tauto.
Qed.
End fairness.
