(* ===== verification/IoConcurrent.v ===== *)
(** * The I/O registry used by many threads (kernel/io/io_stack.c)

    The four operations that take [g_registry_lock], cut into single accesses
    of the memory that threads share: the tests before the lock, the accesses
    to the fields of devices and to the static variables between lock_registry
    and unlock_registry.  Concurrent.v interleaves them.  nova_io_init and
    nova_io_shutdown, which use [g_io_initialized] outside the lock, are not
    calls of the threads; [nova_io_init_race] says why. *)

From S2P Require Import Prelude CString LinkedList IoRegistry Concurrent Fair.

Module IoConcurrent.
Import IoRegistry.

Abbreviation observation := (Z * option loc)%type.

Section calls.
Context {O : Type}.
Implicit Types (s : io_state O) (d : nova_device O).

(** ** Shared accesses *)

(** One field of one device, or one static variable. *)
Definition load_field {A} (f : nova_device O → A) (l : loc) : prog (io_state O) A :=
  access (d ← get_device l; mret (f d)).
Definition store_field (f : nova_device O → nova_device O) (l : loc) : prog (io_state O) unit :=
  access (d ← get_device l; put_device l (f d)).
Definition load {A} (f : io_state O → A) : prog (io_state O) A := access (gets f).
Definition store (f : io_state O → io_state O) : prog (io_state O) unit := access (modify f).

(** ** The critical sections *)

(** [dev->major = g_next_major++]: two loads and two stores. *)
Definition register_section (l : loc) : prog (io_state O) Z :=
  mj ← load_field major l;
  (if decide (mj = 0)%Z then
     n ← load g_next_major;
     store (set_next_major (u32 (n + 1)));;
     store_field (set_major n) l
   else mret tt);;
  h ← load g_device_registry;
  store_field (set_node_next h) l;;
  h ← load g_device_registry;
  match h with
  | None => mret tt
  | Some _ =>
      h ← load g_device_registry;
      match h with None => access undef | Some h => store_field (set_prev (Some l)) h end
  end;;
  store (set_registry (Some l));;
  mret 0%Z.

(** The loop of nova_device_unregister at [curr], with [prev] behind it. *)
Fixpoint unregister_loop (fuel : nat) (l : loc) (prv curr : option loc) : prog (io_state O) Z :=
  match curr with
  | None => mret (-1)%Z
  | Some c =>
      match fuel with
      | 0 => access no_fuel
      | S fuel =>
          if decide (c = l) then
            n ← load_field next c;
            match prv with
            | Some p => store_field (set_node_next n) p
            | None => store (set_registry n)
            end;;
            n ← load_field next c;
            match n with
            | None => mret tt
            | Some _ =>
                n ← load_field next c;
                match n with None => access undef | Some n => store_field (set_prev prv) n end
            end;;
            mret 0%Z
          else
            n ← load_field next c;
            unregister_loop fuel l (Some c) n
      end
  end.

(** The tests of the two searches; the path of a device is read in one step, no
    call writes it. *)
Definition path_test (p : list Z) (c : loc) : prog (io_state O) bool :=
  o ← load_field path c; access (the (strcmp_eq o p)).
Definition number_test (mj mn : Z) (c : loc) : prog (io_state O) bool :=
  a ← load_field major c;
  if decide (a = mj) then b ← load_field minor c; mret (bool_decide (b = mn))
  else mret false.

Fixpoint search_loop (fuel : nat) (test : loc → prog (io_state O) bool) (curr : option loc)
    : prog (io_state O) (option loc) :=
  match curr with
  | None => mret None
  | Some c =>
      match fuel with
      | 0 => access no_fuel
      | S fuel =>
          hit ← test c;
          if (hit : bool) then mret (Some c)
          else n ← load_field next c; search_loop fuel test n
      end
  end.

Definition search_section (test : loc → prog (io_state O) bool) : prog (io_state O) (option loc) :=
  fuel ← load registry_fuel;
  h ← load g_device_registry;
  search_loop fuel test h.

(** ** The calls *)

Inductive reg_call : Type :=
  | CallRegister (dev : option loc)
  | CallUnregister (dev : option loc)
  | CallFind (path : option (list Z))
  | CallGet (major minor : Z).

Definition as_op (c : reg_call) : io_op :=
  match c with
  | CallRegister dev => OpRegister dev
  | CallUnregister dev => OpUnregister dev
  | CallFind p => OpFind p
  | CallGet mj mn => OpGet mj mn
  end.

(** The tests before lock_registry. *)
Definition call_guard (c : reg_call) : M (io_state O) (option observation) :=
  match c with
  | CallRegister None | CallUnregister None => mret (Some ((-1)%Z, None))
  | CallRegister (Some l) =>
      d ← get_device l;
      first ← the (name d !! 0);
      mret (if decide (first = 0)%Z then Some ((-1)%Z, None) else None)
  | CallFind None => mret (Some (0%Z, None))
  | _ => mret None
  end.

(** Between lock_registry and unlock_registry. *)
Definition call_section (c : reg_call) : prog (io_state O) observation :=
  match c with
  | CallRegister (Some l) => r ← register_section l; mret (r, None)
  | CallUnregister (Some l) =>
      fuel ← load registry_fuel;
      h ← load g_device_registry;
      r ← unregister_loop fuel l None h;
      mret (r, None)
  | CallFind (Some p) =>
      found ← search_section (path_test p); mret (0%Z, found)
  | CallGet mj mn =>
      found ← search_section (number_test mj mn); mret (0%Z, found)
  | _ => mret (0%Z, None)
  end.

#[export] Instance io_locked : Locked (io_state O) reg_call observation := {|
  lock := g_registry_lock;
  Concurrent.set_lock := IoRegistry.set_lock;
  guard := call_guard;
  crit := call_section;
|}.
End calls.

(** ** The sections run without interruption *)

Section sections.
Context {O : Type}.
Implicit Types (s : io_state O) (d : nova_device O).

Lemma load_field_run {A} (f : nova_device O → A) l d s :
  devices s !! l = Some d → exec (load_field f l) s = Done (f d, s).
Proof. intros Hd. unfold load_field. rewrite exec_access. by bind (get_device_run _ _ _ Hd). Qed.

Lemma load_field_undef {A} (f : nova_device O → A) l s :
  devices s !! l = None → exec (load_field f l) s = Undef.
Proof.
  intros Hd. unfold load_field. rewrite exec_access. apply bind_Undef.
  unfold get_device. run. by rewrite Hd.
Qed.

Lemma store_field_run f l d s :
  devices s !! l = Some d →
  exec (store_field f l) s = Done (tt, set_devices (<[l := f d]> (devices s)) s).
Proof.
  intros Hd. unfold store_field. rewrite exec_access. bind (get_device_run _ _ _ Hd).
  by eapply put_device_run.
Qed.

Lemma load_run {A} (f : io_state O → A) s : exec (load f) s = Done (f s, s).
Proof. done. Qed.

Lemma store_run (f : io_state O → io_state O) s : exec (store f) s = Done (tt, f s).
Proof. done. Qed.

(** Running the next access of a program. *)
Ltac step_with H := rewrite exec_bind; rewrite (bind_Done _ _ _ _ _ H).

Lemma get_device_inv l d s s' :
  get_device l s = Done (d, s') → s' = s ∧ devices s !! l = Some d.
Proof.
  unfold get_device. run. destruct (devices s !! l) eqn:Hl; [|done].
  by intros [= -> ->].
Qed.

Lemma put_device_inv l d s u s' :
  put_device l d s = Done (u, s') →
  is_Some (devices s !! l) ∧ s' = set_devices (<[l := d]> (devices s)) s.
Proof.
  unfold put_device. intros (d0 & s1 & Hg & Hm)%bind_Done_inv.
  apply get_device_inv in Hg as [-> Hd]. injection Hm as _ <-. split; [by eexists|done].
Qed.

(** A search that has returned, access by access. *)
Lemma search_loop_run (test : nova_device O → option bool) tp fuel p s r s' :
  (∀ l d b, devices s !! l = Some d → test d = Some b → exec (tp l) s = Done (b, s)) →
  walk get_next fuel p tt (search_step test) s = Done (r, s') →
  exec (search_loop fuel tp p) s = Done (match r with inl l => Some l | inr _ => None end, s) ∧
  s' = match r with inl _ => set_lock 0 s | inr _ => s end.
Proof.
  intros Htp. revert p. induction fuel as [|fuel IH]; intros [l|]; cbn [walk search_loop];
    try (by intros [= <- <-]); try done.
  intros (x & s1 & Hstep & Hw)%bind_Done_inv. unfold search_step in Hstep.
  apply bind_Done_inv in Hstep as (d & s2 & Hd & Hstep). apply get_device_inv in Hd as [-> Hd].
  destruct (test d) as [hit|] eqn:Ht; [|done]. rewrite bind_the in Hstep.
  step_with (Htp l d hit Hd Ht). destruct hit.
  - injection Hstep as <- <-. injection Hw as <- <-. done.
  - injection Hstep as <- <-. apply bind_Done_inv in Hw as (n & s3 & Hn & Hw).
    rewrite (io_get_next_run _ _ _ Hd) in Hn. injection Hn as <- <-.
    step_with (load_field_run next l d s Hd). by apply IH.
Qed.

Lemma unregister_found_run l c prv s x s1 :
  unregister_step l prv c s = Done (inl x, s1) →
  ∃ s2, s1 = set_lock 0 s2 ∧ x = 0%Z ∧ c = l ∧
    ∀ fuel, exec (unregister_loop (S fuel) l prv (Some c)) s = Done (0%Z, s2).
Proof.
  unfold unregister_step. case_decide as Hcl; [|done].
  intros (d & s2 & Hd & Hr)%bind_Done_inv. apply get_device_inv in Hd as [-> Hd].
  apply bind_Done_inv in Hr as ([] & s3 & Hnext & Hr).
  assert (exec (match prv with
      | Some p => store_field (set_node_next (next d)) p
      | None => store (set_registry (next d))
      end) s = Done (tt, s3)) as Hst.
  { destruct prv as [p|]; cbn [unlink_next] in Hnext; [|done].
    apply bind_Done_inv in Hnext as (dp & s4 & Hp & Hnext). apply get_device_inv in Hp as [-> Hp].
    by rewrite (store_field_run _ _ _ _ Hp), <-Hnext, (put_device_run _ _ _ _ Hp). }
  apply bind_Done_inv in Hr as (d2 & s4 & Hd2 & Hr). apply get_device_inv in Hd2 as [-> Hd2].
  apply bind_Done_inv in Hr as ([] & s5 & Hprev & Hr). injection Hr as <- <-.
  exists s5. split_and!; [done..|]. intros fuel. cbn [unregister_loop]. rewrite decide_True by done.
  step_with (load_field_run next c d s Hd). step_with Hst. step_with (load_field_run next c d2 s3 Hd2).
  destruct (next d2) as [n|] eqn:Hn2; cbn [unlink_prev] in Hprev; [|by injection Hprev as <-].
  apply bind_Done_inv in Hprev as (dn & s6 & Hn & Hprev). apply get_device_inv in Hn as [-> Hn].
  rewrite exec_bind. rewrite (bind_Done _ _ _ tt s5); [done|].
  step_with (load_field_run next c d2 s3 Hd2). rewrite Hn2.
  by rewrite (store_field_run _ _ _ _ Hn), <-Hprev, (put_device_run _ _ _ _ Hn).
Qed.

Lemma unregister_loop_run fuel l prv p s r s' :
  walk get_next fuel p prv (unregister_step l) s = Done (r, s') →
  ∃ s2, exec (unregister_loop fuel l prv p) s =
      Done (match r with inl z => z | inr _ => (-1)%Z end, s2) ∧
    s' = match r with inl _ => set_lock 0 s2 | inr _ => s2 end.
Proof.
  revert prv p s. induction fuel as [|fuel IH]; intros prv [c|] s; cbn [walk];
    try (by intros [= <- <-]; exists s); try done.
  intros ([z|prv'] & s1 & Hstep & Hw)%bind_Done_inv.
  - injection Hw as <- <-. apply unregister_found_run in Hstep as (s2 & -> & -> & -> & Hx).
    exists s2. split; [apply Hx|done].
  - unfold unregister_step in Hstep. case_decide as Hcl.
    { repeat (apply bind_Done_inv in Hstep as (? & ? & _ & Hstep)). done. }
    injection Hstep as <- <-. apply bind_Done_inv in Hw as (n & s3 & Hn & Hw).
    unfold get_next in Hn. apply bind_Done_inv in Hn as (d & s4 & Hd & Hn).
    apply get_device_inv in Hd as [-> Hd]. injection Hn as <- <-.
    cbn [unregister_loop]. rewrite decide_False by done.
    step_with (load_field_run next c d s Hd). by apply IH.
Qed.

Lemma register_section_run l d s :
  devices s !! l = Some d →
  (∀ hd, g_device_registry s = Some hd → is_Some (devices s !! hd)) →
  exec (register_section l) s = Done (0%Z, registered l d s).
Proof.
  intros Hd Hhd. unfold register_section. step_with (load_field_run major l d s Hd).
  set (s1 := set_next_major (next_number d s) (set_devices (<[l := numbered d s]> (devices s)) s)).
  rewrite exec_bind, (bind_Done _ _ _ tt s1).
  2: { unfold s1, numbered, next_number. case_decide as H0.
    - step_with (load_run g_next_major s).
      step_with (store_run (set_next_major (u32 (g_next_major s + 1))) s).
      by rewrite (store_field_run _ l d).
    - rewrite insert_id by done. by destruct s. }
  step_with (load_run g_device_registry s1). change (g_device_registry s1) with (g_device_registry s).
  assert (devices s1 !! l = Some (numbered d s)) as Hd1 by apply lookup_insert_eq.
  set (linked := <[l := set_node_next (g_device_registry s) (numbered d s)]> (devices s)).
  assert (<[l := set_node_next (g_device_registry s) (numbered d s)]> (devices s1) = linked) as Hl
    by apply insert_insert_eq.
  step_with (store_field_run (set_node_next (g_device_registry s)) l _ s1 Hd1). rewrite Hl.
  step_with (load_run g_device_registry (set_devices linked s1)).
  change (g_device_registry (set_devices linked s1)) with (g_device_registry s).
  unfold registered. fold linked. destruct (g_device_registry s) as [hd|] eqn:Hreg; [|done].
  assert (∃ dh, linked !! hd = Some dh) as [dh Hdh].
  { unfold linked. rewrite lookup_insert. case_decide; [by eexists|by apply Hhd]. }
  rewrite Hdh. rewrite exec_bind, (bind_Done _ _ _ tt (set_devices (<[hd := set_prev (Some l) dh]> linked) s1)); [done|].
  step_with (load_run g_device_registry (set_devices linked s1)).
  change (g_device_registry (set_devices linked s1)) with (g_device_registry s). rewrite Hreg.
  by rewrite (store_field_run _ hd dh (set_devices linked s1) Hdh).
Qed.
End sections.

(** ** No access under the lock changes the lock or a name *)

Create HintDb accesses.

Section keeps.
Context {O : Type}.
Implicit Types (s : io_state O) (d : nova_device O).

(** The part of the state that the tests before the lock read. *)
Definition first_chars s : gmap loc (option Z) := (λ d, name d !! 0) <$> devices s.

Definition quiet_access (B : Type) (m : M (io_state O) B) : Prop :=
  ∀ s b s', m s = Done (b, s') →
    g_registry_lock s' = g_registry_lock s ∧ first_chars s' = first_chars s.

Lemma keeps_load_field {A} (f : nova_device O → A) l : accesses quiet_access (load_field f l).
Proof.
  apply accesses_access. intros s b s' (d & s1 & Hd & Hr)%bind_Done_inv.
  apply get_device_inv in Hd as [-> _]. by injection Hr as _ <-.
Qed.

Lemma keeps_store_field f l : (∀ d, name (f d) = name d) → accesses quiet_access (store_field f l).
Proof.
  intros Hf. apply accesses_access. intros s b s' (d & s1 & Hd & Hr)%bind_Done_inv.
  apply get_device_inv in Hd as [-> Hd]. apply put_device_inv in Hr as [_ ->].
  split; [done|]. unfold first_chars. cbn [devices set_devices].
  rewrite fmap_insert, Hf. apply insert_id. by rewrite lookup_fmap, Hd.
Qed.

Lemma keeps_load {A} (f : io_state O → A) : accesses quiet_access (load f).
Proof. apply accesses_access. by intros s b s' [= _ <-]. Qed.

Lemma keeps_store f :
  (∀ s, g_registry_lock (f s) = g_registry_lock s) → (∀ s, devices (f s) = devices s) →
  accesses quiet_access (store f).
Proof.
  intros Hl Hd. apply accesses_access. intros s b s' [= _ <-]. unfold first_chars. by rewrite Hd.
Qed.

Lemma keeps_read {A} (o : option A) : accesses quiet_access (access (the o)).
Proof. apply accesses_access. destruct o; [by intros s b s' [= _ <-]|done]. Qed.

Lemma keeps_stop {A} : accesses quiet_access (access (undef (A:=A))).
Proof. by apply accesses_access. Qed.

Lemma keeps_fuel {A} : accesses quiet_access (access (no_fuel (A:=A))).
Proof. by apply accesses_access. Qed.
End keeps.

#[export] Hint Resolve keeps_load_field keeps_load keeps_read keeps_stop keeps_fuel : accesses.
#[export] Hint Resolve accesses_bind : accesses.
#[export] Hint Extern 1 (accesses _ (store_field _ _)) => by apply keeps_store_field : accesses.
#[export] Hint Extern 1 (accesses _ (store _)) => by apply keeps_store : accesses.
#[export] Hint Extern 2 (accesses _ (mret _)) => exact I : accesses.
#[export] Hint Extern 2 (accesses _ (Ret _)) => exact I : accesses.
#[export] Hint Extern 3 (accesses _ (match ?x with _ => _ end)) => destruct x : accesses.

Section interface.
Context {O : Type}.
Implicit Types (s : io_state O) (d : nova_device O).

Lemma register_keeps l : accesses quiet_access (register_section (O:=O) l).
Proof. unfold register_section. auto 30 with accesses. Qed.

Lemma unregister_keeps fuel l prv p : accesses quiet_access (unregister_loop (O:=O) fuel l prv p).
Proof.
  revert prv p. induction fuel as [|fuel IH]; intros prv p; cbn [unregister_loop];
    auto 30 with accesses.
Qed.

Lemma search_keeps fuel (test : loc → prog (io_state O) bool) p :
  (∀ c, accesses quiet_access (test c)) → accesses quiet_access (search_loop fuel test p).
Proof.
  intros Ht. revert p. induction fuel as [|fuel IH]; intros p; cbn [search_loop];
    auto 30 with accesses.
Qed.

Lemma section_keeps c : accesses quiet_access (call_section (O:=O) c).
Proof.
  destruct c as [[l|]|[l|]|[p|]|mj mn]; cbn [call_section]; try done.
  - eauto using register_keeps with accesses.
  - eauto 10 using unregister_keeps with accesses.
  - unfold search_section, path_test. auto 20 using search_keeps with accesses.
  - unfold search_section, number_test. auto 20 using search_keeps with accesses.
Qed.

(** ** What the callers owe *)

(** The calls are admissible at the start, and no two of them register the same
    device. *)
Definition registers (c : reg_call) : option loc :=
  match c with CallRegister dev => dev | _ => None end.
Definition calls_ready (q : registry) (calls : list reg_call) : Prop :=
  Forall (λ c, op_ok q (as_op c)) calls ∧ NoDup (omap registers calls).

Lemma calls_ready_perm q calls calls' :
  calls ≡ₚ calls' → calls_ready q calls → calls_ready q calls'.
Proof. intros Hp [Hok Hnd]. split; by rewrite <-Hp. Qed.

(** A call leaves the other calls admissible. *)
Lemma op_ok_after q c c' :
  op_ok q (as_op c') → registers c' = None ∨ registers c ≠ registers c' →
  op_ok (spec_op (as_op c) q).2 (as_op c').
Proof.
  intros Hok Hne. destruct c' as [[l'|]|dev|p|mj mn]; try exact Hok.
  destruct Hne as [|Hne]; [done|]. cbn [as_op op_ok registers] in *.
  destruct Hok as (Hl & v & Hv & Hf & Hp).
  destruct c as [[l|]|[l|]|[p|]|mj mn]; cbn [as_op spec_op registers] in *;
    try (split; [done|by exists v]).
  - assert (l ≠ l') as Hll by congruence. destruct (devs q !! l) as [w|]; [|split; [done|by exists v]].
    unfold spec_register. case_decide; cbn; [split; [done|by exists v]|].
    split; [by rewrite not_elem_of_cons|]. exists v. by rewrite lookup_insert_ne.
  - case_decide; cbn; [|split; [done|by exists v]]. split; [|by exists v].
    by intros [_ ?]%list_elem_of_filter.
Qed.

Lemma calls_ready_next q c calls :
  calls_ready q (c :: calls) → calls_ready (spec_op (as_op c) q).2 calls.
Proof.
  intros [Hok Hnd]. apply Forall_cons in Hok as [Hc Hok].
  assert (NoDup (omap registers calls)) as Hnd'
    by (cbn in Hnd; destruct (registers c); [by apply NoDup_cons in Hnd as [_ ?]|done]).
  split; [|done]. apply Forall_forall. intros c' Hc'. rewrite Forall_forall in Hok.
  apply op_ok_after; [by apply Hok|]. destruct (registers c') as [l|] eqn:Hl; [right|by left].
  intros Heq. cbn in Hnd. rewrite Heq in Hnd. apply NoDup_cons in Hnd as [Hnot _].
  apply Hnot, list_elem_of_omap. by exists c'.
Qed.

(** ** The registry keeps the promises of a locked component *)

Lemma guard_first c s s' g :
  first_chars s = first_chars s' → call_guard c s = Done (g, s) → call_guard c s' = Done (g, s').
Proof.
  intros Hf. destruct c as [[l|]|[l|]|[p|]|mj mn]; cbn [call_guard]; try by intros [= <-].
  intros (d & s1 & Hd & Hr)%bind_Done_inv. apply get_device_inv in Hd as [-> Hd].
  assert (first_chars s' !! l = Some (name d !! 0)) as Hl
    by (by rewrite <-Hf; unfold first_chars; rewrite lookup_fmap, Hd).
  unfold first_chars in Hl. rewrite lookup_fmap in Hl. apply fmap_Some in Hl as (d' & Hd' & Hn).
  bind (get_device_run _ _ _ Hd'). rewrite <-Hn.
  destruct (name d !! 0); [|done]. rewrite bind_the in Hr |- *. by injection Hr as <-.
Qed.

Lemma guard_spec c s q :
  holds s q → op_ok q (as_op c) →
  ∃ g, call_guard c s = Done (g, s) ∧ ∀ o, g = Some o → spec_op (as_op c) q = (o, q).
Proof.
  intros Hh Hok. destruct c as [[l|]|[l|]|[p|]|mj mn]; cbn [call_guard as_op spec_op] in *;
    try (eexists; split; [done|]; by intros o [= <-]).
  destruct Hok as (Hl & v & Hv & [x Hx] & Hp). destruct (holds_device _ _ _ _ Hh Hv) as (d & Hd & ->).
  cbn in Hx. bind (get_device_run _ _ _ Hd). bind (the_Some _ _ _ Hx). eexists. split; [done|].
  intros o Ho. rewrite Hv. unfold spec_register. cbn [v_first view]. rewrite Hx.
  case_decide as H0; [|done]. injection Ho as <-. by rewrite decide_True by congruence.
Qed.

Lemma lock_inv_run (s : io_state O) u s1 : lock_registry s = Done (u, s1) → s1 = set_lock 1 s.
Proof.
  unfold lock_registry. cbn [spin]. unfold test_and_set. run.
  destruct (decide (g_registry_lock s = 0%Z)); [|done]. by intros [= _ <-].
Qed.

(** A search of the sequential model gives the run of the section. *)
Lemma search_section_run (test : nova_device O → option bool) tp s r s' :
  (∀ l d b (s : io_state O), devices s !! l = Some d → test d = Some b →
    exec (tp l) s = Done (b, s)) →
  search test s = Done (r, s') →
  ∃ s2, exec (search_section tp) (set_lock 1 s) = Done (r, s2) ∧ s' = set_lock 0 s2.
Proof.
  intros Htp Hs. unfold search in Hs. apply bind_Done_inv in Hs as (u & s1 & Hlock & Hr).
  apply lock_inv_run in Hlock as ->. rewrite bind_gets in Hr.
  apply bind_Done_inv in Hr as (x & s3 & Hw & Hr).
  destruct (search_loop_run test tp _ _ _ _ _ (λ l d b, Htp l d b (set_lock 1 s)) Hw) as [Hx ->].
  exists (set_lock 1 s). unfold search_section.
  rewrite exec_bind. rewrite (bind_Done _ _ _ _ _ (load_run registry_fuel (set_lock 1 s))).
  rewrite exec_bind. rewrite (bind_Done _ _ _ _ _ (load_run g_device_registry (set_lock 1 s))).
  destruct x as [l|[]]; [by injection Hr as <- <-|].
  unfold unlock_registry in Hr. rewrite bind_modify in Hr. by injection Hr as <- <-.
Qed.

Lemma registered_locked l d s :
  g_registry_lock s = 0%Z → set_lock 0 (registered l d (set_lock 1 s)) = registered l d s.
Proof. intros H0. destruct s. cbn in *. subst. done. Qed.

Lemma exec_answer {A} (p : prog (io_state O) A) (f : A → observation) s a s' :
  exec p s = Done (a, s') → exec (r ← p; mret (f r)) s = Done (f a, s').
Proof. intros Hp. rewrite exec_bind. by rewrite (bind_Done _ _ _ _ _ Hp). Qed.

(** The sequential call is its section between lock and unlock. *)
Lemma section_of_call c s q o s1 :
  holds s q → op_ok q (as_op c) → call_guard c s = Done (None, s) →
  exec_op (as_op c) s = Done (o, s1) →
  ∃ s', exec (call_section c) (set_lock 1 s) = Done (o, s') ∧ s1 = set_lock 0 s'.
Proof.
  intros Hh Hok Hg Hx. pose proof (holds_lock _ _ Hh) as Hlk.
  destruct c as [[l|]|[l|]|[p|]|mj mn]; try done; cbn [as_op exec_op call_section] in *.
  - unfold call_guard in Hg. apply bind_Done_inv in Hg as (d & s2 & Hd & Hg).
    apply get_device_inv in Hd as [-> Hd]. destruct (name d !! 0) as [x|] eqn:Hn; [|done].
    rewrite bind_the in Hg. case_decide as H0; [done|].
    assert (∀ hd, g_device_registry s = Some hd → is_Some (devices s !! hd)) as Hhd.
    { intros hd Hhd. pose proof (holds_chain _ _ Hh) as Hc. rewrite Hhd in Hc.
      destruct (reg q); [done|]. by destruct Hc as [[= ->] (d' & Hd' & _)]; eexists. }
    apply bind_Done_inv in Hx as (r & s2 & Hr & Hx).
    rewrite (nova_device_register_run l d x) in Hr by done. injection Hr as <- <-.
    injection Hx as <- <-. exists (registered l d (set_lock 1 s)).
    split; [|symmetry; by apply registered_locked].
    apply (exec_answer _ (λ r, (r, None))). by apply register_section_run.
  - apply bind_Done_inv in Hx as (r & s2 & Hr & Hx). injection Hx as <- <-.
    unfold nova_device_unregister in Hr. apply bind_Done_inv in Hr as (u & s3 & Hlock & Hr).
    apply lock_inv_run in Hlock as ->. rewrite bind_gets in Hr.
    apply bind_Done_inv in Hr as (x & s4 & Hw & Hr).
    apply unregister_loop_run in Hw as (s5 & Hx & ->). exists s5. split.
    + rewrite exec_bind. rewrite (bind_Done _ _ _ _ _ (load_run registry_fuel (set_lock 1 s))).
      rewrite exec_bind. rewrite (bind_Done _ _ _ _ _ (load_run g_device_registry (set_lock 1 s))).
      rewrite (exec_answer _ (λ r, (r, None)) _ _ _ Hx).
      destruct x as [z|]; [by injection Hr as <- <-|].
      unfold unlock_registry in Hr. rewrite bind_modify in Hr. by injection Hr as <- <-.
    + destruct x as [z|]; [by injection Hr as <- <-|].
      unfold unlock_registry in Hr. rewrite bind_modify in Hr. by injection Hr as <- <-.
  - apply bind_Done_inv in Hx as (r & s2 & Hr & Hx). injection Hx as <- <-.
    cbn [nova_device_find] in Hr. apply (search_section_run _ (path_test p)) in Hr as (s3 & Hr & ->).
    + exists s3. split; [|done]. by apply (exec_answer _ (λ r, (0%Z, r))).
    + intros l d b s4 Hd Hb. unfold path_test.
      rewrite exec_bind. rewrite (bind_Done _ _ _ _ _ (load_field_run path l d s4 Hd)).
      by rewrite exec_access, Hb.
  - apply bind_Done_inv in Hx as (r & s2 & Hr & Hx). injection Hx as <- <-.
    apply (search_section_run _ (number_test mj mn)) in Hr as (s3 & Hr & ->).
    + exists s3. split; [|done]. by apply (exec_answer _ (λ r, (0%Z, r))).
    + intros l d b s4 Hd [= <-]. unfold number_test.
      rewrite exec_bind. rewrite (bind_Done _ _ _ _ _ (load_field_run major l d s4 Hd)).
      destruct (decide (major d = mj)) as [Hm|Hm].
      * rewrite exec_bind. rewrite (bind_Done _ _ _ _ _ (load_field_run minor l d s4 Hd)).
        replace (bool_decide (major d = mj ∧ minor d = mn)) with (bool_decide (minor d = mn));
          [done|apply bool_decide_ext; tauto].
      * by rewrite bool_decide_eq_false_2 by tauto.
Qed.

#[export] Instance io_locked_ok :
  LockedOk (io_state O) reg_call observation (λ c, spec_op (as_op c)) holds first_chars calls_ready.
Proof.
  split.
  - done.
  - by intros [].
  - done.
  - done.
  - apply holds_lock.
  - apply calls_ready_perm.
  - apply calls_ready_next.
  - apply guard_first.
  - intros c calls s q Hh [Hok _]. apply Forall_cons in Hok as [Hok _]. by apply guard_spec.
  - intros c calls s q Hh [Hok _] Hg. apply Forall_cons in Hok as [Hok _].
    destruct (op_refines (as_op c) s q Hh Hok) as (o & s1 & q' & Hx & Hs & Hh').
    destruct (section_of_call c s q o s1 Hh Hok Hg Hx) as (s' & Hr & ->). by exists o, s', q'.
  - apply section_keeps.
Qed.
End interface.

(** ** Initialisation is not atomic *)

(** nova_io_init at single accesses; it takes no lock. *)
Definition init_section {O} : prog (io_state O) Z :=
  i ← load g_io_initialized;
  if decide (i ≠ 0)%Z then mret 0%Z
  else
    store (set_registry None);;
    store (set_next_major 1);;
    store (set_initialized 1);;
    mret 0%Z.

Lemma init_section_run {O} (s : io_state O) : exec init_section s = nova_io_init s.
Proof. unfold init_section, nova_io_init. cbn. run. by case_decide. Qed.

(** Two threads initialise at the same time.  One has tested the flag when the
    other initialises and registers a device, successfully; the first then goes
    on, and the device is no longer in the registry. *)
Theorem nova_io_init_race {O : Type} (s : io_state O) (l : loc) (d : nova_device O) (c : Z) :
  g_io_initialized s = 0%Z → g_registry_lock s = 0%Z →
  devices s !! l = Some d → name d !! 0 = Some c → c ≠ 0%Z →
  ∃ test rest s1 s2 s3,
    next_access init_section = Some test ∧ test s = Done (rest, s) ∧
    nova_io_init s = Done (0%Z, s1) ∧
    nova_device_register (Some l) s1 = Done (0%Z, s2) ∧ g_device_registry s2 = Some l ∧
    exec rest s2 = Done (0%Z, s3) ∧ g_device_registry s3 = None.
Proof.
  intros Hi Hlk Hd Hc Hne. unfold nova_io_init. run. rewrite Hi, decide_False by (by intros []).
  run. eexists _, _, _, _, _. split; [done|]. split; [run; rewrite Hi; done|].
  split; [done|]. split; [by apply (nova_device_register_run l d c)|]. by split_and!.
Qed.

Lemma nova_io_init_race_witness :
  ∃ test rest s1 s2 s3,
    next_access (init_section (O:=unit)) = Some test ∧
    test (set_initialized 0 cold) = Done (rest, set_initialized 0 cold) ∧
    nova_io_init (set_initialized 0 cold) = Done (0%Z, s1) ∧
    nova_device_register (Some 1) s1 = Done (0%Z, s2) ∧ g_device_registry s2 = Some 1 ∧
    exec rest s2 = Done (0%Z, s3) ∧ g_device_registry s3 = None.
Proof. by eapply (nova_io_init_race (set_initialized 0 cold) 1). Defined.

(** * Properties *)

(** C7. The registry is atomic under concurrency.  Any number of threads run
    register, unregister, find and get_by_major_minor calls, interleaved at
    single memory accesses; no two calls register the same device.  Then no
    access is ever undefined, no loop exceeds the length of the list, and the
    calls, taken one after the other in the order in which they got the lock,
    explain everything: every answer given so far is the specification's answer
    to that sequence, each thread's calls are in it in their order, and whenever
    the lock is free the memory holds the list the specification ends with. *)
Theorem nova_io_registry_atomic {O : Type} (s : io_state O) (q : registry)
    (scripts : list (list reg_call)) (c : config (io_state O) reg_call observation) :
  holds s q → calls_ready q (mjoin scripts) → rtc step (boot s scripts) c →
  ¬ faulty c ∧
  ∃ obs q', spec_trace (λ call, spec_op (as_op call)) (order c).*2 q = (obs, q') ∧
    (g_registry_lock (mem c) = 0%Z → holds (mem c) q') ∧
    ∀ i t, threads c !! i = Some t →
      results t `prefix_of` done_by i (order c) obs ∧
      (¬ inside t → results t = done_by i (order c) obs) ∧
      scripts !! i = Some ((done_by i (order c) obs).*1 ++ pending t).
Proof.
  exact (interleaving_atomic (λ call, spec_op (as_op call)) holds first_chars calls_ready
    q scripts s c).
Qed.

(** Two threads: the first registers the disk and looks for it, the second
    registers the console. *)
Definition two_scripts : list (list reg_call) :=
  [[CallRegister (Some 1); CallFind (Some (cstr "/dev/disk0"))]; [CallRegister (Some 2)]].

Lemma two_scripts_ready : calls_ready cold_registry (mjoin two_scripts).
Proof.
  split; [|apply (bool_decide_unpack _); vm_compute; exact I].
  repeat constructor; try by intros ?%elem_of_nil.
  - by eexists; split; [reflexivity|split; eexists].
  - by eexists.
  - by eexists; split; [reflexivity|split; eexists].
Qed.

(** Both have called; the first is inside, the second has tried the lock. *)
Definition contended : config (io_state unit) reg_call observation :=
  Config (set_lock 1 cold)
    [Thread [CallFind (Some (cstr "/dev/disk0"))]
       (Inside (CallRegister (Some 1)) (call_section (CallRegister (Some 1)))) [];
     Thread [] (Spinning (CallRegister (Some 2))) []]
    [(0, CallRegister (Some 1))].

Lemma contended_reachable : rtc step (boot cold two_scripts) contended.
Proof.
  eapply rtc_l; [by eapply (step_call _ 0)|]. eapply rtc_l; [by eapply (step_call _ 1)|].
  eapply rtc_l; [by eapply (step_enter _ 0)|]. eapply rtc_l; [by eapply (step_spin _ 1)|].
  apply rtc_refl.
Qed.

Lemma nova_io_registry_atomic_witness :
  ¬ faulty contended ∧
  ∃ obs q', spec_trace (λ call, spec_op (as_op call)) (order contended).*2 cold_registry = (obs, q') ∧
    (g_registry_lock (mem contended) = 0%Z → holds (mem contended) q') ∧
    ∀ i t, threads contended !! i = Some t →
      results t `prefix_of` done_by i (order contended) obs ∧
      (¬ inside t → results t = done_by i (order contended) obs) ∧
      two_scripts !! i = Some ((done_by i (order contended) obs).*1 ++ pending t).
Proof.
  exact (nova_io_registry_atomic cold cold_registry two_scripts contended cold_holds
    two_scripts_ready contended_reachable).
Defined.

(** No schedule leads into a deadlock: from every configuration that
    interleaved register, unregister, find and get_by_major_minor calls can
    reach, the threads can go on to finish all their calls; the lock is free
    then, the memory holds a list, and every thread has an answer to each call
    of its script. *)
Theorem nova_io_registry_no_deadlock {O : Type} (s : io_state O) (q : registry)
    (scripts : list (list reg_call)) (c : config (io_state O) reg_call observation) :
  holds s q → calls_ready q (mjoin scripts) → rtc step (boot s scripts) c →
  ∃ c' q', rtc step c c' ∧ holds (mem c') q' ∧ g_registry_lock (mem c') = 0%Z ∧
    ∀ i t, threads c' !! i = Some t →
      at_place t = Idle ∧ scripts !! i = Some (results t).*1.
Proof.
  intros Hs Hr Hc.
  destruct (interleaving_finishes (λ call, spec_op (as_op call)) holds first_chars calls_ready
    q scripts s c Hs Hr Hc) as (c' & Hsteps & Hfin).
  destruct (interleaving_settled (λ call, spec_op (as_op call)) holds first_chars calls_ready
    q scripts s c' Hs Hr (transitivity Hc Hsteps) Hfin) as (q' & Hq' & Hall).
  exists c', q'. split_and!; [done|done|by eapply holds_lock|].
  intros i t Hi. split; [by apply Hfin in Hi as [? _]|by apply Hall].
Qed.

Lemma nova_io_registry_no_deadlock_witness :
  ∃ c' q', rtc step contended c' ∧ holds (mem c') q' ∧ g_registry_lock (mem c') = 0%Z ∧
    ∀ i t, threads c' !! i = Some t →
      at_place t = Idle ∧ two_scripts !! i = Some (results t).*1.
Proof.
  exact (nova_io_registry_no_deadlock cold cold_registry two_scripts contended cold_holds
    two_scripts_ready contended_reachable).
Defined.

(** C8. Every call returns.  A scheduler that gives each thread a turn again and
    again, whatever the order and however long some wait in the loop of
    lock_registry, brings any number of threads with any scripts of register,
    unregister, find and get_by_major_minor calls to their end, as long as no two
    calls of the scripts register the same device and each would be admissible at
    the start: from some turn on nothing changes, the lock is free, the memory holds the list that the
    calls make in the order in which they got the lock, and every thread has the
    specification's answer to each call of its script. *)
Theorem nova_io_registry_fair {O : Type} (s : io_state O) (q : registry)
    (scripts : list (list reg_call)) (σ : nat → nat) :
  holds s q → calls_ready q (mjoin scripts) → fair (length scripts) σ →
  ∃ N c obs q', (∀ n, N ≤ n → run σ n (boot s scripts) = c) ∧ finished c ∧
    spec_trace (λ call, spec_op (as_op call)) (order c).*2 q = (obs, q') ∧
    holds (mem c) q' ∧ g_registry_lock (mem c) = 0%Z ∧
    ∀ i t, threads c !! i = Some t →
      results t = done_by i (order c) obs ∧ scripts !! i = Some (results t).*1.
Proof.
  intros Hs Hr Hσ.
  destruct (fair_finishes (λ call, spec_op (as_op call)) holds first_chars calls_ready
    q scripts s σ Hs Hr Hσ) as (N & c & obs & q' & HN & Hf & Htr & Hq & Hall).
  exists N, c, obs, q'. split_and!; [done..|by eapply holds_lock|done].
Qed.

(** The two threads in turns. *)
Lemma in_turns_fair : fair (length two_scripts) (λ k, k mod 2).
Proof.
  intros i Hi k. exists (i + k * 2). split; [lia|]. rewrite Nat.Div0.mod_add.
  by apply Nat.mod_small.
Qed.

Lemma nova_io_registry_fair_witness :
  ∃ N c obs q', (∀ n, N ≤ n → run (λ k, k mod 2) n (boot cold two_scripts) = c) ∧ finished c ∧
    spec_trace (λ call, spec_op (as_op call)) (order c).*2 cold_registry = (obs, q') ∧
    holds (mem c) q' ∧ g_registry_lock (mem c) = 0%Z ∧
    ∀ i t, threads c !! i = Some t →
      results t = done_by i (order c) obs ∧ two_scripts !! i = Some (results t).*1.
Proof.
  exact (nova_io_registry_fair cold cold_registry two_scripts (λ k, k mod 2) cold_holds
    two_scripts_ready in_turns_fair).
Defined.

(** How that run goes: the second thread waits while the first registers the
    disk; the first finds it again. *)
Lemma in_turns_results :
  results <$> threads (run (λ k, k mod 2) 60 (boot cold two_scripts)) =
    [[(CallRegister (Some 1), (0%Z, None)); (CallFind (Some (cstr "/dev/disk0")), (0%Z, Some 1))];
     [(CallRegister (Some 2), (0%Z, None))]].
Proof. vm_compute. reflexivity. Qed.
End IoConcurrent.
