(* ===== verification/UiBoot.v ===== *)
(** * The path from the serial shell into the desktop session
      (userland/uimode/desktop/ui_boot_path.c)

    A context of flags and the current mode, changed by the commands of the
    serial shell and by launches.  The state is what the [ctx] argument points
    to: [None] for NULL. *)

From S2P Require Import Prelude CString.

Module UiBoot.

Inductive nova_ui_mode : Type :=
  | NOVA_UI_MODE_TEXT | NOVA_UI_MODE_DESKTOP | NOVA_UI_MODE_COMPAT.

(** Strings are blocks of bytes, NULL is [None]. *)
Record nova_ui_boot_plan : Type := Plan {
  mode : nova_ui_mode;
  display_server : option (list Z);
  session_manager : option (list Z);
  desktop_shell : option (list Z);
  compat_shell : option (list Z);
  kernel_console_device : option (list Z);
  vm_display_device : option (list Z);
  auto_start_desktop : Z;
  enable_compat_shell : Z;
}.

Record nova_ui_boot_context : Type := Context_ {
  plan : nova_ui_boot_plan;
  current_mode : nova_ui_mode;
  serial_ready : Z;
  userland_ready : Z;
  session_started : Z;
  desktop_ready : Z;
  compat_shell_ready : Z;
}.

Abbreviation ui_state := (option nova_ui_boot_context).

Definition set_mode (m : nova_ui_mode) (c : nova_ui_boot_context) : nova_ui_boot_context :=
  Context_ (plan c) m (serial_ready c) (userland_ready c) (session_started c)
    (desktop_ready c) (compat_shell_ready c).

(** Assignments through [ctx]. *)
Definition update (f : nova_ui_boot_context → nova_ui_boot_context) : M ui_state unit :=
  s ← gets (λ s : ui_state, s); c ← the s; modify (λ _, Some (f c)).

Definition starts_with (value prefix : list Z) : M ui_state bool :=
  prefix_len ← the (strlen prefix);
  the (strncmp_eq value prefix prefix_len).

Definition is_ui_command (command : option (list Z)) (name : list Z) : M ui_state bool :=
  match command with None => mret false | Some command => the (strcmp_eq command name) end.

(** [a || b || c]: the later tests run only when the earlier ones fail. *)
Definition or_else (a b : M ui_state bool) : M ui_state bool :=
  r ← a; if (r : bool) then mret true else b.

Definition nova_ui_boot_prepare (p : option nova_ui_boot_plan) : M ui_state Z :=
  s ← gets (λ s : ui_state, s);
  match s, p with
  | Some _, Some p => update (λ _, Context_ p (mode p) 1 0 0 0 0);; mret 0%Z
  | _, _ => mret (-1)%Z
  end.

Definition nova_ui_boot_desktop : M ui_state Z :=
  s ← gets (λ s : ui_state, s);
  match s with
  | None => mret (-1)%Z
  | Some _ =>
      update (λ c, Context_ (plan c) NOVA_UI_MODE_DESKTOP (serial_ready c) 1 1 1
        (compat_shell_ready c));;
      mret 0%Z
  end.

Definition nova_ui_launch_compat_shell : M ui_state Z :=
  s ← gets (λ s : ui_state, s);
  match s with
  | None => mret (-1)%Z
  | Some c =>
      if decide (enable_compat_shell (plan c) = 0%Z ∧ vm_display_device (plan c) = None)
      then mret (-2)%Z
      else
        update (λ c, Context_ (plan c) NOVA_UI_MODE_COMPAT (serial_ready c)
          (userland_ready c) 1 1 1);;
        mret 0%Z
  end.

Definition nova_ui_boot_from_serial_shell (command : option (list Z)) : M ui_state Z :=
  s ← gets (λ s : ui_state, s);
  match s, command with
  | Some _, Some text =>
      desktop ← or_else (is_ui_command command (cstr "desktop"))
        (or_else (starts_with text (cstr "ui desktop"))
                 (starts_with text (cstr "start desktop")));
      if (desktop : bool) then update (set_mode NOVA_UI_MODE_DESKTOP);; nova_ui_boot_desktop
      else
        compat ← or_else (is_ui_command command (cstr "compat"))
          (or_else (starts_with text (cstr "ui compat"))
                   (starts_with text (cstr "compat shell")));
        if (compat : bool)
        then update (set_mode NOVA_UI_MODE_COMPAT);; nova_ui_launch_compat_shell
        else
          text_mode ← or_else (is_ui_command command (cstr "text"))
            (starts_with text (cstr "ui text"));
          if (text_mode : bool) then
            update (λ c, Context_ (plan c) NOVA_UI_MODE_TEXT (serial_ready c)
              (userland_ready c) (session_started c) 0 0);;
            mret 0%Z
          else mret (-2)%Z
  | _, _ => mret (-1)%Z
  end.

(** nova_ui_launch_linux_app and nova_ui_launch_windows_app have the same body. *)
Definition nova_ui_launch_linux_app (path : option (list Z)) : M ui_state Z :=
  s ← gets (λ s : ui_state, s);
  match s, path with
  | Some c, Some _ =>
      if decide (desktop_ready c = 0)%Z then mret (-2)%Z
      else update (set_mode NOVA_UI_MODE_DESKTOP);; mret 0%Z
  | _, _ => mret (-1)%Z
  end.

Definition nova_ui_launch_windows_app (path : option (list Z)) : M ui_state Z :=
  s ← gets (λ s : ui_state, s);
  match s, path with
  | Some c, Some _ =>
      if decide (desktop_ready c = 0)%Z then mret (-2)%Z
      else update (set_mode NOVA_UI_MODE_DESKTOP);; mret 0%Z
  | _, _ => mret (-1)%Z
  end.

(** ** The commands as strings *)

(** A prefix test on C strings. *)
Lemma strncmp_eq_prefix (value v pre : list Z) :
  c_string value = Some v → nonzero pre →
  strncmp_eq value (pre ++ [0%Z]) (length pre) = Some (bool_decide (pre `prefix_of` v)).
Proof.
  intros Hv Hp. revert value v Hv. induction Hp as [|b pre Hb Hp IH]; intros value v Hv.
  { cbn. by rewrite bool_decide_eq_true_2 by apply prefix_nil. }
  destruct value as [|x value]; [done|]. cbn in Hv. cbn [length app strncmp_eq].
  destruct (decide (x = 0%Z)) as [->|Hx].
  { injection Hv as <-. rewrite decide_True by congruence.
    by rewrite bool_decide_eq_false_2 by apply prefix_nil_not. }
  apply fmap_Some in Hv as (w & Hw & ->).
  destruct (decide (x ≠ b)) as [Hne|Heq].
  - rewrite bool_decide_eq_false_2; [done|]. by intros ?%prefix_cons_inv_1.
  - assert (x = b) as -> by (destruct (decide (x = b)); tauto).
    rewrite (IH _ _ Hw). f_equal. apply bool_decide_ext.
    split; [apply prefix_cons|apply prefix_cons_inv_2].
Qed.

Lemma or_else_run (a b : M ui_state bool) (x y : bool) (s : ui_state) :
  a s = Done (x, s) → b s = Done (y, s) → or_else a b s = Done (x || y, s).
Proof. intros Ha Hb. unfold or_else. bind Ha. by destruct x. Qed.

Lemma ui_starts_with_run value v (pre : string) (s : ui_state) :
  c_string value = Some v → nonzero (chars pre) →
  starts_with value (cstr pre) s = Done (bool_decide (chars pre `prefix_of` v), s).
Proof.
  intros Hv Hp. unfold starts_with, strlen. rewrite chars_nonzero_cstr by done. cbn [fmap].
  bind (the_Some (Some (length (chars pre))) _ s eq_refl).
  apply the_Some. by apply strncmp_eq_prefix.
Qed.

Lemma is_ui_command_run value v (name : string) (s : ui_state) :
  c_string value = Some v → nonzero (chars name) →
  is_ui_command (Some value) (cstr name) s = Done (bool_decide (v = chars name), s).
Proof.
  intros Hv Hn. apply the_Some, strcmp_eq_Some; [done|]. by apply chars_nonzero_cstr.
Qed.

(** What a command asks for: an exact word, or a phrase it begins with. *)
Inductive ui_request : Type := ToDesktop | ToCompat | ToText | Unknown.

Definition asks (v : list Z) (word : string) (phrases : list string) : bool :=
  bool_decide (v = chars word ∨ Exists (λ p, chars p `prefix_of` v) phrases).

Definition classify (v : list Z) : ui_request :=
  if asks v "desktop" ["ui desktop"%string; "start desktop"%string] then ToDesktop
  else if asks v "compat" ["ui compat"%string; "compat shell"%string] then ToCompat
  else if asks v "text" ["ui text"%string] then ToText
  else Unknown.

(** The contexts the three requests lead to. *)
Definition desktop_context (c : nova_ui_boot_context) : nova_ui_boot_context :=
  Context_ (plan c) NOVA_UI_MODE_DESKTOP (serial_ready c) 1 1 1 (compat_shell_ready c).
Definition compat_context (c : nova_ui_boot_context) : nova_ui_boot_context :=
  Context_ (plan c) NOVA_UI_MODE_COMPAT (serial_ready c) (userland_ready c) 1 1 1.
Definition text_context (c : nova_ui_boot_context) : nova_ui_boot_context :=
  Context_ (plan c) NOVA_UI_MODE_TEXT (serial_ready c) (userland_ready c)
    (session_started c) 0 0.

(** The plan allows the compatibility shell. *)
Definition compat_allowed (p : nova_ui_boot_plan) : Prop :=
  ¬ (enable_compat_shell p = 0%Z ∧ vm_display_device p = None).
#[export] Instance compat_allowed_dec p : Decision (compat_allowed p).
Proof. unfold compat_allowed. apply _. Defined.

Definition spec_command (v : list Z) (c : nova_ui_boot_context) : Z * nova_ui_boot_context :=
  match classify v with
  | ToDesktop => (0%Z, desktop_context c)
  | ToCompat =>
      if decide (compat_allowed (plan c)) then (0%Z, compat_context c)
      else ((-2)%Z, set_mode NOVA_UI_MODE_COMPAT c)
  | ToText => (0%Z, text_context c)
  | Unknown => ((-2)%Z, c)
  end.

Lemma asks_run2 value v (word p1 p2 : string) (s : ui_state) :
  c_string value = Some v → nonzero (chars word) → nonzero (chars p1) → nonzero (chars p2) →
  or_else (is_ui_command (Some value) (cstr word))
    (or_else (starts_with value (cstr p1)) (starts_with value (cstr p2))) s =
  Done (asks v word [p1; p2], s).
Proof.
  intros Hv Hw H1 H2. erewrite or_else_run;
    [|by apply is_ui_command_run|by apply or_else_run; apply ui_starts_with_run].
  do 2 f_equal. unfold asks.
  rewrite <-!bool_decide_or. apply bool_decide_ext.
  rewrite !Exists_cons, Exists_nil. tauto.
Qed.

Lemma asks_run1 value v (word p : string) (s : ui_state) :
  c_string value = Some v → nonzero (chars word) → nonzero (chars p) →
  or_else (is_ui_command (Some value) (cstr word)) (starts_with value (cstr p)) s =
  Done (asks v word [p], s).
Proof.
  intros Hv Hw H1. erewrite or_else_run;
    [|by apply is_ui_command_run|by apply ui_starts_with_run].
  do 2 f_equal. unfold asks. rewrite <-bool_decide_or. apply bool_decide_ext.
  rewrite Exists_cons, Exists_nil. tauto.
Qed.

Lemma launch_compat_run c :
  nova_ui_launch_compat_shell (Some c) =
    Done (if decide (compat_allowed (plan c)) then (0%Z, Some (compat_context c))
          else ((-2)%Z, Some c)).
Proof.
  unfold nova_ui_launch_compat_shell, compat_allowed. run.
  destruct (decide (enable_compat_shell (plan c) = 0%Z ∧ _)) as [Hno|Hyes].
  - by rewrite decide_False by tauto.
  - by rewrite decide_True.
Qed.

Lemma serial_shell_run value v c :
  c_string value = Some v →
  nova_ui_boot_from_serial_shell (Some value) (Some c) =
    Done ((spec_command v c).1, Some (spec_command v c).2).
Proof.
  intros Hv. unfold nova_ui_boot_from_serial_shell, spec_command, classify. run.
  bind by (apply (asks_run2 _ v); [done|by repeat constructor..]).
  destruct (asks v "desktop" _); [done|].
  bind by (apply (asks_run2 _ v); [done|by repeat constructor..]).
  destruct (asks v "compat" _).
  { unfold update. run. rewrite launch_compat_run. cbn [plan set_mode].
    by destruct (decide (compat_allowed (plan c))). }
  bind by (apply (asks_run1 _ v); [done|by repeat constructor..]).
  by destruct (asks v "text" _).
Qed.

(** ** Sessions *)

Inductive ui_op : Type :=
  | OpPrepare (p : option nova_ui_boot_plan)
  | OpCommand (command : option (list Z))
  | OpDesktop
  | OpCompat
  | OpLinuxApp (path : option (list Z))
  | OpWindowsApp (path : option (list Z)).

(** A command is NULL or a string. *)
Definition op_ok (op : ui_op) : Prop :=
  match op with OpCommand (Some command) => is_Some (c_string command) | _ => True end.

Definition exec_op (op : ui_op) : M ui_state Z :=
  match op with
  | OpPrepare p => nova_ui_boot_prepare p
  | OpCommand command => nova_ui_boot_from_serial_shell command
  | OpDesktop => nova_ui_boot_desktop
  | OpCompat => nova_ui_launch_compat_shell
  | OpLinuxApp path => nova_ui_launch_linux_app path
  | OpWindowsApp path => nova_ui_launch_windows_app path
  end.

Definition flag (z : Z) : Prop := z = 0%Z ∨ z = 1%Z.

Record ui_inv (c : nova_ui_boot_context) : Prop := {
  inv_flags : flag (userland_ready c) ∧ flag (session_started c) ∧ flag (desktop_ready c) ∧
    flag (compat_shell_ready c);
  inv_serial : serial_ready c = 1%Z;
  inv_userland : userland_ready c = 1%Z → session_started c = 1%Z;
  inv_desktop : desktop_ready c = 1%Z → session_started c = 1%Z;
  inv_compat : compat_shell_ready c = 1%Z →
    desktop_ready c = 1%Z ∧ compat_allowed (plan c);
}.

Lemma context_invs c :
  ui_inv c →
  ui_inv (desktop_context c) ∧ ui_inv (text_context c) ∧ (∀ m, ui_inv (set_mode m c)) ∧
  (compat_allowed (plan c) → ui_inv (compat_context c)) ∧
  (∀ p, ui_inv (Context_ p (mode p) 1 0 0 0 0)).
Proof.
  intros [(Hu & Hs & Hd & Hc) Hser Hul Hds Hco].
  split_and!; intros; split; cbn; unfold flag in *; try done; try tauto; try naive_solver.
Qed.

(** The return codes: done, no object, not possible. *)
Definition reply (r : Z) : Prop := r = 0%Z ∨ r = (-1)%Z ∨ r = (-2)%Z.

Lemma spec_command_inv v c :
  ui_inv c → reply (spec_command v c).1 ∧ ui_inv (spec_command v c).2.
Proof.
  intros Hc. destruct (context_invs c Hc) as (Hd & Ht & Hm & Hco & _). unfold reply.
  unfold spec_command. destruct (classify v); [by auto|case_decide|by auto|by auto];
    (split; [by auto|]); [by apply Hco|apply Hm].
Qed.

Lemma exec_op_inv op c :
  op_ok op → ui_inv c → ∃ r c', exec_op op (Some c) = Done (r, Some c') ∧ reply r ∧ ui_inv c'.
Proof.
  intros Hok Hc. destruct (context_invs c Hc) as (Hd & Ht & Hm & Hco & Hp).
  assert (∀ r c', exec_op op (Some c) = Done (r, Some c') → reply r → ui_inv c' →
    ∃ r c', exec_op op (Some c) = Done (r, Some c') ∧ reply r ∧ ui_inv c') as Hdone by eauto 10.
  unfold reply in Hdone.
  destruct op as [[p|]|[command|]| | |[path|]|[path|]]; cbn [exec_op] in *;
    try (eapply Hdone; [reflexivity|by auto|by auto]).
  - destruct Hok as [v Hv]. destruct (spec_command_inv v c Hc) as [Hr Hc'].
    eapply Hdone; [by apply serial_shell_run|done|done].
  - rewrite launch_compat_run in *. case_decide; (eapply Hdone; [reflexivity|by auto|by auto]).
  - unfold nova_ui_launch_linux_app in *. rewrite bind_gets in *.
    case_decide; (eapply Hdone; [reflexivity|by auto|by auto]).
  - unfold nova_ui_launch_windows_app in *. rewrite bind_gets in *.
    case_decide; (eapply Hdone; [reflexivity|by auto|by auto]).
Qed.

Lemma exec_trace_inv ops c :
  Forall op_ok ops → ui_inv c →
  ∃ rs c', exec_trace exec_op ops (Some c) = Done (rs, Some c') ∧ ui_inv c'.
Proof.
  intros Hops. revert c. induction Hops as [|op ops Hop _ IH]; intros c Hc; [by eexists _, _|].
  destruct (exec_op_inv op c Hop Hc) as (r & c1 & Hr & _ & Hc1).
  destruct (IH c1 Hc1) as (rs & c' & Hrs & Hc'). exists (r :: rs), c'.
  split; [|done]. cbn [exec_trace]. bind Hr. by bind Hrs.
Qed.

(** * Properties *)

(** C22. The session state machine: after nova_ui_boot_prepare, whatever
    commands, launches and preparations follow, every call returns and the
    context stays consistent: the flags are 0 or 1, a ready desktop or userland
    implies a started session, and the compatibility shell is ready only with
    the desktop and only when the plan allows it.  An application is launched
    exactly when the desktop is ready, which it then brings to the front. *)
Theorem nova_ui_session_consistent (p : nova_ui_boot_plan) (c0 : nova_ui_boot_context)
    (ops : list ui_op) (path : list Z) :
  Forall op_ok ops →
  ∃ rs c, exec_trace exec_op (OpPrepare (Some p) :: ops) (Some c0) = Done (0%Z :: rs, Some c) ∧
    ui_inv c ∧
    nova_ui_launch_linux_app (Some path) (Some c) = nova_ui_launch_windows_app (Some path) (Some c) ∧
    nova_ui_launch_linux_app (Some path) (Some c) =
      Done (if decide (desktop_ready c = 1%Z)
            then (0%Z, Some (set_mode NOVA_UI_MODE_DESKTOP c)) else ((-2)%Z, Some c)).
Proof.
  intros Hops. destruct (exec_trace_inv ops (Context_ p (mode p) 1 0 0 0 0) Hops)
    as (rs & c & Hrun & Hc); [by split; cbn; unfold flag; auto|].
  exists rs, c. split; [cbn [exec_trace exec_op]; unfold nova_ui_boot_prepare, update; run;
    by bind Hrun|].
  split; [done|]. split; [done|]. unfold nova_ui_launch_linux_app. run.
  destruct (inv_flags _ Hc) as (_ & _ & [Hd|Hd] & _); rewrite Hd; done.
Qed.

Definition text_plan : nova_ui_boot_plan :=
  Plan NOVA_UI_MODE_TEXT None None None None None None 0 0.
Definition blank_context : nova_ui_boot_context :=
  Context_ text_plan NOVA_UI_MODE_TEXT 0 0 0 0 0.

Lemma nova_ui_session_consistent_witness :
  let ops := [OpCommand (Some (cstr "ui desktop")); OpCommand (Some (cstr "compat"));
              OpCommand None; OpLinuxApp (Some (cstr "/bin/ls")); OpCompat] in
  ∃ rs c, exec_trace exec_op (OpPrepare (Some text_plan) :: ops) (Some blank_context) =
      Done (0%Z :: rs, Some c) ∧
    ui_inv c ∧
    nova_ui_launch_linux_app (Some (cstr "/bin/sh")) (Some c) =
      nova_ui_launch_windows_app (Some (cstr "/bin/sh")) (Some c) ∧
    nova_ui_launch_linux_app (Some (cstr "/bin/sh")) (Some c) =
      Done (if decide (desktop_ready c = 1%Z)
            then (0%Z, Some (set_mode NOVA_UI_MODE_DESKTOP c)) else ((-2)%Z, Some c)).
Proof.
  apply nova_ui_session_consistent. repeat constructor; by eexists.
Defined.

(** C30. The commands of the serial shell: one of the words desktop, compat and
    text must match exactly, a phrase such as "ui desktop" need only begin the
    command (so "ui desktopfoo" is accepted too), anything else returns -2 and
    changes nothing.  A request for the compatibility shell that the plan does
    not allow returns -2 as well, but the mode has been changed: the context
    says compatibility mode while no such shell runs. *)
Theorem nova_ui_command_correct (command v : list Z) (c : nova_ui_boot_context) :
  c_string command = Some v →
  nova_ui_boot_from_serial_shell (Some command) (Some c) =
    Done ((spec_command v c).1, Some (spec_command v c).2) ∧
  (classify v = ToCompat → ¬ compat_allowed (plan c) →
     ∃ c', nova_ui_boot_from_serial_shell (Some command) (Some c) = Done ((-2)%Z, Some c') ∧
       current_mode c' = NOVA_UI_MODE_COMPAT ∧ compat_shell_ready c' = compat_shell_ready c).
Proof.
  intros Hv. pose proof (serial_shell_run command v c Hv) as Hrun. split; [done|].
  intros Hto Hno. rewrite Hrun. unfold spec_command. rewrite Hto, decide_False by done.
  by eexists.
Qed.

Lemma nova_ui_command_correct_witness :
  classify (chars "ui desktopfoo") = ToDesktop ∧
  ∃ c', nova_ui_boot_from_serial_shell (Some (cstr "ui compat")) (Some blank_context) =
      Done ((-2)%Z, Some c') ∧
    current_mode c' = NOVA_UI_MODE_COMPAT ∧ compat_shell_ready c' = 0%Z.
Proof.
  split; [vm_compute; reflexivity|].
  apply (nova_ui_command_correct (cstr "ui compat") (chars "ui compat") blank_context);
    [reflexivity|vm_compute; reflexivity|intros H; by apply H].
Defined.
End UiBoot.
