(* ===== verification/BootEntry.v ===== *)
(** * The entry of the kernel (boot/boot.asm, boot/linker.ld)

    The Multiboot header that the loader looks for, and the instructions from
    [_start] on: they set up a stack of 16384 bytes, pass the loader's two
    registers to kmain and stop the processor when kmain returns.  The machine
    has the registers the code uses, the bytes of the stack section and the
    interrupt flag; the addresses the linker chooses are parameters. *)

From S2P Require Import Prelude Bytes.

Module BootEntry.

(** ** The Multiboot header *)

Definition MULTIBOOT_MAGIC : Z := 0x1BADB002.

(** The three [dd] words of section .multiboot. *)
Definition multiboot_header : list Z :=
  bytes_of 4 MULTIBOOT_MAGIC ++ bytes_of 4 0 ++ bytes_of 4 (u32 (- MULTIBOOT_MAGIC)).

(** What a loader checks at an offset of the image: the magic number, and the
    sum of the three words. *)
Definition header_at (image : list Z) (o : nat) : bool :=
  bool_decide (word_of (slice o 4 image) = MULTIBOOT_MAGIC) &&
  bool_decide (u32 (word_of (slice o 4 image) + word_of (slice (o + 4) 4 image) +
    word_of (slice (o + 8) 4 image)) = 0%Z) && bool_decide (o + 12 ≤ length image).

(** A loader searches the first 8192 bytes, word by word. *)
Definition find_header (image : list Z) : option nat :=
  (λ m : nat * nat, m.2) <$>
    list_find (λ o, header_at image o = true) ((λ k, 4 * k) <$> seq 0 2046).

(** ** The instructions *)

Inductive register := EAX | EBX.

Inductive instruction : Type :=
  | MovEspStackTop
  | Push (r : register)
  | CallKmain
  | Cli
  | Hlt
  | Jmp (target : nat).

(** The section .text; [_start] is instruction 0, [.halt] instruction 4. *)
Definition halt : nat := 4.
Definition text : list instruction :=
  [MovEspStackTop; Push EBX; Push EAX; CallKmain; Cli; Hlt; Jmp halt].

(** [resb 16384] *)
Definition STACK_SIZE : Z := 16384.

(** Where the processor is: at an instruction of boot.asm, or in kmain. *)
Inductive place := At (pc : nat) | InKmain.

Record machine : Type := Machine {
  where_ : place;
  eax : Z;
  ebx : Z;
  esp : Z;
  stack : list Z;
  interrupts : bool;
}.

Definition set_where p (m : machine) : machine :=
  Machine p (eax m) (ebx m) (esp m) (stack m) (interrupts m).
Definition set_esp a (m : machine) : machine :=
  Machine (where_ m) (eax m) (ebx m) a (stack m) (interrupts m).
Definition set_stack l (m : machine) : machine :=
  Machine (where_ m) (eax m) (ebx m) (esp m) l (interrupts m).
Definition set_interrupts b (m : machine) : machine :=
  Machine (where_ m) (eax m) (ebx m) (esp m) (stack m) b.

Definition register_of (r : register) (m : machine) : Z :=
  match r with EAX => eax m | EBX => ebx m end.

Section linked.
(** The addresses of [stack_bottom] and of the instructions. *)
Variable stack_bottom : Z.
Variable address : nat → Z.

Definition stack_top : Z := stack_bottom + STACK_SIZE.

(** A word goes to the stack section; an address outside it is undefined here. *)
Definition push (v : Z) : M machine unit :=
  m ← gets (λ m, m);
  let a := u32 (esp m - 4) in
  if decide (stack_bottom ≤ a ∧ a + 4 ≤ stack_top)%Z then
    modify (set_esp a);;
    modify (set_stack (splice (Z.to_nat (a - stack_bottom)) (bytes_of 4 v) (stack m)))
  else undef.

(** The word at an address of the stack section. *)
Definition word_at (a : Z) (m : machine) : option Z :=
  if decide (stack_bottom ≤ a ∧ a + 4 ≤ stack_top)%Z
  then Some (word_of (slice (Z.to_nat (a - stack_bottom)) 4 (stack m))) else None.

(** One instruction.  [hlt] is left only by an interrupt that cannot be masked. *)
Definition execute (i : instruction) (pc : nat) : M machine unit :=
  match i with
  | MovEspStackTop => modify (set_esp stack_top);; modify (set_where (At (S pc)))
  | Push r => m ← gets (λ m, m); push (register_of r m);; modify (set_where (At (S pc)))
  | CallKmain => push (address (S pc));; modify (set_where InKmain)
  | Cli => modify (set_interrupts false);; modify (set_where (At (S pc)))
  | Hlt => modify (set_where (At (S pc)))
  | Jmp target => modify (set_where (At target))
  end.

(** A step of the processor; in kmain the C code runs. *)
Definition step : M machine unit :=
  m ← gets (λ m, m);
  match where_ m with
  | At pc => i ← the (text !! pc); execute i pc
  | InKmain => undef
  end.

Fixpoint steps (n : nat) : M machine unit :=
  match n with 0 => mret tt | S n => step;; steps n end.

(** kmain as a C function of the i386 System V ABI: its [i]-th argument, and
    where it returns to. *)
Definition argument (i : nat) (m : machine) : option Z := word_at (esp m + 4 + 4 * Z.of_nat i) m.
Definition return_address (m : machine) : option Z := word_at (esp m) m.

(** kmain returns: the return address is popped, the registers that a callee may
    change and the memory are arbitrary, the stack pointer is as before the
    call. *)
Definition kmain_returns (m m' : machine) : Prop :=
  ∃ pc, return_address m = Some (address pc) ∧ where_ m = InKmain ∧
    where_ m' = At pc ∧ esp m' = (esp m + 4)%Z.
End linked.

(** ** The header *)

Lemma header_words rest :
  slice 0 4 (multiboot_header ++ rest) = bytes_of 4 MULTIBOOT_MAGIC ∧
  slice 4 4 (multiboot_header ++ rest) = bytes_of 4 0 ∧
  slice 8 4 (multiboot_header ++ rest) = bytes_of 4 (u32 (- MULTIBOOT_MAGIC)).
Proof. done. Qed.

Lemma slice_after {A} (prefix l : list A) o n : slice (length prefix + o) n (prefix ++ l) = slice o n l.
Proof. unfold slice. by rewrite <-drop_drop, drop_app_length. Qed.

Lemma header_valid prefix rest :
  header_at (prefix ++ multiboot_header ++ rest) (length prefix) = true.
Proof.
  destruct (header_words rest) as (H0 & H4 & H8). unfold header_at.
  rewrite <-(slice_after prefix _ 0), Nat.add_0_r in H0. rewrite H0, !slice_after, H4, H8.
  rewrite !word_of_bytes by (vm_compute; split; congruence).
  rewrite !length_app. change (length multiboot_header) with 12.
  rewrite (bool_decide_eq_true_2 (_ ≤ _)) by lia. by vm_compute.
Qed.

(** The loader finds the header behind anything that does not look like one. *)
Lemma header_found prefix rest k :
  length prefix = 4 * k → k < 2046 →
  (∀ j, j < k → header_at (prefix ++ multiboot_header ++ rest) (4 * j) = false) →
  find_header (prefix ++ multiboot_header ++ rest) = Some (length prefix).
Proof.
  intros Hl Hk Hno. unfold find_header.
  assert (list_find (λ o, header_at (prefix ++ multiboot_header ++ rest) o = true)
    ((λ k, 4 * k) <$> seq 0 2046) = Some (k, length prefix)) as ->; [|done].
  apply list_find_Some. split.
  - rewrite list_lookup_fmap, lookup_seq_lt by done. cbn [fmap option_fmap option_map]. f_equal. lia.
  - split; [apply header_valid|]. intros j o Hj Hlt.
    rewrite list_lookup_fmap, lookup_seq_lt in Hj by lia. injection Hj as <-.
    intros Ht. pose proof (eq_trans (eq_sym (Hno j Hlt)) Ht). done.
Qed.

(** ** The instructions *)

Section linked.
Variable stack_bottom : Z.
Variable address : nat → Z.
Hypothesis bottom_width : (0 ≤ stack_bottom ∧ stack_bottom + STACK_SIZE < 2 ^ 32)%Z.

Abbreviation top := (stack_top stack_bottom).
Abbreviation run_steps := (steps stack_bottom address).
Implicit Types (m : machine).

(** The stack after [ws] has been pushed on the empty stack, the last first. *)
Record pushed (ws : list Z) m : Prop := {
  pu_length : length (stack m) = Z.to_nat STACK_SIZE;
  pu_esp : esp m = (top - 4 * Z.of_nat (length ws))%Z;
  pu_words : ∀ i w, ws !! i = Some w → word_at stack_bottom (esp m + 4 * Z.of_nat i) m = Some w;
}.

Lemma push_run v ws m :
  pushed ws m → length ws < 4096 → in_width 32 v →
  ∃ l, push stack_bottom v m = Done (tt, set_stack l (set_esp (esp m - 4) m)) ∧
    pushed (v :: ws) (set_stack l (set_esp (esp m - 4) m)).
Proof using bottom_width.
  intros [Hl He Hw] Hlen Hv. unfold stack_top, STACK_SIZE in *.
  assert (u32 (esp m - 4) = esp m - 4)%Z as E by (apply wrap_small; unfold in_width; lia).
  unfold push. rewrite bind_gets, E. unfold stack_top, STACK_SIZE. rewrite decide_True by lia.
  eexists. split; [reflexivity|].
  set (o := Z.to_nat (esp m - 4 - stack_bottom)).
  assert (o + length (bytes_of 4 v) ≤ length (stack m)) as Ho
    by (rewrite length_bytes_of, Hl; unfold o; lia).
  split; cbn [stack set_stack esp set_esp].
  - by rewrite splice_length.
  - cbn [length]. unfold stack_top, STACK_SIZE. lia.
  - intros [|i] w Hi; unfold word_at in *; cbn [stack set_stack esp set_esp] in *;
      unfold stack_top, STACK_SIZE in *.
    + injection Hi as ->. rewrite decide_True by lia. f_equal.
      replace (Z.to_nat _) with o by (unfold o; lia).
      pose proof (slice_splice_same o (bytes_of 4 w) (stack m) Ho) as Hs.
      rewrite length_bytes_of in Hs. rewrite Hs. apply word_of_bytes. by apply in_width_bytes.
    + cbn [lookup list_lookup] in Hi. pose proof (lookup_lt_Some _ _ _ Hi) as Hlt.
      specialize (Hw i w Hi). rewrite decide_True in Hw by lia. rewrite decide_True by lia.
      injection Hw as <-. f_equal. f_equal.
      rewrite slice_splice_apart; [f_equal; lia|done|].
      right. rewrite length_bytes_of. unfold o. lia.
Qed.

Lemma pushed_where ws p m : pushed ws m → pushed ws (set_where p m).
Proof. intros [Hl He Hw]. by split. Qed.

Lemma step_run pc i m :
  where_ m = At pc → text !! pc = Some i → step stack_bottom address m = execute stack_bottom address i pc m.
Proof. intros Hm Hi. unfold step. rewrite bind_gets, Hm. by bind (the_Some _ _ _ Hi). Qed.

Lemma steps_S n m m' :
  step stack_bottom address m = Done (tt, m') → run_steps (S n) m = run_steps n m'.
Proof. intros Hs. cbn [steps]. by bind Hs. Qed.

(** What no instruction of the entry changes. *)
Definition same_registers m m' : Prop :=
  eax m' = eax m ∧ ebx m' = ebx m ∧ interrupts m' = interrupts m.

Lemma push_step pc v i p ws m :
  where_ m = At pc → text !! pc = Some i →
  execute stack_bottom address i pc m = (push stack_bottom v;; modify (set_where p)) m →
  pushed ws m → length ws < 4096 → in_width 32 v →
  ∃ m', step stack_bottom address m = Done (tt, m') ∧ where_ m' = p ∧ pushed (v :: ws) m' ∧
    same_registers m m'.
Proof using bottom_width.
  intros Hm Hi He Hws Hlen Hv. destruct (push_run v ws m Hws Hlen Hv) as (l & Hp & Hws').
  eexists. split.
  { rewrite (step_run pc i) by done. rewrite He. by bind Hp. }
  split; [done|]. split; [by apply pushed_where|done].
Qed.

Lemma entry_run m :
  where_ m = At 0 → length (stack m) = Z.to_nat STACK_SIZE →
  in_width 32 (eax m) → in_width 32 (ebx m) → in_width 32 (address halt) →
  ∃ k, run_steps 4 m = Done (tt, k) ∧ where_ k = InKmain ∧
    pushed [address halt; eax m; ebx m] k ∧ same_registers m k.
Proof using bottom_width.
  intros Hm Hl Ha Hb Hr. set (m1 := set_where (At 1) (set_esp top m)).
  assert (step stack_bottom address m = Done (tt, m1)) as H1
    by (rewrite (step_run 0 MovEspStackTop) by done; done).
  assert (pushed [] m1) as P1 by (split; [done|cbn; lia|done]).
  destruct (push_step 1 (ebx m) (Push EBX) (At 2) [] m1) as (m2 & H2 & W2 & P2 & R2);
    [done|done|done|done|cbn; lia|done|].
  destruct R2 as (A2 & B2 & I2). change (eax m1) with (eax m) in A2.
  destruct (push_step 2 (eax m) (Push EAX) (At 3) [ebx m] m2) as (m3 & H3 & W3 & P3 & R3);
    [done|done|cbn [execute]; rewrite bind_gets; cbn [register_of]; by rewrite A2|done|cbn; lia|done|].
  destruct R3 as (A3 & B3 & I3).
  destruct (push_step 3 (address halt) CallKmain InKmain [eax m; ebx m] m3)
    as (m4 & H4 & W4 & P4 & A4 & B4 & I4); [done|done|done|done|cbn; lia|done|].
  exists m4. split; [by rewrite (steps_S _ _ _ H1), (steps_S _ _ _ H2), (steps_S _ _ _ H3), (steps_S _ _ _ H4)|].
  split; [done|]. split; [done|]. unfold same_registers. rewrite A4, A3, A2, B4, B3, B2, I4, I3, I2. done.
Qed.

(** Once kmain has returned, the processor stays in the loop. *)
Definition halting m : Prop := where_ m = At 4 ∨ interrupts m = false ∧ (where_ m = At 5 ∨ where_ m = At 6).

(** The loop keeps the stack pointer, and the interrupts off once it has
    turned them off. *)
Definition halts m m' : Prop := esp m' = esp m ∧ stack m' = stack m ∧ halting m'.

Lemma halt_step m :
  halting m → ∃ m', step stack_bottom address m = Done (tt, m') ∧ halts m m' ∧ interrupts m' = false.
Proof.
  intros Hh. unfold halts, halting in *. destruct Hh as [Hw|[Hi [Hw|Hw]]].
  - eexists. split; [by rewrite (step_run 4 Cli) by done|]. cbn. by auto 10.
  - eexists. split; [by rewrite (step_run 5 Hlt) by done|]. cbn. by auto 10.
  - eexists. split; [by rewrite (step_run 6 (Jmp halt)) by done|]. cbn. by auto 10.
Qed.

Lemma halt_steps n m :
  halting m → ∃ m', run_steps n m = Done (tt, m') ∧ halts m m' ∧ (0 < n → interrupts m' = false).
Proof.
  revert m. induction n as [|n IH]; intros m Hh.
  { exists m. split; [done|]. split; [done|lia]. }
  destruct (halt_step m Hh) as (m1 & H1 & (He1 & Hs1 & Hh1) & Hi1).
  destruct (IH m1 Hh1) as (m' & Hr & (He & Hs & Hh') & Hi).
  exists m'. rewrite (steps_S _ _ _ H1). split; [done|].
  split; [split; [congruence|]; split; [congruence|done]|]. intros _.
  destruct n as [|n]; [by injection Hr as <-|apply Hi; lia].
Qed.
End linked.

(** * Properties *)

(** C24. The boot entry.  A loader that searches the image finds the Multiboot
    header, valid and without flags, wherever the linker has put it: behind the
    ELF headers and any padding that hold no header of their own, at a multiple
    of 4 in the first 8192 bytes.  From [_start], whatever the
    stack pointer and the bytes of the stack section are, the processor reaches
    kmain after four instructions, without leaving the stack section, with what
    the loader left in eax and ebx as its two arguments, multiboot_magic and
    multiboot_info; twelve bytes of the stack are used, so that the arguments
    lie 8 bytes off a multiple of 16.  Should kmain return, the processor
    turns the interrupts off and stays in the loop at [.halt] for ever. *)
Theorem boot_entry_correct (stack_bottom : Z) (address : nat → Z) (m : machine) :
  (0 ≤ stack_bottom ∧ stack_bottom + STACK_SIZE < 2 ^ 32)%Z → (stack_bottom mod 16 = 0)%Z →
  Inj (=) (=) address → in_width 32 (address halt) →
  length (stack m) = Z.to_nat STACK_SIZE → in_width 32 (eax m) → in_width 32 (ebx m) →
  where_ m = At 0 →
  (∀ before rest k, length before = 4 * k → k < 2046 →
    (∀ j, j < k → header_at (before ++ multiboot_header ++ rest) (4 * j) = false) →
    find_header (before ++ multiboot_header ++ rest) = Some (length before)) ∧
  ∃ k, steps stack_bottom address 4 m = Done (tt, k) ∧ where_ k = InKmain ∧
    argument stack_bottom 0 k = Some (eax m) ∧ argument stack_bottom 1 k = Some (ebx m) ∧
    esp k = (stack_bottom + STACK_SIZE - 12)%Z ∧ ((esp k + 4) mod 16 = 8)%Z ∧
    ∀ k' n, kmain_returns stack_bottom address k k' →
      ∃ l, steps stack_bottom address n k' = Done (tt, l) ∧ halts k' l ∧
        (0 < n → interrupts l = false).
Proof.
  intros Hb Hal Hinj Hr Hl Ha Hbx Hm. split.
  { apply header_found. }
  destruct (entry_run stack_bottom address Hb m Hm Hl Ha Hbx Hr) as (k & Hk & Hw & [_ He Hws] & _).
  exists k. split; [done|]. split; [done|]. cbn [length] in He. unfold stack_top in He.
  assert (∀ i, argument stack_bottom i k = word_at stack_bottom (esp k + 4 * Z.of_nat (S i)) k) as Harg
    by (intros i; unfold argument; f_equal; lia).
  rewrite !Harg. split; [by apply (Hws 1)|]. split; [by apply (Hws 2)|]. split; [lia|]. split.
  { rewrite He. unfold STACK_SIZE. Z.to_euclidean_division_equations. lia. }
  intros k' n (pc & Hret & _ & Hpc & _). apply halt_steps. left. rewrite Hpc.
  unfold return_address in Hret. pose proof (Hws 0 _ eq_refl) as H0. rewrite Z.add_0_r, Hret in H0.
  injection H0 as H0. by apply Hinj in H0 as ->.
Qed.

(** At 1 MiB + 64 KiB, loaded by a Multiboot loader. *)
Definition loaded : machine :=
  Machine (At 0) 0x2BADB002 0x9500 0x7FF00 (replicate (Z.to_nat STACK_SIZE) 170%Z) false.

Lemma boot_entry_correct_witness :
  let address n := (0x100010 + Z.of_nat n)%Z in
  (∀ before rest k, length before = 4 * k → k < 2046 →
    (∀ j, j < k → header_at (before ++ multiboot_header ++ rest) (4 * j) = false) →
    find_header (before ++ multiboot_header ++ rest) = Some (length before)) ∧
  ∃ k, steps 0x110000 address 4 loaded = Done (tt, k) ∧ where_ k = InKmain ∧
    argument 0x110000 0 k = Some 0x2BADB002%Z ∧ argument 0x110000 1 k = Some 0x9500%Z ∧
    esp k = (0x110000 + STACK_SIZE - 12)%Z ∧ ((esp k + 4) mod 16 = 8)%Z ∧
    ∀ k' n, kmain_returns 0x110000 address k k' →
      ∃ l, steps 0x110000 address n k' = Done (tt, l) ∧ halts k' l ∧
        (0 < n → interrupts l = false).
Proof.
  apply (boot_entry_correct 0x110000 (λ n, (0x100010 + Z.of_nat n)%Z) loaded);
    try done.
  intros a b Hab. lia.
Defined.
End BootEntry.
