(* ===== verification/BootShell.v ===== *)
(** * The boot kernel's serial shell (boot/kernel.c)

    A 32-bit kernel that talks to a serial port: it prints a banner and a
    prompt, edits a line of at most 159 characters and answers commands.  The
    port is hardware reached by [outb] and [inb]; it is a parameter of the
    model. *)

From S2P Require Import Prelude CString.

Module BootShell.

Definition COM1 : Z := 0x3F8.
Definition SERIAL_DATA : Z := 0.
Definition SERIAL_INTERRUPT : Z := 1.
Definition SERIAL_FIFO : Z := 2.
Definition SERIAL_LINE_CONTROL : Z := 3.
Definition SERIAL_MODEM_CONTROL : Z := 4.
Definition SERIAL_LINE_STATUS : Z := 5.
Definition NOVA_UTS_RELEASE : list Z := cstr "3.1.0-prototype".
Definition NOVA_UTS_MACHINE : list Z := cstr "i386-qemu".

Definition NOVA_SYS_write : Z := 1.
Definition NOVA_SYS_read_console : Z := 2.
Definition NOVA_SYS_uname : Z := 3.
Definition NOVA_SYS_getpid : Z := 4.
Definition NOVA_SYS_uptime : Z := 5.

(** The port instructions on a machine with state [H], and a bound on the
    number of status reads before the transmitter is ready. *)
Class Uart (H : Type) := {
  outb : Z → Z → H → H;
  inb : Z → H → Z * H;
  wait_bound : nat;
}.

(** Strings as [const char *] fields. *)
Record nova_utsname : Type := Utsname {
  sysname : list Z;
  nodename : list Z;
  release : list Z;
  version : list Z;
  machine : list Z;
}.

Record nova_task : Type := Task { pid : Z; task_name : list Z; task_state : list Z }.

Definition NOVA_MAX_TASKS : nat := 4.

Definition tasks : list nova_task :=
  [Task 0 (cstr "kernel") (cstr "running"); Task 1 (cstr "init") (cstr "ready");
   Task 2 (cstr "novakitd") (cstr "ready"); Task 3 (cstr "shell") (cstr "running")].

(** The statics of kernel.c and the hardware. *)
Record shell (H : Type) : Type := Shell {
  command : list Z;
  command_length : Z;
  ticks : Z;
  hw : H;
}.
Arguments Shell {H}.
Arguments command {H}.
Arguments command_length {H}.
Arguments ticks {H}.
Arguments hw {H}.

Section kernel.
Context {H : Type} `{!Uart H}.
Implicit Types (s : shell H).

Definition set_command (c : list Z) s : shell H := Shell c (command_length s) (ticks s) (hw s).
Definition set_length (n : Z) s : shell H := Shell (command s) n (ticks s) (hw s).
Definition set_ticks (t : Z) s : shell H := Shell (command s) (command_length s) t (hw s).
Definition set_hw (h : H) s : shell H := Shell (command s) (command_length s) (ticks s) h.

Definition out (port value : Z) : M (shell H) unit :=
  modify (λ s, set_hw (outb port value (hw s)) s).
Definition input (port : Z) : M (shell H) Z :=
  s ← gets (λ s, s);
  modify (set_hw (inb port (hw s)).2);;
  mret (inb port (hw s)).1.

Definition serial_init : M (shell H) unit :=
  out (COM1 + SERIAL_INTERRUPT) 0x00;;
  out (COM1 + SERIAL_LINE_CONTROL) 0x80;;
  out (COM1 + SERIAL_DATA) 0x03;;
  out (COM1 + SERIAL_INTERRUPT) 0x00;;
  out (COM1 + SERIAL_LINE_CONTROL) 0x03;;
  out (COM1 + SERIAL_FIFO) 0xC7;;
  out (COM1 + SERIAL_MODEM_CONTROL) 0x0B.

(** [while ((inb(LINE_STATUS) & 0x20) == 0);] *)
Fixpoint wait_ready (fuel : nat) : M (shell H) unit :=
  match fuel with
  | 0 => no_fuel
  | S fuel =>
      status ← input (COM1 + SERIAL_LINE_STATUS);
      if decide (Z.land status 0x20 = 0)%Z then wait_ready fuel else mret tt
  end.

Definition put_byte (value : Z) : M (shell H) unit :=
  wait_ready (S wait_bound);; out (COM1 + SERIAL_DATA) (u8 value).

(** The recursive call is made with a carriage return and makes no other. *)
Definition serial_putc (value : Z) : M (shell H) unit :=
  put_byte value;; when (bool_decide (value = 10)%Z) (put_byte 13).

Fixpoint nova_strlen (text : list Z) : option nat :=
  match text with
  | [] => None
  | c :: text => if decide (c = 0)%Z then Some 0 else S <$> nova_strlen text
  end.

(** The digits the first loop writes to the array of [room] places, in order. *)
Fixpoint collect_digits (room : nat) (value : Z) : list Z :=
  match room with
  | 0 => []
  | S room =>
      if decide (value = 0)%Z then []
      else (48 + value mod 10)%Z :: collect_digits room (value / 10)%Z
  end.

Fixpoint put_all (l : list Z) : M (shell H) unit :=
  match l with
  | [] => mret tt
  | c :: l => serial_putc c;; put_all l
  end.

(** The second loop prints the array from its end. *)
Definition write_unsigned (value : Z) : M (shell H) unit :=
  if decide (value = 0)%Z then serial_putc 48
  else put_all (reverse (collect_digits 20 value)).

Fixpoint starts_with (text prefix : list Z) {struct prefix} : option bool :=
  match prefix with
  | [] => None
  | p :: prefix =>
      if decide (p = 0)%Z then Some true
      else match text with
           | [] => None
           | t :: text => if decide (t ≠ p) then Some false else starts_with text prefix
           end
  end.

(** A pointer passed to a system call. *)
Inductive user_pointer : Type := NoPointer | Chars (buffer : list Z) | UtsPointer.

(** The result and, for uname, what is stored through the pointer. *)
Definition nova_syscall_dispatch (number : Z) (arg0 : user_pointer) (arg1 : Z)
    : M (shell H) (Z * option nova_utsname) :=
  if decide (number = NOVA_SYS_write) then
    let buffer := match arg0 with Chars buffer => buffer | _ => [] end in
    for_fold (Z.to_nat arg1) 0 (λ i _, c ← the (buffer !! i); serial_putc c) tt;;
    mret (i32 arg1, None)
  else if decide (number = NOVA_SYS_uname) then
    match arg0 with
    | UtsPointer => mret (0%Z, Some (Utsname (cstr "NovaOS") (cstr "qemu0")
        NOVA_UTS_RELEASE (cstr "Rapid Kernel Phase 3.1") NOVA_UTS_MACHINE))
    | _ => undef
    end
  else if decide (number = NOVA_SYS_getpid) then mret (3%Z, None)
  else if decide (number = NOVA_SYS_uptime) then s ← gets (λ s, s); mret (i32 (ticks s), None)
  else mret ((-1)%Z, None).

Definition sys_write (text : list Z) : M (shell H) Z :=
  length ← the (nova_strlen text);
  r ← nova_syscall_dispatch NOVA_SYS_write (Chars text) (Z.of_nat length);
  mret r.1.

Definition serial_prompt : M (shell H) unit := sys_write (cstr "nova> ");; mret tt.

(** The comparison of the buffer with a word. *)
Fixpoint same_text (cmd expected : list Z) : option bool :=
  match expected, cmd with
  | e :: expected, c :: cmd =>
      if decide (e = 0)%Z then Some (bool_decide (c = 0)%Z)
      else if decide (c = e) then same_text cmd expected else Some false
  | _, _ => None
  end.

Definition command_is (expected : list Z) : M (shell H) bool :=
  s ← gets (λ s, s); the (same_text (command s) expected).

Definition newline : list Z := [10; 0]%Z.

Definition print_uname : M (shell H) unit :=
  r ← nova_syscall_dispatch NOVA_SYS_uname UtsPointer 0;
  uts ← the r.2;
  sys_write (sysname uts);; sys_write (cstr " ");; sys_write (nodename uts);;
  sys_write (cstr " ");; sys_write (release uts);; sys_write (cstr " ");;
  sys_write (version uts);; sys_write (cstr " ");; sys_write (machine uts);;
  sys_write newline;; mret tt.

(** The loop over the tasks from [i], of which [n] are left. *)
Fixpoint print_tasks (n i : nat) : M (shell H) unit :=
  match n with
  | O => mret tt
  | S n =>
      t ← the (tasks !! i);
      write_unsigned (u32 (pid t));;
      sys_write (cstr "   ");; sys_write (task_state t);; sys_write (cstr " ");;
      sys_write (task_name t);; sys_write newline;;
      print_tasks n (S i)
  end.

(** A string literal that ends with a newline. *)
Definition text_line (s : string) : list Z := chars s ++ newline.

Definition print_ps : M (shell H) unit :=
  sys_write (text_line "PID STATE   COMMAND");; print_tasks NOVA_MAX_TASKS 0.

(** [if (command_is(name)) body else rest] *)
Definition if_command (name : string) (body rest : M (shell H) unit) : M (shell H) unit :=
  hit ← command_is (cstr name); if (hit : bool) then body else rest.

(** The escape sequence of clear. *)
Definition clear_screen : list Z := [27%Z] ++ chars "[2J" ++ [27%Z] ++ cstr "[H".

Definition say (text : list Z) : M (shell H) unit := sys_write text;; mret tt.

Definition print_info : M (shell H) unit :=
  say (text_line "NovaOS Phase 3.1 Rapid Kernel prototype");;
  say (text_line "hybrid layers: microkernel core, BSD/POSIX personality, NovaKit drivers");;
  say (text_line "boot: Multiboot kernel with serial command line in QEMU").

Definition print_uptime : M (shell H) unit :=
  sys_write (cstr "uptime ticks: ");;
  r ← nova_syscall_dispatch NOVA_SYS_uptime NoPointer 0;
  write_unsigned (u32 r.1);;
  say newline.

(** The chain of tests of run_command. *)
Definition answer : M (shell H) unit :=
  if_command "help" (say (text_line
    "commands: help, info, uname, ps, echo, syscalls, devices, posix, clear, uptime")) $
  if_command "info" print_info $
  if_command "uname" print_uname $
  if_command "ps" print_ps $
  (s ← gets (λ s, s);
   echo ← the (starts_with (command s) (cstr "echo "));
   if (echo : bool) then sys_write (drop 5 (command s));; say newline
   else
     if_command "syscalls" (say (text_line
       "implemented syscall ABI: write, uname, getpid, uptime; planned: open/read/close/fork/exec/wait")) $
     if_command "devices" (say (text_line
       "novakit registry: console0(com1), cpu0(qemu), bus0(multiboot), blk0(virtio planned)")) $
     if_command "posix" (say (text_line
       "POSIX status: command names and uname/getpid/write semantics are present; full POSIX requires BSD VFS/process integration.")) $
     if_command "clear" (say clear_screen) $
     if_command "uptime" print_uptime $
     (s ← gets (λ s, s);
      if decide (command_length s ≠ 0)%Z then say (text_line "unknown command; use help")
      else mret tt)).

Definition run_command : M (shell H) unit :=
  s ← gets (λ s, s);
  c ← the (arr_set (command s) (Z.to_nat (command_length s)) 0%Z);
  modify (set_command c);;
  serial_putc 10;;
  answer;;
  modify (set_length 0);;
  serial_prompt.

Definition serial_backspace : M (shell H) unit :=
  s ← gets (λ s, s);
  if decide (command_length s = 0)%Z then mret tt
  else
    modify (set_length (command_length s - 1));;
    say [8; 32; 8; 0]%Z.

(** [command_length < sizeof(command) - 1]; the buffer has 160 characters. *)
Definition COMMAND_SIZE : nat := 160.

Definition serial_poll : M (shell H) unit :=
  status ← input (COM1 + SERIAL_LINE_STATUS);
  if decide (Z.land status 0x01 = 0)%Z then mret tt
  else
    value ← input (COM1 + SERIAL_DATA);
    if decide (value = 13 ∨ value = 10)%Z then run_command
    else if decide (value = 8 ∨ value = 0x7F)%Z then serial_backspace
    else
      s ← gets (λ s, s);
      if decide (0x20 <= value ∧ value <= 0x7E ∧
                 command_length s < Z.of_nat COMMAND_SIZE - 1)%Z then
        c ← the (arr_set (command s) (Z.to_nat (command_length s)) value);
        modify (set_command c);;
        modify (set_length (command_length s + 1));;
        serial_putc value
      else mret tt.

(** [n] rounds of the endless loop of kmain. *)
Fixpoint kmain_loop (n : nat) : M (shell H) unit :=
  match n with
  | 0 => mret tt
  | S n => modify (λ s, set_ticks (u32 (ticks s + 1)) s);; serial_poll;; kmain_loop n
  end.

Definition kmain (n : nat) : M (shell H) unit :=
  serial_init;;
  say ([10%Z] ++ text_line "NovaOS Phase 3.1 Rapid Kernel booted.");;
  say (text_line "QEMU command line online; type help for POSIX and NovaKit commands.");;
  serial_prompt;;
  kmain_loop n.

(** The statics at boot. *)
Definition power_on (h : H) : shell H := Shell (replicate COMMAND_SIZE 0%Z) 0 0 h.
End kernel.

(** ** What the hardware promises *)

(** [sent]: the bytes transmitted so far; [pending]: those the line has still to
    deliver; [arrived]: the next one can be read; [busy]: how many status reads
    until the transmitter is ready; [online]: configured, so that the data port
    transmits.  Clearing the receiver in the initialisation may lose bytes. *)
Class UartSpec (H : Type) `{!Uart H} := {
  online : H → Prop;
  sent : H → list Z;
  pending : H → list Z;
  arrived : H → Prop;
  busy : H → nat;
  busy_bound h : online h → busy h ≤ wait_bound;
  status_read h : online h →
    let st := (inb (COM1 + SERIAL_LINE_STATUS) h).1 in
    let h' := (inb (COM1 + SERIAL_LINE_STATUS) h).2 in
    online h' ∧ sent h' = sent h ∧ pending h' = pending h ∧ busy h' = pred (busy h) ∧
    (Z.land st 0x20 = 0%Z ↔ busy h ≠ 0) ∧ (Z.land st 0x01 ≠ 0%Z → arrived h');
  data_read h : online h → arrived h → ∃ b r,
    pending h = b :: r ∧ in_width 8 b ∧ (inb (COM1 + SERIAL_DATA) h).1 = b ∧
    let h' := (inb (COM1 + SERIAL_DATA) h).2 in
    online h' ∧ sent h' = sent h ∧ pending h' = r;
  data_write h v : online h → busy h = 0 → in_width 8 v →
    let h' := outb (COM1 + SERIAL_DATA) v h in
    online h' ∧ sent h' = sent h ++ [v] ∧ pending h' = pending h;
  init_sequence (h : H) :
    let h' := foldl (λ h '(port, v), outb port v h) h
      [(COM1 + SERIAL_INTERRUPT, 0x00); (COM1 + SERIAL_LINE_CONTROL, 0x80);
       (COM1 + SERIAL_DATA, 0x03); (COM1 + SERIAL_INTERRUPT, 0x00);
       (COM1 + SERIAL_LINE_CONTROL, 0x03); (COM1 + SERIAL_FIFO, 0xC7);
       (COM1 + SERIAL_MODEM_CONTROL, 0x0B)]%Z in
    online h' ∧ sent h' = sent h ∧ ∃ lost, pending h = lost ++ pending h';
}.

(** ** Output *)

(** A newline is followed by a carriage return. *)
Definition crlf (v : Z) : list Z := if decide (v = 10)%Z then [10; 13]%Z else [v].
Definition crlf_all (l : list Z) : list Z := mjoin (crlf <$> l).

Lemma crlf_all_app l1 l2 : crlf_all (l1 ++ l2) = crlf_all l1 ++ crlf_all l2.
Proof. unfold crlf_all. by rewrite fmap_app, join_app. Qed.

Section output.
Context {H : Type} `{!Uart H} `{!UartSpec H}.

(** With the buffer and the clock at [c], [n] and [t], action [m] returns [a]
    and transmits [out]; the statics stay and nothing is received. *)
Definition speaks {A} (c : list Z) (n t : Z) (m : M (shell H) A) (a : A) (out : list Z) : Prop :=
  ∀ h, online h → ∃ h', m (Shell c n t h) = Done (a, Shell c n t h') ∧ online h' ∧
    sent h' = sent h ++ out ∧ pending h' = pending h.

Lemma speaks_ret {A} c n t (a : A) : speaks c n t (mret a) a [].
Proof. intros h Hh. exists h. by rewrite app_nil_r. Qed.

Lemma speaks_the {A} c n t (o : option A) a : o = Some a → speaks c n t (the o) a [].
Proof. intros ->. apply speaks_ret. Qed.

Lemma speaks_bind {A B} c n t (m : M (shell H) A) (k : A → M (shell H) B) a b o1 o2 :
  speaks c n t m a o1 → speaks c n t (k a) b o2 → speaks c n t (m ≫= k) b (o1 ++ o2).
Proof.
  intros Hm Hk h Hh. destruct (Hm h Hh) as (h1 & Hr1 & Hh1 & Hs1 & Hp1).
  destruct (Hk h1 Hh1) as (h2 & Hr2 & Hh2 & Hs2 & Hp2).
  exists h2. bind Hr1. split; [done|]. split; [done|].
  rewrite Hs2, Hs1, Hp2, Hp1, app_assoc. done.
Qed.

Lemma wait_ready_run fuel c n t h :
  online h → busy h < fuel →
  ∃ h', wait_ready fuel (Shell c n t h) = Done (tt, Shell c n t h') ∧ online h' ∧
    busy h' = 0 ∧ sent h' = sent h ∧ pending h' = pending h.
Proof.
  revert h. induction fuel as [|fuel IH]; intros h Hh Hb; [lia|].
  cbn [wait_ready]. unfold input. run. cbn [hw].
  destruct (status_read h Hh) as (Hh' & Hs & Hp & Hb' & Hready & _).
  change (set_hw ?x (Shell c n t h)) with (Shell c n t x).
  set (h' := (inb _ h).2) in *. destruct (decide (busy h = 0)) as [H0|H0].
  - rewrite decide_False by (rewrite Hready; tauto). run. exists h'.
    split_and!; [done|done|lia|done|done].
  - rewrite decide_True by (by apply Hready).
    destruct (IH h' Hh') as (h2 & Hr & ? & ? & Hs2 & Hp2); [lia|].
    exists h2. rewrite Hs2, Hp2. done.
Qed.

Lemma speaks_put_byte c n t v : in_width 8 v → speaks c n t (put_byte v) tt [v].
Proof.
  intros Hv h Hh. pose proof (busy_bound h Hh).
  destruct (wait_ready_run (S wait_bound) c n t h Hh) as (h1 & Hr & Hh1 & Hb1 & Hs1 & Hp1); [lia|].
  unfold put_byte. bind Hr. unfold out, u8. run. rewrite wrap_small by done.
  destruct (data_write h1 v Hh1 Hb1 Hv) as (Hh2 & Hs2 & Hp2).
  eexists. split; [reflexivity|]. split; [done|]. cbn [hw]. by rewrite Hs2, Hp2, Hs1, Hp1.
Qed.

Lemma speaks_putc c n t v : in_width 8 v → speaks c n t (serial_putc v) tt (crlf v).
Proof.
  intros Hv. unfold serial_putc, crlf.
  destruct (decide (v = 10)%Z) as [->|Hne].
  - apply (speaks_bind _ _ _ _ _ tt tt [10]%Z [13]%Z); [by apply speaks_put_byte|].
    rewrite bool_decide_eq_true_2 by done. apply speaks_put_byte. unfold in_width. lia.
  - apply (speaks_bind _ _ _ _ _ tt tt [v] []); [by apply speaks_put_byte|].
    rewrite bool_decide_eq_false_2 by done. apply speaks_ret.
Qed.

Lemma speaks_put_all c n t l : bytes_ok l → speaks c n t (put_all l) tt (crlf_all l).
Proof.
  induction 1 as [|v l Hv _ IH]; [apply speaks_ret|].
  apply (speaks_bind _ _ _ _ _ tt tt (crlf v) (crlf_all l)); [by apply speaks_putc|done].
Qed.

(** The loop of the write system call. *)
Lemma speaks_write_loop c n t l1 l2 l3 :
  bytes_ok l2 →
  speaks c n t (for_fold (length l2) (length l1)
    (λ i _, c ← the ((l1 ++ l2 ++ l3) !! i); serial_putc c) tt) tt (crlf_all l2).
Proof.
  intros Hl2. revert l1. induction Hl2 as [|v l2 Hv _ IH]; intros l1; [apply speaks_ret|].
  cbn [length for_fold].
  apply (speaks_bind _ _ _ _ _ tt tt (crlf v) (crlf_all l2)).
  - intros h Hh. rewrite lookup_app_r, Nat.sub_diag by done. cbn. by apply speaks_putc.
  - specialize (IH (l1 ++ [v])). rewrite length_app, <-app_assoc in IH. cbn in IH.
    by rewrite Nat.add_1_r in IH.
Qed.

Lemma speaks_write c n t buffer len :
  bytes_ok (take (Z.to_nat len) buffer) → (0 ≤ len < 2 ^ 31)%Z →
  (len ≤ Z.of_nat (length buffer))%Z →
  speaks c n t (nova_syscall_dispatch NOVA_SYS_write (Chars buffer) len) (len, None)
    (crlf_all (take (Z.to_nat len) buffer)).
Proof.
  intros Hb Hlen Hbuf. unfold nova_syscall_dispatch. rewrite decide_True by done.
  rewrite <-(app_nil_r (crlf_all _)).
  apply (speaks_bind _ _ _ _ _ tt); [|unfold i32; rewrite swrap_small by lia; apply speaks_ret].
  pose proof (speaks_write_loop c n t [] _ (drop (Z.to_nat len) buffer) Hb) as Hl.
  rewrite length_take, Nat.min_l in Hl by lia. cbn [app length] in Hl.
  by rewrite take_drop in Hl.
Qed.

Lemma nova_strlen_string text str : c_string text = Some str → nova_strlen text = Some (length str).
Proof.
  revert str. induction text as [|x text IH]; intros str; [done|]. cbn.
  case_decide; [by intros [= <-]|]. intros (w & Hw & ->)%fmap_Some. by rewrite (IH w).
Qed.

Lemma speaks_sys_write c n t text str :
  c_string text = Some str → bytes_ok str → (Z.of_nat (length str) < 2 ^ 31)%Z →
  speaks c n t (sys_write text) (Z.of_nat (length str)) (crlf_all str).
Proof.
  intros Hstr Hb Hlen. destruct (c_string_Some _ _ Hstr) as (_ & r & ->).
  intros h Hh. unfold sys_write. bind (the_Some _ _ _ (nova_strlen_string _ _ Hstr)).
  pose proof (speaks_write c n t (str ++ 0%Z :: r) (Z.of_nat (length str))) as Hw.
  rewrite Nat2Z.id, take_app_length in Hw.
  destruct (Hw Hb ltac:(lia) ltac:(rewrite length_app; lia) h Hh) as (h' & Hr & Hrest).
  bind Hr. run. by exists h'.
Qed.

Lemma speaks_say c n t text str :
  c_string text = Some str → bytes_ok str → (Z.of_nat (length str) < 2 ^ 31)%Z →
  speaks c n t (say text) tt (crlf_all str).
Proof.
  intros. rewrite <-(app_nil_r (crlf_all str)).
  apply (speaks_bind _ _ _ _ _ (Z.of_nat (length str)) tt); [by apply speaks_sys_write|apply speaks_ret].
Qed.

(** ** Decimal numbers *)

Definition decimal (v : Z) : list Z :=
  if decide (v = 0)%Z then [48%Z] else reverse (collect_digits 20 v).

Definition digit (c : Z) : Prop := (48 ≤ c ≤ 57)%Z.

Lemma collect_digits_ok room v : (0 ≤ v)%Z → Forall digit (collect_digits room v).
Proof.
  revert v. induction room as [|room IH]; intros v Hv; [constructor|]. cbn.
  case_decide; [constructor|]. constructor.
  - unfold digit. pose proof (Z.mod_pos_bound v 10). lia.
  - apply IH. apply Z.div_pos; lia.
Qed.

Lemma decimal_digits v : (0 ≤ v)%Z → Forall digit (decimal v).
Proof.
  intros Hv. unfold decimal. case_decide; [constructor; [unfold digit; lia|constructor]|].
  apply Forall_reverse. by apply collect_digits_ok.
Qed.

Lemma crlf_all_digits l : Forall digit l → crlf_all l = l.
Proof.
  induction 1 as [|c l Hc _ IH]; [done|]. change (crlf c ++ crlf_all l = c :: l).
  unfold crlf, digit in *. rewrite decide_False by lia. by rewrite IH.
Qed.

Lemma bytes_ok_digits l : Forall digit l → bytes_ok l.
Proof.
  intros Hl. eapply Forall_impl; [exact Hl|]. unfold digit, in_width. intros x. lia.
Qed.

Lemma speaks_write_unsigned c n t v :
  (0 ≤ v)%Z → speaks c n t (write_unsigned v) tt (decimal v).
Proof.
  intros Hv. pose proof (decimal_digits v Hv) as Hd. unfold write_unsigned.
  rewrite <-(crlf_all_digits _ Hd). unfold decimal in *. case_decide.
  - rewrite <-(app_nil_r (crlf_all _)). by apply speaks_putc.
  - by apply speaks_put_all, bytes_ok_digits.
Qed.

(** ** Comparing the buffer *)

Lemma same_text_run cmd l e :
  c_string cmd = Some l → nonzero e → same_text cmd (e ++ [0%Z]) = Some (bool_decide (l = e)).
Proof.
  intros Hl He. revert cmd l Hl. induction He as [|b e Hb He IH]; intros cmd l Hl.
  - destruct cmd as [|x cmd]; [done|]. cbn in Hl. cbn [app same_text].
    rewrite decide_True by done. f_equal. apply bool_decide_ext.
    case_decide as Hx; [by injection Hl as <-|].
    apply fmap_Some in Hl as (w & _ & ->). by split.
  - destruct cmd as [|x cmd]; [done|]. cbn in Hl. cbn [app same_text].
    rewrite decide_False by done. destruct (decide (x = 0%Z)) as [->|Hx].
    + injection Hl as <-. rewrite decide_False by (intros E; by apply Hb).
      by rewrite bool_decide_eq_false_2 by done.
    + apply fmap_Some in Hl as (w & Hw & ->). destruct (decide (x = b)) as [->|Hne].
      * rewrite (IH _ _ Hw). f_equal. apply bool_decide_ext. split; congruence.
      * rewrite bool_decide_eq_false_2; [done|congruence].
Qed.

Lemma starts_with_run text l pre :
  c_string text = Some l → nonzero pre →
  starts_with text (pre ++ [0%Z]) = Some (bool_decide (pre `prefix_of` l)).
Proof.
  intros Hl Hp. revert text l Hl. induction Hp as [|b pre Hb Hp IH]; intros text l Hl.
  { cbn. rewrite decide_True by done. by rewrite bool_decide_eq_true_2 by apply prefix_nil. }
  destruct text as [|x text]; [done|]. cbn in Hl. cbn [app starts_with].
  rewrite decide_False by done. destruct (decide (x = 0%Z)) as [->|Hx].
  { injection Hl as <-. rewrite decide_True by congruence.
    by rewrite bool_decide_eq_false_2 by apply prefix_nil_not. }
  apply fmap_Some in Hl as (w & Hw & ->). destruct (decide (x ≠ b)) as [Hne|Heq].
  - rewrite bool_decide_eq_false_2; [done|]. by intros ?%prefix_cons_inv_1.
  - assert (x = b) as -> by (destruct (decide (x = b)); tauto).
    rewrite (IH _ _ Hw). f_equal. apply bool_decide_ext.
    split; [apply prefix_cons|apply prefix_cons_inv_2].
Qed.

Lemma speaks_if_command c n t line (name : string) body rest o1 o2 :
  c_string c = Some line → nonzero (chars name) →
  speaks c n t body tt o1 → speaks c n t rest tt o2 →
  speaks c n t (if_command name body rest) tt
    (if decide (line = chars name) then o1 else o2).
Proof.
  intros Hc Hn H1 H2 h Hh. unfold if_command, command_is. run. cbn [command].
  bind (the_Some _ _ _ (same_text_run c line (chars name) Hc Hn)).
  destruct (decide (line = chars name)) as [->|Hne].
  - rewrite bool_decide_eq_true_2 by done. by apply H1.
  - rewrite bool_decide_eq_false_2 by done. by apply H2.
Qed.
End output.

(** ** What the shell answers *)

(** A text given as a literal and a newline. *)
Definition ln (s : string) : list Z := chars s ++ [10%Z].

(** The answer to a line at time [t], before newlines are completed. *)
Definition answer_text (t : Z) (line : list Z) : list Z :=
  if decide (line = chars "help") then
    ln "commands: help, info, uname, ps, echo, syscalls, devices, posix, clear, uptime"
  else if decide (line = chars "info") then
    ln "NovaOS Phase 3.1 Rapid Kernel prototype" ++
    ln "hybrid layers: microkernel core, BSD/POSIX personality, NovaKit drivers" ++
    ln "boot: Multiboot kernel with serial command line in QEMU"
  else if decide (line = chars "uname") then
    ln "NovaOS qemu0 3.1.0-prototype Rapid Kernel Phase 3.1 i386-qemu"
  else if decide (line = chars "ps") then
    ln "PID STATE   COMMAND" ++ ln "0   running kernel" ++ ln "1   ready init" ++
    ln "2   ready novakitd" ++ ln "3   running shell"
  else if decide (chars "echo " `prefix_of` line) then drop 5 line ++ [10%Z]
  else if decide (line = chars "syscalls") then
    ln "implemented syscall ABI: write, uname, getpid, uptime; planned: open/read/close/fork/exec/wait"
  else if decide (line = chars "devices") then
    ln "novakit registry: console0(com1), cpu0(qemu), bus0(multiboot), blk0(virtio planned)"
  else if decide (line = chars "posix") then
    ln "POSIX status: command names and uname/getpid/write semantics are present; full POSIX requires BSD VFS/process integration."
  else if decide (line = chars "clear") then [27%Z] ++ chars "[2J" ++ [27%Z] ++ chars "[H"
  else if decide (line = chars "uptime") then chars "uptime ticks: " ++ decimal t ++ [10%Z]
  else if decide (line ≠ []) then ln "unknown command; use help"
  else [].

(** The characters the editor accepts. *)
Definition printable (v : Z) : Prop := (0x20 ≤ v ≤ 0x7E)%Z.
#[export] Instance printable_dec v : Decision (printable v).
Proof. unfold printable. apply _. Defined.

(** Conditions on constant texts. *)
Ltac constant_text :=
  first [reflexivity|apply (bool_decide_unpack _); vm_compute; exact I|vm_compute; reflexivity].

Section answers.
Context {H : Type} `{!Uart H} `{!UartSpec H}.

Lemma speaks_eq {A} c n t (m : M (shell H) A) a o o' :
  speaks c n t m a o → o = o' → speaks c n t m a o'.
Proof. by intros ? <-. Qed.

(** The actions that print constants: one step each. *)
Ltac speak_step :=
  first
    [ eapply speaks_bind; [solve [eapply speaks_sys_write; constant_text]|]
    | eapply speaks_bind; [solve [eapply speaks_say; constant_text]|]
    | eapply speaks_bind; [solve [apply speaks_write_unsigned; vm_compute; discriminate]|]
    | eapply speaks_bind; [solve [apply speaks_the; reflexivity]|]
    | solve [eapply speaks_say; constant_text]
    | apply speaks_ret ].

Lemma speaks_print_uname c n t :
  speaks c n t print_uname tt
    (crlf_all (ln "NovaOS qemu0 3.1.0-prototype Rapid Kernel Phase 3.1 i386-qemu")).
Proof.
  intros h Hh. unfold print_uname, nova_syscall_dispatch.
  rewrite decide_False, decide_True by done. run. cbn [snd]. run. revert h Hh.
  eapply speaks_eq; [repeat speak_step|vm_compute; reflexivity].
Qed.

Lemma speaks_print_info c n t :
  speaks c n t print_info tt (crlf_all (ln "NovaOS Phase 3.1 Rapid Kernel prototype" ++
    ln "hybrid layers: microkernel core, BSD/POSIX personality, NovaKit drivers" ++
    ln "boot: Multiboot kernel with serial command line in QEMU")).
Proof. eapply speaks_eq; [unfold print_info; repeat speak_step|vm_compute; reflexivity]. Qed.

Lemma speaks_print_ps c n t :
  speaks c n t print_ps tt (crlf_all (ln "PID STATE   COMMAND" ++ ln "0   running kernel" ++
    ln "1   ready init" ++ ln "2   ready novakitd" ++ ln "3   running shell")).
Proof.
  eapply speaks_eq; [unfold print_ps; cbn [print_tasks NOVA_MAX_TASKS]; repeat speak_step|
    vm_compute; reflexivity].
Qed.

Lemma speaks_print_uptime c n t :
  in_width 32 t →
  speaks c n t print_uptime tt (crlf_all (chars "uptime ticks: " ++ decimal t ++ [10%Z])).
Proof.
  intros Ht. unfold print_uptime.
  rewrite !crlf_all_app. eapply speaks_bind; [eapply speaks_sys_write; constant_text|].
  intros h Hh. unfold nova_syscall_dispatch. rewrite !decide_False, decide_True by done.
  run. cbn [fst ticks].
  replace (u32 (i32 t)) with t.
  - rewrite (crlf_all_digits (decimal t)) by (apply decimal_digits; apply Ht).
    revert h Hh. eapply speaks_bind; [apply speaks_write_unsigned; apply Ht|].
    eapply speaks_eq; [repeat speak_step|vm_compute; reflexivity].
  - unfold u32, i32, swrap. case_bool_decide; unfold in_width in Ht.
    + by rewrite wrap_wrap, wrap_small.
    + rewrite (wrap_small 32 t) by done. unfold wrap.
      symmetry. rewrite <-(Z_mod_plus_full (t - 2 ^ 32) 1 (2 ^ 32)).
      rewrite Z.mod_small; lia.
Qed.

Lemma speaks_if_text c n t line (name : string) body rest t1 t2 :
  c_string c = Some line → nonzero (chars name) →
  speaks c n t body tt (crlf_all t1) → speaks c n t rest tt (crlf_all t2) →
  speaks c n t (if_command name body rest) tt
    (crlf_all (if decide (line = chars name) then t1 else t2)).
Proof.
  intros Hc Hn H1 H2. eapply speaks_eq; [by apply speaks_if_command|]. by case_decide.
Qed.

Lemma printable_nonzero line : Forall printable line → nonzero line.
Proof. intros Hl. eapply Forall_impl; [exact Hl|]. unfold printable. intros x. lia. Qed.
Lemma printable_bytes line : Forall printable line → bytes_ok line.
Proof. intros Hl. eapply Forall_impl; [exact Hl|]. unfold printable, in_width. intros x. lia. Qed.

Lemma c_string_drop c line k :
  c_string c = Some line → k ≤ length line → c_string (drop k c) = Some (drop k line).
Proof.
  intros Hc Hk. destruct (c_string_Some _ _ Hc) as (Hnz & r & ->).
  rewrite drop_app_le by done. apply c_string_app. by apply Forall_drop.
Qed.

(** The branch of echo. *)
Lemma speaks_echo c n t line :
  c_string c = Some line → Forall printable line → length line ≤ 159 →
  chars "echo " `prefix_of` line →
  speaks c n t (sys_write (drop 5 c);; say newline) tt (crlf_all (drop 5 line ++ [10%Z])).
Proof.
  intros Hc Hp Hlen Hpre. apply prefix_length in Hpre. change (length (chars "echo ")) with 5 in Hpre.
  rewrite crlf_all_app. eapply speaks_bind.
  - eapply speaks_sys_write; [by eapply c_string_drop| |rewrite length_drop; lia].
    apply printable_bytes. by apply Forall_drop.
  - eapply speaks_say; constant_text.
Qed.

Lemma speaks_answer c n t line :
  c_string c = Some line → n = Z.of_nat (length line) → Forall printable line →
  length line ≤ 159 → in_width 32 t →
  speaks c n t answer tt (crlf_all (answer_text t line)).
Proof.
  intros Hc Hn Hp Hlen Ht. unfold answer, answer_text.
  apply speaks_if_text; [done|by repeat constructor|eapply speaks_say; constant_text|].
  apply speaks_if_text; [done|by repeat constructor|apply speaks_print_info|].
  apply speaks_if_text; [done|by repeat constructor|apply speaks_print_uname|].
  apply speaks_if_text; [done|by repeat constructor|apply speaks_print_ps|].
  intros h Hh. run. cbn [command].
  bind (the_Some _ _ _ (starts_with_run c line (chars "echo ") Hc ltac:(by repeat constructor))).
  revert h Hh. destruct (decide (chars "echo " `prefix_of` line)) as [Hpre|Hpre].
  { rewrite bool_decide_eq_true_2 by done. by apply speaks_echo. }
  rewrite bool_decide_eq_false_2 by done.
  do 3 (apply speaks_if_text; [done|by repeat constructor|eapply speaks_say; constant_text|]).
  apply speaks_if_text; [done|by repeat constructor|eapply speaks_say; constant_text|].
  apply speaks_if_text; [done|by repeat constructor|by apply speaks_print_uptime|].
  intros h Hh. run. cbn [command_length]. revert h Hh. rewrite Hn.
  destruct (decide (line = [])) as [->|Hne].
  - rewrite decide_False, decide_False by (cbn; tauto). apply speaks_ret.
  - rewrite decide_True, decide_True by (destruct line; [done|]; cbn; try lia; done).
    eapply speaks_say; constant_text.
Qed.

(** ** The line editor *)

(** The buffer holds the characters of [line]. *)
Record editing (c : list Z) (n t : Z) (line : list Z) : Prop := {
  ed_size : length c = COMMAND_SIZE;
  ed_length : n = Z.of_nat (length line);
  ed_room : length line ≤ 159;
  ed_line : take (length line) c = line;
  ed_printable : Forall printable line;
  ed_ticks : in_width 32 t;
}.

Lemma run_command_run c n t line h :
  editing c n t line → online h →
  ∃ c' h', run_command (Shell c n t h) = Done (tt, Shell c' 0 t h') ∧ editing c' 0 t [] ∧
    online h' ∧ pending h' = pending h ∧
    sent h' = sent h ++ crlf_all ([10%Z] ++ answer_text t line ++ chars "nova> ").
Proof.
  intros [Hsz Hn Hroom Hline Hp Ht] Hh. unfold run_command. run. cbn [command command_length].
  unfold COMMAND_SIZE in Hsz. rewrite Hn, Nat2Z.id.
  bind by (apply the_Some, arr_set_Some; lia). run.
  set (c' := <[length line := 0%Z]> c).
  assert (c_string c' = Some line) as Hc.
  { unfold c'. rewrite insert_take_drop by lia. rewrite Hline. apply c_string_app.
    by apply printable_nonzero. }
  change (set_command c' (Shell c n t h)) with (Shell c' n t h). rewrite <-Hn.
  destruct (speaks_putc c' n t 10 ltac:(unfold in_width; lia) h Hh)
    as (h1 & Hr1 & Hh1 & Hs1 & Hp1). bind Hr1.
  destruct (speaks_answer c' n t line Hc Hn Hp Hroom Ht h1 Hh1) as (h2 & Hr2 & Hh2 & Hs2 & Hp2).
  bind Hr2. run. change (set_length 0 (Shell c' n t h2)) with (Shell c' 0 t h2).
  assert (speaks c' 0 t serial_prompt tt (crlf_all (chars "nova> "))) as Hprompt
    by (eapply speaks_say; constant_text).
  destruct (Hprompt h2 Hh2) as (h3 & Hr3 & Hh3 & Hs3 & Hp3).
  exists c', h3. split; [exact Hr3|]. split.
  { split; try done; cbn; [unfold c'; by rewrite length_insert|lia]. }
  split_and!; [done|congruence|]. rewrite Hs3, Hs2, Hs1, !crlf_all_app, <-!app_assoc. done.
Qed.

(** One round of the poll with the key it read, if any: the output and the
    line after it. *)
Definition event (t : Z) (key : option Z) (line : list Z) : list Z * list Z :=
  match key with
  | None => ([], line)
  | Some b =>
      if decide (b = 13 ∨ b = 10)%Z then
        (crlf_all ([10%Z] ++ answer_text t line ++ chars "nova> "), [])
      else if decide (b = 8 ∨ b = 0x7F)%Z then
        if decide (line = []) then ([], []) else ([8; 32; 8]%Z, removelast line)
      else if decide (printable b ∧ length line < 159) then ([b], line ++ [b])
      else ([], line)
  end.

Lemma editing_append c n t line b :
  editing c n t line → printable b → length line < 159 →
  ∃ c', arr_set c (Z.to_nat n) b = Some c' ∧ editing c' (n + 1) t (line ++ [b]).
Proof.
  intros [Hsz Hn Hroom Hline Hp Ht] Hb Hlt. unfold COMMAND_SIZE in *.
  rewrite Hn, Nat2Z.id. eexists. split; [apply arr_set_Some; lia|]. split.
  - by rewrite length_insert.
  - rewrite length_app. cbn [length]. lia.
  - rewrite length_app. cbn [length]. lia.
  - rewrite insert_take_drop, Hline, length_app by lia. cbn [length].
    rewrite cons_middle, app_assoc. apply take_app_length'. by rewrite length_app.
  - apply Forall_app. split; [done|]. by constructor.
  - done.
Qed.

Lemma editing_remove c n t line :
  editing c n t line → line ≠ [] → editing c (n - 1) t (removelast line).
Proof.
  intros [Hsz Hn Hroom Hline Hp Ht] Hne.
  destruct (exists_last Hne) as (l & x & ->). rewrite removelast_last.
  rewrite length_app in *. cbn [length] in *. split; [done|lia|lia| |by apply Forall_app in Hp as [? _]|done].
  transitivity (take (length l) (take (length l + 1) c)).
  - rewrite take_take. f_equal. lia.
  - rewrite Hline. apply take_app_length.
Qed.

Lemma serial_backspace_run c n t line h :
  editing c n t line → online h →
  ∃ n' h', serial_backspace (Shell c n t h) = Done (tt, Shell c n' t h') ∧ online h' ∧
    pending h' = pending h ∧
    (if decide (line = []) then n' = n ∧ sent h' = sent h
     else editing c n' t (removelast line) ∧ sent h' = sent h ++ [8; 32; 8]%Z).
Proof.
  intros He Hh. unfold serial_backspace. run. cbn [command_length].
  pose proof (ed_length _ _ _ _ He) as Hn. destruct (decide (line = [])) as [->|Hne].
  - rewrite decide_True by done. run. by exists n, h.
  - rewrite decide_False by (destruct line; [done|]; cbn in Hn; lia). run.
    change (set_length ?x (Shell c n t h)) with (Shell c x t h).
    assert (speaks c (n - 1) t (say [8; 32; 8; 0]%Z) tt [8; 32; 8]%Z) as Hsay
      by (eapply speaks_eq; [eapply speaks_say; constant_text|reflexivity]).
    destruct (Hsay h Hh) as (h' & Hr & Hh' & Hs & Hp). exists (n - 1)%Z, h'.
    split_and!; [done|done|done|by apply editing_remove|done].
Qed.

(** A poll handles the key that has arrived, if one has. *)
Lemma serial_poll_run c n t line h :
  editing c n t line → online h →
  ∃ c' n' h' key, serial_poll (Shell c n t h) = Done (tt, Shell c' n' t h') ∧ online h' ∧
    pending h = option_list key ++ pending h' ∧
    (key = None ↔ Z.land (inb (COM1 + SERIAL_LINE_STATUS) h).1 0x01 = 0%Z) ∧
    editing c' n' t (event t key line).2 ∧ sent h' = sent h ++ (event t key line).1.
Proof.
  intros He Hh. unfold serial_poll, input. run. cbn [hw].
  change (set_hw ?x (Shell c n t h)) with (Shell c n t x).
  destruct (status_read h Hh) as (Hh1 & Hs1 & Hp1 & _ & _ & Harr).
  set (st := (inb _ h).1) in *. set (h1 := (inb _ h).2) in *.
  destruct (decide (Z.land st 0x01 = 0%Z)) as [Hno|Hyes].
  { run. exists c, n, h1, None. cbn. rewrite app_nil_r. split_and!; try done. }
  run. cbn [hw]. change (set_hw ?x (Shell c n t h1)) with (Shell c n t x).
  destruct (data_read h1 Hh1 (Harr Hyes)) as (b & r & Hpb & Hbw & Hb & Hh2 & Hs2 & Hp2).
  rewrite Hb. set (h2 := (inb _ h1).2) in *. rewrite <-Hp1, Hpb, <-Hs1, <-Hs2.
  assert (∀ h', pending h' = pending h2 → b :: r = option_list (Some b) ++ pending h')
    as Hpend by (intros h' ->; by rewrite Hp2).
  assert (Some b = None ↔ Z.land st 1 = 0%Z) as Hst by (split; [done|tauto]).
  destruct (decide (b = 13 ∨ b = 10)%Z) as [Hcr|Hcr].
  { destruct (run_command_run c n t line h2 He Hh2) as (c' & h' & Hr & He' & Hh' & Hp & Hs).
    exists c', 0%Z, h', (Some b). cbn [event]. rewrite decide_True by done. auto 10. }
  destruct (decide (b = 8 ∨ b = 0x7F)%Z) as [Hbs|Hbs].
  { destruct (serial_backspace_run c n t line h2 He Hh2) as (n' & h' & Hr & Hh' & Hp & Hl).
    exists c, n', h', (Some b). cbn [event]. rewrite decide_False, decide_True by done.
    case_decide as Hnil; destruct Hl as [Hl1 Hl2]; cbn [fst snd]; [subst line n'|].
    - rewrite app_nil_r. auto 10.
    - auto 10. }
  run. cbn [command_length command].
  assert (event t (Some b) line =
    if decide (printable b ∧ length line < 159) then ([b], line ++ [b]) else ([], line)) as Hev
    by (cbn [event]; by rewrite !(decide_False (P:=_ ∨ _)) by done).
  pose proof (ed_length _ _ _ _ He) as Hn.
  destruct (decide (printable b ∧ length line < 159)) as [[Hpr Hroom]|Hstop].
  - rewrite decide_True by (unfold printable, COMMAND_SIZE in *; lia).
    destruct (editing_append c n t line b He Hpr Hroom) as (c' & Hset & He').
    bind (the_Some _ _ _ Hset). run. cbn [command_length].
    change (set_length ?x (set_command c' (Shell c n t h2))) with (Shell c' x t h2).
    change (command_length (set_command c' (Shell c n t h2))) with n.
    destruct (speaks_putc c' (n + 1) t b Hbw h2 Hh2) as (h' & Hr & Hh' & Hs & Hp).
    assert (crlf b = [b]) as Hcb by (unfold crlf; rewrite decide_False; [done|tauto]).
    rewrite Hcb in Hs. exists c', (n + 1)%Z, h', (Some b). rewrite Hev. auto 10.
  - rewrite decide_False by (unfold printable, COMMAND_SIZE in *; lia). run.
    exists c, n, h2, (Some b). rewrite Hev. cbn [fst snd]. rewrite app_nil_r. auto 10.
Qed.
End answers.
End BootShell.
