(* ===== verification/BootSession.v ===== *)
(** * A session with the boot kernel (boot/kernel.c)

    The program as a whole: from power-on, [kmain] prints its banner and then
    answers the keys the serial line delivers, one poll at a time.  Also the
    printing of numbers, the system calls, and a small serial port on which
    the theorems are evaluated. *)

From S2P Require Import Prelude CString BootShell.

Module BootSession.
Import BootShell.

(** The rounds of the loop with the keys they read: the transcript and the
    line being edited at the end. *)
Fixpoint session (t : Z) (keys : list (option Z)) (line : list Z) : list Z * list Z :=
  match keys with
  | [] => ([], line)
  | key :: keys =>
      let t := u32 (t + 1) in
      let '(out, line) := event t key line in
      let '(outs, line) := session t keys line in
      (out ++ outs, line)
  end.

Definition banner : list Z :=
  crlf_all ([10%Z] ++ ln "NovaOS Phase 3.1 Rapid Kernel booted." ++
    ln "QEMU command line online; type help for POSIX and NovaKit commands." ++ chars "nova> ").

(** A port that reports every byte that waits. *)
Class PromptUart (H : Type) `{!Uart H} `{!UartSpec H} : Prop :=
  prompt (h : H) : online h → pending h ≠ [] →
    Z.land (inb (COM1 + SERIAL_LINE_STATUS) h).1 0x01 ≠ 0%Z.

(** The number a list of digits denotes. *)
Definition number (digits : list Z) : Z := foldl (λ a c, 10 * a + (c - 48))%Z 0%Z digits.

(** ** Numbers *)

Lemma collect_digits_value room v :
  (0 ≤ v)%Z →
  foldr (λ c a, 10 * a + (c - 48))%Z 0%Z (collect_digits room v) = (v mod 10 ^ Z.of_nat room)%Z.
Proof.
  revert v. induction room as [|room IH]; intros v Hv; [by rewrite Z.mod_1_r|].
  cbn [collect_digits]. case_decide as H0; [subst v; by rewrite Z.mod_0_l by lia|].
  cbn [foldr]. rewrite IH by (apply Z.div_pos; lia).
  rewrite Nat2Z.inj_succ, Z.pow_succ_r by lia.
  rewrite Z.rem_mul_r by lia. lia.
Qed.

Lemma collect_digits_last room v c :
  (0 ≤ v < 10 ^ Z.of_nat room)%Z → last (collect_digits room v) = Some c → c ≠ 48%Z.
Proof.
  revert v. induction room as [|room IH]; intros v Hv; [done|].
  rewrite Nat2Z.inj_succ, Z.pow_succ_r in Hv by lia.
  cbn [collect_digits]. case_decide as H0; [done|].
  pose proof (Z.div_mod v 10 ltac:(lia)). pose proof (Z.mod_pos_bound v 10 ltac:(lia)).
  destruct (decide (v / 10 = 0)%Z) as [Hd|Hd].
  - rewrite Hd. assert (∀ r, collect_digits r 0 = []) as -> by (by intros []).
    intros [= <-]. lia.
  - assert (0 ≤ v / 10 < 10 ^ Z.of_nat room)%Z as Hr
      by (split; [apply Z.div_pos; lia|apply Z.div_lt_upper_bound; lia]).
    specialize (IH _ Hr). rewrite last_cons.
    destruct (last (collect_digits room (v / 10))) as [d|] eqn:El; [by intros [= <-]; apply IH|].
    apply last_None in El. destruct room as [|room]; [cbn in Hr; lia|].
    cbn [collect_digits] in El. by rewrite decide_False in El.
Qed.

Lemma number_reverse l :
  number (reverse l) = foldr (λ c a, 10 * a + (c - 48))%Z 0%Z l.
Proof.
  unfold number. induction l as [|c l IH]; [done|].
  by rewrite reverse_cons, foldl_app, IH.
Qed.

Lemma decimal_number v : in_width 64 v → number (decimal v) = v.
Proof.
  intros Hv. unfold decimal, in_width in *. case_decide as H0; [by subst v|].
  rewrite number_reverse, collect_digits_value by lia.
  apply Z.mod_small. lia.
Qed.

Lemma decimal_head v : in_width 64 v → head (decimal v) = Some 48%Z → v = 0%Z.
Proof.
  intros Hv. unfold decimal, in_width in *. case_decide as H0; [done|].
  rewrite head_reverse. intros Hl. by apply collect_digits_last in Hl; [|lia].
Qed.

Lemma decimal_nonempty v : decimal v ≠ [].
Proof.
  unfold decimal. case_decide as H0; [done|]. intros Hn. apply (f_equal length) in Hn.
  rewrite length_reverse in Hn. cbn [collect_digits] in Hn. by rewrite decide_False in Hn.
Qed.

(** ** The transcript *)

Lemma session_idle t keys k line :
  (session t (keys ++ replicate k None) line).1 = (session t keys line).1.
Proof.
  revert t line. induction keys as [|key keys IH]; intros t line; cbn [app session].
  - revert t. induction k as [|k IH]; intros t; [done|]. cbn [replicate session event].
    specialize (IH (u32 (t + 1))). by destruct (session _ _ line).
  - destruct (event _ key line) as [out line1]. specialize (IH (u32 (t + 1)) line1).
    destruct (session _ (keys ++ _) line1), (session _ keys line1). cbn in *. by rewrite IH.
Qed.

Section session.
Context {H : Type} `{!Uart H} `{!UartSpec H}.

(** ** The loop *)

Lemma editing_tick c n t t' line : editing c n t line → in_width 32 t' → editing c n t' line.
Proof. intros []. by split. Qed.

Lemma kmain_loop_run n c m t line h :
  editing c m t line → online h →
  ∃ c' m' h' keys, kmain_loop n (Shell c m t h) =
      Done (tt, Shell c' m' (u32 (t + Z.of_nat n)) h') ∧ online h' ∧ length keys = n ∧
    pending h = omap id keys ++ pending h' ∧
    editing c' m' (u32 (t + Z.of_nat n)) (session t keys line).2 ∧
    sent h' = sent h ++ (session t keys line).1 ∧
    (PromptUart H → length (pending h) ≤ n →
      keys = (Some <$> pending h) ++ replicate (n - length (pending h)) None).
Proof.
  revert c m t line h. induction n as [|n IH]; intros c m t line h He Hh.
  { exists c, m, h, []. cbn. rewrite Z.add_0_r, app_nil_r.
    unfold u32. rewrite wrap_small by apply He. split_and!; try done.
    intros _ Hle. by destruct (pending h); [|cbn in Hle; lia]. }
  cbn [kmain_loop]. run. change (set_ticks ?x (Shell c m t h)) with (Shell c m x h).
  cbn [ticks]. assert (in_width 32 (u32 (t + 1))) as Ht by (apply wrap_range; lia).
  destruct (serial_poll_run c m _ line h (editing_tick _ _ _ _ _ He Ht) Hh)
    as (c1 & m1 & h1 & key & Hr1 & Hh1 & Hp1 & Hkey & He1 & Hs1).
  bind Hr1. destruct (IH c1 m1 _ _ h1 He1 Hh1)
    as (c' & m' & h' & keys & Hr & Hh' & Hl & Hp & He' & Hs & Hall).
  assert (u32 (u32 (t + 1) + Z.of_nat n) = u32 (t + Z.of_nat (S n))) as Hu
    by (unfold u32; rewrite wrap_add_wrap; f_equal; lia).
  rewrite Hu in Hr, He'. exists c', m', h', (key :: keys).
  split; [exact Hr|]. split; [done|]. cbn [length session]. split; [by rewrite Hl|].
  destruct (event _ key line) as [out line1]. cbn [fst snd] in *.
  destruct (session _ keys line1) as [outs line2]. cbn [fst snd] in *.
  split_and!; [rewrite Hp1, Hp; by destruct key|done|by rewrite Hs, Hs1, app_assoc|].
  intros Hprompt. rewrite Hp1. intros Hle. destruct key as [b|].
  - cbn in Hle |- *. by rewrite Hall by (try done; lia).
  - assert (pending h = []) as Hnil
      by (destruct (pending h) eqn:E; [done|];
          exfalso; apply (prompt h Hh); [by rewrite E|by apply Hkey]).
    rewrite Hnil in Hp1. cbn in Hp1. rewrite <-Hp1 in Hall |- *. cbn.
    rewrite (Hall Hprompt) by (cbn; lia). cbn. by rewrite Nat.sub_0_r.
Qed.

Lemma serial_init_run (h : H) :
  ∃ h' lost, serial_init (power_on h) = Done (tt, power_on h') ∧ online h' ∧
    sent h' = sent h ∧ pending h = lost ++ pending h'.
Proof.
  destruct (init_sequence h) as (Hh & Hs & lost & Hp).
  eexists _, lost. split; [reflexivity|]. done.
Qed.

Lemma editing_power_on (h : H) :
  editing (command (power_on h)) (command_length (power_on h)) (ticks (power_on h)) [].
Proof. split; try done; cbn; lia. Qed.

Lemma kmain_run n (h : H) :
  ∃ h0 lost keys s', online h0 ∧ kmain n (power_on h) = Done (tt, s') ∧
    kmain_loop n (power_on h0) = Done (tt, s') ∧ length keys = n ∧
    pending h = lost ++ omap id keys ++ pending (hw s') ∧
    sent (hw s') = sent h ++ banner ++ (session 0 keys []).1 ∧
    editing (command s') (command_length s') (ticks s') (session 0 keys []).2 ∧
    ticks s' = u32 (Z.of_nat n) ∧
    (PromptUart H → length (pending h) ≤ n →
      ∃ typed, pending h = lost ++ typed ∧ pending (hw s') = [] ∧
        keys = (Some <$> typed) ++ replicate (n - length typed) None).
Proof.
  destruct (serial_init_run h) as (h1 & lost & Hr1 & Hh1 & Hs1 & Hp1).
  assert (∀ text str, c_string text = Some str → bytes_ok str →
    (Z.of_nat (length str) < 2 ^ 31)%Z → ∀ h, online h → ∃ h',
    say text (power_on h) = Done (tt, power_on h') ∧ online h' ∧
    sent h' = sent h ++ crlf_all str ∧ pending h' = pending h) as Hsay
    by (intros ??????; by apply speaks_say).
  edestruct (Hsay ([10%Z] ++ text_line "NovaOS Phase 3.1 Rapid Kernel booted."))
    as (h2 & Hr2 & Hh2 & Hs2 & Hp2); [constant_text..|exact Hh1|].
  edestruct (Hsay (text_line "QEMU command line online; type help for POSIX and NovaKit commands."))
    as (h3 & Hr3 & Hh3 & Hs3 & Hp3); [constant_text..|exact Hh2|].
  edestruct (Hsay (cstr "nova> ")) as (h4 & Hr4 & Hh4 & Hs4 & Hp4); [constant_text..|exact Hh3|].
  destruct (kmain_loop_run n _ _ _ [] h4 (editing_power_on h4) Hh4)
    as (c & m & h5 & keys & Hr5 & Hh5 & Hl & Hp5 & He & Hs5 & Hall).
  eexists h4, lost, keys, _. split; [done|]. split.
  { unfold kmain. bind Hr1. bind Hr2. bind Hr3. bind Hr4. exact Hr5. }
  split; [exact Hr5|]. split; [done|]. cbn [hw command command_length ticks].
  split; [by rewrite Hp1, <-Hp2, <-Hp3, <-Hp4, Hp5|].
  split; [rewrite Hs5, Hs4, Hs3, Hs2, Hs1, <-!app_assoc; done|]. split; [done|]. split; [done|].
  intros Hprompt Hle. exists (pending h4).
  assert (pending h1 = pending h4) as E by congruence. rewrite Hp1, E in Hle |- *.
  rewrite length_app in Hle. rewrite (Hall Hprompt) in Hp5 |- * by lia.
  split_and!; [done| |done]. rewrite omap_app in Hp5.
  assert (omap id (Some <$> pending h4) = pending h4) as Ho
    by (clear; induction (pending h4); cbn; congruence).
  rewrite Ho in Hp5. apply (f_equal length) in Hp5. rewrite !length_app in Hp5.
  apply nil_length_inv. lia.
Qed.

(** ** Properties *)

(** C3. The kernel never gets stuck and never leaves its buffer: for any serial
    port and any number of polls it completes; what it has transmitted is the
    banner and the answers to the keys it read, each key once and in order
    (keys lost while the port was set up excepted); the buffer holds the line
    being edited, at most 159 printable characters; the clock counts the polls
    modulo its width. *)
Theorem nova_kmain_transcript n (h : H) :
  ∃ s' lost keys, kmain n (power_on h) = Done (tt, s') ∧ length keys = n ∧
    pending h = lost ++ omap id keys ++ pending (hw s') ∧
    sent (hw s') = sent h ++ banner ++ (session 0 keys []).1 ∧
    editing (command s') (command_length s') (ticks s') (session 0 keys []).2 ∧
    ticks s' = u32 (Z.of_nat n).
Proof.
  destruct (kmain_run n h) as (h0 & lost & keys & s' & _ & Hr & _ & Hl & Hp & Hs & He & Ht & _).
  by exists s', lost, keys.
Qed.

(** C23. On a port that reports the bytes that wait, every key that was not lost
    while the port was set up has been read and answered, in order, after as
    many polls as there are keys; the polls that follow print nothing. *)
Theorem nova_kmain_answers_all `{!PromptUart H} n (h : H) :
  length (pending h) ≤ n →
  ∃ s' lost typed, kmain n (power_on h) = Done (tt, s') ∧
    pending h = lost ++ typed ∧ pending (hw s') = [] ∧
    sent (hw s') = sent h ++ banner ++ (session 0 (Some <$> typed) []).1.
Proof.
  intros Hle.
  destruct (kmain_run n h) as (h0 & lost & keys & s' & _ & Hr & _ & _ & _ & Hs & _ & _ & Hall).
  destruct (Hall _ Hle) as (typed & Hp & Hnil & ->). exists s', lost, typed.
  split_and!; [done|done|done|]. rewrite Hs. do 2 f_equal. apply session_idle.
Qed.

(** C31. The decimal printer transmits the digits of its argument and nothing
    else, whatever the width of unsigned long: the number they denote is the
    argument, and there is no leading zero. *)
Theorem nova_write_unsigned_correct (s : shell H) v :
  online (hw s) → in_width 64 v →
  ∃ digits h', write_unsigned v s = Done (tt, set_hw h' s) ∧ online h' ∧
    sent h' = sent (hw s) ++ digits ∧ Forall digit digits ∧ digits ≠ [] ∧
    number digits = v ∧ (head digits = Some 48%Z → v = 0%Z).
Proof.
  intros Hh Hv. destruct s as [c n t h]. cbn [hw] in *.
  destruct (speaks_write_unsigned c n t v ltac:(apply Hv) h Hh) as (h' & Hr & Hh' & Hs & _).
  exists (decimal v), h'. split_and!; [done|done|done| | | |].
  - apply decimal_digits. apply Hv.
  - by apply decimal_nonempty.
  - by apply decimal_number.
  - by apply decimal_head.
Qed.

(** The system calls: write transmits the first [len] bytes of the buffer,
    each newline followed by a carriage return, and returns [len]; uname fills
    the structure; getpid, uptime and every unknown number answer a constant,
    the clock and -1, and none of them touches the port or the shell. *)
Theorem nova_syscall_correct (s : shell H) :
  (∀ buffer len, online (hw s) → bytes_ok buffer →
    (0 ≤ len < 2 ^ 31)%Z → (len ≤ Z.of_nat (length buffer))%Z →
    ∃ h', nova_syscall_dispatch NOVA_SYS_write (Chars buffer) len s =
        Done ((len, None), set_hw h' s) ∧ online h' ∧
      sent h' = sent (hw s) ++ crlf_all (take (Z.to_nat len) buffer) ∧
      pending h' = pending (hw s)) ∧
  (∀ arg1, nova_syscall_dispatch NOVA_SYS_uname UtsPointer arg1 s =
    Done ((0%Z, Some (Utsname (cstr "NovaOS") (cstr "qemu0") (cstr "3.1.0-prototype")
      (cstr "Rapid Kernel Phase 3.1") (cstr "i386-qemu"))), s)) ∧
  (∀ number arg0 arg1, number ≠ NOVA_SYS_write → number ≠ NOVA_SYS_uname →
    nova_syscall_dispatch number arg0 arg1 s =
      Done ((if decide (number = NOVA_SYS_getpid) then 3%Z
             else if decide (number = NOVA_SYS_uptime) then i32 (ticks s) else (-1)%Z, None), s)).
Proof.
  split_and!.
  - intros buffer len Hh Hb Hlen Hle. destruct s as [c n t h].
    apply (speaks_write c n t buffer len); [by apply Forall_take|done|done|done].
  - done.
  - intros number arg0 arg1 H1 H2. unfold nova_syscall_dispatch.
    rewrite (decide_False (P:=number = NOVA_SYS_write)), (decide_False (P:=number = NOVA_SYS_uname))
      by done. by do 2 (case_decide; [done|]).
Qed.
End session.

(** ** A serial port

    The part of a 16550 that the kernel touches: the divisor latch bit of the
    line control register, a receiver fed from the line one byte per status
    read, a transmitter that needs two status reads before it is ready again,
    and the log of what it has sent.  The theorems are evaluated on it. *)
Record port : Type := Port {
  line_control : Z;
  received : list Z;
  on_line : list Z;
  draining : nat;
  transmitted : list Z;
}.

Definition port_read_status (h : port) : Z * port :=
  let now := match received h with [] => take 1 (on_line h) | r => r end in
  let rest := match received h with [] => drop 1 (on_line h) | _ => on_line h end in
  ((if decide (draining h = 0%nat) then 0x20 else 0) + (if decide (now = []) then 0 else 1),
   Port (line_control h) now rest (pred (draining h)) (transmitted h))%Z.

Definition port_outb (p v : Z) (h : port) : port :=
  if decide (p = COM1 + SERIAL_LINE_CONTROL)%Z then
    Port v (received h) (on_line h) (draining h) (transmitted h)
  else if decide (p = COM1 + SERIAL_FIFO)%Z then
    Port (line_control h) [] (on_line h) 0 (transmitted h)
  else if decide (p = COM1 + SERIAL_DATA ∧ Z.land (line_control h) 0x80 = 0)%Z then
    Port (line_control h) (received h) (on_line h) 2 (transmitted h ++ [v])
  else h.

Definition port_inb (p : Z) (h : port) : Z * port :=
  if decide (p = COM1 + SERIAL_LINE_STATUS)%Z then port_read_status h
  else if decide (p = COM1 + SERIAL_DATA)%Z then
    (u8 (default 0%Z (head (received h))),
     Port (line_control h) (tail (received h)) (on_line h) (draining h) (transmitted h))
  else (0%Z, h).

#[export] Instance port_uart : Uart port :=
  {| outb := port_outb; inb := port_inb; wait_bound := 2 |}.

#[export] Program Instance port_spec : UartSpec port := {|
  online h := line_control h = 3%Z ∧ draining h ≤ 2;
  sent := transmitted;
  pending h := u8 <$> (received h ++ on_line h);
  arrived h := received h ≠ [];
  busy := draining;
|}.
Next Obligation. by intros h [_ ?]. Qed.
Next Obligation.
  intros [c r l d t] [Hc Hd]. cbn in Hc, Hd.
  change (inb (COM1 + SERIAL_LINE_STATUS)) with port_read_status.
  destruct d, r as [|? r], l; cbn in *; split_and!; try done; lia.
Qed.
Next Obligation.
  intros [c r l d t] Hon Har. cbn in *. destruct r as [|b r]; [done|].
  exists (u8 b), (u8 <$> (r ++ l)). split_and!; try done; try apply Hon; by apply wrap_range.
Qed.
Next Obligation.
  intros [c r l d t] v [Hc Hd] Hb Hv. cbn in Hc, Hb. subst c d. by vm_compute; auto.
Qed.
Next Obligation.
  intros [c r l d t]. lazy zeta. set (h' := foldl _ _ _).
  assert (h' = Port 3 [] l 0 t) as -> by (vm_compute; reflexivity). cbn.
  split_and!; [done|lia|done|]. exists (u8 <$> r). by rewrite fmap_app.
Qed.

#[export] Instance port_prompt : PromptUart port.
Proof.
  intros [c r l d t] _. change (inb (COM1 + SERIAL_LINE_STATUS)) with port_read_status.
  destruct d, r as [|? r], l; cbn; done.
Qed.

(** A port with the characters of [s] and a carriage return on its line. *)
Definition typing (s : string) : port := Port 0 [] (chars s ++ [13%Z]) 0 [].

(** ** Witnesses *)

Lemma nova_kmain_transcript_witness :
  ∃ s' lost keys, kmain 30 (power_on (typing "echo hi")) = Done (tt, s') ∧ length keys = 30 ∧
    pending (typing "echo hi") = lost ++ omap id keys ++ pending (hw s') ∧
    sent (hw s') = [] ++ banner ++ (session 0 keys []).1 ∧
    editing (command s') (command_length s') (ticks s') (session 0 keys []).2 ∧
    ticks s' = u32 30.
Proof. exact (nova_kmain_transcript 30 (typing "echo hi")). Defined.

(** Typing "echo hi" and return transmits the line, its echo and a new prompt. *)
Lemma nova_kmain_answers_all_witness :
  length (pending (typing "echo hi")) ≤ 30 ∧
  (session 0 (Some <$> pending (typing "echo hi")) []).1 =
    chars "echo hi" ++ [10; 13]%Z ++ chars "hi" ++ [10; 13]%Z ++ chars "nova> " ∧
  ∃ s' lost typed, kmain 30 (power_on (typing "echo hi")) = Done (tt, s') ∧
    pending (typing "echo hi") = lost ++ typed ∧ pending (hw s') = [] ∧
    sent (hw s') = [] ++ banner ++ (session 0 (Some <$> typed) []).1.
Proof.
  assert (length (pending (typing "echo hi")) ≤ 30) as Hle by (vm_compute; lia).
  split; [exact Hle|]. split; [vm_compute; reflexivity|].
  exact (nova_kmain_answers_all 30 (typing "echo hi") Hle).
Defined.

Lemma nova_write_unsigned_correct_witness :
  ∃ digits h', write_unsigned 2024 (power_on (Port 3 [] [] 0 [])) =
      Done (tt, set_hw h' (power_on (Port 3 [] [] 0 []))) ∧ online h' ∧
    sent h' = [] ++ digits ∧ Forall digit digits ∧ digits ≠ [] ∧
    number digits = 2024%Z ∧ (head digits = Some 48%Z → 2024%Z = 0%Z).
Proof.
  assert (online (Port 3 [] [] 0 [])) as Hon by (split; [reflexivity|cbn; lia]).
  assert (in_width 64 2024) as Hv by (split; [lia|reflexivity]).
  exact (nova_write_unsigned_correct (power_on (Port 3 [] [] 0 [])) 2024 Hon Hv).
Defined.

Lemma nova_syscall_correct_witness :
  ∃ h', nova_syscall_dispatch NOVA_SYS_write (Chars [72; 10; 0]%Z) 2 (power_on (Port 3 [] [] 0 [])) =
      Done ((2%Z, None), set_hw h' (power_on (Port 3 [] [] 0 []))) ∧ online h' ∧
    sent h' = [] ++ crlf_all [72; 10]%Z ∧ pending h' = [].
Proof.
  assert (online (Port 3 [] [] 0 [])) as Hon by (split; [reflexivity|cbn; lia]).
  assert (bytes_ok [72; 10; 0]%Z) as Hb by (repeat constructor; unfold in_width; lia).
  exact (proj1 (nova_syscall_correct (power_on (Port 3 [] [] 0 []))) [72; 10; 0]%Z 2%Z Hon Hb
    ltac:(lia) ltac:(cbn; lia)).
Defined.
End BootSession.
