(* ===== verification/StringHelpers.v ===== *)
(** * The hand-written string functions agree with string.h

    boot/kernel.c is freestanding and writes its own nova_strlen, starts_with
    and command comparison; ui_boot_path.c has a starts_with of its own over
    strlen and strncmp.  This file proves them equivalent to the functions of
    CString.v, on every block of bytes. *)

From S2P Require Import Prelude CString BootShell UiBoot.

Lemma nova_strlen_equiv text : BootShell.nova_strlen text = strlen text.
Proof.
  unfold strlen. induction text as [|c text IH]; [done|]. cbn.
  case_decide; [done|]. rewrite IH. by destruct (c_string text).
Qed.

(** The loop stops at the first difference and so reads no more of the text
    than strncmp does. *)
Lemma starts_with_equiv text prefix n :
  strlen prefix = Some n → BootShell.starts_with text prefix = strncmp_eq text prefix n.
Proof.
  revert text n. induction prefix as [|p prefix IH]; intros text n; [done|].
  unfold strlen. cbn. case_decide as Hp; [by intros [= <-]|].
  destruct (c_string prefix) as [q|] eqn:Hq; [|done]. intros [= <-]. cbn.
  destruct text as [|t text]; [done|]. case_decide as Ht; [done|].
  rewrite decide_False by congruence. apply IH. unfold strlen. by rewrite Hq.
Qed.

Lemma same_text_equiv text expected r :
  strcmp_eq text expected = Some r → BootShell.same_text text expected = Some r.
Proof.
  unfold strcmp_eq. revert text r. induction expected as [|e expected IH]; intros text r.
  { by destruct (c_string text). }
  destruct text as [|c text]; [done|]. cbn. specialize (IH text).
  destruct (decide (e = 0)%Z) as [->|He].
  { destruct (decide (c = 0)%Z) as [->|Hc]; cbn; [by intros [= <-]|].
    destruct (c_string text); cbn; [|done]. intros [= <-]. by rewrite !bool_decide_eq_false_2. }
  destruct (c_string expected) as [x|]; [|by destruct (decide (c = 0)%Z), (c_string text)].
  destruct (decide (c = e)) as [->|Hd].
  - rewrite decide_False by done. destruct (c_string text) as [y|]; [|done]. cbn in *.
    intros [= <-]. apply IH. f_equal. apply bool_decide_ext. naive_solver.
  - destruct (decide (c = 0)%Z) as [->|Hc]; cbn.
    + by intros [= <-].
    + destruct (c_string text) as [y|]; [|done]. cbn. intros [= <-].
      rewrite bool_decide_eq_false_2; congruence.
Qed.

(** * Properties *)

(** C39. The string functions the sources write by hand are equivalent to those
    of string.h, on any blocks of bytes: nova_strlen is strlen, including where
    it would run past the block; the starts_with of boot/kernel.c is the
    strncmp test of the starts_with of ui_boot_path.c, so both shells recognise
    the same prefixes; the command comparison of the shell answers what strcmp
    answers wherever strcmp is defined. *)
Theorem nova_string_functions_equivalent (text other : list Z) :
  BootShell.nova_strlen text = strlen text ∧
  (∀ n, strlen other = Some n →
    BootShell.starts_with text other = strncmp_eq text other n ∧
    ∀ s, UiBoot.starts_with text other s = the (BootShell.starts_with text other) s) ∧
  (∀ r, strcmp_eq text other = Some r → BootShell.same_text text other = Some r).
Proof.
  split; [apply nova_strlen_equiv|]. split; [|intros r; apply same_text_equiv].
  intros n Hn. rewrite (starts_with_equiv _ _ _ Hn). split; [done|]. intros s.
  unfold UiBoot.starts_with. by rewrite Hn, bind_the.
Qed.

Lemma nova_string_functions_equivalent_witness :
  let text := cstr "ui desktopfoo" in
  BootShell.starts_with text (cstr "ui desktop") = Some true ∧
  BootShell.same_text text (cstr "ui desktop") = Some false.
Proof.
  intros text. destruct (nova_string_functions_equivalent text (cstr "ui desktop")) as (_ & H & H').
  split; [by rewrite (proj1 (H 10 eq_refl))|]. by apply H'.
Defined.
