(* ===== verification/ModuleShim.v ===== *)
(** * The FreeBSD module of the kernel core (kernel/modules/nova_core/nova_core.c)

    The loader of the host kernel hands module events to a handler, which
    announces loading and unloading and refuses other events.  What belongs to
    FreeBSD - the codes of the events, of the error and of the start-up order,
    and uprintf - is a parameter. *)

From S2P Require Import Prelude CString.

Module ModuleShim.

(** The kernel the module is loaded into, with state [K]. *)
Class ModuleHost (K : Type) := {
  MOD_LOAD : Z;
  MOD_UNLOAD : Z;
  EOPNOTSUPP : Z;
  SI_SUB_DRIVERS : Z;
  SI_ORDER_ANY : Z;
  uprintf : list Z → K → K;
}.

(** moduledata_t: name, event handler, private data. *)
Record moduledata_t (K : Type) : Type := ModuleData {
  md_name : list Z;
  evhand : Z → M K Z;
  priv : option Z;
}.
Arguments ModuleData {K}.
Arguments md_name {K}.
Arguments evhand {K}.
Arguments priv {K}.

(** What the three macros at the end of the file declare. *)
Record module_declaration (K : Type) : Type := Declaration {
  mod_data : moduledata_t K;
  mod_sub : Z;
  mod_order : Z;
  mod_version : Z;
  mod_depends : list (list Z * (Z * Z * Z));
}.
Arguments Declaration {K}.
Arguments mod_data {K}.
Arguments mod_sub {K}.
Arguments mod_order {K}.
Arguments mod_version {K}.
Arguments mod_depends {K}.

Section shim.
Context {K : Type} `{!ModuleHost K}.

Definition nova_core_modevent (event : Z) : M K Z :=
  if decide (event = MOD_LOAD) then
    modify (uprintf (chars "NovaOS core module loaded" ++ [10; 0]%Z));; mret 0%Z
  else if decide (event = MOD_UNLOAD) then
    modify (uprintf (chars "NovaOS core module unloaded" ++ [10; 0]%Z));; mret 0%Z
  else mret EOPNOTSUPP.

Definition nova_core_data : moduledata_t K :=
  ModuleData (cstr "nova_core") nova_core_modevent None.

Definition nova_core_module : module_declaration K :=
  Declaration nova_core_data SI_SUB_DRIVERS SI_ORDER_ANY 1 [(cstr "kernel", (1, 1, 1)%Z)].

(** The loader delivers events to the handler of a declared module. *)
Definition deliver (d : module_declaration K) (events : list Z) : M K (list Z) :=
  exec_trace (evhand (mod_data d)) events.
End shim.

(** A host that keeps what is printed: FreeBSD's codes. *)
#[export] Instance printing_host : ModuleHost (list Z) := {|
  MOD_LOAD := 0;
  MOD_UNLOAD := 1;
  EOPNOTSUPP := 45;
  SI_SUB_DRIVERS := 0x3100000;
  SI_ORDER_ANY := 0xfffffff;
  uprintf text out := out ++ default [] (c_string text);
|}.

(** ** What the module prints and answers *)

Inductive module_event : Type := Loaded | Unloaded | Other.

Section spec.
Context {K : Type} `{!ModuleHost K}.

Definition event_of (z : Z) : module_event :=
  if decide (z = MOD_LOAD) then Loaded else if decide (z = MOD_UNLOAD) then Unloaded else Other.

Definition message (e : module_event) : option string :=
  match e with
  | Loaded => Some "NovaOS core module loaded"
  | Unloaded => Some "NovaOS core module unloaded"
  | Other => None
  end.

Definition print_event (k : K) (z : Z) : K :=
  match message (event_of z) with
  | Some text => uprintf (chars text ++ [10; 0]%Z) k
  | None => k
  end.

Definition answer (z : Z) : Z :=
  match event_of z with Other => EOPNOTSUPP | _ => 0%Z end.

Lemma nova_core_modevent_run z (k : K) :
  nova_core_modevent z k = Done (answer z, print_event k z).
Proof.
  unfold nova_core_modevent, answer, print_event, event_of.
  by repeat case_decide.
Qed.

(** Whatever events the loader delivers to the module nova_core, in any
    order, and on any host, the handler completes on each: it answers 0 to
    loading and unloading and the host's code for an unsupported operation to
    everything else, and what is printed is exactly one line for each loading
    and each unloading, in their order. *)
Theorem nova_core_module_events (events : list Z) (k : K) :
  deliver nova_core_module events k =
    Done (answer <$> events, foldl print_event k events).
Proof.
  unfold deliver. revert k. induction events as [|z events IH]; intros k; [done|].
  cbn [exec_trace]. bind (nova_core_modevent_run z k). by bind (IH _).
Qed.
End spec.

(** Loading, a query to unload (MOD_QUIESCE) and unloading on FreeBSD. *)
Example load_and_unload :
  deliver nova_core_module [0; 3; 1]%Z [] =
    Done ([0; 45; 0]%Z, chars "NovaOS core module loaded" ++ [10]%Z ++
      chars "NovaOS core module unloaded" ++ [10]%Z).
Proof. by vm_compute. Qed.
End ModuleShim.
