(* ===== verification/HostTests.v ===== *)
(** * The host tests (core/host_test.c, novakit/host_test.c,
      network/host_test.c) and the example module (linuxkpi/example_module.c)

    The programs the repository runs on the build host, as programs on the
    models of the components.  A failed assertion aborts: it is undefined here,
    so a run that returns has passed every assertion. *)

From S2P Require Import Prelude Core CString LinkedList.
From S2P Require Import Scheduler Ipc Pages Space NovaKit LinuxKpi.
From S2P Require Import NetState NetDev Sockets Send Drivers Network.

Module HostTests.

Definition assert_that {S} (b : bool) : M S unit := if b then mret tt else undef.

(** An assertion on the result of a call. *)
Definition assert_eq {S A} `{!EqDecision A} (m : M S A) (expected : A) : M S unit :=
  r ← m; assert_that (bool_decide (r = expected)).

(** An action on one of the variables of a function. *)
Definition zoom {S T A} (get : S → T) (put : T → S → S) (m : M T A) : M S A := λ s,
  match m (get s) with
  | Done (a, t) => Done (a, put t s)
  | Undef => Undef
  | NoFuel => NoFuel
  end.

(** ** core/host_test.c *)

Definition test_scheduler : M Sched.nova_scheduler_t unit :=
  Sched.nova_sched_init;;
  r ← Sched.nova_sched_add 10;
  assert_that (bool_decide (r.1 = NOVA_OK));;
  low_priority ← the r.2;
  r ← Sched.nova_sched_add 50;
  assert_that (bool_decide (r.1 = NOVA_OK));;
  high_priority ← the r.2;
  assert_eq Sched.nova_sched_pick_next (i32 high_priority);;
  Sched.nova_sched_account high_priority;;
  assert_eq (Sched.nova_sched_set_state high_priority Sched.NOVA_THREAD_BLOCKED) NOVA_OK;;
  assert_eq Sched.nova_sched_pick_next (i32 low_priority).

(** The array [payload] with its terminator. *)
Definition hello : list Z := cstr "hello from ipc".

Definition test_ipc : M Ipc.nova_ipc_endpoint_t unit :=
  Ipc.nova_ipc_endpoint_init;;
  r ← Ipc.nova_ipc_receive;
  assert_that (bool_decide (r.1 = NOVA_EMPTY));;
  assert_eq (Ipc.nova_ipc_send 7 hello (Z.of_nat (length hello))) NOVA_OK;;
  r ← Ipc.nova_ipc_receive;
  assert_that (bool_decide (r.1 = NOVA_OK));;
  message ← the r.2;
  assert_that (bool_decide (Ipc.sender message = 7)%Z);;
  assert_that (bool_decide (Ipc.length_ message = Z.of_nat (length hello)));;
  assert_that (bool_decide (take (length hello) (Ipc.payload message) = hello)).

(** The allocator and the address space of test_vm. *)
Abbreviation vm_locals := (Pages.nova_page_allocator_t * Space.nova_address_space_t)%type.
Definition on_pages {A} : M Pages.nova_page_allocator_t A → M vm_locals A :=
  zoom fst (λ a l, (a, l.2)).
Definition on_space {A} : M Space.nova_address_space_t A → M vm_locals A :=
  zoom snd (λ s l, (l.1, s)).

Definition test_vm : M vm_locals unit :=
  on_pages Pages.nova_vm_init;;
  r ← on_pages Pages.nova_vm_alloc_page;
  assert_that (bool_decide (r.1 = NOVA_OK));;
  physical_page ← the r.2;
  on_space Space.nova_vm_address_space_init;;
  assert_eq (on_space (Space.nova_vm_map 0x1000 physical_page 1)) NOVA_OK;;
  r ← on_space (Space.nova_vm_translate 0x1000);
  assert_that (bool_decide (r.1 = NOVA_OK));;
  found ← the r.2;
  assert_that (bool_decide (found.1 = physical_page));;
  assert_that (bool_decide (found.2 = 1)%Z);;
  assert_eq (on_pages (Pages.nova_vm_free_page physical_page)) NOVA_OK.

(** The variables of the three tests, on the stack. *)
Record core_stack : Type := CoreStack {
  scheduler : Sched.nova_scheduler_t;
  endpoint : Ipc.nova_ipc_endpoint_t;
  vm : vm_locals;
}.

Definition core_main : M core_stack Z :=
  zoom scheduler (λ x c, CoreStack x (endpoint c) (vm c)) test_scheduler;;
  zoom endpoint (λ x c, CoreStack (scheduler c) x (vm c)) test_ipc;;
  zoom vm (λ x c, CoreStack (scheduler c) (endpoint c) x) test_vm;;
  mret 0%Z.

(** ** novakit/host_test.c *)

Definition novakit_main : M NovaKit.novakit_registry_t Z :=
  NovaKit.novakit_registry_init;;
  r ← NovaKit.novakit_register_device 0x1AF4 0x1000 NovaKit.NOVAKIT_NETWORK (cstr "virtio-net");
  assert_that (bool_decide (r.1 = 0)%Z);;
  device_id ← the r.2;
  assert_eq (NovaKit.novakit_set_state device_id NovaKit.NOVAKIT_ATTACHED) 0%Z;;
  p ← NovaKit.novakit_find device_id;
  device ← NovaKit.deref p;
  device ← the device;
  assert_that (bool_decide (NovaKit.state device = NovaKit.NOVAKIT_ATTACHED));;
  assert_that (bool_decide (NovaKit.class device = NovaKit.NOVAKIT_NETWORK));;
  same ← the (strcmp_eq (NovaKit.name device) (cstr "virtio-net"));
  assert_that same;;
  mret 0%Z.

(** ** linuxkpi/example_module.c *)

(** The static structure [module], at some address. *)
Definition example_module : LinuxKpi.nova_linuxkpi_module_t :=
  LinuxKpi.KpiModule (Some (cstr "nova-linuxkpi-example")) (Some (cstr "GPL-2.0-or-later"))
    (Some (cstr "not-vendored")).

Definition example_main (address : loc) : M LinuxKpi.kpi_state Z :=
  r ← LinuxKpi.nova_linuxkpi_register (Some (address, example_module));
  if decide (r = 0)%Z then
    n ← LinuxKpi.nova_linuxkpi_module_count;
    mret (if decide (n = 1)%Z then 0%Z else 1%Z)
  else mret 1%Z.

(** ** network/host_test.c *)

Import Drivers.

(** [memset(skb->data, c, n); skb->len = n; skb->dev = dev] *)
Definition prepare_skb (skb : loc) (c : Z) (n : nat) (dev : loc)
    : M (net_state Drivers.nova_ops) unit :=
  b ← get_skb skb;
  block ← the (data b);
  s ← gets (λ s, s);
  old ← the (blocks s !! block);
  new ← the (memcpy old (replicate n c) n);
  modify (λ s, set_blocks (<[block := new]> (blocks s)) s);;
  put_skb skb (SkBuff (data b) (Z.of_nat n) (headroom b) (tailroom b) (Some dev) (hash b)
    (skb_protocol b) (skb_priority b) (error b)).

Definition network_main : M (net_state Drivers.nova_ops) Z :=
  NetDev.nova_network_init;;
  assert_eq Drivers.nova_loopback_init 0%Z;;
  lo ← NetDev.nova_netdev_find (Some (cstr "lo"));
  lo ← the lo;
  d ← get_dev lo;
  assert_that (bool_decide (Z.land (dev_flags d) NOVA_IFF_LOOPBACK ≠ 0)%Z);;
  fd ← Sockets.nova_socket NOVA_AF_INET NOVA_SOCK_STREAM 6;
  assert_that (bool_decide (0 <= fd)%Z);;
  assert_eq (Sockets.nova_bind fd) 0%Z;;
  assert_eq (Sockets.nova_connect fd) 0%Z;;
  skb ← nova_alloc_skb 32;
  skb ← the skb;
  prepare_skb skb 65 32 lo;;
  assert_eq (NetDev.nova_dev_queue_xmit (Some skb)) 0%Z;;
  d ← get_dev lo;
  assert_that (bool_decide (1 <= rx_packets (stats d))%Z);;
  assert_eq (Sockets.nova_close fd) 0%Z;;
  assert_eq Drivers.nova_nic_stub_init 0%Z;;
  nic ← NetDev.nova_netdev_find (Some (cstr "nic0"));
  nic ← the nic;
  d ← get_dev nic;
  assert_that (bool_decide (Z.land (dev_flags d) NOVA_IFF_UP ≠ 0)%Z);;
  skb ← nova_alloc_skb 20;
  skb ← the skb;
  prepare_skb skb 66 20 nic;;
  assert_eq (NetDev.nova_dev_queue_xmit (Some skb)) 0%Z;;
  d ← get_dev nic;
  assert_that (bool_decide (1 <= tx_packets (stats d))%Z);;
  mret 0%Z.

(** ** Running them

    The core tests pass whatever the uninitialised variables on the stack hold. *)

(** The structures a test declares have their sizes and any contents. *)
Record on_stack (c : core_stack) : Prop := {
  stack_threads : length (Sched.threads (scheduler c)) = NOVA_MAX_THREADS;
  stack_messages : length (Ipc.messages (endpoint c)) = NOVA_IPC_QUEUE_LENGTH;
  stack_payloads : Forall (λ m, length (Ipc.payload m) = NOVA_IPC_PAYLOAD_SIZE)
    (Ipc.messages (endpoint c));
  stack_flags : length (Pages.allocated (vm c).1) = NOVA_VM_MAX_PAGES;
  stack_mappings : length (Space.mappings (vm c).2) = NOVA_MAX_MAPPINGS;
}.

Ltac spell l := repeat (destruct l as [|? l]; [discriminate|]); destruct l; [|discriminate].

Lemma test_scheduler_run s :
  length (Sched.threads s) = 32 → ∃ s', test_scheduler s = Done (tt, s').
Proof.
  destruct s as [l n t]. cbn [Sched.threads]. intros Hl. spell l.
  eexists. vm_compute. reflexivity.
Qed.

Lemma test_ipc_run e :
  length (Ipc.messages e) = 16 → Forall (λ m, length (Ipc.payload m) = 64) (Ipc.messages e) →
  ∃ e', test_ipc e = Done (tt, e').
Proof.
  destruct e as [l h t n]. cbn [Ipc.messages]. intros Hl Hp. destruct l as [|[a b p] l]; [done|].
  apply Forall_cons in Hp as [Hp _]. cbn in Hp. spell p. eexists. vm_compute. reflexivity.
Qed.

Lemma test_vm_run l :
  length (Pages.allocated l.1) = 128 → length (Space.mappings l.2) = 128 →
  ∃ l', test_vm l = Done (tt, l').
Proof.
  destruct l as [[fl] [ms n]]. cbn [Pages.allocated Space.mappings fst snd]. intros Hf Hm.
  spell fl. destruct ms as [|m ms]; [done|]. eexists. vm_compute. reflexivity.
Qed.

Lemma zoom_run {S T A} (get : S → T) put (m : M T A) a t s :
  m (get s) = Done (a, t) → zoom get put m s = Done (a, put t s).
Proof. intros Hm. unfold zoom. by rewrite Hm. Qed.

Lemma core_main_run c : on_stack c → ∃ c', core_main c = Done (0%Z, c').
Proof.
  intros [Ht Hm Hp Hf Hs].
  destruct (test_scheduler_run _ Ht) as [x Hx]. destruct (test_ipc_run _ Hm Hp) as [y Hy].
  destruct (test_vm_run _ Hf Hs) as [z Hz]. unfold core_main. eexists.
  bind (zoom_run scheduler (λ x c, CoreStack x (endpoint c) (vm c)) _ _ _ c Hx).
  bind by (apply zoom_run; exact Hy). bind by (apply zoom_run; exact Hz). reflexivity.
Qed.

(** Static storage when the network test starts. *)
Definition network_start : net_state nova_ops :=
  NetState None (replicate 64 None) 1 0 {[ lo_dev := zero_device; nic_dev := zero_device ]}
    ∅ ∅ ∅ 10 [].

(** The other programs reach their end with every assertion true, too. *)
Example novakit_main_run :
  result_of (novakit_main (NovaKit.Registry [] 9)) = Some 0%Z.
Proof. vm_compute. reflexivity. Qed.

Example example_main_run : result_of (example_main 4 LinuxKpi.kpi_initial) = Some 0%Z.
Proof. vm_compute. reflexivity. Qed.

Example network_main_run : result_of (network_main network_start) = Some 0%Z.
Proof. vm_compute. reflexivity. Qed.
End HostTests.
