(* ===== verification/Fixtures.v ===== *)
(** * The compatibility fixtures and the virtio-net scaffold
      (tests/compatibility/fixtures, drivers/novakit-native/virtio-net)

    Two programs that print a line, and the Rust type that will become the
    first native driver. *)

From S2P Require Import Prelude CString NovaKit.

(** ** linux-hello.c and windows-hello.c *)

Module Fixtures.

(** The output stream, and whether writes to it succeed. *)
Record stdout : Type := Stdout { written : list Z; works : bool }.

(** puts: the string and a newline, or EOF. *)
Definition puts (text : list Z) : M stdout Z :=
  s ← gets (λ s, s);
  v ← the (c_string text);
  if works s then modify (λ s, Stdout (written s ++ v ++ [10%Z]) (works s));; mret 0%Z
  else mret (-1)%Z.

Definition linux_main : M stdout Z := puts (cstr "hello from Linux ELF");; mret 0%Z.
Definition windows_main : M stdout Z := puts (cstr "hello from Windows PE");; mret 0%Z.

(** A program that prints a line ends with status 0, also when nothing can be
    printed. *)
Lemma puts_then_zero (text : string) s :
  nonzero (chars text) →
  (puts (cstr text);; mret 0%Z) s =
    Done (0%Z, if works s then Stdout (written s ++ chars text ++ [10%Z]) true else s).
Proof.
  intros Hn. unfold puts. rewrite bind_assoc, bind_gets, bind_assoc.
  bind (the_Some _ _ _ (chars_nonzero_cstr text Hn)). by destruct s as [w []].
Qed.

Lemma fixtures_print s :
  linux_main s = Done (0%Z, if works s
    then Stdout (written s ++ chars "hello from Linux ELF" ++ [10%Z]) true else s) ∧
  windows_main s = Done (0%Z, if works s
    then Stdout (written s ++ chars "hello from Windows PE" ++ [10%Z]) true else s).
Proof. split; (apply puts_then_zero; by repeat constructor). Qed.
End Fixtures.

(** ** src/lib.rs *)

Module VirtioNet.

Definition VIRTIO_VENDOR_ID : Z := 0x1AF4.
Definition VIRTIO_NET_DEVICE_ID : Z := 0x1000.

Inductive DriverState : Type := Detached | Probed.
#[export] Instance DriverState_eq_dec : EqDecision DriverState.
Proof. solve_decision. Defined.

Record VirtioNet : Type := Driver { state_ : DriverState }.

Definition new : VirtioNet := Driver Detached.
Definition state (self : VirtioNet) : DriverState := state_ self.

(** A new driver is detached, and so is the device of its identifiers that the
    NovaKit registry takes. *)
Lemma new_registered :
  state new = Detached ∧
  NovaKit.spec_op (NovaKit.OpRegister VIRTIO_VENDOR_ID VIRTIO_NET_DEVICE_ID NovaKit.NOVAKIT_NETWORK
    (cstr "virtio-net")) [] =
  ((0%Z, Some 1%Z, None), [NovaKit.DeviceView VIRTIO_VENDOR_ID VIRTIO_NET_DEVICE_ID
    NovaKit.NOVAKIT_NETWORK NovaKit.NOVAKIT_DETACHED (Some (chars "virtio-net"))]).
Proof. split; by vm_compute. Qed.
End VirtioNet.
