(* ===== verification/Calls.v ===== *)
(** * Calls through the prototypes

    The components meet their callers in the functions of the headers.  For the
    operations that the theorems of each component speak of: which function an
    operation calls, the arguments it passes, what it returns and what it writes
    through its pointers; and that from a well-formed state, a call with arguments
    of the types of the prototype that keeps the caller's part completes, with a
    value of the result type and values of the types its pointers point to.  The
    functions that initialise an object, the packet functions and the byte order
    helpers are not among these operations. *)

From S2P Require Import Prelude Core CString LinkedList CType CMemory CObject Headers Prototypes Scheduler Ipc Pages Space NovaKit LinuxKpi SchedMemory IpcMemory SpaceMemory NovaKitMemory NetState NetDev Sockets Drivers Network NetTyped IoRegistry IoRequest IoSystem UiBoot.

(** [written]: the objects written through pointers, with their types. *)
Record interface (S Op Obs : Type) := Interface {
  execute : Op → M S Obs;
  symbol : Op → string;
  arguments : Op → list (option cval);
  returned : Op → Obs → option cval;
  written : Op → Obs → list (ctype * cval);
}.
Arguments Interface {S Op Obs}.
Arguments execute {S Op Obs}.
Arguments symbol {S Op Obs}.
Arguments arguments {S Op Obs}.
Arguments returned {S Op Obs}.
Arguments written {S Op Obs}.

(** The operation passes arguments of the types of its prototype. *)
Definition typed_call {S Op Obs} (I : interface S Op Obs) (op : Op) : Prop :=
  passes (symbol I op) (arguments I op).

Definition typed_answer {S Op Obs} (I : interface S Op Obs) (op : Op) (o : Obs) : Prop :=
  gives (symbol I op) (returned I op o) ∧ Forall (λ w, has_type w.1 w.2) (written I op o).

(** [wf] holds between calls; [legal] is what a caller owes beyond the types. *)
Definition calls_typed {S Op Obs} (I : interface S Op Obs) (wf : S → Prop)
    (legal : S → Op → Prop) : Prop :=
  ∀ op s, wf s → legal s op → typed_call I op →
    ∃ o s', execute I op s = Done (o, s') ∧ wf s' ∧ typed_answer I op o.

(** The prototype of the call in [H], and the types of its arguments. *)
Ltac prototype H :=
  let p := fresh "p" in let Hp := fresh "Hp" in
  destruct H as (p & Hp & H); vm_compute in Hp; injection Hp as <-;
  repeat (let Ha := fresh "Ha" in apply Forall2_cons in H as [Ha H]).

(** Passing them: what is left are the types that are not evident. *)
Ltac pass :=
  eexists; split; [vm_compute; reflexivity|];
  repeat first [apply Forall2_nil_2 | apply Forall2_cons_2]; try exact I; try assumption.

(** The prototype answers the goal about a result. *)
Ltac answer := eexists; split; [vm_compute; reflexivity|cbn].

(** ** enum nova_result as an int *)

Definition result_code (r : nova_result) : Z :=
  match r with
  | NOVA_OK => 0 | NOVA_ERR => -1 | NOVA_FULL => -2 | NOVA_EMPTY => -3 | NOVA_NOT_FOUND => -4
  end.

Lemma result_code_constants :
  (λ r, Some (result_code r)) <$> [NOVA_OK; NOVA_ERR; NOVA_FULL; NOVA_EMPTY; NOVA_NOT_FOUND] =
  constant <$> ["NOVA_OK"; "NOVA_ERR"; "NOVA_FULL"; "NOVA_EMPTY"; "NOVA_NOT_FOUND"].
Proof. by vm_compute. Qed.

Lemma result_code_int r : has_type int_t (VInt (result_code r)).
Proof. by destruct r; vm_compute. Qed.

(** Numbers written, if any. *)
Definition out (t : ctype) (o : option Z) : list (ctype * cval) :=
  match o with Some z => [(t, VInt z)] | None => [] end.

(** ** The scheduler *)

Definition sched_calls : interface Sched.nova_scheduler_t Sched.sched_op SchedMemory.observation :=
  Interface SchedMemory.call
    (λ op, match op with
      | Sched.OpAdd _ => "nova_sched_add" | Sched.OpSetState _ _ => "nova_sched_set_state"
      | Sched.OpPick => "nova_sched_pick_next" | Sched.OpAccount _ => "nova_sched_account"
      end)
    (λ op, Some VPtr :: match op with
      | Sched.OpAdd priority => [Some (VInt priority); Some VPtr]
      | Sched.OpSetState id st => [Some (VInt id); Some (VInt (SchedMemory.state_code st))]
      | Sched.OpPick => []
      | Sched.OpAccount id => [Some (VInt id)]
      end)
    (λ op o, match op with
      | Sched.OpAdd _ | Sched.OpSetState _ _ => (VInt ∘ result_code) <$> o.1
      | Sched.OpPick => VInt <$> o.2
      | Sched.OpAccount _ => None
      end)
    (λ op o, match op with Sched.OpAdd _ => out uint32_t o.2 | _ => [] end).

(** The calls the theorems on the scheduler speak of are the typed ones. *)
Lemma sched_typed_call op : typed_call sched_calls op ↔ Sched.op_typed op.
Proof.
  split.
  - intros H. destruct op as [p|id st| |id]; prototype H; try done; exact Ha0.
  - intros H. destruct op as [p|id st| |id]; pass. destruct st; by vm_compute.
Qed.

Lemma sched_calls_typed : calls_typed sched_calls Sched.sched_wf (λ _ _, True).
Proof.
  intros op s Hwf _ Hop%sched_typed_call.
  destruct (SchedMemory.sched_call_wf op s Hwf Hop) as (o & s' & Hrun & Hwf').
  exists o, s'. split; [done|]. split; [done|]. unfold typed_answer.
  destruct op as [p|id st| |id]; cbn [symbol returned written sched_calls execute] in *;
    cbn [SchedMemory.call] in Hrun; apply bind_Done_inv in Hrun as (r & s1 & Hr & [= <- <-]).
  - rewrite (Sched.nova_sched_add_run _ _ (Sched.wf_len _ Hwf)) in Hr.
    destruct (list_find _ _) as [[i t]|] eqn:Hf; injection Hr as <- <-;
      (split; [answer; by vm_compute|]); [|by constructor].
    apply list_find_Some in Hf as (Ht & _ & _). pose proof (Sched.wf_lookup_lt _ _ _ Hwf Ht).
    constructor; [|done]. cbn. unfold in_width. lia.
  - split; [answer; apply result_code_int|done].
  - split; [|done]. answer. destruct (Sched.pick_next_choice s Hwf) as (z & Hz & Hc).
    rewrite Hz in Hr. injection Hr as <- <-. unfold in_signed.
    destruct Hc as [[-> _]|(i & t & -> & Ht & _)]; [lia|].
    pose proof (Sched.wf_lookup_lt _ _ _ Hwf Ht). lia.
  - split; [by answer|done].
Qed.

(** ** Message endpoints *)

(** The message that nova_ipc_receive writes, as a whole. *)
Definition exec_ipc (op : Ipc.ipc_op)
    : M Ipc.nova_ipc_endpoint_t (nova_result * option Ipc.nova_ipc_message_t) :=
  match op with
  | Ipc.OpSend from buffer len => r ← Ipc.nova_ipc_send from buffer len; mret (r, None)
  | Ipc.OpReceive => Ipc.nova_ipc_receive
  end.

Definition ipc_calls : interface Ipc.nova_ipc_endpoint_t Ipc.ipc_op
    (nova_result * option Ipc.nova_ipc_message_t) :=
  Interface exec_ipc
    (λ op, match op with Ipc.OpSend _ _ _ => "nova_ipc_send" | Ipc.OpReceive => "nova_ipc_receive" end)
    (λ op, Some VPtr :: match op with
      | Ipc.OpSend from buffer len => [Some (VInt from); Some VPtr; Some (VInt len)]
      | Ipc.OpReceive => [Some VPtr]
      end)
    (λ _ o, Some (VInt (result_code o.1)))
    (λ _ o, match o.2 with
      | Some m => [(struct_nova_ipc_message_t, IpcMemory.message_val m)]
      | None => []
      end).

(** The payload is a buffer of at least the stated length, unless the length is
    refused. *)
Definition ipc_legal (op : Ipc.ipc_op) : Prop :=
  match op with
  | Ipc.OpSend _ buffer len => bytes_ok buffer ∧ (len ≤ 64 → len ≤ Z.of_nat (length buffer))%Z
  | Ipc.OpReceive => True
  end.

Lemma ipc_typed_call op : typed_call ipc_calls op ∧ ipc_legal op ↔ Ipc.op_ok op.
Proof.
  split.
  - intros [H Hl]. destruct op as [from buffer len|]; prototype H; [|done].
    destruct Hl. by split_and!.
  - destruct op as [from buffer len|]; intros Hop.
    + destruct Hop as (Hf & Hlen & Hb & Hl). split; [pass|done].
    + split; [pass|done].
Qed.

Lemma message_typed_val m :
  Ipc.message_typed m → has_type struct_nova_ipc_message_t (IpcMemory.message_val m).
Proof.
  intros (Hs & Hlen & Hp & Hb). split; [exact Hs|]. split; [exact Hlen|]. split; [|done].
  split; [by rewrite length_fmap|]. by apply Forall_fmap.
Qed.

Lemma received_typed e r m e' :
  Ipc.endpoint_wf e → Ipc.nova_ipc_receive e = Done ((r, Some m), e') → Ipc.message_typed m.
Proof.
  intros Hwf. destruct (decide (Ipc.count e = 0)%Z) as [Hz|Hnz].
  { unfold Ipc.nova_ipc_receive. run. rewrite decide_True by done. intros [=]. }
  pose proof (Ipc.wf_head e Hwf). destruct (Ipc.ipc_wf_slot e (Z.to_nat (Ipc.head e)) Hwf) as (m' & Hm & Ht); [lia|].
  rewrite (Ipc.nova_ipc_receive_run e m') by done. by intros [= <- <- <-].
Qed.

Lemma ipc_calls_typed : calls_typed ipc_calls Ipc.endpoint_wf (λ _, ipc_legal).
Proof.
  intros op e Hwf Hlegal Hop. pose proof (proj1 (ipc_typed_call op) (conj Hop Hlegal)) as Hok.
  destruct op as [from buffer len|]; cbn [execute ipc_calls exec_ipc].
  - destruct (Ipc.send_refines from buffer len e Hwf Hok) as (r & e' & Hr & Hwf' & _).
    exists (r, None), e'. split; [by bind Hr|]. split; [done|].
    split; [answer; apply result_code_int|done].
  - destruct (Ipc.receive_refines e Hwf) as (r & m & e' & Hr & Hwf' & _).
    exists (r, m), e'. split; [done|]. split; [done|]. split; [answer; apply result_code_int|].
    destruct m as [m|]; [|done]. constructor; [|done]. apply message_typed_val.
    exact (received_typed _ _ _ _ Hwf Hr).
Qed.

(** ** The page allocator *)

Definition page_calls : interface Pages.nova_page_allocator_t Pages.page_op
    (nova_result * option Z) :=
  Interface Pages.exec_op
    (λ op, match op with Pages.OpAlloc => "nova_vm_alloc_page" | Pages.OpFree _ => "nova_vm_free_page" end)
    (λ op, [Some VPtr; match op with Pages.OpAlloc => Some VPtr | Pages.OpFree page => Some (VInt page) end])
    (λ _ o, Some (VInt (result_code o.1)))
    (λ _ o, out uint32_t o.2).

Lemma page_typed_call op : typed_call page_calls op ↔ Pages.op_ok op.
Proof.
  split.
  - intros H. destruct op as [|page]; prototype H; done.
  - intros H. destruct op as [|page]; pass.
Qed.

Definition allocator_wf (a : Pages.nova_page_allocator_t) : Prop := ∃ held, Pages.holds a held.

Lemma spec_alloc_typed held : Forall (λ w, has_type w.1 w.2) (out uint32_t (Pages.spec_alloc held).1.2).
Proof.
  unfold Pages.spec_alloc. destruct (list_find _ _) as [[i p]|] eqn:Hf; [|constructor].
  apply list_find_Some in Hf as (Hp & _). apply Pages.all_pages_lookup in Hp as [Hi ->].
  constructor; [|done]. cbn. unfold in_width. lia.
Qed.

Lemma page_calls_typed : calls_typed page_calls allocator_wf (λ _ _, True).
Proof.
  intros op a [held Hh] _ Hop%page_typed_call.
  destruct (Pages.pages_refine op a held Hh Hop) as (o & a' & held' & Hr & Hs & Hh').
  exists o, a'. split; [done|]. split; [by exists held'|].
  split; [destruct op; (answer; apply result_code_int)|].
  destruct op as [|page]; cbn [Pages.spec_op] in Hs.
  - pose proof (spec_alloc_typed held) as H. by rewrite Hs in H.
  - unfold Pages.spec_free in Hs. case_decide; injection Hs as <- _; constructor.
Qed.

(** ** The address space *)

Definition space_calls : interface Space.nova_address_space_t Space.space_op
    (nova_result * option (Z * Z)) :=
  Interface Space.exec_op
    (λ op, match op with Space.OpMap _ _ _ => "nova_vm_map" | Space.OpTranslate _ => "nova_vm_translate" end)
    (λ op, Some VPtr :: match op with
      | Space.OpMap vpage ppage w => [Some (VInt vpage); Some (VInt ppage); Some (VInt w)]
      | Space.OpTranslate vpage => [Some (VInt vpage); Some VPtr; Some VPtr]
      end)
    (λ _ o, Some (VInt (result_code o.1)))
    (λ _ o, match o.2 with Some (p, w) => [(uint32_t, VInt p); (uint8_t, VInt w)] | None => [] end).

Lemma space_typed_call op : typed_call space_calls op ↔ Space.op_ok op.
Proof.
  split.
  - intros H. destruct op as [v p w|v]; prototype H; done.
  - intros H. destruct op as [v p w|v]; [destruct H as (?&?&?)|]; pass.
Qed.

#[local] Existing Instances SpaceMemory.space_table SpaceMemory.space_table_ok.

(** The table keeps its shape and its members their widths. *)
Definition space_wf_typed (s : Space.nova_address_space_t) : Prop :=
  Space.space_wf s ∧ has_type struct_nova_address_space_t (SpaceMemory.space_val s).

Lemma translate_typed v s o s' :
  space_wf_typed s → Space.nova_vm_translate v s = Done (o, s') →
  Forall (λ w, has_type w.1 w.2) (written space_calls (Space.OpTranslate v) o).
Proof.
  intros [Hwf Ht]. rewrite Space.nova_vm_translate_run by done.
  destruct (list_find _ _) as [[i m]|] eqn:Hf; intros [= <- <-]; [|constructor].
  apply list_find_Some in Hf as ((_ & Hm)%Space.used_lookup & _).
  destruct Ht as ((_ & Ht) & _). rewrite Forall_lookup in Ht.
  destruct (Ht i (SpaceMemory.mapping_val m)) as (_ & Hp & Hw & _).
  { by rewrite list_lookup_fmap, Hm. }
  constructor; [exact Hp|]. constructor; [exact Hw|done].
Qed.

Lemma space_calls_typed : calls_typed space_calls space_wf_typed (λ _ _, True).
Proof.
  intros op s Hwf _ Hop%space_typed_call. pose proof Hwf as [Hs Ht].
  destruct (Space.space_refines op s (Space.as_map s) (conj Hs eq_refl) Hop) as (o & s' & m' & Hr & Hm & [Hwf' _]).
  pose proof (sim_typed _ object_sane object_val s _ _ _ o s' Ht (SpaceMemory.space_call_sim op s Hop Hs) Hr) as Ht'.
  exists o, s'. split; [done|]. split; [by split|].
  split; [destruct op; (answer; apply result_code_int)|].
  destruct op as [v p w|v]; [|by eapply translate_typed].
  cbn [Space.spec_op] in Hm. case_decide; injection Hm as <- _; constructor.
Qed.

(** ** The NovaKit registry *)

Definition kit_calls : interface NovaKit.novakit_registry_t NovaKit.kit_op NovaKit.observation :=
  Interface NovaKit.exec_op
    (λ op, match op with
      | NovaKit.OpRegister _ _ _ _ => "novakit_register_device"
      | NovaKit.OpSetState _ _ => "novakit_set_state" | NovaKit.OpFind _ => "novakit_find"
      end)
    (λ op, Some VPtr :: match op with
      | NovaKit.OpRegister vendor device cls _ =>
          [Some (VInt vendor); Some (VInt device); Some (VInt (NovaKitMemory.class_code cls));
           Some VPtr; Some VPtr]
      | NovaKit.OpSetState dev_id st =>
          [Some (VInt dev_id); Some (VInt (NovaKitMemory.kit_state_code st))]
      | NovaKit.OpFind dev_id => [Some (VInt dev_id)]
      end)
    (λ op o, match op with
      | NovaKit.OpFind _ => Some (pointer o.2)
      | _ => Some (VInt o.1.1)
      end)
    (λ _ o, out uint32_t o.1.2).

(** The name is a string. *)
Definition kit_legal (op : NovaKit.kit_op) : Prop :=
  match op with NovaKit.OpRegister _ _ _ name_ => is_Some (c_string name_) | _ => True end.

Lemma kit_typed_call op : typed_call kit_calls op ∧ kit_legal op ↔ NovaKit.op_ok op.
Proof.
  split.
  - intros [H Hl]. destruct op as [v d c n|i st|i]; prototype H; done.
  - intros H. destruct op as [v d c n|i st|i].
    + destruct H as (? & ? & ?). split; [pass; apply NovaKitMemory.class_code_typed|done].
    + split; [pass; apply NovaKitMemory.kit_state_code_typed|done].
    + split; [pass|done].
Qed.

Lemma kit_calls_typed : calls_typed kit_calls NovaKit.registry_wf (λ _, kit_legal).
Proof.
  intros op r Hwf Hl Hop. pose proof (proj1 (kit_typed_call op) (conj Hop Hl)) as Hok.
  destruct (NovaKit.kit_refines op r _ (conj Hwf eq_refl) Hok) as (o & r' & q' & Hr & Hs & [Hwf' _]).
  exists o, r'. split; [done|]. split; [done|].
  pose proof (NovaKit.wf_count _ Hwf) as Hc. pose proof (NovaKit.kit_length_contents r Hwf) as Hlen.
  destruct op as [v d c n|i st|i]; cbn [NovaKit.spec_op] in Hs.
  - case_decide; injection Hs as <- _; (split; [answer; by vm_compute|]); [by constructor|].
    constructor; [|done]. cbn. unfold in_width. lia.
  - destruct (NovaKit.entry_of _ _); injection Hs as <- _; (split; [answer; by vm_compute|constructor]).
  - split; [answer; apply pointer_typed|].
    destruct (NovaKit.entry_of _ _); injection Hs as <- _; constructor.
Qed.

(** ** The LinuxKPI table *)

Definition kpi_calls : interface LinuxKpi.kpi_state LinuxKpi.kpi_op Z :=
  Interface LinuxKpi.exec_op
    (λ op, match op with
      | LinuxKpi.OpRegister _ => "nova_linuxkpi_register"
      | LinuxKpi.OpCount => "nova_linuxkpi_module_count"
      end)
    (λ op, match op with LinuxKpi.OpRegister module => [Some (pointer module)] | LinuxKpi.OpCount => [] end)
    (λ _ o, Some (VInt o))
    (λ _ _, []).

Definition kpi_wf (s : LinuxKpi.kpi_state) : Prop := ∃ q, LinuxKpi.holds s q.

Lemma kpi_calls_typed : calls_typed kpi_calls kpi_wf (λ _ _, True).
Proof.
  intros op s [q Hq] _ _.
  destruct (LinuxKpi.kpi_refines op s q Hq I) as (o & s' & q' & Hr & Hs & Hq').
  exists o, s'. split; [done|]. split; [by exists q'|]. split; [|constructor].
  destruct op as [[[a m]|]|]; cbn [LinuxKpi.spec_op] in Hs.
  - case_decide; injection Hs as <- _; answer; by vm_compute.
  - injection Hs as <- _. answer; by vm_compute.
  - injection Hs as <- _. destruct Hq as [Hlen _]. answer. unfold in_width. lia.
Qed.

(** ** The network stack *)

Definition api_symbol (op : Sockets.api_op) : string :=
  match op with
  | Sockets.OpNetworkInit => "nova_network_init" | Sockets.OpNetworkShutdown => "nova_network_shutdown"
  | Sockets.OpSocket _ _ _ => "nova_socket" | Sockets.OpBind _ => "nova_bind"
  | Sockets.OpConnect _ => "nova_connect" | Sockets.OpListen _ => "nova_listen"
  | Sockets.OpAccept _ => "nova_accept" | Sockets.OpShutdown _ => "nova_shutdown"
  | Sockets.OpGetsockopt _ => "nova_getsockopt" | Sockets.OpSetsockopt _ => "nova_setsockopt"
  | Sockets.OpRecv _ _ _ => "nova_recv" | Sockets.OpClose _ => "nova_close"
  end.

(** Addresses, options, backlogs and flags are ignored. *)
Definition api_arguments (op : Sockets.api_op) : list (option cval) :=
  match op with
  | Sockets.OpNetworkInit | Sockets.OpNetworkShutdown => []
  | Sockets.OpSocket domain type protocol => [Some (VInt domain); Some (VInt type); Some (VInt protocol)]
  | Sockets.OpBind fd | Sockets.OpConnect fd | Sockets.OpAccept fd => [Some (VInt fd); None; None]
  | Sockets.OpListen fd | Sockets.OpShutdown fd => [Some (VInt fd); None]
  | Sockets.OpGetsockopt fd | Sockets.OpSetsockopt fd => [Some (VInt fd); None; None; None; None]
  | Sockets.OpRecv fd buf len => [Some (VInt fd); Some (pointer buf); Some (VInt len); None]
  | Sockets.OpClose fd => [Some (VInt fd)]
  end.

Definition net_calls : interface (net_state Drivers.nova_ops) Network.net_call cval :=
  Interface NetTyped.exec_net
    (λ c, match c with
      | Network.CallApi op => api_symbol op
      | Network.CallRegistry NetDev.OpInit => "nova_network_init"
      | Network.CallRegistry NetDev.OpShutdown => "nova_network_shutdown"
      | Network.CallRegistry (NetDev.OpRegister _) => "nova_netdev_register"
      | Network.CallRegistry (NetDev.OpUnregister _) => "nova_netdev_unregister"
      | Network.CallRegistry (NetDev.OpFind _) => "nova_netdev_find"
      | Network.CallSend _ _ _ => "nova_send"
      | Network.CallLoopbackInit => "nova_loopback_init"
      | Network.CallNicStubInit => "nova_nic_stub_init"
      end)
    (λ c, match c with
      | Network.CallApi op => api_arguments op
      | Network.CallRegistry (NetDev.OpRegister dev) | Network.CallRegistry (NetDev.OpUnregister dev) =>
          [Some (pointer dev)]
      | Network.CallRegistry (NetDev.OpFind name) => [Some (pointer name)]
      | Network.CallSend fd buf len => [Some (VInt fd); Some (pointer buf); Some (VInt len); None]
      | _ => []
      end)
    (λ _ o, Some o)
    (λ _ _, []).

(** The bytes behind the pointers. *)
Definition buffer_of (c : Network.net_call) : option (list Z) :=
  match c with
  | Network.CallApi (Sockets.OpRecv _ buf _) | Network.CallSend _ buf _ => buf
  | Network.CallRegistry (NetDev.OpFind name) => name
  | _ => None
  end.

Lemma net_typed_call c :
  typed_call net_calls c ∧ from_option bytes_ok True (buffer_of c) → NetTyped.call_typed c.
Proof.
  intros [H Hb]. destruct c as [op|op|fd buf len| |]; try done.
  - destruct op as [| |domain type protocol|fd|fd|fd|fd|fd|fd|fd|fd buf len|fd]; try done;
      prototype H; try exact Ha; by split_and!.
  - by destruct op.
  - prototype H. by split_and!.
Qed.

Lemma net_calls_typed :
  calls_typed net_calls (λ s, Sockets.net_wf s ∧ NetTyped.typed s)
    (λ s c, Network.call_ok s c ∧ from_option bytes_ok True (buffer_of c)).
Proof.
  intros c s [Hwf Hs] [Hok Hb] Hc. pose proof (net_typed_call c (conj Hc Hb)) as Ht.
  destruct (Network.call_wf c s Hwf Hok) as (r & s' & Hr & Hwf').
  destruct (NetTyped.call_keeps c s r s' Hs Hok Ht Hr) as [Hs' Hty].
  destruct (NetTyped.exec_net_typed c s r s' Hr Hty) as (v & Hv & Hres).
  exists v, s'. split; [done|]. split; [done|]. split; [|constructor].
  destruct c as [op|op|fd buf len| |]; try destruct op; answer; exact Hres.
Qed.

(** ** The I/O stack *)

Section io.
Context {O : Type} `{!IoRequest.BlockOps O}.
Variable INFINITE : Z.

(** A number, a pointer, or nothing. *)
Definition exec_io (c : IoSystem.io_call) : M (IoRegistry.io_state O) (option cval) :=
  match c with
  | IoSystem.CallRegistry (IoRegistry.OpFind path) => l ← IoRegistry.nova_device_find path; mret (Some (pointer l))
  | IoSystem.CallRegistry (IoRegistry.OpGet mj mn) =>
      l ← IoRegistry.nova_device_get_by_major_minor mj mn; mret (Some (pointer l))
  | IoSystem.CallAlloc => l ← IoRequest.nova_io_request_alloc; mret (Some (pointer l))
  | IoSystem.CallFree req => IoRequest.nova_io_request_free req;; mret None
  | IoSystem.CallPortCreate max =>
      l ← IoRequest.nova_io_completion_port_create INFINITE max; mret (Some (pointer l))
  | _ => z ← IoSystem.exec_call INFINITE c; mret (Some (VInt z))
  end.

Definition io_calls : interface (IoRegistry.io_state O) IoSystem.io_call (option cval) :=
  Interface exec_io
    (λ c, match c with
      | IoSystem.CallRegistry IoRegistry.OpInit => "nova_io_init"
      | IoSystem.CallRegistry IoRegistry.OpShutdown => "nova_io_shutdown"
      | IoSystem.CallRegistry (IoRegistry.OpRegister _) => "nova_device_register"
      | IoSystem.CallRegistry (IoRegistry.OpUnregister _) => "nova_device_unregister"
      | IoSystem.CallRegistry (IoRegistry.OpFind _) => "nova_device_find"
      | IoSystem.CallRegistry (IoRegistry.OpGet _ _) => "nova_device_get_by_major_minor"
      | IoSystem.CallAlloc => "nova_io_request_alloc"
      | IoSystem.CallFree _ => "nova_io_request_free"
      | IoSystem.CallSubmit _ => "nova_io_submit"
      | IoSystem.CallWait _ _ => "nova_io_wait"
      | IoSystem.CallCancel _ => "nova_io_cancel"
      | IoSystem.CallTransfer false _ _ _ _ => "nova_block_read_sectors"
      | IoSystem.CallTransfer true _ _ _ _ => "nova_block_write_sectors"
      | IoSystem.CallPortCreate _ => "nova_io_completion_port_create"
      | IoSystem.CallPortDestroy _ => "nova_io_completion_port_destroy"
      | IoSystem.CallPortAssociate _ _ _ => "nova_io_completion_port_associate"
      | IoSystem.CallPortEvent _ _ => "nova_io_completion_port_get_event"
      end)
    (λ c, match c with
      | IoSystem.CallRegistry (IoRegistry.OpRegister dev) | IoSystem.CallRegistry (IoRegistry.OpUnregister dev) =>
          [Some (pointer dev)]
      | IoSystem.CallRegistry (IoRegistry.OpFind path) => [Some (pointer path)]
      | IoSystem.CallRegistry (IoRegistry.OpGet mj mn) => [Some (VInt mj); Some (VInt mn)]
      | IoSystem.CallRegistry _ | IoSystem.CallAlloc => []
      | IoSystem.CallFree req | IoSystem.CallSubmit req | IoSystem.CallCancel req => [Some (pointer req)]
      | IoSystem.CallWait req timeout => [Some (pointer req); Some (VInt timeout)]
      | IoSystem.CallTransfer _ dev sector buf count =>
          [Some (pointer dev); Some (VInt sector); Some (pointer buf); Some (VInt count)]
      | IoSystem.CallPortCreate max => [Some (VInt max)]
      | IoSystem.CallPortDestroy port => [Some (pointer port)]
      | IoSystem.CallPortAssociate port dev key => [Some (pointer port); Some (pointer dev); Some (VInt key)]
      | IoSystem.CallPortEvent port timeout => [Some (pointer port); None; Some (VInt timeout)]
      end)
    (λ _ o, o)
    (λ _ _, []).

Lemma io_calls_typed `{!IoSystem.BlockOpsSafe O} :
  in_width 32 INFINITE → calls_typed io_calls IoSystem.io_wf IoSystem.call_ok.
Proof.
  intros Hinf c s Hwf Hok _.
  destruct (IoSystem.io_call_completes INFINITE Hinf c s Hwf Hok) as (z & s' & Hr & Hwf' & Hz).
  assert (∀ v, exec_io c s = Done (v, s') → gives (symbol io_calls c) v →
    ∃ o s1, execute io_calls c s = Done (o, s1) ∧ IoSystem.io_wf s1 ∧ typed_answer io_calls c o) as Hdone.
  { intros v Hv Hg. exists v, s'. by split_and!. }
  destruct c as [[| |dev|dev|path|mj mn]| |req|req|req t|req|[] dev sector buf count|max|port|p dev key|p t];
    cbn [exec_io] in Hdone;
    try (apply (Hdone (Some (VInt z))); [by bind Hr|]; answer; exact Hz);
    cbn [IoSystem.exec_call IoRegistry.exec_op] in Hr; rewrite ?bind_assoc in Hr;
    apply bind_Done_inv in Hr as (p & s1 & Hp & [= _ ->]).
  1-3,5: apply (Hdone (Some (pointer p))); [by bind Hp|]; answer; apply pointer_typed.
  apply (Hdone None); [by bind Hp|]. by answer.
Qed.
End io.

(** ** The desktop boot path *)

Definition ui_calls : interface (option UiBoot.nova_ui_boot_context) UiBoot.ui_op Z :=
  Interface UiBoot.exec_op
    (λ op, match op with
      | UiBoot.OpPrepare _ => "nova_ui_boot_prepare"
      | UiBoot.OpCommand _ => "nova_ui_boot_from_serial_shell"
      | UiBoot.OpDesktop => "nova_ui_boot_desktop"
      | UiBoot.OpCompat => "nova_ui_launch_compat_shell"
      | UiBoot.OpLinuxApp _ => "nova_ui_launch_linux_app"
      | UiBoot.OpWindowsApp _ => "nova_ui_launch_windows_app"
      end)
    (λ op, None :: match op with
      | UiBoot.OpPrepare p => [Some (pointer p)]
      | UiBoot.OpCommand command => [Some (pointer command)]
      | UiBoot.OpDesktop | UiBoot.OpCompat => []
      | UiBoot.OpLinuxApp path | UiBoot.OpWindowsApp path => [Some (pointer path); None]
      end)
    (λ _ o, Some (VInt o))
    (λ _ _, []).

(** The context is NULL or consistent. *)
Definition context_wf (s : option UiBoot.nova_ui_boot_context) : Prop :=
  from_option UiBoot.ui_inv True s.

Lemma reply_int r : UiBoot.reply r → has_type int_t (VInt r).
Proof. intros [->|[->| ->]]; by vm_compute. Qed.

Lemma ui_calls_typed : calls_typed ui_calls context_wf (λ _, UiBoot.op_ok).
Proof.
  intros op s Hwf Hok _.
  assert (∃ r s', UiBoot.exec_op op s = Done (r, s') ∧ UiBoot.reply r ∧ context_wf s')
    as (r & s' & Hr & Hrep & Hwf').
  { destruct s as [c|].
    - destruct (UiBoot.exec_op_inv op c Hok Hwf) as (r & c' & ? & ? & ?). by exists r, (Some c').
    - exists (-1)%Z, None. split; [by destruct op|]. split; [by right; left|done]. }
  exists r, s'. split; [done|]. split; [done|]. split; [|constructor].
  destruct op; answer; by apply reply_int.
Qed.
